(* ===== verification/_CoqProject ===== *)
-Q . S2P
Prelude.v
Std.v
Slot.v
State.v
OrderedJobs.v
JobAllocator.v
AllocatorContract.v
SlotSelector.v
Assigner.v
SelectorFacts.v
AssignerFacts.v
PlanFacts.v
PlanProps.v
Db.v
Storage.v
TxLogic.v
StorageFacts.v
Lifecycle.v
Checker.v
StorageRefines.v
StorageSpec.v
StorageProgress.v
TaskFacts.v
ReportFacts.v
Interfaces.v
Process.v
Scheduler.v
SchedulerFacts.v
VmFacts.v
Allocator.v
FailureDetector.v
Protocol.v
Scripted.v
AllocatorFacts.v
Api.v
Client.v
Agent.v
Base64.v
Text.v
Config.v
Aws.v
AwsFacts.v
AwsSample.v
CloudContract.v
Fleet.v
Printing.v
DistLock.v
LockFacts.v
LockSystem.v
PgPool.v
Threads.v
Accounting.v
Cluster.v
RowEdits.v
StatusLogs.v
RowInvariants.v
Restarts.v
JobLives.v
Parked.v
AgentSystem.v
AgentCluster.v
EndToEnd.v
LogProps.v
StorageProps.v
SystemProps.v
ProtocolProps.v
InfraProps.v
ClusterProps.v
AgentProps.v
UnitTests.v
