(* ===== verification/Prelude.v ===== *)
(** * A verification of the VM scheduler

    The program is a backend that runs batch jobs on cloud VMs.  Clients add tasks
    over gRPC; a task is a number of jobs with the same requirements.  All state is
    in a PostgreSQL database.  Any number of backends run side by side, each with
    - a scheduler, which every few seconds takes a plan id, reads the queued jobs
      and the active VMs, computes a plan, and commits it;
    - an allocator, which allocates and terminates VMs in the cloud;
    - a failure detector, which gives up VMs that do not come up or fell silent,
      and cancels jobs that take too long;
    - a gRPC server for clients and for the agents on the VMs.
    They meet in the database, through the interface [TaskStorage], and, when it is
    configured, in ZooKeeper, through the distributed lock of the scheduler.  On every
    VM runs an agent, a program in Go that asks the server for the jobs of its VM, runs
    them in containers and reports their ends.

    ** Where what is modelled

    - [Prelude]: outcomes of C++ code (a value, undefined behaviour, no fuel), the
      tactics and generic lemmas the other files share.
    - [Std]: what is used of the C++ standard library.  [std_sort], the iteration
      order of unordered containers and the choice among equal keys are a class
      [StdLib] that promises only what the standard does; [lower_bound] is written
      out, because the code calls it on ranges that are not partitioned.
    - [Slot], [State]: src/libs/common/include/slot.h and src/libs/state: capacities
      with their [size_t] and [int] arithmetic, statuses and their names, plans.
    - [OrderedJobs], [JobAllocator], [SlotSelector], [Assigner]: src/libs/scheduler/impl,
      the computation of a plan.  The abstract class [JobAllocator] is a type class;
      [AllocatorContract] states what the assigner needs of an allocator, and
      FirstFit, WorstFit and BestFit are instances of it.
    - [Db]: src/libs/db/data/db_schema.sql, src/libs/common/include/result.h and
      [execQuery] of src/libs/postgres: tables as finite maps by primary key, the
      sequences of the serial columns, the trigger on [last_status_update], the two
      triggers that write the status logs, and a transaction monad with failing
      statements, aborts, rollbacks and commits.
    - [Storage]: src/libs/db/impl/pg_task_storage.cpp, every method: [m_txn] is the
      transaction of method [m], and [m] the call that runs it.
    - [Interfaces]: the abstract classes [TaskStorage] and [CloudClient]
      (src/libs/task_storage/include/task_storage.h,
      src/libs/allocator/include/cloud_client.h): their calls as data, programs that make
      such calls, and implementations, with the trace of the calls of a run.  [Process]
      is the implementation by [PgTaskStorage] and a cloud; [Scripted] has implementations
      with given answers, for examples.
    - [Scheduler], [Allocator], [FailureDetector]: src/libs/scheduler/impl/scheduler.cpp,
      src/libs/allocator/impl/allocator.cpp and
      src/libs/failure_detector/impl/failure_detector.cpp, programs over the interfaces.
    - [Api]: src/libs/server/impl/{public_api_service,agent_api_service,helpers}.cpp.
    - [Client]: src/libs/server/impl/test_utils.cpp, a client that waits for its task.
    - [Agent]: src/client: the state the goroutines of an agent share, with maps that
      are nil until they are made, the goroutines as events on it, the calls to the
      server with lost requests and replies, the answers of Docker and of S3.
    - [Base64], [Text], [Config]: src/libs/common/impl/{base64,env}.cpp,
      src/libs/common/include/stringify.h, the lists of src/libs/postgres/include/helpers.h,
      and the config.cpp of every library as functions of [getenv].
    - [Aws]: src/libs/aws/allocator/impl: the client over an abstract EC2 ([EC2]), its
      requests, listings, and configuration.
    - [DistLock], [LockSystem]: src/libs/zookeeper/impl/dist_lock.cpp: the critical
      sections of the class and its methods composed of them; any number of
      backends with their threads, and the server, as a step relation.
    - [PgPool]: src/libs/postgres/impl/{pg_pool,connection,txn}.cpp, a step relation of
      the threads that share the connections.
    - [Threads]: src/libs/concurrency/impl/background_thread.cpp,
      src/libs/task_registry/impl/task_registry.cpp, src/libs/server/impl/grpc_server.cpp
      and src/bin/main.cpp: the loop of a thread, the parts of a backend, start and stop.
    - [Printing]: [operator<<] of src/libs/common/impl/slot.cpp, src/libs/state/impl and
      src/libs/aws/allocator/impl/config.cpp.

    The remaining files hold proofs.
    - Plans: [SelectorFacts], [AssignerFacts], [PlanFacts].
    - Transactions: [TxLogic], a weakest-precondition calculus, with the rules for
      relations every statement respects, for atomicity and for runs without faults.
    - Methods of the storage: [StorageFacts], [StorageSpec], [StorageProgress],
      [TaskFacts], [ReportFacts], [VmFacts]; [Lifecycle] and [StorageRefines] for the
      refinement; [RowEdits], what single statements do to single rows, with
      [RowInvariants], [Restarts], [StatusLogs] and [JobLives] as applications of it.
    - Processes: [Protocol], which uses nothing but the interfaces; [SchedulerFacts],
      [AllocatorFacts], [EndToEnd] on the database; [AwsFacts] and
      [LockFacts]; [CloudContract] and [Fleet], what the allocator needs of a cloud and
      that the AWS client provides it.
    - The whole system: [Accounting], what jobs hold of the capacity of VMs; [Cluster],
      backends that plan, where the two queries of a plan are separate steps, reports
      and the other processes as a transition system over the storage; [Parked], jobs
      that were taken off their VM; [AgentSystem], the agents beside the storage;
      [AgentCluster], agents and cluster together.
    - [Checker] and [AwsSample]: well-formedness as a computation, sample databases and
      a sample EC2.
    - [UnitTests]: the unit tests of the repository for assigners, storage, instance
      types, and, with the answers their mocks are told to give, scheduler, allocator and
      failure detector, evaluated on the model.
    - [PlanProps], [LogProps], [StorageProps], [SystemProps], [ProtocolProps],
      [InfraProps], [ClusterProps] and [AgentProps]: the properties, with their witnesses on
      concrete inputs.

    ** What is shown

    - The system (C1 to C4, C6, C10, C16).  Over all interleavings of backends that plan and
      commit, agents that report, and the other processes, with any faults, no VM is
      overcommitted: idle capacity and what jobs hold stay within its size.  This
      composes the assigners, the plan ids, the conflict checks and the release of
      capacity; it needs that jobs fit the slots picked for them, that the clock does
      not run backwards under a scheduler, and that the end of a job is reported only
      while it holds its capacity.  C2 puts the agents of src/client in the place of
      the last premise, for VMs that are active; C3 says what agents report: each end
      once, and only of jobs they were assigned.  C4 goes from the queue through
      scheduler, allocator and agent to the result.  C6: a client that polls is told the
      truth, and what it is told of a completed task never changes.  C10: jobs do not
      go round for ever; their changes of status are bounded by the limit on restarts, and C16: that limit
      holds, as does the one on attempts to allocate a VM.
    - Plans (C14, C15, C19, C20, C37).  For every conforming library and every
      strategy but NextFit, a plan exists and assigns every queued job once; what it
      writes as idle plus what it adds is what was idle; new slots have a size on
      offer and account for their jobs; exactly the idle VMs are terminated.  What
      BestFit chooses, with the order it needs.  Without a number: slots are merged.
    - Storage (C7 to C9, C11, C21, C25 to C28, C31, C32).  The abstract specification is
      [Lifecycle.change]: elementary edits of job and VM rows, each with its
      condition, and tasks that come with their jobs.  Every method refines it on any
      well-formed database, under any faults, commits in doubt included; hence every database that any
      interleaving of calls can reach is well-formed, and jobs that have ended stay as they
      are.  The status logs are the histories of jobs and VMs.  The effect of a
      committed plan, when a plan is committed, atomicity, and the effect of each
      kind of call without faults, cancellation included.
    - Processes on the database (C5, C12, C29, C30).  An undisturbed iteration
      of the scheduler empties the queue; a disturbed one always has a plan to propose, stays within
      the preconditions of the storage and leaves it well-formed; an undisturbed allocator leaves no VM in status allocating,
      and the failure detector resolves those a dead allocator left.
    - Processes over their interfaces (C13, C17, C18), for every implementation of
      [TaskStorage] and [CloudClient].  The scheduler commits a sound plan for the state
      it was given, under the id it was given, or nothing; the allocator asks for each VM
      once, saves what it gets and hands back what was refused; the failure detector
      makes every pass whatever fails.  [Protocol.pg_planning] is what C13
      needs, shown of the database.
    - Lock (C22, C35).  Over all interleavings of backends, their threads and expiring
      sessions, acquired numbers never exceed those of existing nodes, so two backends
      with existing nodes never both hold the lock; locking ends after finitely many
      faults.
    - Cloud (C23, C24, C33, C34).  The allocator, over interfaces that the AWS client
      is shown to implement, leaves allocated rows that name a running instance of
      the right size; the clean-up asks EC2 to stop every instance it was shown that nobody
      tracks, and no other; what a failed allocation leaves running EC2 refused to stop or
      never told of; the sizes on offer are those on all the pages EC2 listed, in order.
    - Infrastructure (C36, C38, C39).  The pool shares its connections without losing one
      or a wake-up; base64; a backend that starts can plan, and which threads it runs.
    - The agents as they are started (C40): their maps are nil, so the first job they
      are told of ends the process, and nothing is ever run.  C2 and C3 hold for these
      too, and are about agents whose maps are made.
    - Shortcomings, each a theorem or an example about the code as it is, without a
      number: see [PlanProps], [StorageProps], [SystemProps], [InfraProps], [LogProps]
      and [AgentProps].

    ** Bounds, fuel, parameters

    - [merge_] gets as much fuel as the index has entries; every merge removes one,
      and [SelectorFacts] proves that the fuel is never exhausted.  [lower_bound] is
      given the length of the range, which halves.  NextFit's loop has fuel as an
      argument, and the theorem about it quantifies over it.
    - Capacities are integers with the wrap-around of [size_t] and the conversion to
      [int] written out; capacities in the database are those an [integer] column
      takes ([slot_wf]).  Ids are bounded by their [serial] columns: running out of
      ids is a failing statement.
    - Time is counted in microseconds, where the code compares seconds as doubles.
    - [base64Encode] gets one turn more than its input has bytes; [run_lock] and the
      paged listings have fuel as an argument, and the theorems say how much is
      enough.  A background thread that was told to stop needs five steps.
    - Sequence numbers of ZooKeeper are taken to stay below ten to the ninth, where the
      code stops telling them apart; [number_wraps] shows what happens beyond.
    - [EC2] with [EC2Laws] and [EC2Lists] stands for EC2; the laws are what its
      documentation promises about client tokens and terminated instances.  A call that
      is answered with an error may have had its effect, and a listing may miss instances
      or name some that have ended: only the type it gives of an instance is relied on.
      [ZkClient], [ZkNodes] and [ZkServer] stand for ZooKeeper; the laws are about sequential
      nodes made with the path of the lock, which is a name under the root.  [sim_ec2] and
      [sample_server] are instances.
    - [Postgres] stands for what the server and libpqxx decide: row order, what a
      [jsonb] column stores for a text, the ranges of intervals and timestamps, what
      reading NULL as a string gives.  [JsonParser] stands for rapidjson and
      [CloudClient] for the cloud.  [reference_stdlib] and [reference_postgres] are
      instances on which the model is evaluated.
    - Programs over the interfaces are finite trees, so that a run ends when its calls
      do; [Answering] is that the methods of a storage return, [PlanningStorage] that the
      states it hands out are well-formed.  The client of [Client] is given its turns.
    - An environment [Env] gives every call its [NOW()], the rows others have
      locked, which statements fail and how, and whether a commit that was reported
      as failed took effect.  The words of failing statements and log messages are
      left out.

    ** What is not modelled

    Calls of the storage are atomic: two transactions of different processes never
    overlap, except that rows locked by others are skipped or refused as [Env] says.
    The code holds a table lock while it plans and row locks while it updates; in
    [Cluster] the two queries of [getCurrentState] are steps of their own, elsewhere
    they see one state.  A cloud id with a quote in it, which the code pastes into its
    statement, is taken as a failing statement.  The storage model takes the number of
    the distributed lock as an input, and [LockSystem] treats the calls of ZooKeeper as
    atomic.  Nothing reads the status logs, so they are kept beside the database:
    a transaction collects what its triggers insert, and [StatusLogs] adds it up.  In
    [AgentSystem] an agent that ends is started again with what its start gives it,
    on a VM that keeps its containers; containers run by anything else than the agent
    are not part of the model.  Left out are the log and the words of its messages and
    of error statuses, the initialisation of the AWS SDK and of gRPC, hashing, the
    length limit of [std::string], and the mocks of the unit tests, which declare gmock
    methods only.

    ** Left to do

    Progress of the whole system under fair scheduling, where [Cluster] and [AgentSystem]
    show safety only, and the overlap of transactions under the locks they take. *)

From stdpp Require Export base decidable list gmap strings sorting.
From Stdlib Require Export ZArith Lia.

#[global] Open Scope Z_scope.

Declare Scope vms_scope.
Delimit Scope vms_scope with vms.
Open Scope vms_scope.

Create HintDb vms.
Create Rewrite HintDb vms.

(** ** Outcomes of C++ computations *)

(** What running a piece of C++ code amounts to: a value, undefined behaviour
    (dereferencing a singular iterator, reading past a range), or a loop that
    exhausted the fuel the model gave it. *)
Inductive Outcome (A : Type) : Type :=
  | Ret (a : A)
  | Undefined
  | NoFuel.
Arguments Ret {A} _.
Arguments Undefined {A}.
Arguments NoFuel {A}.

#[export] Instance outcome_ret : MRet Outcome := fun A a => Ret a.
#[export] Instance outcome_bind : MBind Outcome := fun A B f m =>
  match m with
  | Ret a => f a
  | Undefined => Undefined
  | NoFuel => NoFuel
  end.

(** Reading a value out of an optional one that the C++ code dereferences
    without a check. *)
Definition deref {A} (o : option A) : Outcome A :=
  match o with
  | Some a => Ret a
  | None => Undefined
  end.

(** ** Automation *)

(** Case analysis on the boolean test or match the goal or a hypothesis is stuck on. *)
Ltac case_bool :=
  match goal with
  | |- context [if ?b then _ else _] => destruct b eqn:?
  | H : context [if ?b then _ else _] |- _ => destruct b eqn:?
  end.

Ltac bool_lia :=
  repeat match goal with
  | H : andb _ _ = true |- _ => apply andb_true_iff in H; destruct H
  | H : orb _ _ = false |- _ => apply orb_false_iff in H; destruct H
  | H : negb _ = true |- _ => apply negb_true_iff in H
  | H : negb _ = false |- _ => apply negb_false_iff in H
  end; lia.

(** ** Integers *)

(** [size_t] on the 64-bit target the program is built for. *)
Definition size_t_wrap (z : Z) : Z := z mod 2 ^ 64.

(** Conversion to the 32-bit [int]. *)
Definition int_cast (z : Z) : Z :=
  let r := z mod 2 ^ 32 in if r <? 2 ^ 31 then r else r - 2 ^ 32.

Lemma size_t_wrap_small z : 0 <= z < 2 ^ 64 -> size_t_wrap z = z.
Proof. apply Z.mod_small. Qed.

Lemma int_cast_small z : 0 <= z < 2 ^ 31 -> int_cast z = z.
Proof.
  intros H. unfold int_cast. rewrite Z.mod_small by lia.
  destruct (Z.ltb_spec z (2 ^ 31)); lia.
Qed.
#[export] Hint Rewrite size_t_wrap_small int_cast_small using lia : vms.

(** ** Sums over lists *)

Definition sum_list_Z {A} (f : A -> Z) (l : list A) : Z :=
  foldr (fun a s => f a + s) 0 l.

Section sums.
Context {A : Type}.
Implicit Types (f g : A -> Z) (l : list A).

Lemma sum_list_Z_app f l1 l2 :
  sum_list_Z f (l1 ++ l2) = sum_list_Z f l1 + sum_list_Z f l2.
Proof. unfold sum_list_Z. induction l1 as [|a l1 IH]; cbn; lia. Qed.

Lemma sum_list_Z_one f a : sum_list_Z f [a] = f a.
Proof. unfold sum_list_Z; cbn. lia. Qed.

Lemma sum_list_Z_nonneg f l :
  (forall a, a ∈ l -> 0 <= f a) -> 0 <= sum_list_Z f l.
Proof.
  unfold sum_list_Z. induction l as [|a l IH]; cbn; intros Hf; [lia|].
  assert (0 <= f a) by (apply Hf; left).
  enough (0 <= foldr (fun a s => f a + s) 0 l) by lia.
  apply IH. intros; apply Hf; by right.
Qed.

Lemma sum_list_Z_ext f g l :
  (forall a, a ∈ l -> f a = g a) -> sum_list_Z f l = sum_list_Z g l.
Proof.
  unfold sum_list_Z. induction l as [|a l IH]; cbn; intros Hf; [done|].
  rewrite Hf by left. f_equal. apply IH. intros; apply Hf; by right.
Qed.

Lemma sum_list_Z_fmap {B} (h : B -> A) f (l : list B) :
  sum_list_Z f (h <$> l) = sum_list_Z (fun b => f (h b)) l.
Proof. unfold sum_list_Z. induction l as [|b l IH]; cbn; [done|]. by rewrite IH. Qed.

#[export] Instance sum_list_Z_proper f : Proper ((≡ₚ) ==> (=)) (sum_list_Z f).
Proof. unfold sum_list_Z. induction 1; cbn; lia. Qed.
End sums.

(** ** Lists *)

Section lists.
Context {A : Type}.
Implicit Types (l : list A).

Lemma filter_ext_in (P Q : A -> Prop) `{!forall x, Decision (P x), !forall x, Decision (Q x)} l :
  (forall a, a ∈ l -> P a <-> Q a) -> filter P l = filter Q l.
Proof.
  induction l as [|a l IH]; intros Hf; [done|].
  rewrite !filter_cons.
  assert (P a <-> Q a) by (apply Hf; left).
  rewrite IH by (intros; apply Hf; by right).
  repeat case_decide; tauto || by f_equal.
Qed.

Lemma filter_all (P : A -> Prop) `{!forall x, Decision (P x)} l :
  (forall a, a ∈ l -> P a) -> filter P l = l.
Proof.
  induction l as [|a l IH]; intros Hf; [done|].
  rewrite filter_cons, decide_True by (apply Hf; left).
  f_equal. apply IH. intros; apply Hf; by right.
Qed.

Lemma Forall_filter_keep (P Q : A -> Prop) `{!forall x, Decision (P x)} l :
  Forall Q l -> Forall Q (filter P l).
Proof.
  rewrite !Forall_forall. intros HQ x Hx. apply list_elem_of_filter in Hx as [_ Hx]. auto.
Qed.

Lemma NoDup_fmap_filter {B} (f : A -> B) (P : A -> Prop) `{!forall x, Decision (P x)} l :
  NoDup (f <$> l) -> NoDup (f <$> filter P l).
Proof.
  induction l as [|a l IH]; intros Hnd; [done|].
  rewrite fmap_cons in Hnd. apply NoDup_cons in Hnd as [Ha Hnd]. rewrite filter_cons.
  case_decide; [|auto]. rewrite fmap_cons. apply NoDup_cons. split; [|auto].
  intros Hin. apply Ha. apply list_elem_of_fmap in Hin as (b & Hb & Hin).
  apply list_elem_of_filter in Hin as [_ Hin]. rewrite Hb. by apply list_elem_of_fmap_2.
Qed.

Lemma NoDup_fmap_inj_on {B} (f : A -> B) l x y :
  NoDup (f <$> l) -> x ∈ l -> y ∈ l -> f x = f y -> x = y.
Proof.
  induction l as [|a l IH]; cbn; intros Hnd Hx Hy Heq; [inversion Hx|].
  apply NoDup_cons in Hnd as [Ha Hnd].
  apply elem_of_cons in Hx as [->|Hx]; apply elem_of_cons in Hy as [->|Hy]; auto.
  - exfalso. apply Ha. rewrite Heq. by apply list_elem_of_fmap_2.
  - exfalso. apply Ha. rewrite <- Heq. by apply list_elem_of_fmap_2.
Qed.
End lists.
