(* ===== verification/Std.v ===== *)
(** * The parts of the C++ standard library the scheduler uses *)

From S2P Require Import Prelude.

(** ** Comparators *)

(** The requirement [std::sort], [std::multiset] and [std::is_sorted] put on a
    comparison: a strict weak ordering, here as asymmetry together with negative
    transitivity. *)
Class StrictWeakOrder {A : Type} (less : A -> A -> bool) : Prop := {
  swo_asym : forall x y, less x y = true -> less y x = false;
  swo_neg_trans : forall x y z, less x y = false -> less y z = false -> less x z = false;
}.

(** The order a sorted range is in: no later element is less than an earlier one. *)
Definition not_greater {A : Type} (less : A -> A -> bool) (x y : A) : Prop :=
  less y x = false.

#[export] Instance not_greater_dec {A} (less : A -> A -> bool) : RelDecision (not_greater less).
Proof. intros x y. unfold not_greater. apply _. Defined.

#[export] Instance not_greater_total {A} (less : A -> A -> bool) `{!StrictWeakOrder less} :
  Total (not_greater less).
Proof.
  intros x y. unfold not_greater. destruct (less y x) eqn:E; [right|by left].
  by apply swo_asym.
Qed.

#[export] Instance not_greater_trans {A} (less : A -> A -> bool) `{!StrictWeakOrder less} :
  Transitive (not_greater less).
Proof. intros x y z Hxy Hyz. unfold not_greater in *. eapply swo_neg_trans; eauto. Qed.

(** ** What the standard leaves open *)

(** [std::sort] is not stable, the iteration order of an unordered container is
    unspecified, and so is which of several equal keys an [unordered_multimap]
    finds.  The model takes these choices from an instance of this class, which
    promises only what the standard does; theorems hold for every instance. *)
Class StdLib : Type := {
  std_sort : forall {A : Type}, (A -> A -> bool) -> list A -> list A;
  std_sort_perm : forall {A} (less : A -> A -> bool) (l : list A),
    StrictWeakOrder less -> std_sort less l ≡ₚ l;
  std_sort_sorted : forall {A} (less : A -> A -> bool) (l : list A),
    StrictWeakOrder less -> StronglySorted (not_greater less) (std_sort less l);
  unordered : forall {V : Type}, gmap Z V -> list (Z * V);
  unordered_perm : forall {V} (m : gmap Z V), unordered m ≡ₚ map_to_list m;
  pick_equal : forall {A : Type}, list A -> option A;
  pick_equal_elem : forall {A} (l : list A) (x : A), pick_equal l = Some x -> x ∈ l;
  pick_equal_some : forall {A} (l : list A), l <> [] -> is_Some (pick_equal l);
}.

(** One conforming library, used to evaluate the model on concrete inputs. *)
Program Definition reference_stdlib : StdLib := {|
  std_sort A less := merge_sort (not_greater less);
  unordered V m := map_to_list m;
  pick_equal A l := head l;
|}.
Next Obligation. intros A less l H. apply merge_sort_Permutation. Qed.
Next Obligation. intros A less l H. apply StronglySorted_merge_sort; apply _. Qed.
Next Obligation. done. Qed.
Next Obligation. intros A [|y l] x H; inversion H. left. Qed.
Next Obligation. intros A [|y l] H; [done|]. by eexists. Qed.

(** ** Binary search *)

(** [std::lower_bound(first, last, value, comp)] on a range given as a list and
    the test [before x = comp(x, value)]; the loop of the reference
    implementation, whose length halves at every turn.  [fuel] bounds the turns. *)
Fixpoint lower_bound_loop {A} (before : A -> bool) (l : list A)
    (fuel first len : nat) : option nat :=
  match len with
  | O => Some first
  | _ =>
    match fuel with
    | O => None
    | S fuel' =>
      let half := Nat.div2 len in
      let middle := (first + half)%nat in
      match l !! middle with
      | None => None
      | Some x =>
        if before x
        then lower_bound_loop before l fuel' (S middle) (len - half - 1)
        else lower_bound_loop before l fuel' first half
      end
    end
  end.

Definition lower_bound {A} (before : A -> bool) (l : list A) : nat :=
  default (length l) (lower_bound_loop before l (length l) 0 (length l)).

(** ** Multisets *)

(** [std::multiset::insert] puts the element after the last one not greater than it. *)
Fixpoint multiset_insert {A} (less : A -> A -> bool) (x : A) (l : list A) : list A :=
  match l with
  | [] => [x]
  | y :: l' => if less x y then x :: y :: l' else y :: multiset_insert less x l'
  end.

(** The range constructor inserts the elements one by one. *)
Definition multiset_of_range {A} (less : A -> A -> bool) (l : list A) : list A :=
  foldl (fun ms x => multiset_insert less x ms) [] l.

(** ** Facts *)

Section lower_bound_facts.
Context {A : Type} (before : A -> bool).
Implicit Types (l : list A).

Lemma div2_lt_succ n : (Nat.div2 (S n) < S n)%nat.
Proof. apply Nat.lt_div2. lia. Qed.

(** The loop returns within [len] turns, inside its range; the element it
    returns, unless it is the end of the range it was given, failed the test. *)
Lemma lower_bound_loop_spec l fuel : forall first len,
  (len <= fuel)%nat -> (first + len <= length l)%nat ->
  exists i, lower_bound_loop before l fuel first len = Some i
    /\ (first <= i <= first + len)%nat
    /\ (i = (first + len)%nat \/ exists x, l !! i = Some x /\ before x = false).
Proof.
  induction fuel as [|fuel IH]; intros first [|len] Hfuel Hlen; [|lia| |].
  1,2: exists first; cbn; split; [done|]; split; [lia|]; left; lia.
  pose proof (div2_lt_succ len) as Hhalf.
  cbn -[Nat.div2]. set (half := Nat.div2 (S len)) in *.
  destruct (lookup_lt_is_Some_2 l (first + half)) as [x Hx]; [lia|]. rewrite Hx.
  destruct (before x) eqn:Hb.
  - destruct (IH (S (first + half)) (S len - half - 1)%nat) as (i & Hi & Hr & He); [lia|lia|].
    exists i. split; [exact Hi|]. split; [lia|]. destruct He as [->|]; [left; lia|by right].
  - destruct (IH first half) as (i & Hi & Hr & He); [lia|lia|].
    exists i. split; [exact Hi|]. split; [lia|]. right.
    destruct He as [->|He]; [by exists x|done].
Qed.

Lemma lower_bound_spec l :
  (lower_bound before l <= length l)%nat
  /\ (lower_bound before l = length l
      \/ exists x, l !! lower_bound before l = Some x /\ before x = false).
Proof.
  unfold lower_bound.
  destruct (lower_bound_loop_spec l (length l) 0 (length l)) as (i & Hi & Hr & He); [lia|lia|].
  rewrite Hi. cbn in *. split; [lia|]. exact He.
Qed.

(** On a partitioned range every element before the returned position passes the test. *)
Definition partitioned l : Prop :=
  forall i j x y, l !! i = Some x -> l !! j = Some y -> (i <= j)%nat ->
    before y = true -> before x = true.

Lemma lower_bound_loop_partitioned l fuel : forall first len i,
  partitioned l ->
  (forall j x, (j < first)%nat -> l !! j = Some x -> before x = true) ->
  lower_bound_loop before l fuel first len = Some i ->
  forall j x, (j < i)%nat -> l !! j = Some x -> before x = true.
Proof.
  induction fuel as [|fuel IH]; intros first [|len] i Hp Hfirst Hi j x Hj Hx;
    [cbn in Hi; simplify_eq; by eapply Hfirst|done|cbn in Hi; simplify_eq; by eapply Hfirst|].
  cbn -[Nat.div2] in Hi. set (half := Nat.div2 (S len)) in *.
  destruct (l !! (first + half)%nat) as [y|] eqn:Hy; [|done].
  destruct (before y) eqn:Hb.
  - eapply IH; [exact Hp| |exact Hi|exact Hj|exact Hx].
    intros k z Hk Hz. eapply (Hp k (first + half)%nat z y); eauto. lia.
  - eapply IH; eauto.
Qed.

Lemma lower_bound_partitioned l j x :
  partitioned l -> (j < lower_bound before l)%nat -> l !! j = Some x -> before x = true.
Proof.
  intros Hp Hj Hx. unfold lower_bound in Hj.
  destruct (lower_bound_loop_spec l (length l) 0 (length l)) as (i & Hi & _); [lia|lia|].
  rewrite Hi in Hj. cbn in Hj.
  eapply lower_bound_loop_partitioned; [done| |exact Hi|exact Hj|exact Hx]. lia.
Qed.
End lower_bound_facts.

Section multiset_facts.
Context {A : Type} (less : A -> A -> bool).
Implicit Types (l : list A).

Lemma multiset_insert_perm x l : multiset_insert less x l ≡ₚ x :: l.
Proof.
  induction l as [|y l IH]; cbn; [done|]. destruct (less x y); [done|].
  rewrite IH. apply perm_swap.
Qed.

Lemma multiset_insert_sorted `{!StrictWeakOrder less} x l :
  StronglySorted (not_greater less) l ->
  StronglySorted (not_greater less) (multiset_insert less x l).
Proof.
  induction 1 as [|y l Hl IH Hy]; cbn; [repeat constructor|].
  destruct (less x y) eqn:E.
  - constructor; [by constructor|]. constructor.
    + unfold not_greater. by apply swo_asym.
    + eapply Forall_impl; [exact Hy|]. intros z Hz. etrans; [|exact Hz].
      unfold not_greater. by apply swo_asym.
  - constructor; [exact IH|]. rewrite multiset_insert_perm. by constructor.
Qed.

Lemma multiset_of_range_acc l : forall acc,
  foldl (fun ms x => multiset_insert less x ms) acc l ≡ₚ acc ++ l.
Proof.
  induction l as [|x l IH]; intros acc; cbn; [by rewrite app_nil_r|].
  rewrite IH, multiset_insert_perm. by rewrite <- Permutation_middle.
Qed.

Lemma multiset_of_range_perm l : multiset_of_range less l ≡ₚ l.
Proof. apply (multiset_of_range_acc l []). Qed.

Lemma multiset_of_range_sorted `{!StrictWeakOrder less} l :
  StronglySorted (not_greater less) (multiset_of_range less l).
Proof.
  unfold multiset_of_range. cut (StronglySorted (not_greater less) ([] : list A)); [|constructor].
  generalize ([] : list A). induction l as [|x l IH]; intros acc Hacc; cbn; [done|].
  apply IH. by apply multiset_insert_sorted.
Qed.
End multiset_facts.
