(* ===== verification/Slot.v ===== *)
(** * Slot capacities (src/libs/common/include/slot.h, types.h)

    [CpuCores] and [MegaBytes] wrap a [size_t]; a [SlotCapacity] pairs them.  The
    model keeps the counts as integers and writes out the width of every
    operation: [+=] and [*=] wrap at 2^64, [-=] converts both operands to the
    32-bit [int], subtracts there and clamps at zero. *)

From S2P Require Import Prelude Std.

Record SlotCapacity : Type := mkSlot { cpu : Z; ram : Z }.

#[export] Instance SlotCapacity_eq_dec : EqDecision SlotCapacity.
Proof. solve_decision. Defined.

(** The defaulted [operator<=>]: lexicographic, cpu first. *)
Definition slot_lt (a b : SlotCapacity) : bool :=
  (cpu a <? cpu b) || ((cpu a =? cpu b) && (ram a <? ram b)).

Definition slot_gt (a b : SlotCapacity) : bool := slot_lt b a.

Definition slot_eqb (a b : SlotCapacity) : bool := bool_decide (a = b).

(** [SlotCapacity::fits]: componentwise. *)
Definition fits (a other : SlotCapacity) : bool :=
  (cpu a <=? cpu other) && (ram a <=? ram other).

Definition slot_add (a other : SlotCapacity) : SlotCapacity :=
  mkSlot (size_t_wrap (cpu a + cpu other)) (size_t_wrap (ram a + ram other)).

Definition slot_sub (a other : SlotCapacity) : SlotCapacity :=
  mkSlot (Z.max (int_cast (cpu a) - int_cast (cpu other)) 0)
         (Z.max (int_cast (ram a) - int_cast (ram other)) 0).

Definition slot_mul (a : SlotCapacity) (multiplier : Z) : SlotCapacity :=
  mkSlot (size_t_wrap (cpu a * multiplier)) (size_t_wrap (ram a * multiplier)).

(** The [int] subtraction of [operator-=] has a result, in C++ terms, only when
    the difference is representable. *)
Definition slot_sub_defined (a other : SlotCapacity) : Prop :=
  - 2 ^ 31 <= int_cast (cpu a) - int_cast (cpu other) < 2 ^ 31
  /\ - 2 ^ 31 <= int_cast (ram a) - int_cast (ram other) < 2 ^ 31.

(** Capacities that fit the [integer] columns of the database. *)
Definition slot_wf (a : SlotCapacity) : Prop :=
  0 <= cpu a < 2 ^ 31 /\ 0 <= ram a < 2 ^ 31.

Definition slot_zero : SlotCapacity := mkSlot 0 0.

(** A requirement that asks for something. *)
Definition slot_positive (a : SlotCapacity) : Prop := 0 < cpu a \/ 0 < ram a.

(** ** Order *)

Lemma slot_lt_spec a b :
  slot_lt a b = true <-> cpu a < cpu b \/ (cpu a = cpu b /\ ram a < ram b).
Proof. unfold slot_lt. lia. Qed.

Lemma slot_lt_false a b :
  slot_lt a b = false <-> cpu b < cpu a \/ (cpu a = cpu b /\ ram b <= ram a).
Proof. unfold slot_lt. lia. Qed.

Lemma fits_spec a b : fits a b = true <-> cpu a <= cpu b /\ ram a <= ram b.
Proof. unfold fits. lia. Qed.

#[export] Instance slot_lt_swo : StrictWeakOrder slot_lt.
Proof. split; intros *; rewrite ?slot_lt_spec, ?slot_lt_false; lia. Qed.

#[export] Instance slot_gt_swo : StrictWeakOrder slot_gt.
Proof. unfold slot_gt. split; intros *; rewrite ?slot_lt_spec, ?slot_lt_false; lia. Qed.

(** Comparing records through a capacity they carry. *)
#[export] Instance swo_on {A B} (f : A -> B) (less : B -> B -> bool) `{!StrictWeakOrder less} :
  StrictWeakOrder (fun x y => less (f x) (f y)).
Proof.
  split; intros *; [apply swo_asym|apply swo_neg_trans].
Qed.

(** The lexicographic order extends [fits]. *)
Lemma fits_not_gt a b : fits a b = true -> slot_lt b a = false.
Proof. rewrite fits_spec, slot_lt_false. lia. Qed.

Lemma fits_refl a : fits a a = true.
Proof. rewrite fits_spec. lia. Qed.

Lemma fits_trans a b c : fits a b = true -> fits b c = true -> fits a c = true.
Proof. rewrite !fits_spec. lia. Qed.

Lemma slot_eq a b : cpu a = cpu b -> ram a = ram b -> a = b.
Proof. destruct a, b; cbn; congruence. Qed.

(** ** Arithmetic on representable capacities *)

Lemma slot_sub_no_ub a b : slot_wf a -> slot_wf b -> slot_sub_defined a b.
Proof. intros [] []. unfold slot_sub_defined. rewrite !int_cast_small by lia. lia. Qed.

Lemma slot_sub_wf a b : slot_wf a -> slot_wf b -> slot_wf (slot_sub a b).
Proof. intros [] []. unfold slot_wf, slot_sub; cbn. rewrite !int_cast_small by lia. lia. Qed.

Lemma slot_sub_cpu a b :
  slot_wf a -> slot_wf b -> cpu (slot_sub a b) = Z.max (cpu a - cpu b) 0.
Proof. intros [] []. cbn. by rewrite !int_cast_small by lia. Qed.

Lemma slot_sub_ram a b :
  slot_wf a -> slot_wf b -> ram (slot_sub a b) = Z.max (ram a - ram b) 0.
Proof. intros [] []. cbn. by rewrite !int_cast_small by lia. Qed.

(** Taking out what fits and putting it back is the identity. *)
Lemma slot_sub_add a b :
  slot_wf a -> slot_wf b -> fits b a = true -> slot_add (slot_sub a b) b = a.
Proof.
  intros Ha Hb Hf. pose proof Ha as [? ?]. pose proof Hb as [? ?].
  apply fits_spec in Hf as [].
  apply slot_eq; unfold slot_add; cbn [cpu ram];
    rewrite ?slot_sub_cpu, ?slot_sub_ram by done; rewrite size_t_wrap_small; lia.
Qed.

Lemma slot_sub_fits a b : slot_wf a -> slot_wf b -> fits (slot_sub a b) a = true.
Proof.
  intros Ha Hb. apply fits_spec. rewrite slot_sub_cpu, slot_sub_ram by done.
  destruct Ha, Hb. lia.
Qed.

Lemma slot_sub_positive a b :
  slot_wf a -> slot_wf b -> fits b a = true -> slot_positive b -> slot_sub a b <> a.
Proof.
  intros Ha Hb Hf Hp Heq. apply fits_spec in Hf.
  assert (cpu (slot_sub a b) = cpu a /\ ram (slot_sub a b) = ram a) as [Hc Hr] by by rewrite Heq.
  rewrite slot_sub_cpu in Hc by done. rewrite slot_sub_ram in Hr by done.
  destruct Ha, Hb. unfold slot_positive in Hp. lia.
Qed.
#[export] Hint Resolve slot_sub_wf fits_refl : vms.
