(* ===== verification/State.v ===== *)
(** * Jobs, virtual machines and scheduling plans (src/libs/state)

    The enumerations and structs the scheduler, the storage and the API share,
    with the conversions to and from the database names of the statuses. *)

From S2P Require Import Prelude Std Slot.

Abbreviation JobId := Z (only parsing).
Abbreviation TaskId := Z (only parsing).
Abbreviation VmId := Z (only parsing).
Abbreviation PlanId := Z (only parsing).
Abbreviation DesiredSlotId := Z (only parsing).

(** ** Statuses *)

Inductive JobStatus : Type :=
  | Queued | Scheduled | Running | Completed | Cancelling | Cancelled | Error | InternalError.

Inductive VmStatus : Type :=
  | PendingAllocation | Allocating | Allocated | AgentStarted
  | PendingTermination | Terminating | Terminated.

#[export] Instance JobStatus_eq_dec : EqDecision JobStatus.
Proof. solve_decision. Defined.
#[export] Instance VmStatus_eq_dec : EqDecision VmStatus.
Proof. solve_decision. Defined.

Definition jobStatus_toString (v : JobStatus) : string :=
  match v with
  | Queued => "queued"
  | Scheduled => "scheduled"
  | Running => "running"
  | Completed => "completed"
  | Cancelling => "cancelling"
  | Cancelled => "cancelled"
  | Error => "error"
  | InternalError => "internal_error"
  end.

(** [map.at(s)] throws [std::out_of_range] for a name that is not in the table. *)
Definition map_at {V} (table : list (string * V)) (s : string) : option V :=
  snd <$> find (fun kv => bool_decide (kv.1 = s)) table.

Definition jobStatusFromString (s : string) : option JobStatus :=
  map_at [("queued", Queued); ("scheduled", Scheduled); ("running", Running);
    ("completed", Completed); ("cancelling", Cancelling); ("cancelled", Cancelled);
    ("error", Error); ("internal_error", InternalError)]%string s.

Definition vmStatus_toString (v : VmStatus) : string :=
  match v with
  | PendingAllocation => "pending_allocation"
  | Allocating => "allocating"
  | Allocated => "allocated"
  | AgentStarted => "agent_started"
  | PendingTermination => "pending_termination"
  | Terminating => "terminating"
  | Terminated => "terminated"
  end.

Definition vmStatusFromString (s : string) : option VmStatus :=
  map_at [("pending_allocation", PendingAllocation); ("allocating", Allocating);
    ("allocated", Allocated); ("agent_started", AgentStarted);
    ("pending_termination", PendingTermination); ("terminating", Terminating);
    ("terminated", Terminated)]%string s.

(** "Cancelling, not actually final" is in the set all the same. *)
Definition getFinalJobStatuses : list JobStatus :=
  [Completed; Cancelling; Cancelled; Error; InternalError].

Definition getAssignedJobStatuses : list JobStatus := [Scheduled; Running; Cancelling].

Definition getActiveVmStatuses : list VmStatus :=
  [PendingAllocation; Allocating; Allocated; AgentStarted].

(** ** Structs *)

Record QueuedJobInfo : Type := mkJob { job_id : JobId; requiredCapacity : SlotCapacity }.

Record ActiveVm : Type := mkVm {
  vm_id : VmId; totalCapacity : SlotCapacity; idleCapacity : SlotCapacity }.

Record AllocationPendingVmInfo : Type := mkAllocationPending {
  apv_id : VmId; apv_capacity : SlotCapacity }.

Record TerminationPendingVmInfo : Type := mkTerminationPending {
  tpv_id : VmId; tpv_cloudVmId : string }.

Record AllocatedVmInfo : Type := mkAllocatedVm { av_id : string; av_type : string }.

Record DesiredSlot : Type := mkDesired { total : SlotCapacity; idle : SlotCapacity }.

Inductive VmInfo : Type :=
  | ExistingVm (v : VmId)
  | DesiredVm (d : DesiredSlotId).

Record State : Type := mkState { queuedJobs : list QueuedJobInfo; vms : list ActiveVm }.

Record StateChange : Type := mkStateChange {
  jobToVm : gmap Z VmInfo;
  desiredSlotMap : gmap Z DesiredSlot;
  updatedIdleCapacities : gmap Z SlotCapacity;
  vmsToTerminate : list VmId;
}.

Record TaskParameters : Type := mkTask {
  tp_requiredCapacity : SlotCapacity;
  tp_estimation : Z;
  tp_jobCount : Z;
  tp_settings : string;
  tp_imageVersion : string;
  tp_clientId : string;
  tp_jobOptions : list string;
}.

Record CreatedJobs : Type := mkCreatedJobs { cj_taskId : TaskId; cj_jobIds : list JobId }.

Record JobState : Type := mkJobState { js_status : JobStatus; js_resultUrl : option string }.

Record JobToLaunch : Type := mkJobToLaunch {
  jl_id : JobId;
  jl_capacityLimits : SlotCapacity;
  jl_taskSettings : string;
  jl_imageVersion : string;
  jl_jobOptions : string;
}.

Record AssignedJob : Type := mkAssignedJob { aj_id : JobId; aj_status : JobStatus }.

#[export] Instance QueuedJobInfo_eq_dec : EqDecision QueuedJobInfo.
Proof. solve_decision. Defined.
#[export] Instance ActiveVm_eq_dec : EqDecision ActiveVm.
Proof. solve_decision. Defined.
#[export] Instance AllocatedVmInfo_eq_dec : EqDecision AllocatedVmInfo.
Proof. solve_decision. Defined.
#[export] Instance DesiredSlot_eq_dec : EqDecision DesiredSlot.
Proof. solve_decision. Defined.
#[export] Instance VmInfo_eq_dec : EqDecision VmInfo.
Proof. solve_decision. Defined.

(** ** Predicates on snapshots *)

Definition job_wf (j : QueuedJobInfo) : Prop := slot_wf (requiredCapacity j).

(** A VM record as the scheduler reads it: representable, idle within total. *)
Definition vm_wf (v : ActiveVm) : Prop :=
  slot_wf (totalCapacity v) /\ slot_wf (idleCapacity v)
  /\ fits (idleCapacity v) (totalCapacity v) = true.

Record state_wf (st : State) : Prop := {
  state_jobs_wf : Forall job_wf (queuedJobs st);
  state_vms_wf : Forall vm_wf (vms st);
  state_jobs_nodup : NoDup (job_id <$> queuedJobs st);
  state_vms_nodup : NoDup (vm_id <$> vms st);
}.

(** Total requirements of a list of jobs, in exact arithmetic. *)
Definition jobs_cpu (js : list QueuedJobInfo) : Z :=
  sum_list_Z (fun j => cpu (requiredCapacity j)) js.
Definition jobs_ram (js : list QueuedJobInfo) : Z :=
  sum_list_Z (fun j => ram (requiredCapacity j)) js.

(** The jobs of [js] that the assignment [m] sends to [target]. *)
Definition jobs_at (m : gmap Z VmInfo) (target : VmInfo) (js : list QueuedJobInfo)
  : list QueuedJobInfo :=
  filter (fun j => m !! job_id j = Some target) js.

(** ** Facts *)

Lemma job_status_print_parse_aux (v : JobStatus) :
  jobStatusFromString (jobStatus_toString v) = Some v.
Proof. by destruct v. Qed.

Lemma vm_status_print_parse_aux (v : VmStatus) :
  vmStatusFromString (vmStatus_toString v) = Some v.
Proof. by destruct v. Qed.
