(* ===== verification/OrderedJobs.v ===== *)
(** * Job orderings (src/libs/scheduler/impl/ordered_jobs.{h,cpp}, complex_vm_assigner_config.{h,cpp})

    The queue of jobs a scheduling iteration walks through: as read from the
    database, or sorted by requirement with [std::sort]. *)

From S2P Require Import Prelude Std Slot State.

Inductive JobOrdering : Type := Fifo | Ascending | Descending.

Inductive AllocationStrategy : Type := FirstFit | NextFit | WorstFit | BestFit.

#[export] Instance AllocationStrategy_eq_dec : EqDecision AllocationStrategy.
Proof. solve_decision. Defined.

Record ComplexVmAssignerConfig : Type := mkComplexConfig {
  jobOrdering : JobOrdering; allocationStrategy : AllocationStrategy }.

Definition jobOrderingFromString (s : string) : option JobOrdering :=
  map_at [("fifo", Fifo); ("minmin", Ascending); ("maxmin", Descending)]%string s.

Definition allocationStrategyFromString (s : string) : option AllocationStrategy :=
  map_at [("firstfit", FirstFit); ("nextfit", NextFit); ("bestfit", BestFit);
    ("worstfit", WorstFit)]%string s.

Definition job_less (lhs rhs : QueuedJobInfo) : bool :=
  slot_lt (requiredCapacity lhs) (requiredCapacity rhs).

Definition job_greater (lhs rhs : QueuedJobInfo) : bool :=
  slot_gt (requiredCapacity lhs) (requiredCapacity rhs).

#[export] Instance job_less_swo : StrictWeakOrder job_less.
Proof. unfold job_less. apply _. Qed.
#[export] Instance job_greater_swo : StrictWeakOrder job_greater.
Proof. unfold job_greater. apply _. Qed.

Section ordered_jobs.
Context `{StdLib}.

Definition FifoOrderedJobs (jobs : list QueuedJobInfo) : list QueuedJobInfo := jobs.

Definition AscendingOrderedJobs (jobs : list QueuedJobInfo) : list QueuedJobInfo :=
  std_sort job_less jobs.

Definition DescendingOrderedJobs (jobs : list QueuedJobInfo) : list QueuedJobInfo :=
  std_sort job_greater jobs.

Definition createOrderedJobs (type : JobOrdering) (jobs : list QueuedJobInfo)
  : list QueuedJobInfo :=
  match type with
  | Fifo => FifoOrderedJobs jobs
  | Ascending => AscendingOrderedJobs jobs
  | Descending => DescendingOrderedJobs jobs
  end.

Lemma createOrderedJobs_perm type jobs : createOrderedJobs type jobs ≡ₚ jobs.
Proof. destruct type; cbn; [done|apply std_sort_perm; apply _..]. Qed.
End ordered_jobs.
