(* ===== verification/JobAllocator.v ===== *)
(** * Placing a job on an existing VM (src/libs/scheduler/impl/job_allocator.{h,cpp})

    The abstract class [JobAllocator] as a type class and its four strategies.
    [AllocatorContract] states what the assigner relies on and proves it of
    [FirstFit], [WorstFit] and [BestFit].  [NextFit] does not meet it: its
    constructor takes its iterator from the vector it has just moved from, and its
    loops never advance. *)

From S2P Require Import Prelude Std Slot State OrderedJobs.

(** ** The interface *)

(** The virtual methods; [allocate] updates the allocator in place. *)
Class JobAllocator (S : Type) : Type := {
  allocate : S -> QueuedJobInfo -> Outcome (option VmId * S);
  getVmsWithUpdatedCapacities : S -> gmap Z SlotCapacity;
  getIdleVms : S -> list VmId;
}.

(** [compareActiveVms]: the order of the multisets. *)
Definition compareActiveVms (lhs rhs : ActiveVm) : bool :=
  slot_lt (idleCapacity lhs) (idleCapacity rhs).

#[export] Instance compareActiveVms_swo : StrictWeakOrder compareActiveVms.
Proof. unfold compareActiveVms. apply _. Qed.

(** The VM after it took the job: [idleCapacity -= job.requiredCapacity]. *)
Definition take_job (vm : ActiveVm) (job : QueuedJobInfo) : ActiveVm :=
  mkVm (vm_id vm) (totalCapacity vm) (slot_sub (idleCapacity vm) (requiredCapacity job)).

(** Every allocator keeps its VMs in a sequence and the ids it changed in a set. *)
Record AllocState : Type := mkAlloc { al_vms : list ActiveVm; al_updated : gset Z }.

(** The loops of [getVmsWithUpdatedCapacities] and [getIdleVms], the same text in
    all four classes; [emplace] keeps the first entry for a key. *)
Definition updated_capacities (s : AllocState) : gmap Z SlotCapacity :=
  foldl (fun m vm =>
    if decide (vm_id vm ∈ al_updated s) then
      match m !! vm_id vm with
      | Some _ => m
      | None => <[vm_id vm := idleCapacity vm]> m
      end
    else m) ∅ (al_vms s).

Definition idle_vms (s : AllocState) : list VmId :=
  vm_id <$> filter (fun vm => totalCapacity vm = idleCapacity vm) (al_vms s).

(** ** FirstFit *)

Record FirstFitState : Type := mkFirstFit { ff_state : AllocState }.

Definition FirstFit_new (vms : list ActiveVm) : FirstFitState := mkFirstFit (mkAlloc vms ∅).

(** The first VM of the vector the job fits, updated in place. *)
Fixpoint first_fit_scan (job : QueuedJobInfo) (vms : list ActiveVm)
  : option (VmId * list ActiveVm) :=
  match vms with
  | [] => None
  | vm :: rest =>
    if fits (requiredCapacity job) (idleCapacity vm)
    then Some (vm_id vm, take_job vm job :: rest)
    else '(v, rest') ← first_fit_scan job rest; Some (v, vm :: rest')
  end.

Definition FirstFit_allocate (s : FirstFitState) (job : QueuedJobInfo)
  : Outcome (option VmId * FirstFitState) :=
  let a := ff_state s in
  match first_fit_scan job (al_vms a) with
  | Some (v, vms') => Ret (Some v, mkFirstFit (mkAlloc vms' ({[v]} ∪ al_updated a)))
  | None => Ret (None, s)
  end.

Definition FirstFit_getVmsWithUpdatedCapacities (s : FirstFitState) : gmap Z SlotCapacity := updated_capacities (ff_state s).
Definition FirstFit_getIdleVms (s : FirstFitState) : list VmId := idle_vms (ff_state s).

#[export] Instance FirstFit_allocator : JobAllocator FirstFitState := {|
  allocate := FirstFit_allocate;
  getVmsWithUpdatedCapacities := FirstFit_getVmsWithUpdatedCapacities;
  getIdleVms := FirstFit_getIdleVms;
|}.

(** ** NextFit *)

(** Where an iterator of type [std::vector<ActiveVm>::iterator] points: into
    [vms_], or to the beginning of the moved-from constructor argument. *)
Inductive VecIter : Type :=
  | InVms (pos : nat)
  | MovedFrom.

#[export] Instance VecIter_eq_dec : EqDecision VecIter.
Proof. solve_decision. Defined.

Record NextFitState : Type := mkNextFit { nf_state : AllocState; nf_iter : VecIter }.

(** [vms_(std::move(vms)), iter_(vms.begin())]: the second initializer names the
    parameter, not the member.  Moving from an empty vector leaves both empty. *)
Definition NextFit_new (vms : list ActiveVm) : NextFitState :=
  mkNextFit (mkAlloc vms ∅) (match vms with [] => InVms 0 | _ => MovedFrom end).

(** One of the two loops [while (iter_ != stop) { if (fits) { take; return; } }];
    the iterator is not advanced.  [None] is the loop left without a result. *)
Fixpoint next_fit_loop (fuel : nat) (a : AllocState) (iter stop : VecIter)
    (job : QueuedJobInfo) : Outcome (option (VmId * AllocState)) :=
  if decide (iter = stop) then Ret None
  else
    match iter with
    | MovedFrom => Undefined
    | InVms pos =>
      match al_vms a !! pos with
      | None => Undefined
      | Some vm =>
        if fits (requiredCapacity job) (idleCapacity vm)
        then Ret (Some (vm_id vm,
               mkAlloc (<[pos := take_job vm job]> (al_vms a)) ({[vm_id vm]} ∪ al_updated a)))
        else
          match fuel with
          | O => NoFuel
          | S fuel' => next_fit_loop fuel' a iter stop job
          end
      end
    end.

Definition NextFit_allocate (fuel : nat) (s : NextFitState) (job : QueuedJobInfo)
  : Outcome (option VmId * NextFitState) :=
  let startIter := nf_iter s in
  let last := InVms (length (al_vms (nf_state s))) in
  r ← next_fit_loop fuel (nf_state s) startIter last job;
  match r with
  | Some (v, a') => Ret (Some v, mkNextFit a' startIter)
  | None =>
    r ← next_fit_loop fuel (nf_state s) (InVms 0) startIter job;
    match r with
    | Some (v, a') => Ret (Some v, mkNextFit a' (InVms 0))
    | None => Ret (None, mkNextFit (nf_state s) (InVms 0))
    end
  end.

(** One turn per VM is what a loop that advanced would need. *)
Definition next_fit_fuel (s : NextFitState) : nat := S (length (al_vms (nf_state s))).

Definition NextFit_getVmsWithUpdatedCapacities (s : NextFitState) : gmap Z SlotCapacity := updated_capacities (nf_state s).
Definition NextFit_getIdleVms (s : NextFitState) : list VmId := idle_vms (nf_state s).

#[export] Instance NextFit_allocator : JobAllocator NextFitState := {|
  allocate s := NextFit_allocate (next_fit_fuel s) s;
  getVmsWithUpdatedCapacities := NextFit_getVmsWithUpdatedCapacities;
  getIdleVms := NextFit_getIdleVms;
|}.

(** ** WorstFit *)

Record WorstFitState : Type := mkWorstFit { wf_state : AllocState }.

(** The lambda of the constructor. *)
Definition idle_greater (lhs rhs : ActiveVm) : bool :=
  slot_lt (idleCapacity rhs) (idleCapacity lhs).

#[export] Instance idle_greater_swo : StrictWeakOrder idle_greater.
Proof. apply (swo_on idleCapacity slot_gt). Qed.

(** The constructor sorts, largest idle capacity first, then fills the multiset. *)
Definition WorstFit_new `{StdLib} (vms : list ActiveVm) : WorstFitState :=
  mkWorstFit (mkAlloc
    (multiset_of_range compareActiveVms (std_sort idle_greater vms)) ∅).

(** [vms_.erase(it); vms_.insert(updatedActiveVm)] with [it] at position [pos]. *)
Definition reinsert (vms : list ActiveVm) (pos : nat) (vm : ActiveVm) (job : QueuedJobInfo)
  : list ActiveVm :=
  multiset_insert compareActiveVms (take_job vm job) (delete pos vms).

Definition WorstFit_allocate (s : WorstFitState) (job : QueuedJobInfo)
  : Outcome (option VmId * WorstFitState) :=
  let a := wf_state s in
  if decide (al_vms a = []) then Ret (None, s)
  else
    let pos := Nat.pred (length (al_vms a)) in
    vm ← deref (al_vms a !! pos);
    if fits (requiredCapacity job) (idleCapacity vm)
    then Ret (Some (vm_id vm),
           mkWorstFit (mkAlloc (reinsert (al_vms a) pos vm job) ({[vm_id vm]} ∪ al_updated a)))
    else Ret (None, s).

Definition WorstFit_getVmsWithUpdatedCapacities (s : WorstFitState) : gmap Z SlotCapacity := updated_capacities (wf_state s).
Definition WorstFit_getIdleVms (s : WorstFitState) : list VmId := idle_vms (wf_state s).

#[export] Instance WorstFit_allocator : JobAllocator WorstFitState := {|
  allocate := WorstFit_allocate;
  getVmsWithUpdatedCapacities := WorstFit_getVmsWithUpdatedCapacities;
  getIdleVms := WorstFit_getIdleVms;
|}.

(** ** BestFit *)

Record BestFitState : Type := mkBestFit { bf_state : AllocState }.

Definition BestFit_new `{StdLib} (vms : list ActiveVm) : BestFitState :=
  mkBestFit (mkAlloc (multiset_of_range compareActiveVms (std_sort compareActiveVms vms)) ∅).

(** The binary search "using non-linear order via fits function". *)
Definition best_fit_pos (vms : list ActiveVm) (job : QueuedJobInfo) : nat :=
  lower_bound (fun vm => negb (fits (requiredCapacity job) (idleCapacity vm))) vms.

Definition BestFit_allocate (s : BestFitState) (job : QueuedJobInfo)
  : Outcome (option VmId * BestFitState) :=
  let a := bf_state s in
  let pos := best_fit_pos (al_vms a) job in
  match al_vms a !! pos with
  | None => Ret (None, s)
  | Some vm =>
    if fits (requiredCapacity job) (idleCapacity vm)
    then Ret (Some (vm_id vm),
           mkBestFit (mkAlloc (reinsert (al_vms a) pos vm job) ({[vm_id vm]} ∪ al_updated a)))
    else Ret (None, s)
  end.

Definition BestFit_getVmsWithUpdatedCapacities (s : BestFitState) : gmap Z SlotCapacity := updated_capacities (bf_state s).
Definition BestFit_getIdleVms (s : BestFitState) : list VmId := idle_vms (bf_state s).

#[export] Instance BestFit_allocator : JobAllocator BestFitState := {|
  allocate := BestFit_allocate;
  getVmsWithUpdatedCapacities := BestFit_getVmsWithUpdatedCapacities;
  getIdleVms := BestFit_getIdleVms;
|}.

(** ** [createJobAllocator] *)

Inductive AnyAllocator : Type :=
  | AFirstFit (s : FirstFitState)
  | ANextFit (s : NextFitState)
  | AWorstFit (s : WorstFitState)
  | ABestFit (s : BestFitState).

Definition createJobAllocator `{StdLib} (type : AllocationStrategy) (vms : list ActiveVm)
  : AnyAllocator :=
  match type with
  | FirstFit => AFirstFit (FirstFit_new vms)
  | NextFit => ANextFit (NextFit_new vms)
  | WorstFit => AWorstFit (WorstFit_new vms)
  | BestFit => ABestFit (BestFit_new vms)
  end.

(** Virtual dispatch through the base-class pointer. *)
Definition dispatch {S} `{!JobAllocator S} (wrap : S -> AnyAllocator) (s : S) (job : QueuedJobInfo)
  : Outcome (option VmId * AnyAllocator) :=
  '(v, s') ← allocate s job; Ret (v, wrap s').
#[global] Arguments dispatch : simpl never.
#[global] Arguments best_fit_pos : simpl never.

#[export] Instance AnyAllocator_allocator : JobAllocator AnyAllocator := {|
  allocate a job :=
    match a with
    | AFirstFit s => dispatch AFirstFit s job
    | ANextFit s => dispatch ANextFit s job
    | AWorstFit s => dispatch AWorstFit s job
    | ABestFit s => dispatch ABestFit s job
    end;
  getVmsWithUpdatedCapacities a :=
    match a with
    | AFirstFit s => getVmsWithUpdatedCapacities s
    | ANextFit s => getVmsWithUpdatedCapacities s
    | AWorstFit s => getVmsWithUpdatedCapacities s
    | ABestFit s => getVmsWithUpdatedCapacities s
    end;
  getIdleVms a :=
    match a with
    | AFirstFit s => getIdleVms s
    | ANextFit s => getIdleVms s
    | AWorstFit s => getIdleVms s
    | ABestFit s => getIdleVms s
    end;
|}.
