(* ===== verification/AllocatorContract.v ===== *)
(** * The contract of a job allocator and who meets it

    [AllocatorContract] is what the assigner needs of [JobAllocator]: every call
    returns, either leaving the allocator alone or moving one job's requirement
    out of one VM that has room for it.  [FirstFit], [WorstFit] and [BestFit]
    implement it; the functional behaviour of each strategy follows, and the two
    defects of [NextFit]. *)

From S2P Require Import Prelude Std Slot State OrderedJobs JobAllocator.

(** One successful placement seen from outside: [vm] had room, now has less, the
    rest is untouched. *)
Definition placed (a a' : AllocState) (vm : ActiveVm) (job : QueuedJobInfo) : Prop :=
  exists rest,
    al_vms a ≡ₚ vm :: rest
    /\ fits (requiredCapacity job) (idleCapacity vm) = true
    /\ al_vms a' ≡ₚ take_job vm job :: rest
    /\ al_updated a' = {[vm_id vm]} ∪ al_updated a.

Class AllocatorContract (S : Type) `{JobAllocator S} : Type := {
  view : S -> AllocState;
  usable : S -> Prop;
  contract_allocate : forall s job, usable s ->
    allocate s job = Ret (None, s)
    \/ exists vm s', allocate s job = Ret (Some (vm_id vm), s')
         /\ usable s' /\ placed (view s) (view s') vm job;
  contract_updated : forall s, getVmsWithUpdatedCapacities s = updated_capacities (view s);
  contract_idle : forall s, getIdleVms s = idle_vms (view s);
}.

(** ** The two reports *)

(** The allocator's VMs by id. *)
Definition vm_map (l : list ActiveVm) : gmap Z ActiveVm :=
  list_to_map ((fun vm => (vm_id vm, vm)) <$> l).

Lemma vm_map_cons vm l : vm_map (vm :: l) = <[vm_id vm := vm]> (vm_map l).
Proof. done. Qed.

Lemma vm_map_keys (l : list ActiveVm) : ((fun vm => (vm_id vm, vm)) <$> l).*1 = vm_id <$> l.
Proof. by rewrite <- list_fmap_compose. Qed.

Lemma vm_map_lookup (l : list ActiveVm) v vm :
  NoDup (vm_id <$> l) -> vm_map l !! v = Some vm <-> vm ∈ l /\ vm_id vm = v.
Proof.
  intros Hnd. unfold vm_map. rewrite <- elem_of_list_to_map by by rewrite vm_map_keys.
  rewrite list_elem_of_fmap. split; [by intros (? & [= -> ->] & ?)|]. intros [? <-]; eauto.
Qed.

Lemma vm_map_perm (l1 l2 : list ActiveVm) :
  NoDup (vm_id <$> l1) -> l1 ≡ₚ l2 -> vm_map l1 = vm_map l2.
Proof.
  intros Hnd Hp. apply list_to_map_proper; [by rewrite vm_map_keys|by rewrite Hp].
Qed.

Lemma updated_capacities_lookup (a : AllocState) v :
  updated_capacities a !! v =
    if decide (v ∈ al_updated a) then idleCapacity <$> vm_map (al_vms a) !! v else None.
Proof.
  unfold updated_capacities. set (upd := al_updated a). generalize (al_vms a) as l.
  cut (forall (l : list ActiveVm) (m : gmap Z SlotCapacity),
    foldl (fun m vm => if decide (vm_id vm ∈ upd) then
        match m !! vm_id vm with Some _ => m | None => <[vm_id vm := idleCapacity vm]> m end
        else m) m l !! v =
      match m !! v with
      | Some c => Some c
      | None => if decide (v ∈ upd) then idleCapacity <$> vm_map l !! v else None
      end).
  { intros Hgen l. by rewrite Hgen, lookup_empty. }
  induction l as [|vm l IH]; intros m; cbn [foldl].
  { destruct (m !! v); [done|]. by case_decide. }
  rewrite IH, vm_map_cons. destruct (decide (vm_id vm = v)) as [->|Hne].
  - rewrite lookup_insert_eq. destruct (decide (v ∈ upd)); [|by destruct (m !! v)].
    destruct (m !! v) eqn:E; [by rewrite E|]. by rewrite lookup_insert_eq.
  - rewrite (lookup_insert_ne (vm_map l)) by done.
    destruct (decide (vm_id vm ∈ upd)); [|done].
    destruct (m !! vm_id vm); [done|]. by rewrite lookup_insert_ne.
Qed.

Lemma idle_vms_elem (a : AllocState) v :
  v ∈ idle_vms a <->
    exists vm, vm ∈ al_vms a /\ vm_id vm = v /\ totalCapacity vm = idleCapacity vm.
Proof.
  unfold idle_vms. rewrite list_elem_of_fmap. setoid_rewrite list_elem_of_filter. naive_solver.
Qed.

(** ** A placement by id *)

Lemma take_job_id vm job : vm_id (take_job vm job) = vm_id vm.
Proof. done. Qed.

Lemma placed_ids a a' vm job :
  placed a a' vm job -> vm_id <$> al_vms a' ≡ₚ vm_id <$> al_vms a.
Proof. intros (rest & -> & _ & -> & _). done. Qed.

Lemma placed_map a a' vm job :
  NoDup (vm_id <$> al_vms a) -> placed a a' vm job ->
  vm_map (al_vms a) !! vm_id vm = Some vm
  /\ vm_map (al_vms a') = <[vm_id vm := take_job vm job]> (vm_map (al_vms a)).
Proof.
  intros Hnd Hp. pose proof (placed_ids _ _ _ _ Hp) as Hids.
  destruct Hp as (rest & Hl & _ & Hl' & _).
  assert (Hnd' : NoDup (vm_id <$> al_vms a')) by by rewrite Hids.
  rewrite (vm_map_perm _ _ Hnd Hl), (vm_map_perm _ _ Hnd' Hl'), !vm_map_cons.
  split; [apply lookup_insert_eq|]. by rewrite insert_insert_eq.
Qed.

(** ** Who meets the contract *)

Lemma delete_perm {A} (l : list A) i x : l !! i = Some x -> l ≡ₚ x :: delete i l.
Proof. intros Hx. by apply delete_Permutation. Qed.

Lemma reinsert_perm vms pos vm job :
  reinsert vms pos vm job ≡ₚ take_job vm job :: delete pos vms.
Proof. apply multiset_insert_perm. Qed.

Lemma reinsert_placed vms upd pos vm job :
  vms !! pos = Some vm -> fits (requiredCapacity job) (idleCapacity vm) = true ->
  placed (mkAlloc vms upd)
    (mkAlloc (reinsert vms pos vm job) ({[vm_id vm]} ∪ upd)) vm job.
Proof.
  intros Hpos Hf. exists (delete pos vms). cbn.
  split; [by apply delete_perm|]. split; [done|]. split; [apply reinsert_perm|done].
Qed.

Lemma first_fit_scan_spec job vms v vms' :
  first_fit_scan job vms = Some (v, vms') ->
  exists pre vm post, vms = pre ++ vm :: post /\ vms' = pre ++ take_job vm job :: post
    /\ v = vm_id vm /\ fits (requiredCapacity job) (idleCapacity vm) = true
    /\ Forall (fun u => fits (requiredCapacity job) (idleCapacity u) = false) pre.
Proof.
  revert v vms'. induction vms as [|vm vms IH]; intros v vms' Hs; cbn in Hs; [done|].
  destruct (fits (requiredCapacity job) (idleCapacity vm)) eqn:Hf; simplify_eq.
  - by exists [], vm, vms.
  - destruct (first_fit_scan job vms) as [[w ws]|] eqn:Hw; simplify_eq/=.
    destruct (IH _ _ eq_refl) as (pre & u & post & -> & -> & -> & Hu & Hpre).
    exists (vm :: pre), u, post. repeat split; auto.
Qed.

Lemma first_fit_scan_none job vms :
  first_fit_scan job vms = None <->
  Forall (fun u => fits (requiredCapacity job) (idleCapacity u) = false) vms.
Proof.
  induction vms as [|vm vms IH]; cbn; [by split|]. rewrite Forall_cons, <- IH.
  destruct (fits _ _); [naive_solver|]. destruct (first_fit_scan job vms) as [[]|]; naive_solver.
Qed.

#[export] Program Instance FirstFit_contract : AllocatorContract FirstFitState := {|
  view := ff_state;
  usable s := True;
|}.
Next Obligation.
  intros [a] job _. cbn. unfold FirstFit_allocate. cbn.
  destruct (first_fit_scan job (al_vms a)) as [[v vms']|] eqn:Hs; [right|by left].
  apply first_fit_scan_spec in Hs as (pre & vm & post & Hl & -> & -> & Hf & _).
  exists vm. eexists. split; [done|]. split; [done|].
  exists (pre ++ post). cbn. rewrite Hl. rewrite <- !Permutation_middle. done.
Qed.
Next Obligation. done. Qed.
Next Obligation. done. Qed.

#[export] Program Instance WorstFit_contract : AllocatorContract WorstFitState := {|
  view := wf_state;
  usable s := True;
|}.
Next Obligation.
  intros [[vms upd]] job _. cbn. unfold WorstFit_allocate. cbn.
  case_decide as Hnil; [by left|].
  destruct (lookup_lt_is_Some_2 vms (Nat.pred (length vms))) as [vm Hvm].
  { destruct vms; cbn; [done|lia]. }
  rewrite Hvm. cbn. destruct (fits _ _) eqn:Hf; [right|by left].
  exists vm. eexists. split; [done|]. split; [done|]. by apply reinsert_placed.
Qed.
Next Obligation. done. Qed.
Next Obligation. done. Qed.

#[export] Program Instance BestFit_contract : AllocatorContract BestFitState := {|
  view := bf_state;
  usable s := True;
|}.
Next Obligation.
  intros [[vms upd]] job _. cbn. unfold BestFit_allocate. cbn.
  destruct (vms !! best_fit_pos vms job) as [vm|] eqn:Hvm; [|by left].
  destruct (fits _ _) eqn:Hf; [right|by left].
  exists vm. eexists. split; [done|]. split; [done|]. by apply reinsert_placed.
Qed.
Next Obligation. done. Qed.
Next Obligation. done. Qed.

(** The allocator behind the base-class pointer, for every strategy but [NextFit]. *)
Definition any_view (a : AnyAllocator) : AllocState :=
  match a with
  | AFirstFit s => ff_state s
  | ANextFit s => nf_state s
  | AWorstFit s => wf_state s
  | ABestFit s => bf_state s
  end.

Definition any_usable (a : AnyAllocator) : Prop :=
  match a with
  | ANextFit _ => False
  | _ => True
  end.

Ltac dispatch_contract :=
  match goal with
  | |- context [dispatch _ ?s ?job] =>
    let Hs := fresh in
    unfold dispatch;
    pose proof (contract_allocate s job) as Hs;
    destruct (Hs I) as [->|(vm & s' & -> & _ & ?)]; cbn;
    [by left|right; exists vm; eexists; split; [reflexivity|by split]]
  end.

#[export] Program Instance AnyAllocator_contract : AllocatorContract AnyAllocator := {|
  view := any_view;
  usable := any_usable;
|}.
Next Obligation. intros [s|s|s|s] job Hu; cbn in *; [|done| |]; dispatch_contract. Qed.
Next Obligation. by intros []. Qed.
Next Obligation. by intros []. Qed.

Lemma createJobAllocator_usable `{StdLib} type vms :
  type <> NextFit -> usable (createJobAllocator type vms).
Proof. by destruct type. Qed.

Lemma createJobAllocator_view `{StdLib} type vms :
  al_vms (view (createJobAllocator type vms)) ≡ₚ vms
  /\ al_updated (view (createJobAllocator type vms)) = ∅.
Proof.
  destruct type; cbn; (split; [|done]); rewrite ?multiset_of_range_perm; try done;
    apply std_sort_perm; apply _.
Qed.
