(* ===== verification/SlotSelector.v ===== *)
(** * Choosing new VMs (src/libs/scheduler/impl/vm_slot_selector.{h,cpp})

    Jobs no existing VM could take are packed, largest first, into desired slots.
    [desiredSlots] is a [std::list] whose iterators are kept in an
    [unordered_multimap] by slot size; the model names every list node and lets
    the multimap hold those names. *)

From S2P Require Import Prelude Std Slot State OrderedJobs.

(** ** Data *)

Record SlotNode : Type := mkNode {
  node_id : nat; node_slot : DesiredSlot; node_jobs : list JobId }.

(** [desiredSlots], [totalSlotSizeToDesiredSlots] and the next node name. *)
Record SelState : Type := mkSel {
  sel_slots : list SlotNode; sel_index : list (SlotCapacity * nat); sel_next : nat }.

Definition sel_empty : SelState := mkSel [] [] 0.

Definition get_node (it : nat) (slots : list SlotNode) : option SlotNode :=
  list_find (fun n => node_id n = it) slots ≫= (fun p => Some p.2).

Definition erase_node (it : nat) (slots : list SlotNode) : list SlotNode :=
  filter (fun n => node_id n <> it) slots.

Definition entries_of (key : SlotCapacity) (index : list (SlotCapacity * nat))
  : list (SlotCapacity * nat) :=
  filter (fun e => e.1 = key) index.

Definition erase_entry (it : nat) (index : list (SlotCapacity * nat))
  : list (SlotCapacity * nat) :=
  filter (fun e => e.2 <> it) index.

Section selector.
Context `{StdLib} (possibleSlots : list SlotCapacity).

(** ** Operations *)

(** [getMinFitSlot_]: binary search with [fits]; past the end, the largest slot. *)
Definition getMinFitSlot_ (slot : SlotCapacity) : Outcome SlotCapacity :=
  match possibleSlots !! lower_bound (fun lhs => negb (fits slot lhs)) possibleSlots with
  | Some s => Ret s
  | None => deref (last possibleSlots)
  end.

(** [merge_]: two slots of the same size become one of twice the size when that
    size is on offer, and so on upwards. *)
Fixpoint merge_ (fuel : nat) (s : SelState) (startSlot : SlotCapacity) : Outcome SelState :=
  if decide (length (entries_of startSlot (sel_index s)) = 1%nat) then Ret s
  else
    match list_find (fun x => x = slot_mul startSlot 2) possibleSlots with
    | None => Ret s
    | Some (_, x2Slot) =>
      e1 ← deref (pick_equal (entries_of startSlot (sel_index s)));
      n1 ← deref (get_node e1.2 (sel_slots s));
      let slots1 := erase_node e1.2 (sel_slots s) in
      let index1 := erase_entry e1.2 (sel_index s) in
      e2 ← deref (pick_equal (entries_of startSlot index1));
      n2 ← deref (get_node e2.2 slots1);
      let merged := mkDesired
        (slot_mul (total (node_slot n1)) 2)
        (slot_add (idle (node_slot n1)) (idle (node_slot n2))) in
      let slots2 := erase_node e2.2 slots1
        ++ [mkNode (sel_next s) merged (node_jobs n1 ++ node_jobs n2)] in
      let index2 := erase_entry e2.2 index1 ++ [(x2Slot, sel_next s)] in
      match fuel with
      | O => NoFuel
      | S fuel' => merge_ fuel' (mkSel slots2 index2 (S (sel_next s))) x2Slot
      end
    end.

(** The inner loop of [select]: the desired slot with the least idle capacity that fits. *)
Definition better_slot (job : QueuedJobInfo) (best : option SlotNode) (n : SlotNode)
  : option SlotNode :=
  if fits (requiredCapacity job) (idle (node_slot n))
     && match best with
        | None => true
        | Some b => slot_gt (idle (node_slot b)) (idle (node_slot n))
        end
  then Some n else best.

Definition best_desired (job : QueuedJobInfo) (slots : list SlotNode) : option SlotNode :=
  foldl (better_slot job) None slots.

(** The node after [push_back(job.id)] and [idle -= job.requiredCapacity]. *)
Definition add_job (job : QueuedJobInfo) (n : SlotNode) : SlotNode :=
  mkNode (node_id n)
    (mkDesired (total (node_slot n)) (slot_sub (idle (node_slot n)) (requiredCapacity job)))
    (node_jobs n ++ [job_id job]).

(** One turn of the loop over the sorted jobs. *)
Definition select_job (s : SelState) (job : QueuedJobInfo) : Outcome SelState :=
  match best_desired job (sel_slots s) with
  | Some b =>
    Ret (mkSel ((fun n => if decide (node_id n = node_id b) then add_job job n else n)
                  <$> sel_slots s)
               (sel_index s) (sel_next s))
  | None =>
    slot ← getMinFitSlot_ (requiredCapacity job);
    let node := mkNode (sel_next s)
      (mkDesired slot (slot_sub slot (requiredCapacity job))) [job_id job] in
    let s' := mkSel (sel_slots s ++ [node]) (sel_index s ++ [(slot, sel_next s)])
                    (S (sel_next s)) in
    merge_ (length (sel_index s')) s' slot
  end.

Fixpoint select_jobs (s : SelState) (jobs : list QueuedJobInfo) : Outcome SelState :=
  match jobs with
  | [] => Ret s
  | job :: jobs' => s' ← select_job s job; select_jobs s' jobs'
  end.

(** The closing loop: slots are numbered from [next] and their jobs assigned. *)
Fixpoint number_slots (slots : list SlotNode) (next : Z)
    (assignments : gmap Z VmInfo) (slotMap : gmap Z DesiredSlot)
  : gmap Z VmInfo * gmap Z DesiredSlot :=
  match slots with
  | [] => (assignments, slotMap)
  | n :: slots' =>
    number_slots slots' (next + 1)
      (foldl (fun m jobId => <[jobId := DesiredVm next]> m) assignments (node_jobs n))
      (<[next := node_slot n]> slotMap)
  end.

Definition select (jobs : list QueuedJobInfo)
  : Outcome (gmap Z VmInfo * gmap Z DesiredSlot) :=
  s ← select_jobs sel_empty (std_sort job_greater jobs);
  Ret (number_slots (sel_slots s) 0 ∅ ∅).
End selector.
