(* ===== verification/Assigner.v ===== *)
(** * Scheduling algorithms (src/libs/scheduler/impl/{complex_vm_assigner,simple_vm_assigner,create_vm_assigner}.cpp)

    [ComplexVmAssigner] tries the existing VMs first and hands what is left to the
    slot selector; [SimpleVmAssigner] gives every job a VM of its own. *)

From S2P Require Import Prelude Std Slot State OrderedJobs JobAllocator SlotSelector.

Inductive VmAssignerType : Type := Simple | Complex.

Definition vmAssignerType_toString (v : VmAssignerType) : string :=
  match v with
  | Simple => "simple"
  | Complex => "complex"
  end.

Definition vmAssignerTypeFromString (s : string) : option VmAssignerType :=
  map_at [("simple", Simple); ("complex", Complex)]%string s.

(** The first loop of [ComplexVmAssigner::assign], over any [JobAllocator]. *)
Fixpoint assign_existing {S} `{!JobAllocator S} (alloc : S) (jobs : list QueuedJobInfo)
    (jobToExistingVms : gmap Z VmInfo) (unallocatedJobs : list QueuedJobInfo)
  : Outcome (S * gmap Z VmInfo * list QueuedJobInfo) :=
  match jobs with
  | [] => Ret (alloc, jobToExistingVms, unallocatedJobs)
  | job :: jobs' =>
    '(maybeAssignedVmId, alloc') ← allocate alloc job;
    match maybeAssignedVmId with
    | Some v => assign_existing alloc' jobs' (<[job_id job := ExistingVm v]> jobToExistingVms) unallocatedJobs
    | None => assign_existing alloc' jobs' jobToExistingVms (unallocatedJobs ++ [job])
    end
  end.

Section assigners.
Context `{StdLib}.

Definition ComplexVmAssigner_assign (config : ComplexVmAssignerConfig) (state : State)
    (possibleSlots : list SlotCapacity) : Outcome StateChange :=
  let orderedJobs := createOrderedJobs (jobOrdering config) (queuedJobs state) in
  let jobAllocator := createJobAllocator (allocationStrategy config) (vms state) in
  '(jobAllocator', jobToExistingVms, unallocatedJobs) ←
    assign_existing jobAllocator orderedJobs ∅ [];
  '(jobToVm, desiredSlotMap) ← select possibleSlots unallocatedJobs;
  Ret (mkStateChange (jobToVm ∪ jobToExistingVms) desiredSlotMap
         (getVmsWithUpdatedCapacities jobAllocator') (getIdleVms jobAllocator')).

(** The loop of [SimpleVmAssigner::assign]. *)
Fixpoint simple_loop (jobs : list QueuedJobInfo) (next : Z)
    (assignments : gmap Z VmInfo) (slotMap : gmap Z DesiredSlot)
  : gmap Z VmInfo * gmap Z DesiredSlot :=
  match jobs with
  | [] => (assignments, slotMap)
  | job :: jobs' =>
    simple_loop jobs' (next + 1) (<[job_id job := DesiredVm next]> assignments)
      (match slotMap !! next with
       | Some _ => slotMap
       | None => <[next := mkDesired (requiredCapacity job) slot_zero]> slotMap
       end)
  end.

Definition SimpleVmAssigner_assign (state : State) : StateChange :=
  let '(vmAssignments, slotMap) := simple_loop (queuedJobs state) 0 ∅ ∅ in
  mkStateChange vmAssignments slotMap ∅
    (vm_id <$> filter (fun vm => totalCapacity vm = idleCapacity vm) (vms state)).

(** [createVmAssigner(...)->assign()]; the optional configuration is dereferenced
    unchecked for the complex assigner. *)
Definition createVmAssigner_assign (type : VmAssignerType) (state : State)
    (config : option ComplexVmAssignerConfig) (possibleSlots : list SlotCapacity)
  : Outcome StateChange :=
  match type with
  | Simple => Ret (SimpleVmAssigner_assign state)
  | Complex => config ← deref config; ComplexVmAssigner_assign config state possibleSlots
  end.
End assigners.
