(* ===== verification/SelectorFacts.v ===== *)
(** * What the slot selector guarantees

    The invariant of the packing loop: the multimap indexes exactly the list
    nodes, every node is a slot on offer, and its idle capacity is its total less
    the requirements of the jobs in it. *)

From S2P Require Import Prelude Std Slot State OrderedJobs SlotSelector.

Section selector_facts.
Context `{StdLib} (possibleSlots : list SlotCapacity) (r : Z -> SlotCapacity).
(** [exact] stands for "every job fits the slot chosen for it". *)
Context (exact_fit : Prop).

Definition ids_cpu (ids : list Z) : Z := sum_list_Z (fun i => cpu (r i)) ids.
Definition ids_ram (ids : list Z) : Z := sum_list_Z (fun i => ram (r i)) ids.

Record node_ok (n : SlotNode) : Prop := {
  node_busy : node_jobs n <> [];
  node_on_offer : total (node_slot n) ∈ possibleSlots;
  node_idle_wf : slot_wf (idle (node_slot n));
  node_idle_fits : fits (idle (node_slot n)) (total (node_slot n)) = true;
  node_covers : cpu (total (node_slot n)) <= cpu (idle (node_slot n)) + ids_cpu (node_jobs n)
    /\ ram (total (node_slot n)) <= ram (idle (node_slot n)) + ids_ram (node_jobs n);
  node_exact : exact_fit ->
    cpu (total (node_slot n)) = cpu (idle (node_slot n)) + ids_cpu (node_jobs n)
    /\ ram (total (node_slot n)) = ram (idle (node_slot n)) + ids_ram (node_jobs n);
}.

Definition entry_of (n : SlotNode) : SlotCapacity * nat := (total (node_slot n), node_id n).

Record sel_inv (done : list Z) (s : SelState) : Prop := {
  inv_nodup : NoDup (node_id <$> sel_slots s);
  inv_fresh : Forall (fun n => (node_id n < sel_next s)%nat) (sel_slots s);
  inv_index : sel_index s ≡ₚ entry_of <$> sel_slots s;
  inv_nodes : Forall node_ok (sel_slots s);
  inv_jobs : sel_slots s ≫= node_jobs ≡ₚ done;
}.

Context (slots_wf : Forall slot_wf possibleSlots).

(** ** Nodes *)

Lemma get_node_elem slots n :
  NoDup (node_id <$> slots) -> n ∈ slots -> get_node (node_id n) slots = Some n.
Proof.
  intros Hnd Hn. unfold get_node.
  destruct (list_find _ slots) as [[i m]|] eqn:Hf; cbn.
  - apply list_find_Some in Hf as (Hm & Heq & _). f_equal.
    eapply NoDup_fmap_inj_on; eauto using list_elem_of_lookup_2.
  - apply list_find_None in Hf. rewrite Forall_forall in Hf. by destruct (Hf n Hn).
Qed.

Lemma erase_node_perm slots n :
  NoDup (node_id <$> slots) -> n ∈ slots -> slots ≡ₚ n :: erase_node (node_id n) slots.
Proof.
  unfold erase_node.
  induction slots as [|m slots IH]; intros Hnd Hn; [by apply not_elem_of_nil in Hn|].
  rewrite fmap_cons in Hnd. apply NoDup_cons in Hnd as [Hm Hnd]. rewrite filter_cons.
  apply elem_of_cons in Hn as [->|Hn].
  - rewrite decide_False by tauto. f_equiv.
    rewrite filter_all; [done|]. intros k Hk Heq. apply Hm.
    rewrite <- Heq. by apply list_elem_of_fmap_2.
  - rewrite decide_True by (intros Heq; apply Hm; rewrite Heq; by apply list_elem_of_fmap_2).
    rewrite (IH Hnd Hn) at 1. apply perm_swap.
Qed.

Lemma erase_entry_fmap it slots :
  erase_entry it (entry_of <$> slots) = entry_of <$> erase_node it slots.
Proof.
  unfold erase_entry, erase_node. induction slots as [|n slots IH]; [done|].
  rewrite fmap_cons, !filter_cons. cbn. rewrite IH. by case_decide.
Qed.

Lemma erase_node_fresh it next slots :
  Forall (fun n => (node_id n < next)%nat) slots ->
  Forall (fun n => (node_id n < next)%nat) (erase_node it slots).
Proof. intros Hs. unfold erase_node. by apply Forall_filter_keep. Qed.

(** What the pair of a [find] in the multimap and the two [erase]s amounts to. *)
Lemma take_entry key slots index e :
  NoDup (node_id <$> slots) -> index ≡ₚ entry_of <$> slots ->
  pick_equal (entries_of key index) = Some e ->
  exists n, get_node e.2 slots = Some n /\ total (node_slot n) = key /\ node_id n = e.2
    /\ slots ≡ₚ n :: erase_node e.2 slots
    /\ erase_entry e.2 index ≡ₚ entry_of <$> erase_node e.2 slots
    /\ NoDup (node_id <$> erase_node e.2 slots).
Proof.
  intros Hnd Hidx Hpick. apply pick_equal_elem in Hpick.
  apply list_elem_of_filter in Hpick as [Hkey He]. rewrite Hidx in He.
  apply list_elem_of_fmap in He as (n & -> & Hn). cbn in *.
  pose proof (erase_node_perm _ _ Hnd Hn) as Hp.
  exists n. repeat split; auto using get_node_elem.
  - rewrite <- erase_entry_fmap. unfold erase_entry. by rewrite Hidx.
  - rewrite Hp in Hnd. cbn in Hnd. by apply NoDup_cons in Hnd as [_ Hnd].
Qed.

(** Two slots of one size make one of the doubled size. *)
Lemma merge_nodes_ok n1 n2 start next :
  node_ok n1 -> node_ok n2 ->
  total (node_slot n1) = start -> total (node_slot n2) = start ->
  slot_mul start 2 ∈ possibleSlots ->
  node_ok (mkNode next
    (mkDesired (slot_mul (total (node_slot n1)) 2)
      (slot_add (idle (node_slot n1)) (idle (node_slot n2))))
    (node_jobs n1 ++ node_jobs n2)).
Proof.
  intros [Hb1 Ho1 Hw1 Hf1 Hc1 He1] [_ Ho2 Hw2 Hf2 Hc2 He2] Ht1 Ht2 Hx2.
  rewrite Ht1, Ht2 in *. rewrite Forall_forall in slots_wf.
  pose proof (slots_wf _ Ho1) as [Hs1 Hs2]. pose proof (slots_wf _ Hx2) as [Hs3 Hs4].
  destruct Hw1, Hw2. apply fits_spec in Hf1, Hf2.
  unfold slot_mul in Hs3, Hs4. cbn in Hs3, Hs4.
  rewrite size_t_wrap_small in Hs3 by lia. rewrite size_t_wrap_small in Hs4 by lia.
  unfold ids_cpu, ids_ram in *.
  split; cbn [node_slot total idle node_jobs]; 
    [by destruct (node_jobs n1)|done|..| intros He; specialize (He1 He); specialize (He2 He)];
    unfold slot_wf, ids_cpu, ids_ram, slot_mul, slot_add; rewrite ?fits_spec; cbn [cpu ram];
    rewrite ?sum_list_Z_app, !size_t_wrap_small; lia.
Qed.
(** ** Merging *)

Definition size_count (t : SlotCapacity) (s : SelState) : nat :=
  length (entries_of t (sel_index s)).

(** No two slots of a size whose double is on offer. *)
Definition merged_up (s : SelState) : Prop :=
  forall t, slot_mul t 2 ∈ possibleSlots -> (size_count t s <= 1)%nat.

(** As above, but the size just inserted may occur twice. *)
Definition merged_but (start : SlotCapacity) (s : SelState) : Prop :=
  forall t, slot_mul t 2 ∈ possibleSlots ->
    (size_count t s <= if decide (t = start) then 2 else 1)%nat.

Lemma entries_of_length key index1 index2 :
  index1 ≡ₚ index2 -> length (entries_of key index1) = length (entries_of key index2).
Proof. intros Hp. unfold entries_of. by rewrite Hp. Qed.

Lemma entries_of_app key i1 i2 : entries_of key (i1 ++ i2) = entries_of key i1 ++ entries_of key i2.
Proof. apply filter_app. Qed.

Lemma entries_of_nonempty key index :
  (1 <= length (entries_of key index))%nat -> exists e, pick_equal (entries_of key index) = Some e.
Proof.
  intros Hl. apply pick_equal_some. intros Hnil. rewrite Hnil in Hl. cbn in Hl. lia.
Qed.

(** One entry fewer of the key that was taken, the others as they were. *)
Lemma take_entry_count key slots index it n t :
  index ≡ₚ entry_of <$> slots -> slots ≡ₚ n :: erase_node it slots ->
  erase_entry it index ≡ₚ entry_of <$> erase_node it slots -> total (node_slot n) = key ->
  length (entries_of t index) =
    ((if decide (t = key) then 1 else 0) + length (entries_of t (erase_entry it index)))%nat.
Proof.
  intros Hidx Hs He Hk.
  rewrite (entries_of_length _ _ _ He).
  rewrite (entries_of_length t index (entry_of n :: (entry_of <$> erase_node it slots)))
    by (rewrite Hidx; rewrite Hs at 1; done).
  unfold entries_of at 1. rewrite filter_cons. cbn. rewrite Hk.
  destruct (decide (t = key)) as [->|Hne]; [by rewrite decide_True|].
  by rewrite decide_False by congruence.
Qed.

Lemma entries_of_singleton t x i :
  length (entries_of t [(x, i)]) = if decide (t = x) then 1%nat else 0%nat.
Proof.
  unfold entries_of. rewrite filter_cons, filter_nil. cbn.
  destruct (decide (t = x)) as [->|Hne]; [by rewrite decide_True|].
  by rewrite decide_False by congruence.
Qed.

(** The state one merge step produces. *)
Lemma merge_step done s start e1 e2 n1 n2 :
  sel_inv done s -> slot_mul start 2 ∈ possibleSlots ->
  let slots1 := erase_node e1 (sel_slots s) in
  let index1 := erase_entry e1 (sel_index s) in
  sel_slots s ≡ₚ n1 :: slots1 -> total (node_slot n1) = start ->
  index1 ≡ₚ entry_of <$> slots1 ->
  slots1 ≡ₚ n2 :: erase_node e2 slots1 -> total (node_slot n2) = start ->
  erase_entry e2 index1 ≡ₚ entry_of <$> erase_node e2 slots1 ->
  NoDup (node_id <$> erase_node e2 slots1) ->
  sel_inv done (mkSel
    (erase_node e2 slots1 ++ [mkNode (sel_next s)
       (mkDesired (slot_mul (total (node_slot n1)) 2)
         (slot_add (idle (node_slot n1)) (idle (node_slot n2))))
       (node_jobs n1 ++ node_jobs n2)])
    (erase_entry e2 index1 ++ [(slot_mul start 2, sel_next s)]) (S (sel_next s))).
Proof.
  intros [Hnd Hfr Hidx Hok Hjobs] Hx2 slots1 index1 Hs1 Ht1 Hi1 Hs2 Ht2 Hi2 Hnd2.
  set (rest := erase_node e2 slots1) in *.
  assert (Hall : sel_slots s ≡ₚ n1 :: n2 :: rest) by by rewrite Hs1, Hs2 at 1.
  assert (Hrest : Forall (fun n => (node_id n < sel_next s)%nat) rest)
    by by apply erase_node_fresh, erase_node_fresh.
  rewrite Hall in Hok. apply Forall_cons in Hok as [Hn1 Hok]. apply Forall_cons in Hok as [Hn2 Hok].
  split; cbn [sel_slots sel_index sel_next].
  - rewrite fmap_app. apply NoDup_app. split; [done|]. split; [|by apply NoDup_singleton].
    intros i Hi Hi'. apply list_elem_of_fmap in Hi as (n & -> & Hn).
    apply list_elem_of_singleton in Hi'. cbn in Hi'.
    rewrite Forall_forall in Hrest. specialize (Hrest n Hn). cbn in Hrest. lia.
  - apply Forall_app. split; [|repeat constructor; cbn; lia].
    eapply Forall_impl; [exact Hrest|]. cbn. lia.
  - rewrite fmap_app, Hi2. f_equiv. unfold entry_of. cbn. by rewrite Ht1.
  - apply Forall_app. split; [done|]. apply Forall_singleton. by eapply merge_nodes_ok.
  - rewrite <- Hjobs, Hall, bind_app. cbn. rewrite app_nil_r.
    rewrite (Permutation_app_comm (rest ≫= node_jobs)). by rewrite <- app_assoc.
Qed.
(** [merge_] returns, keeps the invariant, and leaves nothing to merge. *)
Lemma merge_spec done fuel : forall s start,
  sel_inv done s -> (1 <= size_count start s)%nat -> (length (sel_index s) <= fuel)%nat ->
  exists s', merge_ possibleSlots fuel s start = Ret s' /\ sel_inv done s'
    /\ (merged_but start s -> merged_up s').
Proof.
  induction fuel as [|fuel IH]; intros s start Hinv Hcount Hfuel.
  { unfold size_count, entries_of in Hcount. pose proof (length_filter (fun e : SlotCapacity * nat => e.1 = start) (sel_index s)). lia. }
  cbn [merge_]. fold (size_count start s). case_decide as H1.
  { exists s. split; [done|]. split; [done|]. intros Hbut t Ht. specialize (Hbut t Ht).
    destruct (decide (t = start)) as [->|]; lia. }
  destruct (list_find _ possibleSlots) as [[i x2]|] eqn:Hx2.
  2: { exists s. split; [done|]. split; [done|]. intros Hbut t Ht. specialize (Hbut t Ht).
       destruct (decide (t = start)) as [->|]; [|lia].
       apply list_find_None in Hx2. rewrite Forall_forall in Hx2. by destruct (Hx2 _ Ht). }
  apply list_find_Some in Hx2 as (Hx2 & -> & _). apply list_elem_of_lookup_2 in Hx2.
  pose proof Hinv as [Hnd _ Hidx _ _].
  destruct (entries_of_nonempty start (sel_index s)) as [e1 He1]; [done|].
  destruct (take_entry _ _ _ _ Hnd Hidx He1) as (n1 & Hg1 & Ht1 & Hid1 & Hs1 & Hi1 & Hnd1).
  pose proof (fun t => take_entry_count _ _ _ _ n1 t Hidx Hs1 Hi1 Ht1) as Hc1.
  destruct (entries_of_nonempty start (erase_entry e1.2 (sel_index s))) as [e2 He2].
  { unfold size_count in *. rewrite (Hc1 start), decide_True in * by done. lia. }
  destruct (take_entry _ _ _ _ Hnd1 Hi1 He2) as (n2 & Hg2 & Ht2 & Hid2 & Hs2 & Hi2 & Hnd2).
  pose proof (fun t => take_entry_count _ _ _ _ n2 t Hi1 Hs2 Hi2 Ht2) as Hc2.
  rewrite He1. cbn. rewrite Hg1. cbn. rewrite He2. cbn. rewrite Hg2. cbn.
  match goal with |- exists _, merge_ _ _ ?st ?x2 = _ /\ _ =>
    destruct (IH st x2) as (s' & Hs' & Hinv' & Hm') end.
  { apply merge_step with (start := start); eauto. }
  { unfold size_count. cbn [sel_index]. rewrite entries_of_app, length_app, entries_of_singleton, decide_True by done. lia. }
  { cbn [sel_index]. rewrite length_app. cbn [length]. rewrite Hi2, length_fmap.
    rewrite Hidx, length_fmap in Hfuel. apply Permutation_length in Hs1, Hs2. cbn in *. lia. }
  exists s'. split; [exact Hs'|]. split; [done|]. intros Hbut. apply Hm'. intros t Ht.
  specialize (Hbut t Ht). unfold size_count in *. cbn [sel_index].
  rewrite entries_of_app, length_app, entries_of_singleton.
  rewrite (Hc1 t), (Hc2 t) in Hbut.
  destruct (decide (t = start)), (decide (t = slot_mul start 2)); lia.
Qed.
(** ** One job *)

Lemma best_desired_step job slots : forall best b,
  foldl (better_slot job) best slots = Some b ->
  best = Some b \/ (b ∈ slots /\ fits (requiredCapacity job) (idle (node_slot b)) = true).
Proof.
  induction slots as [|n slots IH]; intros best b Hb; cbn in Hb; [by left|].
  apply IH in Hb as [Hb|[Hb Hf]]; [|right; split; [by right|done]].
  unfold better_slot in Hb. case_bool; [|by left]. simplify_eq.
  apply andb_true_iff in Heqb0 as [Hf _]. right. split; [left|done].
Qed.

Lemma best_desired_fits job slots b :
  best_desired job slots = Some b ->
  b ∈ slots /\ fits (requiredCapacity job) (idle (node_slot b)) = true.
Proof. intros Hb. by apply best_desired_step in Hb as [|]. Qed.

Lemma add_job_ok job n :
  node_ok n -> job_wf job -> r (job_id job) = requiredCapacity job ->
  fits (requiredCapacity job) (idle (node_slot n)) = true -> node_ok (add_job job n).
Proof.
  intros [_ Ho Hw Hf Hc He] Hj Hr Hfit. unfold job_wf in Hj.
  pose proof (slot_sub_wf _ _ Hw Hj) as Hsw.
  apply fits_spec in Hfit. apply fits_spec in Hf.
  split; cbn [node_slot add_job total idle node_jobs]; 
    [by destruct (node_jobs n)|done|done|..|intros Hex; specialize (He Hex)];
    rewrite ?fits_spec, ?slot_sub_cpu, ?slot_sub_ram by done;
    unfold ids_cpu, ids_ram in *; rewrite ?sum_list_Z_app, ?sum_list_Z_one, ?Hr; destruct Hw, Hj; lia.
Qed.
Lemma new_node_ok job slot next :
  slot ∈ possibleSlots -> job_wf job -> r (job_id job) = requiredCapacity job ->
  (exact_fit -> fits (requiredCapacity job) slot = true) ->
  node_ok (mkNode next (mkDesired slot (slot_sub slot (requiredCapacity job))) [job_id job]).
Proof.
  intros Hs Hj Hr Hex. unfold job_wf in Hj. rewrite Forall_forall in slots_wf.
  pose proof (slots_wf _ Hs) as Hsw. pose proof (slot_sub_wf _ _ Hsw Hj).
  split; cbn [node_slot total idle node_jobs];
    [done|done|done|by apply slot_sub_fits|..|intros He; specialize (Hex He); apply fits_spec in Hex];
    rewrite ?slot_sub_cpu, ?slot_sub_ram by done;
    unfold ids_cpu, ids_ram; rewrite !sum_list_Z_one, Hr; lia.
Qed.

Lemma update_node_perm job b slots :
  NoDup (node_id <$> slots) -> b ∈ slots ->
  ((fun n => if decide (node_id n = node_id b) then add_job job n else n) <$> slots)
    ≡ₚ add_job job b :: erase_node (node_id b) slots.
Proof.
  intros Hnd Hb. rewrite (erase_node_perm _ _ Hnd Hb) at 1. cbn.
  rewrite decide_True by done. f_equiv. unfold erase_node.
  rewrite <- (list_fmap_id (filter _ slots)) at 2. erewrite list_fmap_ext; [done|].
  intros i n Hn. apply list_elem_of_lookup_2, list_elem_of_filter in Hn as [Hne _].
  by rewrite decide_False.
Qed.

Lemma update_node_entries job b (slots : list SlotNode) :
  entry_of <$> ((fun n => if decide (node_id n = node_id b) then add_job job n else n) <$> slots)
    = entry_of <$> slots.
Proof.
  rewrite <- list_fmap_compose. apply list_fmap_ext. intros i n _. cbn. by case_decide.
Qed.

Lemma getMinFitSlot_returns slot :
  possibleSlots <> [] -> exists x, getMinFitSlot_ possibleSlots slot = Ret x /\ x ∈ possibleSlots.
Proof.
  intros Hne. unfold getMinFitSlot_. destruct (_ !! _) as [x|] eqn:Hx.
  - exists x. split; [done|]. by eapply list_elem_of_lookup_2.
  - destruct (last possibleSlots) as [x|] eqn:Hl.
    + exists x. split; [done|]. by apply last_Some_elem_of.
    + by apply last_None in Hl.
Qed.

Lemma select_job_spec done s job :
  sel_inv done s -> merged_up s -> possibleSlots <> [] ->
  job_wf job -> r (job_id job) = requiredCapacity job ->
  (exact_fit -> forall x, getMinFitSlot_ possibleSlots (requiredCapacity job) = Ret x ->
     fits (requiredCapacity job) x = true) ->
  exists s', select_job possibleSlots s job = Ret s' /\ sel_inv (done ++ [job_id job]) s' /\ merged_up s'.
Proof.
  intros Hinv Hm Hne Hj Hr Hex. pose proof Hinv as [Hnd Hfr Hidx Hok Hjobs]. unfold select_job.
  destruct (best_desired job (sel_slots s)) as [b|] eqn:Hb.
  - apply best_desired_fits in Hb as [Hb Hfit].
    eexists. split; [done|]. split; [|exact Hm].
    pose proof (update_node_perm job b _ Hnd Hb) as Hp.
    pose proof (erase_node_perm _ _ Hnd Hb) as He.
    split; cbn [sel_slots sel_index sel_next].
    + rewrite Hp. cbn. rewrite He in Hnd. exact Hnd.
    + rewrite Hp. rewrite He in Hfr. apply Forall_cons in Hfr as [? ?]. by apply Forall_cons.
    + by rewrite update_node_entries.
    + rewrite Hp. rewrite He in Hok. apply Forall_cons in Hok as [? ?]. apply Forall_cons.
      split; [by apply add_job_ok|done].
    + rewrite Hp. rewrite He in Hjobs. rewrite <- Hjobs. cbn.
      rewrite <- !app_assoc. apply Permutation_app_head, Permutation_app_comm.
  - destruct (getMinFitSlot_returns (requiredCapacity job) Hne) as (slot & Hslot & Hin).
    rewrite Hslot. cbn [mbind outcome_bind].
    match goal with |- exists _, merge_ _ _ ?st ?x = _ /\ _ =>
      destruct (merge_spec (done ++ [job_id job]) (length (sel_index st)) st x)
        as (s' & -> & Hinv' & Hm') end.
    + split; cbn [sel_slots sel_index sel_next].
      * rewrite fmap_app. apply NoDup_app. split; [done|]. split; [|by apply NoDup_singleton].
        intros i Hi Hi'. apply list_elem_of_fmap in Hi as (n & -> & Hn).
        apply list_elem_of_singleton in Hi'. cbn in Hi'.
        rewrite Forall_forall in Hfr. specialize (Hfr n Hn). cbn in Hfr. lia.
      * apply Forall_app. split; [|by apply Forall_singleton; cbn; lia].
        eapply Forall_impl; [exact Hfr|]. cbn. lia.
      * by rewrite fmap_app, Hidx.
      * apply Forall_app. split; [done|]. apply Forall_singleton. apply new_node_ok; auto.
      * rewrite bind_app, Hjobs. done.
    + unfold size_count. cbn [sel_index].
      rewrite entries_of_app, length_app, entries_of_singleton, decide_True by done. lia.
    + done.
    + exists s'. split; [done|]. split; [done|]. apply Hm'. intros t Ht. specialize (Hm t Ht).
      unfold size_count in *. cbn [sel_index].
      rewrite entries_of_app, length_app, entries_of_singleton. case_decide; lia.
Qed.

Lemma select_jobs_spec jobs : forall done s,
  sel_inv done s -> merged_up s -> possibleSlots <> [] ->
  Forall job_wf jobs -> (forall j, j ∈ jobs -> r (job_id j) = requiredCapacity j) ->
  (exact_fit -> forall j x, j ∈ jobs -> getMinFitSlot_ possibleSlots (requiredCapacity j) = Ret x ->
     fits (requiredCapacity j) x = true) ->
  exists s', select_jobs possibleSlots s jobs = Ret s'
    /\ sel_inv (done ++ (job_id <$> jobs)) s' /\ merged_up s'.
Proof.
  induction jobs as [|job jobs IH]; intros done s Hinv Hm Hne Hwf Hr Hex; cbn.
  { exists s. by rewrite app_nil_r. }
  apply Forall_cons in Hwf as [Hj Hwf].
  destruct (select_job_spec done s job) as (s1 & -> & Hinv1 & Hm1); auto.
  { apply Hr. left. }
  { intros He x. apply Hex; [done|left]. }
  cbn. destruct (IH (done ++ [job_id job]) s1) as (s' & -> & Hinv' & Hm'); auto.
  { intros j Hj'. apply Hr. by right. }
  { intros He j x Hj'. apply Hex; [done|by right]. }
  exists s'. split; [done|]. split; [|done]. by rewrite <- app_assoc in Hinv'.
Qed.

Lemma sel_empty_inv : sel_inv [] sel_empty.
Proof. split; cbn; try constructor. Qed.

Lemma sel_empty_merged : merged_up sel_empty.
Proof. intros t _. cbn. lia. Qed.
End selector_facts.

(** ** Numbering the slots *)

Section numbering.
Implicit Types (slots : list SlotNode) (asg : gmap Z VmInfo) (smap : gmap Z DesiredSlot).

Lemma number_slots_slot slots : forall next asg smap k,
  (number_slots slots next asg smap).2 !! k =
    if decide (next <= k < next + Z.of_nat (length slots))
    then node_slot <$> slots !! Z.to_nat (k - next) else smap !! k.
Proof.
  induction slots as [|n slots IH]; intros next asg smap k; cbn [number_slots length].
  { rewrite decide_False by lia. done. }
  rewrite IH. destruct (decide (k = next)) as [->|Hk].
  - rewrite decide_False, decide_True by lia. rewrite lookup_insert_eq.
    replace (next - next) with 0 by lia. done.
  - destruct (decide (next + 1 <= k < next + 1 + Z.of_nat (length slots))).
    + rewrite decide_True by lia.
      replace (Z.to_nat (k - next)) with (S (Z.to_nat (k - (next + 1)))) by lia. done.
    + rewrite decide_False by lia. by rewrite lookup_insert_ne.
Qed.

Lemma assign_all_lookup (ids : list Z) (t : VmInfo) : forall asg j,
  foldl (fun m i => <[i := t]> m) asg ids !! j = if decide (j ∈ ids) then Some t else asg !! j.
Proof.
  induction ids as [|i ids IH]; intros asg j; cbn [foldl].
  { rewrite decide_False by apply not_elem_of_nil. done. }
  rewrite IH. destruct (decide (j ∈ ids)) as [Hj|Hj].
  - rewrite decide_True by by right. done.
  - destruct (decide (j = i)) as [->|Hne].
    + rewrite decide_True by left. by rewrite lookup_insert_eq.
    + rewrite decide_False by (rewrite elem_of_cons; tauto). by rewrite lookup_insert_ne.
Qed.

Lemma number_slots_untouched slots : forall next asg smap j,
  j ∉ slots ≫= node_jobs -> (number_slots slots next asg smap).1 !! j = asg !! j.
Proof.
  induction slots as [|n slots IH]; intros next asg smap j Hj; cbn in *; [done|].
  rewrite elem_of_app in Hj. rewrite IH by tauto. rewrite assign_all_lookup.
  by rewrite decide_False by tauto.
Qed.

Lemma number_slots_job slots : forall next asg smap i n j,
  NoDup (slots ≫= node_jobs) -> slots !! i = Some n -> j ∈ node_jobs n ->
  (number_slots slots next asg smap).1 !! j = Some (DesiredVm (next + Z.of_nat i)).
Proof.
  induction slots as [|m slots IH]; intros next asg smap i n j Hnd Hn Hj; [done|].
  cbn in Hnd. apply NoDup_app in Hnd as (_ & Hdisj & Hnd). cbn [number_slots].
  destruct i as [|i]; cbn in Hn; simplify_eq.
  - rewrite number_slots_untouched by auto. rewrite assign_all_lookup, decide_True by done.
    do 2 f_equal. lia.
  - erewrite IH by eauto. do 2 f_equal. lia.
Qed.
End numbering.

(** The requirement of a job, by its id. *)
Definition req_of (jobs : list QueuedJobInfo) (i : Z) : SlotCapacity :=
  default slot_zero (requiredCapacity <$> (list_to_map ((fun j => (job_id j, j)) <$> jobs) : gmap Z QueuedJobInfo) !! i).

Lemma req_of_job jobs j :
  NoDup (job_id <$> jobs) -> j ∈ jobs -> req_of jobs (job_id j) = requiredCapacity j.
Proof.
  intros Hnd Hj. unfold req_of.
  rewrite (elem_of_list_to_map_1 _ _ j); [done| |].
  - by rewrite <- list_fmap_compose.
  - apply list_elem_of_fmap. eauto.
Qed.

Lemma req_of_perm jobs1 jobs2 i :
  NoDup (job_id <$> jobs1) -> jobs1 ≡ₚ jobs2 -> req_of jobs1 i = req_of jobs2 i.
Proof.
  intros Hnd Hp. unfold req_of. do 3 f_equal. apply list_to_map_proper.
  - by rewrite <- list_fmap_compose.
  - by rewrite Hp.
Qed.

(** ** The selector as a whole *)

(** What a call of [select] on [jobs] answers. *)
Record selection_ok (possibleSlots : list SlotCapacity) (jobs : list QueuedJobInfo)
    (exact_fit : Prop) (asg : gmap Z VmInfo) (smap : gmap Z DesiredSlot) : Prop := {
  sel_assigned : forall i, is_Some (asg !! i) <-> i ∈ job_id <$> jobs;
  sel_targets : forall i t, asg !! i = Some t ->
    exists d slot, t = DesiredVm d /\ smap !! d = Some slot;
  sel_busy : forall d, is_Some (smap !! d) -> exists i, asg !! i = Some (DesiredVm d);
  sel_numbered : exists n, forall d, is_Some (smap !! d) <-> 0 <= d < n;
  sel_nodes : forall d slot, smap !! d = Some slot ->
    total slot ∈ possibleSlots /\ slot_wf (idle slot) /\ fits (idle slot) (total slot) = true
    /\ cpu (total slot) <= cpu (idle slot) + jobs_cpu (jobs_at asg (DesiredVm d) jobs)
    /\ ram (total slot) <= ram (idle slot) + jobs_ram (jobs_at asg (DesiredVm d) jobs)
    /\ (exact_fit ->
         cpu (total slot) = cpu (idle slot) + jobs_cpu (jobs_at asg (DesiredVm d) jobs)
         /\ ram (total slot) = ram (idle slot) + jobs_ram (jobs_at asg (DesiredVm d) jobs));
  sel_merged : forall d1 d2 s1 s2, d1 <> d2 -> smap !! d1 = Some s1 -> smap !! d2 = Some s2 ->
    total s1 = total s2 -> slot_mul (total s1) 2 ∉ possibleSlots;
}.

(** Every job fits the slot [getMinFitSlot_] picks for it. *)
Definition all_fit (possibleSlots : list SlotCapacity) (jobs : list QueuedJobInfo) : Prop :=
  forall j x, j ∈ jobs -> getMinFitSlot_ possibleSlots (requiredCapacity j) = Ret x ->
    fits (requiredCapacity j) x = true.

Section select_outcome.
Context `{StdLib} (possibleSlots : list SlotCapacity) (jobs : list QueuedJobInfo) (s : SelState).
Let N := sel_slots s.
Let asg := (number_slots N 0 ∅ ∅).1.
Let smap := (number_slots N 0 ∅ ∅).2.
Context (Hnd : NoDup (job_id <$> jobs)).
Context (Hinv : sel_inv possibleSlots (req_of jobs) (all_fit possibleSlots jobs) (job_id <$> jobs) s).
Context (Hmerged : merged_up possibleSlots s).

Lemma nodes_nodup : NoDup (N ≫= node_jobs).
Proof. unfold N. by rewrite (inv_jobs _ _ _ _ _ Hinv). Qed.

Lemma node_jobs_elem i : i ∈ job_id <$> jobs <-> exists k n, N !! k = Some n /\ i ∈ node_jobs n.
Proof.
  rewrite <- (inv_jobs _ _ _ _ _ Hinv). fold N. rewrite list_elem_of_bind.
  setoid_rewrite list_elem_of_lookup. split.
  - intros (n & Hi & k & Hk). eauto.
  - intros (k & n & Hk & Hi). eauto.
Qed.

Lemma asg_lookup i t :
  asg !! i = Some t <->
    exists k n, N !! k = Some n /\ i ∈ node_jobs n /\ t = DesiredVm (Z.of_nat k).
Proof.
  unfold asg. split.
  - intros Ha. destruct (decide (i ∈ N ≫= node_jobs)) as [Hi|Hi].
    + apply list_elem_of_bind in Hi as (n & Hi & Hn). apply list_elem_of_lookup in Hn as [k Hk].
      exists k, n. erewrite number_slots_job in Ha by eauto using nodes_nodup. by simplify_eq.
    + rewrite number_slots_untouched in Ha by done. by rewrite lookup_empty in Ha.
  - intros (k & n & Hk & Hi & ->). by erewrite number_slots_job by eauto using nodes_nodup.
Qed.

Lemma smap_lookup d slot :
  smap !! d = Some slot <->
    exists k n, d = Z.of_nat k /\ N !! k = Some n /\ node_slot n = slot.
Proof.
  unfold smap. rewrite number_slots_slot, lookup_empty. split.
  - case_decide as Hd; [|done]. intros Hs. apply fmap_Some in Hs as (n & Hn & ->).
    exists (Z.to_nat d), n. rewrite Z.sub_0_r in Hn. split; [lia|done].
  - intros (k & n & -> & Hk & <-). pose proof (lookup_lt_Some _ _ _ Hk).
    rewrite decide_True by lia. by rewrite Z.sub_0_r, Nat2Z.id, Hk.
Qed.

Lemma node_jobs_at k n :
  N !! k = Some n -> job_id <$> jobs_at asg (DesiredVm (Z.of_nat k)) jobs ≡ₚ node_jobs n.
Proof.
  intros Hk. apply NoDup_Permutation.
  - by apply NoDup_fmap_filter.
  - pose proof nodes_nodup as Hn. apply list_elem_of_split_length in Hk as (l1 & l2 & Hsplit & _). rewrite Hsplit in Hn.
    rewrite bind_app in Hn. apply NoDup_app in Hn as (_ & _ & Hn). cbn in Hn.
    by apply NoDup_app in Hn as (? & _).
  - intros i. unfold jobs_at. rewrite list_elem_of_fmap. setoid_rewrite list_elem_of_filter. split.
    + intros (j & -> & Ha & Hj). apply asg_lookup in Ha as (k' & n' & Hk' & Hi & Heq).
      simplify_eq. by simplify_eq.
    + intros Hi. assert (Hid : i ∈ job_id <$> jobs) by (apply node_jobs_elem; eauto).
      apply list_elem_of_fmap in Hid as (j & -> & Hj). exists j.
      split; [done|]. split; [|done]. apply asg_lookup. eauto.
Qed.

Lemma jobs_at_cpu k n :
  N !! k = Some n -> jobs_cpu (jobs_at asg (DesiredVm (Z.of_nat k)) jobs) = ids_cpu (req_of jobs) (node_jobs n)
    /\ jobs_ram (jobs_at asg (DesiredVm (Z.of_nat k)) jobs) = ids_ram (req_of jobs) (node_jobs n).
Proof.
  intros Hk. pose proof (node_jobs_at _ _ Hk) as Hp. unfold ids_cpu, ids_ram, jobs_cpu, jobs_ram.
  rewrite <- Hp, !sum_list_Z_fmap.
  split; apply sum_list_Z_ext; intros j Hj; apply list_elem_of_filter in Hj as [_ Hj];
    by rewrite req_of_job.
Qed.

Lemma selection_from_state : selection_ok possibleSlots jobs (all_fit possibleSlots jobs) asg smap.
Proof.
  pose proof Hinv as [Hndn _ Hidx Hok _]. fold N in Hndn, Hidx, Hok. rewrite Forall_lookup in Hok.
  split.
  - intros i. rewrite node_jobs_elem. split.
    + intros [t Ht]. apply asg_lookup in Ht as (k & n & ? & ? & _). eauto.
    + intros (k & n & ? & ?). exists (DesiredVm (Z.of_nat k)). apply asg_lookup. eauto.
  - intros i t Ht. apply asg_lookup in Ht as (k & n & Hk & _ & ->).
    exists (Z.of_nat k), (node_slot n). split; [done|]. apply smap_lookup. eauto.
  - intros d [slot Hd]. apply smap_lookup in Hd as (k & n & -> & Hk & _).
    pose proof (node_busy _ _ _ _ (Hok _ _ Hk)) as Hb. destruct (node_jobs n) as [|i l] eqn:Hl; [done|].
    exists i. apply asg_lookup. exists k, n. rewrite Hl. split; [done|]. split; [left|done].
  - exists (Z.of_nat (length N)). intros d. unfold smap. rewrite number_slots_slot, lookup_empty.
    case_decide as Hd; [|by split; [intros []|]].
    rewrite fmap_is_Some. split; [done|]. intros _. apply lookup_lt_is_Some. lia.
  - intros d slot Hd. apply smap_lookup in Hd as (k & n & -> & Hk & <-).
    destruct (Hok _ _ Hk) as [_ Ho Hw Hf [Hc1 Hc2] He]. destruct (jobs_at_cpu _ _ Hk) as [-> ->].
    auto 10.
  - intros d1 d2 s1 s2 Hne Hd1 Hd2 Heq Hx2.
    apply smap_lookup in Hd1 as (k1 & n1 & -> & Hk1 & <-).
    apply smap_lookup in Hd2 as (k2 & n2 & -> & Hk2 & <-).
    specialize (Hmerged _ Hx2). unfold size_count in Hmerged.
    assert (Hin : forall k n, N !! k = Some n -> total (node_slot n) = total (node_slot n1) ->
      entry_of n ∈ entries_of (total (node_slot n1)) (sel_index s)).
    { intros k n Hk Ht. apply list_elem_of_filter. split; [done|]. rewrite Hidx.
      apply list_elem_of_fmap_2. by eapply list_elem_of_lookup_2. }
    pose proof (Hin _ _ Hk1 eq_refl) as H1. pose proof (Hin _ _ Hk2 (eq_sym Heq)) as H2.
    destruct (entries_of _ _) as [|e [|]]; cbn in Hmerged; [by apply not_elem_of_nil in H1| |lia].
    apply list_elem_of_singleton in H1, H2. rewrite <- H1 in H2.
    injection H2 as _ Hid. apply Hne. f_equal.
    eapply NoDup_lookup; [exact Hndn| |].
    + rewrite list_lookup_fmap, Hk1. done.
    + rewrite list_lookup_fmap, Hk2. cbn. by rewrite Hid.
Qed.
End select_outcome.

Theorem select_ok `{StdLib} possibleSlots jobs :
  possibleSlots <> [] -> Forall slot_wf possibleSlots ->
  Forall job_wf jobs -> NoDup (job_id <$> jobs) ->
  exists asg smap, select possibleSlots jobs = Ret (asg, smap)
    /\ selection_ok possibleSlots jobs (all_fit possibleSlots jobs) asg smap.
Proof.
  intros Hne Hsw Hjw Hnd. unfold select.
  pose proof (std_sort_perm job_greater jobs _) as Hp.
  destruct (select_jobs_spec possibleSlots (req_of jobs) (all_fit possibleSlots jobs) Hsw
    (std_sort job_greater jobs) [] sel_empty) as (s & -> & Hinv & Hm).
  - apply sel_empty_inv.
  - apply sel_empty_merged.
  - done.
  - by rewrite Hp.
  - intros j Hj. rewrite Hp in Hj. by apply req_of_job.
  - intros Hex j x Hj Hx. rewrite Hp in Hj. by eapply Hex.
  - cbn. eexists _, _. split; [f_equal; apply surjective_pairing|].
    apply selection_from_state; [done| |done]. cbn in Hinv.
    destruct Hinv as [? ? ? ? Hj]. split; auto. by rewrite Hj, Hp.
Qed.
