(* ===== verification/AssignerFacts.v ===== *)
(** * What a scheduling plan guarantees

    The loop over the existing VMs is analysed against the allocator contract
    alone; with the selector's guarantees this gives the properties of the plan
    that the storage will commit. *)

From S2P Require Import Prelude Std Slot State OrderedJobs JobAllocator AllocatorContract.
From S2P Require Import SlotSelector SelectorFacts Assigner.

(** ** The jobs an assignment sends somewhere *)

Section jobs_at.
Implicit Types (m : gmap Z VmInfo) (js : list QueuedJobInfo) (t : VmInfo).

Lemma jobs_at_app m t js1 js2 : jobs_at m t (js1 ++ js2) = jobs_at m t js1 ++ jobs_at m t js2.
Proof. apply filter_app. Qed.

Lemma jobs_at_perm m t js1 js2 : js1 ≡ₚ js2 -> jobs_at m t js1 ≡ₚ jobs_at m t js2.
Proof. intros Hp. unfold jobs_at. by rewrite Hp. Qed.

Lemma jobs_at_ext m1 m2 t js :
  (forall j, j ∈ js -> m1 !! job_id j = Some t <-> m2 !! job_id j = Some t) ->
  jobs_at m1 t js = jobs_at m2 t js.
Proof. intros Hext. by apply filter_ext_in. Qed.

Lemma jobs_at_elem m t js j : j ∈ jobs_at m t js <-> m !! job_id j = Some t /\ j ∈ js.
Proof. unfold jobs_at. by rewrite list_elem_of_filter. Qed.

Lemma jobs_cpu_app js1 js2 : jobs_cpu (js1 ++ js2) = jobs_cpu js1 + jobs_cpu js2.
Proof. apply sum_list_Z_app. Qed.
Lemma jobs_ram_app js1 js2 : jobs_ram (js1 ++ js2) = jobs_ram js1 + jobs_ram js2.
Proof. apply sum_list_Z_app. Qed.

#[export] Instance jobs_cpu_proper : Proper ((≡ₚ) ==> (=)) jobs_cpu.
Proof. apply sum_list_Z_proper. Qed.
#[export] Instance jobs_ram_proper : Proper ((≡ₚ) ==> (=)) jobs_ram.
Proof. apply sum_list_Z_proper. Qed.

Lemma jobs_at_fresh m t js j :
  m !! job_id j = None -> jobs_at m t (js ++ [j]) = jobs_at m t js.
Proof.
  intros Hm. rewrite jobs_at_app. unfold jobs_at at 2.
  rewrite filter_cons, decide_False by by rewrite Hm. by rewrite filter_nil, app_nil_r.
Qed.

(** Recording one more job. *)
Lemma jobs_at_insert m t t' js j :
  job_id j ∉ job_id <$> js ->
  jobs_at (<[job_id j := t']> m) t (js ++ [j])
    = jobs_at m t js ++ if decide (t' = t) then [j] else [].
Proof.
  intros Hj. rewrite jobs_at_app. f_equal.
  - apply jobs_at_ext. intros k Hk. rewrite lookup_insert_ne; [done|].
    intros Heq. apply Hj. rewrite Heq. by apply list_elem_of_fmap_2.
  - unfold jobs_at. rewrite filter_cons, filter_nil, lookup_insert_eq.
    destruct (decide (t' = t)) as [->|Hne]; [by rewrite decide_True|].
    by rewrite decide_False by congruence.
Qed.
End jobs_at.

(** ** The loop over the existing VMs *)

Section existing.
Context {S : Type} `{!JobAllocator S, !AllocatorContract S}.
Context (a0 : AllocState) (a0_nodup : NoDup (vm_id <$> al_vms a0)) (a0_wf : Forall vm_wf (al_vms a0)).

(** After the jobs [done] have been offered: what the allocator, the assignment
    and the list of rejected jobs look like. *)
Record existing_inv (done : list QueuedJobInfo) (s : S)
    (m : gmap Z VmInfo) (un : list QueuedJobInfo) : Prop := {
  ex_usable : usable s;
  ex_ids : vm_id <$> al_vms (view s) ≡ₚ vm_id <$> al_vms a0;
  ex_rejected : un = filter (fun j => m !! job_id j = None) done;
  ex_dom : forall i, is_Some (m !! i) -> i ∈ job_id <$> done;
  ex_target : forall i t, m !! i = Some t ->
    exists v, t = ExistingVm v /\ is_Some (vm_map (al_vms a0) !! v);
  ex_updated : forall v, v ∈ al_updated (view s) <-> exists i, m !! i = Some (ExistingVm v);
  ex_capacity : forall v vm0, vm_map (al_vms a0) !! v = Some vm0 ->
    exists vm, vm_map (al_vms (view s)) !! v = Some vm
      /\ totalCapacity vm = totalCapacity vm0 /\ slot_wf (idleCapacity vm)
      /\ cpu (idleCapacity vm) + jobs_cpu (jobs_at m (ExistingVm v) done) = cpu (idleCapacity vm0)
      /\ ram (idleCapacity vm) + jobs_ram (jobs_at m (ExistingVm v) done) = ram (idleCapacity vm0);
}.

Lemma take_job_exact vm job :
  slot_wf (idleCapacity vm) -> job_wf job ->
  fits (requiredCapacity job) (idleCapacity vm) = true ->
  slot_wf (idleCapacity (take_job vm job))
  /\ cpu (idleCapacity (take_job vm job)) + jobs_cpu [job] = cpu (idleCapacity vm)
  /\ ram (idleCapacity (take_job vm job)) + jobs_ram [job] = ram (idleCapacity vm).
Proof.
  intros Hw Hj Hf. unfold job_wf in Hj. cbn [take_job idleCapacity].
  apply fits_spec in Hf. split; [by apply slot_sub_wf|].
  unfold jobs_cpu, jobs_ram. rewrite slot_sub_cpu, slot_sub_ram, !sum_list_Z_one by done. lia.
Qed.

Lemma existing_rejects done s m un job :
  existing_inv done s m un -> job_id job ∉ job_id <$> done ->
  existing_inv (done ++ [job]) s m (un ++ [job]).
Proof.
  intros [Hu Hids Hun Hdom Htgt Hupd Hcap] Hj.
  assert (Hm : m !! job_id job = None).
  { destruct (m !! job_id job) eqn:E; [|done]. exfalso. apply Hj, Hdom. eauto. }
  split; auto.
  - rewrite filter_app, <- Hun. f_equal. by rewrite filter_cons, decide_True, filter_nil.
  - intros i Hi. rewrite fmap_app, elem_of_app. auto.
  - intros v vm0 Hv. rewrite jobs_at_fresh by done. auto.
Qed.

Lemma existing_accepts done s s' m un job vm :
  existing_inv done s m un -> job_id job ∉ job_id <$> done -> job_wf job ->
  usable s' -> placed (view s) (view s') vm job ->
  existing_inv (done ++ [job]) s' (<[job_id job := ExistingVm (vm_id vm)]> m) un.
Proof.
  intros [Hu Hids Hun Hdom Htgt Hupd Hcap] Hj Hjw Hu' Hp.
  assert (Hnd : NoDup (vm_id <$> al_vms (view s))) by by rewrite Hids.
  destruct (placed_map _ _ _ _ Hnd Hp) as [Hvm Hmap].
  pose proof (placed_ids _ _ _ _ Hp) as Hids'. destruct Hp as (rest & _ & Hfit & _ & Hset).
  assert (Hknown : is_Some (vm_map (al_vms a0) !! vm_id vm)).
  { apply vm_map_lookup in Hvm as [Hin _]; [|done].
    apply list_elem_of_fmap_2 with (f := vm_id) in Hin. rewrite Hids in Hin.
    apply list_elem_of_fmap in Hin as (w & Heq & Hw). exists w. by apply vm_map_lookup. }
  split; auto.
  - by rewrite Hids'.
  - rewrite filter_app, Hun. rewrite filter_cons, lookup_insert_eq, decide_False by done.
    rewrite filter_nil, app_nil_r. apply filter_ext_in. intros k Hk.
    rewrite lookup_insert_ne; [done|]. intros Heq. apply Hj. rewrite Heq.
    by apply list_elem_of_fmap_2.
  - intros i. rewrite fmap_app, elem_of_app, lookup_insert.
    case_decide as Hi; [subst; intros _; right; by apply list_elem_of_singleton|auto].
  - intros i t. rewrite lookup_insert. case_decide as Hi; [|apply Htgt].
    intros [= <-]. eauto.
  - intros v. rewrite Hset, elem_of_union, elem_of_singleton, Hupd. split.
    + intros [->|[i Hi]]; [exists (job_id job); apply lookup_insert_eq|].
      exists i. rewrite lookup_insert_ne; [done|]. intros Heq. apply Hj, Hdom. rewrite Heq. eauto.
    + intros [i Hi]. rewrite lookup_insert in Hi. case_decide; [by left; congruence|right; eauto].
  - intros v vm0 Hv. destruct (Hcap _ _ Hv) as (w & Hw & Ht & Hwf & Hc & Hr).
    rewrite jobs_at_insert, jobs_cpu_app, jobs_ram_app by done. rewrite Hmap.
    destruct (decide (vm_id vm = v)) as [<-|Hne].
    + rewrite Hvm in Hw. injection Hw as <-. rewrite lookup_insert_eq, decide_True by done.
      destruct (take_job_exact vm job) as (? & ? & ?); auto.
      exists (take_job vm job). split; [done|]. split; [done|]. split; [done|]. lia.
    + rewrite lookup_insert_ne, decide_False by congruence.
      exists w. change (jobs_cpu []) with 0. change (jobs_ram []) with 0.
      split; [done|]. split; [done|]. split; [done|]. lia.
Qed.

Lemma assign_existing_spec jobs : forall done s m un,
  existing_inv done s m un -> NoDup (job_id <$> (done ++ jobs)) -> Forall job_wf jobs ->
  exists s' m' un', assign_existing s jobs m un = Ret (s', m', un')
    /\ existing_inv (done ++ jobs) s' m' un'.
Proof.
  induction jobs as [|job jobs IH]; intros done s m un Hinv Hnd Hwf; cbn [assign_existing].
  { exists s, m, un. by rewrite app_nil_r. }
  apply Forall_cons in Hwf as [Hjw Hwf].
  assert (Hfresh : job_id job ∉ job_id <$> done).
  { rewrite fmap_app, fmap_cons in Hnd. apply NoDup_app in Hnd as (_ & Hd & _).
    intros Hin. apply (Hd _ Hin). left. }
  rewrite cons_middle, app_assoc in Hnd. rewrite (cons_middle job done jobs), app_assoc.
  destruct (contract_allocate s job (ex_usable _ _ _ _ Hinv)) as [->|(vm & s' & -> & Hu & Hp)];
    cbn [mbind outcome_bind].
  - apply IH; auto. by apply existing_rejects.
  - apply IH; auto. by eapply existing_accepts.
Qed.
End existing.

(** ** The plan *)

(** The idle capacity of a VM once the plan is applied. *)
Definition idle_after (c : StateChange) (vm : ActiveVm) : SlotCapacity :=
  default (idleCapacity vm) (updatedIdleCapacities c !! vm_id vm).

(** The jobs of the snapshot the plan puts on [t]. *)
Definition planned (state : State) (c : StateChange) (t : VmInfo) : list QueuedJobInfo :=
  jobs_at (jobToVm c) t (queuedJobs state).

Record plan_ok (state : State) (possibleSlots : list SlotCapacity) (c : StateChange) : Prop := {
  plan_assigns : forall i, is_Some (jobToVm c !! i) <-> i ∈ job_id <$> queuedJobs state;
  plan_existing : forall i v, jobToVm c !! i = Some (ExistingVm v) -> v ∈ vm_id <$> vms state;
  plan_desired : forall i d, jobToVm c !! i = Some (DesiredVm d) -> is_Some (desiredSlotMap c !! d);
  plan_busy : forall d, is_Some (desiredSlotMap c !! d) -> exists i, jobToVm c !! i = Some (DesiredVm d);
  plan_capacity : forall vm, vm ∈ vms state ->
    slot_wf (idle_after c vm)
    /\ cpu (idle_after c vm) + jobs_cpu (planned state c (ExistingVm (vm_id vm))) = cpu (idleCapacity vm)
    /\ ram (idle_after c vm) + jobs_ram (planned state c (ExistingVm (vm_id vm))) = ram (idleCapacity vm);
  plan_updated : forall v, is_Some (updatedIdleCapacities c !! v)
    <-> exists i, jobToVm c !! i = Some (ExistingVm v);
  plan_slots : forall d slot, desiredSlotMap c !! d = Some slot ->
    total slot ∈ possibleSlots /\ slot_wf (idle slot) /\ fits (idle slot) (total slot) = true
    /\ cpu (total slot) <= cpu (idle slot) + jobs_cpu (planned state c (DesiredVm d))
    /\ ram (total slot) <= ram (idle slot) + jobs_ram (planned state c (DesiredVm d))
    /\ (all_fit possibleSlots (queuedJobs state) ->
         cpu (total slot) = cpu (idle slot) + jobs_cpu (planned state c (DesiredVm d))
         /\ ram (total slot) = ram (idle slot) + jobs_ram (planned state c (DesiredVm d)));
  plan_merged : forall d1 d2 s1 s2, d1 <> d2 -> desiredSlotMap c !! d1 = Some s1 ->
    desiredSlotMap c !! d2 = Some s2 -> total s1 = total s2 ->
    slot_mul (total s1) 2 ∉ possibleSlots;
  plan_terminates : forall v, v ∈ vmsToTerminate c
    <-> exists vm, vm ∈ vms state /\ vm_id vm = v /\ totalCapacity vm = idle_after c vm;
}.

Section complex_plan.
Context `{StdLib} (state : State) (possibleSlots : list SlotCapacity).
Context (alloc : AnyAllocator) (m asg : gmap Z VmInfo) (un ordered : list QueuedJobInfo)
        (smap : gmap Z DesiredSlot) (a0 : AllocState).
Context (Hstate : state_wf state) (Hvms : al_vms a0 ≡ₚ vms state).
Context (Hordered : ordered ≡ₚ queuedJobs state).
Context (Hinv : existing_inv a0 ordered alloc m un).
Context (Hsel : selection_ok possibleSlots un (all_fit possibleSlots un) asg smap).
Let c := mkStateChange (asg ∪ m) smap
  (getVmsWithUpdatedCapacities alloc) (getIdleVms alloc).

Lemma rejected_elem j : j ∈ un <-> j ∈ ordered /\ m !! job_id j = None.
Proof. rewrite (ex_rejected _ _ _ _ _ Hinv), list_elem_of_filter. tauto. Qed.

Lemma ordered_nodup : NoDup (job_id <$> ordered).
Proof. rewrite Hordered. apply Hstate. Qed.

Lemma asg_m_disjoint i : is_Some (asg !! i) -> m !! i = None.
Proof.
  rewrite (sel_assigned _ _ _ _ _ Hsel), list_elem_of_fmap.
  intros (j & -> & Hj). by apply rejected_elem in Hj as [_ Hj].
Qed.

Lemma lookup_existing i v :
  (asg ∪ m) !! i = Some (ExistingVm v) <-> m !! i = Some (ExistingVm v).
Proof.
  rewrite lookup_union_Some_raw. split.
  - intros [Ha|[_ Hm]]; [|done].
    destruct (sel_targets _ _ _ _ _ Hsel _ _ Ha) as (d & slot & ? & _). done.
  - intros Hm. right. split; [|done]. destruct (asg !! i) eqn:E; [|done].
    rewrite asg_m_disjoint in Hm; [done|eauto].
Qed.

Lemma lookup_desired i d :
  (asg ∪ m) !! i = Some (DesiredVm d) <-> asg !! i = Some (DesiredVm d).
Proof.
  rewrite lookup_union_Some_raw. split; [|by left]. intros [Ha|[_ Hm]]; [done|].
  destruct (ex_target _ _ _ _ _ Hinv _ _ Hm) as (v & ? & _). done.
Qed.

Lemma planned_existing v :
  planned state c (ExistingVm v) ≡ₚ jobs_at m (ExistingVm v) ordered.
Proof.
  unfold planned, c. cbn [jobToVm]. rewrite <- (jobs_at_perm _ _ _ _ Hordered).
  rewrite (jobs_at_ext _ m); [done|]. intros j _. apply lookup_existing.
Qed.

Lemma planned_desired d : planned state c (DesiredVm d) ≡ₚ jobs_at asg (DesiredVm d) un.
Proof.
  unfold planned, c. cbn [jobToVm]. rewrite <- (jobs_at_perm _ _ _ _ Hordered).
  rewrite (jobs_at_ext _ asg) by (intros j _; apply lookup_desired).
  rewrite (ex_rejected _ _ _ _ _ Hinv). unfold jobs_at. rewrite list_filter_filter_l; [done|].
  intros j Hj. apply asg_m_disjoint. eauto.
Qed.

Lemma vm_map_a0 vm : vm ∈ vms state -> vm_map (al_vms a0) !! vm_id vm = Some vm.
Proof.
  intros Hvm. apply vm_map_lookup; [rewrite Hvms; apply Hstate|]. by rewrite Hvms.
Qed.

Lemma updated_some v :
  is_Some (updatedIdleCapacities c !! v) <-> exists i, m !! i = Some (ExistingVm v).
Proof.
  unfold c. cbn [updatedIdleCapacities].
  rewrite contract_updated, updated_capacities_lookup, <- (ex_updated _ _ _ _ _ Hinv v).
  case_decide as Hv; [|by split; [intros []|]]. split; [done|]. intros _.
  apply fmap_is_Some. apply (ex_updated _ _ _ _ _ Hinv) in Hv as [i Hi].
  destruct (ex_target _ _ _ _ _ Hinv _ _ Hi) as (w & [= <-] & [vm0 Hvm0]).
  destruct (ex_capacity _ _ _ _ _ Hinv _ _ Hvm0) as (vm & -> & _). eauto.
Qed.

Lemma idle_after_lookup vm vm' :
  vm ∈ vms state -> vm_map (al_vms (view alloc)) !! vm_id vm = Some vm' ->
  idle_after c vm = idleCapacity vm'.
Proof.
  intros Hvm Hvm'. unfold idle_after, c. cbn [updatedIdleCapacities].
  rewrite contract_updated, updated_capacities_lookup, Hvm'. case_decide as Hup; [done|]. cbn.
  destruct (ex_capacity _ _ _ _ _ Hinv _ _ (vm_map_a0 _ Hvm)) as (w & Hw & _ & _ & Hc & Hr).
  assert (Hnone : jobs_at m (ExistingVm (vm_id vm)) ordered = []).
  { destruct (jobs_at _ _ _) as [|j l] eqn:E; [done|]. exfalso. apply Hup.
    apply (ex_updated _ _ _ _ _ Hinv). exists (job_id j).
    assert (Hj : j ∈ jobs_at m (ExistingVm (vm_id vm)) ordered) by (rewrite E; left).
    by apply jobs_at_elem in Hj as [Hj _]. }
  rewrite Hvm' in Hw. injection Hw as <-. rewrite Hnone in Hc, Hr. cbn in Hc, Hr.
  apply slot_eq; lia.
Qed.

Lemma vms_after vm' :
  vm' ∈ al_vms (view alloc) <->
  exists vm, vm ∈ vms state /\ vm_map (al_vms (view alloc)) !! vm_id vm = Some vm' .
Proof.
  assert (Hnd : NoDup (vm_id <$> al_vms (view alloc))).
  { rewrite (ex_ids _ _ _ _ _ Hinv), Hvms. apply Hstate. }
  split.
  - intros Hin. pose proof (list_elem_of_fmap_2 vm_id _ _ Hin) as Hid.
    rewrite (ex_ids _ _ _ _ _ Hinv), Hvms in Hid. apply list_elem_of_fmap in Hid as (vm & Hid & Hvm).
    exists vm. split; [done|]. by apply vm_map_lookup.
  - intros (vm & _ & Hm). by apply vm_map_lookup in Hm as [].
Qed.

Lemma complex_plan_from_parts : plan_ok state possibleSlots c.
Proof.
  pose proof Hinv as [_ _ _ Hdom Htgt _ Hcap]. pose proof Hsel as [Hasg Htgts Hbusy _ Hnodes Hmerged].
  split.
  - intros i. unfold c. cbn [jobToVm]. rewrite <- Hordered. split.
    + intros [t Ht]. apply lookup_union_Some_raw in Ht as [Ht|[_ Ht]]; [|by eauto].
      assert (Hi : i ∈ job_id <$> un) by (apply Hasg; eauto).
      apply list_elem_of_fmap in Hi as (j & -> & Hj). apply list_elem_of_fmap_2.
      by apply rejected_elem in Hj as [].
    + intros Hi. apply list_elem_of_fmap in Hi as (j & -> & Hj).
      rewrite lookup_union_is_Some. destruct (m !! job_id j) as [t|] eqn:Hm; [by right|left].
      apply Hasg. apply list_elem_of_fmap_2. by apply rejected_elem.
  - intros i v Hi. apply lookup_existing in Hi. destruct (Htgt _ _ Hi) as (w & [= <-] & [vm Hvm]).
    apply vm_map_lookup in Hvm as [Hvm <-]; [|rewrite Hvms; apply Hstate].
    apply list_elem_of_fmap_2. by rewrite <- Hvms.
  - intros i d Hi. apply lookup_desired in Hi. destruct (Htgts _ _ Hi) as (d' & slot & [= <-] & Hs).
    eauto.
  - intros d Hd. destruct (Hbusy d Hd) as [i Hi]. exists i. by apply lookup_union_Some_l.
  - intros vm Hvm. destruct (Hcap _ _ (vm_map_a0 _ Hvm)) as (w & Hw & _ & Hwf & Hc & Hr).
    rewrite (idle_after_lookup _ _ Hvm Hw), !planned_existing. auto.
  - intros v. rewrite updated_some. change (jobToVm c) with (asg ∪ m).
    by setoid_rewrite lookup_existing.
  - intros d slot Hd. destruct (Hnodes d slot Hd) as (Ho & Hw & Hf & Hc & Hr & He).
    rewrite !planned_desired. repeat (split; [done|]). intros Hall. apply He.
    intros j x Hj. apply Hall. apply rejected_elem in Hj as [Hj _]. by rewrite <- Hordered.
  - apply Hmerged.
  - intros v. change (vmsToTerminate c) with (getIdleVms alloc).
    rewrite contract_idle, idle_vms_elem.
    setoid_rewrite vms_after. split.
    + intros (vm' & (vm & Hvm & Hm) & <- & Heq). exists vm. split; [done|].
      destruct (Hcap _ _ (vm_map_a0 _ Hvm)) as (w & Hw & Ht & _). rewrite Hm in Hw. injection Hw as <-.
      rewrite (idle_after_lookup _ _ Hvm Hm), <- Ht. split; [|done].
      apply vm_map_lookup in Hm as [_ Hm]; [done|].
      rewrite (ex_ids _ _ _ _ _ Hinv), Hvms. apply Hstate.
    + intros (vm & Hvm & <- & Heq). destruct (Hcap _ _ (vm_map_a0 _ Hvm)) as (w & Hw & Ht & _).
      exists w. split; [eauto|]. rewrite (idle_after_lookup _ _ Hvm Hw), <- Ht in Heq.
      split; [|done]. apply vm_map_lookup in Hw as [_ Hw]; [done|].
      rewrite (ex_ids _ _ _ _ _ Hinv), Hvms. apply Hstate.
Qed.
End complex_plan.

Lemma existing_inv_start (a : AnyAllocator) :
  usable a -> al_updated (view a) = ∅ -> Forall vm_wf (al_vms (view a)) ->
  NoDup (vm_id <$> al_vms (view a)) -> existing_inv (view a) [] a ∅ [].
Proof.
  intros Hu Hup Hwf Hnd. split; auto.
  - intros i. rewrite lookup_empty. by intros [].
  - intros i t. by rewrite lookup_empty.
  - intros v. rewrite Hup. setoid_rewrite lookup_empty. set_solver.
  - intros v vm Hvm. exists vm. rewrite Forall_forall in Hwf.
    pose proof Hvm as Hin. apply vm_map_lookup in Hin as [Hin _]; [|done].
    destruct (Hwf _ Hin) as (_ & ? & _). change (jobs_cpu _) with 0. change (jobs_ram _) with 0.
    repeat (split; [done|]). lia.
Qed.

Theorem complex_assign_ok `{StdLib} config state possibleSlots :
  allocationStrategy config <> NextFit -> state_wf state ->
  possibleSlots <> [] -> Forall slot_wf possibleSlots ->
  exists c, ComplexVmAssigner_assign config state possibleSlots = Ret c
    /\ plan_ok state possibleSlots c.
Proof.
  intros Hstrat Hst Hne Hsw. unfold ComplexVmAssigner_assign.
  set (ordered := createOrderedJobs _ _). set (alloc := createJobAllocator _ _).
  pose proof (createOrderedJobs_perm (jobOrdering config) (queuedJobs state)) as Hord.
  destruct (createJobAllocator_view (allocationStrategy config) (vms state)) as [Hv Hu].
  fold ordered in Hord. fold alloc in Hv, Hu. pose proof Hst as [Hjw Hvw Hjn Hvn].
  assert (Hnd : NoDup (job_id <$> ordered)) by by rewrite Hord.
  destruct (assign_existing_spec (view alloc) ltac:(by rewrite Hv) ordered [] alloc ∅ [])
    as (alloc' & m & un & -> & Hinv); auto.
  { apply existing_inv_start; [by apply createJobAllocator_usable|done|by rewrite Hv..]. }
  { by rewrite Hord. }
  cbn [mbind outcome_bind app] in *.
  assert (Hun : un = filter (fun j => m !! job_id j = None) ordered) by apply Hinv.
  destruct (select_ok possibleSlots un) as (asg & smap & -> & Hsel); auto.
  { rewrite Hun. apply Forall_filter_keep. by rewrite Hord. }
  { rewrite Hun. by apply NoDup_fmap_filter. }
  cbn [mbind outcome_bind]. eexists. split; [done|].
  by eapply complex_plan_from_parts.
Qed.
