(* ===== verification/PlanFacts.v ===== *)
(** * Plans, whichever assigner computed them

    What the storage and the scheduler rely on in a plan, and that both assigners
    deliver it. *)

From S2P Require Import Prelude Std Slot State OrderedJobs JobAllocator AllocatorContract.
From S2P Require Import SlotSelector SelectorFacts Assigner AssignerFacts.

Record plan_sound (state : State) (c : StateChange) : Prop := {
  ps_assigns : forall i, is_Some (jobToVm c !! i) <-> i ∈ job_id <$> queuedJobs state;
  ps_existing : forall i v, jobToVm c !! i = Some (ExistingVm v) -> v ∈ vm_id <$> vms state;
  ps_desired : forall i d, jobToVm c !! i = Some (DesiredVm d) -> is_Some (desiredSlotMap c !! d);
  ps_busy : forall d, is_Some (desiredSlotMap c !! d) -> exists i, jobToVm c !! i = Some (DesiredVm d);
  ps_slots : forall d s, desiredSlotMap c !! d = Some s ->
    slot_wf (total s) /\ slot_wf (idle s) /\ fits (idle s) (total s) = true;
  ps_updated : forall v s, updatedIdleCapacities c !! v = Some s -> exists vm, vm ∈ vms state
    /\ vm_id vm = v /\ slot_wf s /\ fits s (idleCapacity vm) = true;
  ps_terminates : forall v, v ∈ vmsToTerminate c -> v ∈ vm_id <$> vms state;
  ps_spares : forall j v, j ∈ queuedJobs state -> slot_positive (requiredCapacity j) ->
    jobToVm c !! job_id j = Some (ExistingVm v) -> v ∉ vmsToTerminate c;
}.

(** ** The complex assigner *)

Section planned_sums.
Context (state : State) (c : StateChange) (Hst : state_wf state).

Lemma planned_nonneg t : 0 <= jobs_cpu (planned state c t) /\ 0 <= jobs_ram (planned state c t).
Proof.
  pose proof (state_jobs_wf _ Hst) as Hj. rewrite Forall_forall in Hj.
  split; apply sum_list_Z_nonneg; intros j [_ Hin]%jobs_at_elem; destruct (Hj j Hin) as [[? _] [? _]]; done.
Qed.

(** The sum over jobs is at least what one of them asks for. *)
Lemma sum_list_Z_elem {A} (f : A -> Z) (l : list A) a :
  (forall x, x ∈ l -> 0 <= f x) -> a ∈ l -> f a <= sum_list_Z f l.
Proof.
  intros Hf Ha. apply list_elem_of_split in Ha as (l1 & l2 & ->).
  rewrite sum_list_Z_app. change (a :: l2) with ([a] ++ l2). rewrite sum_list_Z_app, sum_list_Z_one.
  assert (0 <= sum_list_Z f l1) by (apply sum_list_Z_nonneg; set_solver).
  assert (0 <= sum_list_Z f l2) by (apply sum_list_Z_nonneg; set_solver). lia.
Qed.

Lemma planned_positive t j :
  j ∈ queuedJobs state -> jobToVm c !! job_id j = Some t -> slot_positive (requiredCapacity j) ->
  0 < jobs_cpu (planned state c t) + jobs_ram (planned state c t).
Proof.
  intros Hj Ht Hp. pose proof (state_jobs_wf _ Hst) as Hw. rewrite Forall_forall in Hw.
  assert (j ∈ planned state c t) as Hin by by apply jobs_at_elem.
  assert (forall x, x ∈ planned state c t -> slot_wf (requiredCapacity x)) as Hwp.
  { intros x [_ Hx]%jobs_at_elem. by apply Hw. }
  assert (cpu (requiredCapacity j) <= jobs_cpu (planned state c t)).
  { apply (sum_list_Z_elem (fun j => cpu (requiredCapacity j))); [|done].
    intros x Hx. by destruct (Hwp x Hx) as [[? _] _]. }
  assert (ram (requiredCapacity j) <= jobs_ram (planned state c t)).
  { apply (sum_list_Z_elem (fun j => ram (requiredCapacity j))); [|done].
    intros x Hx. by destruct (Hwp x Hx) as [_ [? _]]. }
  destruct (Hwp j Hin) as [[? _] [? _]]. destruct Hp; lia.
Qed.
End planned_sums.

Lemma plan_ok_sound state possibleSlots c :
  state_wf state -> Forall slot_wf possibleSlots -> plan_ok state possibleSlots c -> plan_sound state c.
Proof.
  intros Hst Hsw [Hasg Hex Hdes Hbusy Hcap Hupd Hslots _ Hterm]. rewrite Forall_forall in Hsw.
  split; try done.
  - intros d s Hd. destruct (Hslots d s Hd) as (? & ? & ? & _). auto.
  - intros v s Hs. assert (v ∈ vm_id <$> vms state) as Hv.
    { destruct (proj1 (Hupd v)) as [i Hi]; [by eauto|]. eauto. }
    apply list_elem_of_fmap in Hv as (vm & -> & Hvm). exists vm. split; [done|]. split; [done|].
    destruct (Hcap vm Hvm) as (Hw & Hc & Hr). unfold idle_after in *. rewrite Hs in *. cbn in *.
    split; [done|]. apply fits_spec.
    destruct (planned_nonneg state c Hst (ExistingVm (vm_id vm))). lia.
  - intros v Hv. apply Hterm in Hv as (vm & Hvm & <- & _). by apply list_elem_of_fmap_2.
  - intros j v Hj Hp Ht Hv. apply Hterm in Hv as (vm & Hvm & <- & Heq).
    destruct (Hcap vm Hvm) as (_ & Hc & Hr).
    pose proof (planned_positive state c Hst _ _ Hj Ht Hp) as Hpos.
    pose proof (state_vms_wf _ Hst) as Hvw. rewrite Forall_forall in Hvw.
    destruct (Hvw vm Hvm) as (_ & _ & Hf). apply fits_spec in Hf. rewrite Heq in Hf.
    destruct (planned_nonneg state c Hst (ExistingVm (vm_id vm))). lia.
Qed.

(** ** The simple assigner *)

Lemma simple_loop_jobs jobs : forall next asg smap,
  NoDup (job_id <$> jobs) ->
  (forall k j, jobs !! k = Some j ->
     (simple_loop jobs next asg smap).1 !! job_id j = Some (DesiredVm (next + Z.of_nat k)))
  /\ (forall i, i ∉ job_id <$> jobs -> (simple_loop jobs next asg smap).1 !! i = asg !! i).
Proof.
  induction jobs as [|j jobs IH]; intros next asg smap Hnd; cbn [simple_loop]; [done|].
  rewrite fmap_cons in Hnd. apply NoDup_cons in Hnd as [Hj Hnd].
  match goal with |- context [simple_loop jobs ?n ?a ?m] => destruct (IH n a m Hnd) as [Hin Hout] end.
  split.
  - intros [|k] x Hx; cbn in Hx; simplify_eq.
    + rewrite Hout by done. rewrite lookup_insert_eq. do 2 f_equal. lia.
    + rewrite (Hin k x Hx). do 2 f_equal. lia.
  - intros i Hi. rewrite fmap_cons in Hi. apply not_elem_of_cons in Hi as [Hne Hi].
    rewrite Hout by done. by rewrite lookup_insert_ne.
Qed.

Lemma simple_loop_slots jobs : forall next asg smap,
  (forall d, next <= d -> smap !! d = None) ->
  forall d, (simple_loop jobs next asg smap).2 !! d =
    if decide (next <= d < next + Z.of_nat (length jobs))
    then (fun j => mkDesired (requiredCapacity j) slot_zero) <$> jobs !! Z.to_nat (d - next)
    else smap !! d.
Proof.
  induction jobs as [|j jobs IH]; intros next asg smap Hfree d; cbn [simple_loop].
  { rewrite decide_False by (cbn; lia). done. }
  rewrite Hfree by lia. rewrite IH.
  - cbn [length]. destruct (decide (d = next)) as [->|Hne].
    + rewrite decide_False by lia. rewrite decide_True by lia. rewrite lookup_insert_eq.
      by replace (next - next) with 0 by lia.
    + destruct (decide (next + 1 <= d < next + 1 + Z.of_nat (length jobs))).
      * rewrite decide_True by lia.
        by replace (Z.to_nat (d - next)) with (S (Z.to_nat (d - (next + 1)))) by lia.
      * rewrite decide_False by lia. by rewrite lookup_insert_ne.
  - intros d' Hd'. rewrite lookup_insert_ne by lia. apply Hfree. lia.
Qed.

(** Every job gets a VM of exactly its size. *)
Lemma simple_assign_spec state k j :
  NoDup (job_id <$> queuedJobs state) -> queuedJobs state !! k = Some j ->
  jobToVm (SimpleVmAssigner_assign state) !! job_id j = Some (DesiredVm (Z.of_nat k))
  /\ desiredSlotMap (SimpleVmAssigner_assign state) !! Z.of_nat k
     = Some (mkDesired (requiredCapacity j) slot_zero).
Proof.
  intros Hnd Hk. unfold SimpleVmAssigner_assign.
  destruct (simple_loop_jobs (queuedJobs state) 0 ∅ ∅ Hnd) as [Hin _].
  pose proof (simple_loop_slots (queuedJobs state) 0 ∅ ∅ (fun _ _ => lookup_empty _) (Z.of_nat k)) as Hs.
  specialize (Hin k j Hk). pose proof (lookup_lt_Some _ _ _ Hk).
  rewrite decide_True, Z.sub_0_r, Nat2Z.id, Hk in Hs by lia.
  destruct (simple_loop _ _ _ _) as [asg smap]. cbn in *. split; [done|exact Hs].
Qed.

(** And nothing else is planned. *)
Lemma simple_assign_inv state :
  NoDup (job_id <$> queuedJobs state) ->
  (forall i t, jobToVm (SimpleVmAssigner_assign state) !! i = Some t ->
     exists k j, queuedJobs state !! k = Some j /\ job_id j = i /\ t = DesiredVm (Z.of_nat k))
  /\ (forall d s, desiredSlotMap (SimpleVmAssigner_assign state) !! d = Some s ->
     exists k j, queuedJobs state !! k = Some j /\ d = Z.of_nat k
       /\ s = mkDesired (requiredCapacity j) slot_zero).
Proof.
  intros Hnd. unfold SimpleVmAssigner_assign.
  destruct (simple_loop_jobs (queuedJobs state) 0 ∅ ∅ Hnd) as [Hin Hout].
  pose proof (simple_loop_slots (queuedJobs state) 0 ∅ ∅ (fun _ _ => lookup_empty _)) as Hs.
  destruct (simple_loop _ _ _ _) as [asg smap]. cbn in *. split.
  - intros i t Ht. destruct (decide (i ∈ job_id <$> queuedJobs state)) as [Hi|Hi].
    + apply list_elem_of_fmap in Hi as (j & -> & Hj). apply list_elem_of_lookup in Hj as [k Hk].
      exists k, j. rewrite (Hin k j Hk) in Ht. by simplify_eq.
    + rewrite Hout, lookup_empty in Ht by done. done.
  - intros d s Hd. rewrite Hs in Hd. case_decide as Hr; [|by rewrite lookup_empty in Hd].
    apply fmap_Some in Hd as (j & Hj & ->). rewrite Z.sub_0_r in Hj.
    exists (Z.to_nat d), j. split; [done|]. split; [lia|done].
Qed.

Lemma simple_assign_sound state : state_wf state -> plan_sound state (SimpleVmAssigner_assign state).
Proof.
  intros [Hjw Hvw Hjn Hvn]. destruct (simple_assign_inv state Hjn) as [Hasg Hslots].
  rewrite Forall_lookup in Hjw. split.
  - intros i. split.
    + intros [t Ht]. destruct (Hasg _ _ Ht) as (k & j & Hk & <- & _).
      apply list_elem_of_fmap_2. by eapply list_elem_of_lookup_2.
    + intros Hi. apply list_elem_of_fmap in Hi as (j & -> & Hj). apply list_elem_of_lookup in Hj as [k Hk].
      destruct (simple_assign_spec state k j Hjn Hk) as [-> _]. by eexists.
  - intros i v Hi. by destruct (Hasg _ _ Hi) as (k & j & _ & _ & ?).
  - intros i d Hi. destruct (Hasg _ _ Hi) as (k & j & Hk & _ & [= ->]).
    destruct (simple_assign_spec state k j Hjn Hk) as [_ ->]. by eexists.
  - intros d [s Hd]. destruct (Hslots _ _ Hd) as (k & j & Hk & -> & _).
    exists (job_id j). by destruct (simple_assign_spec state k j Hjn Hk).
  - intros d s Hd. destruct (Hslots _ _ Hd) as (k & j & Hk & _ & ->). cbn.
    pose proof (Hjw _ _ Hk) as Hw. split; [done|]. split; [by split|].
    destruct Hw as [[? _] [? _]]. by apply fits_spec.
  - intros v s Hs. unfold SimpleVmAssigner_assign in Hs. by destruct (simple_loop _ _ _ _).
  - intros v Hv. unfold SimpleVmAssigner_assign in Hv. destruct (simple_loop _ _ _ _). cbn in Hv.
    apply list_elem_of_fmap in Hv as (vm & -> & Hvm). apply list_elem_of_filter in Hvm as [_ Hvm].
    by apply list_elem_of_fmap_2.
  - intros j v Hj _ Ht. by destruct (Hasg _ _ Ht) as (k & j' & _ & _ & ?).
Qed.

(** ** Any assigner *)

(** The configurations that name a usable strategy. *)
Definition config_usable (type : VmAssignerType) (config : option ComplexVmAssignerConfig) : Prop :=
  match type with
  | Simple => True
  | Complex => exists c, config = Some c /\ allocationStrategy c <> NextFit
  end.

Lemma assign_sound `{StdLib} type config state possibleSlots :
  config_usable type config -> state_wf state -> possibleSlots <> [] -> Forall slot_wf possibleSlots ->
  exists c, createVmAssigner_assign type state config possibleSlots = Ret c /\ plan_sound state c.
Proof.
  intros Hc Hst Hne Hsw. destruct type; cbn in *.
  - eexists. split; [done|]. by apply simple_assign_sound.
  - destruct Hc as (cfg & -> & Hs). cbn.
    destruct (complex_assign_ok cfg state possibleSlots) as (c & -> & Hok); [done..|].
    eexists. split; [done|]. by eapply plan_ok_sound.
Qed.

(** Whatever VM a plan puts a job on, it gives a new idle capacity. *)
Lemma assign_updates `{StdLib} type config state possibleSlots c i v :
  config_usable type config -> state_wf state -> possibleSlots <> [] -> Forall slot_wf possibleSlots ->
  createVmAssigner_assign type state config possibleSlots = Ret c ->
  jobToVm c !! i = Some (ExistingVm v) -> is_Some (updatedIdleCapacities c !! v).
Proof.
  intros Hc Hst Hne Hsw Ha Hi. destruct type; cbn in Ha.
  - injection Ha as <-. destruct (simple_assign_inv state) as [Hasg _]; [by destruct Hst|].
    by destruct (Hasg _ _ Hi) as (k & j & _ & _ & ?).
  - destruct Hc as (cfg & -> & Hs). cbn in Ha.
    destruct (complex_assign_ok cfg state possibleSlots) as (c' & E & Hok); [done..|]. rewrite E in Ha. injection Ha as <-.
    destruct Hok as [_ _ _ _ _ Hupd _ _ _]. apply Hupd. by exists i.
Qed.

Lemma size_list_to_set_le (l : list Z) : (size (list_to_set l : gset Z) <= length l)%nat.
Proof.
  induction l as [|x l IH]; cbn [list_to_set length]; [by rewrite size_empty|].
  rewrite size_union_alt, size_singleton.
  assert (size (list_to_set l ∖ {[x]} : gset Z) <= size (list_to_set l : gset Z))%nat
    by (apply subseteq_size; set_solver). lia.
Qed.

(** A plan asks for no more new VMs than there are queued jobs. *)
Lemma plan_sound_size state c :
  plan_sound state c -> (size (desiredSlotMap c) <= length (queuedJobs state))%nat.
Proof.
  intros Hp. rewrite <- (size_dom (D := gset Z)).
  set (target := fun i => match jobToVm c !! i with Some (DesiredVm d) => d | _ => 0 end).
  assert (dom (D := gset Z) (desiredSlotMap c) ⊆ list_to_set ((target ∘ job_id) <$> queuedJobs state)) as Hsub.
  { intros d Hd. apply elem_of_dom in Hd. destruct (ps_busy _ _ Hp d Hd) as [i Hi].
    apply elem_of_list_to_set, list_elem_of_fmap.
    assert (i ∈ job_id <$> queuedJobs state) as Hj by (apply (ps_assigns _ _ Hp); eauto).
    apply list_elem_of_fmap in Hj as (j & -> & Hj). exists j. split; [|done].
    unfold target; cbn. by rewrite Hi. }
  etrans; [by apply subseteq_size|]. by rewrite <- (length_fmap (target ∘ job_id)); apply size_list_to_set_le.
Qed.
