(* ===== verification/PlanProps.v ===== *)
(** * Properties of the scheduling algorithms

    What the assigners, the job allocators and the slot selector guarantee. *)

From S2P Require Import Prelude Std Slot State OrderedJobs JobAllocator AllocatorContract.
From S2P Require Import SlotSelector SelectorFacts Assigner AssignerFacts PlanFacts.

(** ** Sample inputs: those of the repository's unit tests *)

Module Samples.
(** [testing::getPossibleSlots()]. *)
Definition slots : list SlotCapacity :=
  [mkSlot 1 512; mkSlot 1 1024; mkSlot 1 2048; mkSlot 2 1024; mkSlot 4 2048; mkSlot 8 4096; mkSlot 16 8192].

Definition bfd : ComplexVmAssignerConfig := mkComplexConfig Descending BestFit.
Definition wfa : ComplexVmAssignerConfig := mkComplexConfig Ascending WorstFit.

Definition jobs : list QueuedJobInfo :=
  [mkJob 0 (mkSlot 2 4096); mkJob 2 (mkSlot 1 1024); mkJob 3 (mkSlot 6 1024); mkJob 4 (mkSlot 2 1024)].

Definition vm5 : ActiveVm := mkVm 5 (mkSlot 4 2048) (mkSlot 3 1024).
Definition vm6 : ActiveVm := mkVm 6 (mkSlot 1 2048) (mkSlot 1 1024).
Definition vm7 : ActiveVm := mkVm 7 (mkSlot 8 4096) (mkSlot 7 3584).

Definition state2 : State := mkState jobs [vm5; vm6].
Definition state3 : State := mkState jobs [vm5; vm6; vm7].

Lemma slots_nonempty : slots <> [].
Proof. done. Qed.

Lemma slots_wf : Forall slot_wf slots.
Proof. repeat (apply Forall_cons; split; [by split|]). apply Forall_nil_2. Qed.

Lemma state3_wf : state_wf state3.
Proof.
  split.
  - repeat (apply Forall_cons; split; [by split|]). apply Forall_nil_2.
  - repeat (apply Forall_cons; split; [by split; [split|split; [split|]]|]). apply Forall_nil_2.
  - by apply (bool_decide_eq_true_1 (NoDup _)).
  - by apply (bool_decide_eq_true_1 (NoDup _)).
Qed.
End Samples.

#[local] Existing Instance reference_stdlib.

(** ** Plans of the complex assigner *)

(** C14: With any strategy but NextFit, any order of jobs and any non-empty list of
    representable slots, [ComplexVmAssigner::assign] returns a plan that sends
    every queued job, and nothing else, to an active VM or to one of the plan's
    new slots; no slot is asked for without a job. *)
Theorem complex_plan_assigns_every_job `{StdLib} config state possibleSlots :
  allocationStrategy config <> NextFit -> state_wf state ->
  possibleSlots <> [] -> Forall slot_wf possibleSlots ->
  exists c, ComplexVmAssigner_assign config state possibleSlots = Ret c
    /\ (forall i, is_Some (jobToVm c !! i) <-> i ∈ job_id <$> queuedJobs state)
    /\ (forall i v, jobToVm c !! i = Some (ExistingVm v) -> v ∈ vm_id <$> vms state)
    /\ (forall d, is_Some (desiredSlotMap c !! d) <-> exists i, jobToVm c !! i = Some (DesiredVm d)).
Proof.
  intros Hs Hst Hne Hsw. destruct (complex_assign_ok config state possibleSlots) as (c & Hc & Hok); [done..|].
  exists c. destruct Hok as [Ha He Hd Hb _ _ _ _ _]. split; [done|]. split; [done|]. split; [done|].
  intros d. split; [apply Hb|]. intros [i Hi]. eauto.
Qed.

Lemma complex_plan_assigns_every_job_witness :
  exists c, ComplexVmAssigner_assign Samples.bfd Samples.state3 Samples.slots = Ret c
    /\ (forall i, is_Some (jobToVm c !! i) <-> i ∈ job_id <$> queuedJobs Samples.state3)
    /\ (forall i v, jobToVm c !! i = Some (ExistingVm v) -> v ∈ vm_id <$> vms Samples.state3)
    /\ (forall d, is_Some (desiredSlotMap c !! d) <-> exists i, jobToVm c !! i = Some (DesiredVm d)).
Proof.
  apply (complex_plan_assigns_every_job Samples.bfd Samples.state3 Samples.slots); try done.
  - apply Samples.state3_wf.
  - apply Samples.slots_wf.
Defined.

(** C15: On every active VM, the idle capacity the plan writes plus what the jobs
    planned for it require is exactly the idle capacity it had: nothing is
    overcommitted and nothing is lost; capacities are written for exactly the VMs
    that got a job. *)
Theorem complex_plan_conserves_capacity `{StdLib} config state possibleSlots :
  allocationStrategy config <> NextFit -> state_wf state ->
  possibleSlots <> [] -> Forall slot_wf possibleSlots ->
  exists c, ComplexVmAssigner_assign config state possibleSlots = Ret c
    /\ (forall vm, vm ∈ vms state ->
          cpu (idle_after c vm) + jobs_cpu (planned state c (ExistingVm (vm_id vm))) = cpu (idleCapacity vm)
          /\ ram (idle_after c vm) + jobs_ram (planned state c (ExistingVm (vm_id vm))) = ram (idleCapacity vm)
          /\ slot_wf (idle_after c vm))
    /\ (forall v, is_Some (updatedIdleCapacities c !! v) <-> exists i, jobToVm c !! i = Some (ExistingVm v)).
Proof.
  intros Hs Hst Hne Hsw. destruct (complex_assign_ok config state possibleSlots) as (c & Hc & Hok); [done..|].
  exists c. destruct Hok as [_ _ _ _ Hcap Hu _ _ _]. split; [done|]. split; [|done].
  intros vm Hvm. destruct (Hcap vm Hvm) as (? & ? & ?). auto.
Qed.

Lemma complex_plan_conserves_capacity_witness :
  exists c, ComplexVmAssigner_assign Samples.wfa Samples.state3 Samples.slots = Ret c
    /\ (forall vm, vm ∈ vms Samples.state3 ->
          cpu (idle_after c vm) + jobs_cpu (planned Samples.state3 c (ExistingVm (vm_id vm)))
            = cpu (idleCapacity vm)
          /\ ram (idle_after c vm) + jobs_ram (planned Samples.state3 c (ExistingVm (vm_id vm)))
            = ram (idleCapacity vm)
          /\ slot_wf (idle_after c vm))
    /\ (forall v, is_Some (updatedIdleCapacities c !! v) <-> exists i, jobToVm c !! i = Some (ExistingVm v)).
Proof.
  apply (complex_plan_conserves_capacity Samples.wfa Samples.state3 Samples.slots); try done.
  - apply Samples.state3_wf.
  - apply Samples.slots_wf.
Defined.

(** C19: Every new slot of a plan has a size on offer and an idle capacity within
    it, and its jobs take up at least what is missing; when every job fits the slot
    [getMinFitSlot_] picks for it, they take up exactly that. *)
Theorem complex_plan_accounts_for_new_slots `{StdLib} config state possibleSlots :
  allocationStrategy config <> NextFit -> state_wf state ->
  possibleSlots <> [] -> Forall slot_wf possibleSlots ->
  exists c, ComplexVmAssigner_assign config state possibleSlots = Ret c
    /\ forall d slot, desiredSlotMap c !! d = Some slot ->
       total slot ∈ possibleSlots /\ fits (idle slot) (total slot) = true
       /\ cpu (total slot) <= cpu (idle slot) + jobs_cpu (planned state c (DesiredVm d))
       /\ ram (total slot) <= ram (idle slot) + jobs_ram (planned state c (DesiredVm d))
       /\ (all_fit possibleSlots (queuedJobs state) ->
            cpu (total slot) = cpu (idle slot) + jobs_cpu (planned state c (DesiredVm d))
            /\ ram (total slot) = ram (idle slot) + jobs_ram (planned state c (DesiredVm d))).
Proof.
  intros Hs Hst Hne Hsw. destruct (complex_assign_ok config state possibleSlots) as (c & Hc & Hok); [done..|].
  exists c. split; [done|]. intros d slot Hd.
  destruct (plan_slots _ _ _ Hok d slot Hd) as (? & _ & ? & ? & ? & ?). auto.
Qed.

Lemma complex_plan_accounts_for_new_slots_witness :
  exists c, ComplexVmAssigner_assign Samples.bfd Samples.state3 Samples.slots = Ret c
    /\ forall d slot, desiredSlotMap c !! d = Some slot ->
       total slot ∈ Samples.slots /\ fits (idle slot) (total slot) = true
       /\ cpu (total slot) <= cpu (idle slot) + jobs_cpu (planned Samples.state3 c (DesiredVm d))
       /\ ram (total slot) <= ram (idle slot) + jobs_ram (planned Samples.state3 c (DesiredVm d))
       /\ (all_fit Samples.slots (queuedJobs Samples.state3) ->
            cpu (total slot) = cpu (idle slot) + jobs_cpu (planned Samples.state3 c (DesiredVm d))
            /\ ram (total slot) = ram (idle slot) + jobs_ram (planned Samples.state3 c (DesiredVm d))).
Proof.
  apply (complex_plan_accounts_for_new_slots Samples.bfd Samples.state3 Samples.slots); try done.
  - apply Samples.state3_wf.
  - apply Samples.slots_wf.
Defined.

(** A plan never asks for two slots of the same size when one of twice that
    size is on offer: [merge_] has merged them. *)
Theorem complex_plan_merges_slots `{StdLib} config state possibleSlots :
  allocationStrategy config <> NextFit -> state_wf state ->
  possibleSlots <> [] -> Forall slot_wf possibleSlots ->
  exists c, ComplexVmAssigner_assign config state possibleSlots = Ret c
    /\ forall d1 d2 s1 s2, d1 <> d2 -> desiredSlotMap c !! d1 = Some s1 ->
       desiredSlotMap c !! d2 = Some s2 -> total s1 = total s2 ->
       slot_mul (total s1) 2 ∉ possibleSlots.
Proof.
  intros Hs Hst Hne Hsw. destruct (complex_assign_ok config state possibleSlots) as (c & Hc & Hok); [done..|].
  exists c. split; [done|]. apply Hok.
Qed.

Lemma complex_plan_merges_slots_witness :
  exists c, ComplexVmAssigner_assign Samples.bfd Samples.state2 Samples.slots = Ret c
    /\ forall d1 d2 s1 s2, d1 <> d2 -> desiredSlotMap c !! d1 = Some s1 ->
       desiredSlotMap c !! d2 = Some s2 -> total s1 = total s2 ->
       slot_mul (total s1) 2 ∉ Samples.slots.
Proof.
  apply (complex_plan_merges_slots Samples.bfd Samples.state2 Samples.slots); try done.
  - destruct Samples.state3_wf as [Hj Hv Hjn Hvn]. split; try done.
    + apply Forall_cons in Hv as [H5 Hv]. apply Forall_cons in Hv as [H6 _].
      apply Forall_cons; split; [done|]. apply Forall_cons; split; [done|]. apply Forall_nil_2.
    + by apply (bool_decide_eq_true_1 (NoDup _)).
  - apply Samples.slots_wf.
Defined.

(** C20: A plan terminates exactly the VMs that are wholly idle after it, and never
    one it gives a job that requires anything to. *)
Theorem complex_plan_terminates_idle_vms `{StdLib} config state possibleSlots :
  allocationStrategy config <> NextFit -> state_wf state ->
  possibleSlots <> [] -> Forall slot_wf possibleSlots ->
  exists c, ComplexVmAssigner_assign config state possibleSlots = Ret c
    /\ (forall v, v ∈ vmsToTerminate c
          <-> exists vm, vm ∈ vms state /\ vm_id vm = v /\ totalCapacity vm = idle_after c vm)
    /\ (forall j v, j ∈ queuedJobs state -> slot_positive (requiredCapacity j) ->
          jobToVm c !! job_id j = Some (ExistingVm v) -> v ∉ vmsToTerminate c).
Proof.
  intros Hs Hst Hne Hsw. destruct (complex_assign_ok config state possibleSlots) as (c & Hc & Hok); [done..|].
  exists c. split; [done|]. split; [apply Hok|]. by eapply ps_spares, plan_ok_sound.
Qed.

Lemma complex_plan_terminates_idle_vms_witness :
  exists c, ComplexVmAssigner_assign Samples.bfd Samples.state3 Samples.slots = Ret c
    /\ (forall v, v ∈ vmsToTerminate c
          <-> exists vm, vm ∈ vms Samples.state3 /\ vm_id vm = v /\ totalCapacity vm = idle_after c vm)
    /\ (forall j v, j ∈ queuedJobs Samples.state3 -> slot_positive (requiredCapacity j) ->
          jobToVm c !! job_id j = Some (ExistingVm v) -> v ∉ vmsToTerminate c).
Proof.
  apply (complex_plan_terminates_idle_vms Samples.bfd Samples.state3 Samples.slots); try done.
  - apply Samples.state3_wf.
  - apply Samples.slots_wf.
Defined.

(** ** Plans of the simple assigner *)

(** [SimpleVmAssigner::assign] gives the k-th queued job the k-th new slot, of
    exactly the job's size and with nothing left idle, asks for nothing else, and
    terminates exactly the VMs that are wholly idle. *)
Theorem simple_plan_one_vm_per_job state :
  NoDup (job_id <$> queuedJobs state) ->
  (forall i t, jobToVm (SimpleVmAssigner_assign state) !! i = Some t <->
     exists k j, queuedJobs state !! k = Some j /\ job_id j = i /\ t = DesiredVm (Z.of_nat k))
  /\ (forall d s, desiredSlotMap (SimpleVmAssigner_assign state) !! d = Some s <->
     exists k j, queuedJobs state !! k = Some j /\ d = Z.of_nat k
       /\ s = mkDesired (requiredCapacity j) slot_zero)
  /\ (forall v, v ∈ vmsToTerminate (SimpleVmAssigner_assign state) <->
     exists vm, vm ∈ vms state /\ vm_id vm = v /\ totalCapacity vm = idleCapacity vm).
Proof.
  intros Hnd. destruct (simple_assign_inv state Hnd) as [Hasg Hslots].
  split; [|split].
  - intros i t. split; [apply Hasg|]. intros (k & j & Hk & <- & ->).
    by destruct (simple_assign_spec state k j Hnd Hk).
  - intros d s. split; [apply Hslots|]. intros (k & j & Hk & -> & ->).
    by destruct (simple_assign_spec state k j Hnd Hk).
  - intros v. unfold SimpleVmAssigner_assign. destruct (simple_loop _ _ _ _). cbn.
    apply (idle_vms_elem (mkAlloc (vms state) ∅)).
Qed.

Lemma simple_plan_one_vm_per_job_witness :
  jobToVm (SimpleVmAssigner_assign Samples.state3) !! 3 = Some (DesiredVm 2).
Proof.
  destruct (simple_plan_one_vm_per_job Samples.state3) as [Hj _].
  - by apply (bool_decide_eq_true_1 (NoDup _)).
  - apply Hj. exists 2%nat, (mkJob 3 (mkSlot 6 1024)). done.
Defined.

(** ** Job allocators *)

(** [FirstFit::allocate] takes the first VM of the vector the job
    fits and changes only it; it answers [nullopt] exactly when the job fits none. *)
Theorem first_fit_takes_first s job :
  (exists pre vm post s', al_vms (ff_state s) = pre ++ vm :: post
     /\ Forall (fun u => fits (requiredCapacity job) (idleCapacity u) = false) pre
     /\ fits (requiredCapacity job) (idleCapacity vm) = true
     /\ FirstFit_allocate s job = Ret (Some (vm_id vm), s')
     /\ al_vms (ff_state s') = pre ++ take_job vm job :: post)
  \/ (Forall (fun u => fits (requiredCapacity job) (idleCapacity u) = false) (al_vms (ff_state s))
      /\ FirstFit_allocate s job = Ret (None, s)).
Proof.
  unfold FirstFit_allocate. destruct (first_fit_scan job (al_vms (ff_state s))) as [[v vms']|] eqn:Hs.
  - left. apply first_fit_scan_spec in Hs as (pre & vm & post & Hl & Hl' & -> & Hf & Hpre).
    exists pre, vm, post. eexists. split; [done|]. split; [done|]. split; [done|]. split; [done|]. done.
  - right. split; [by apply first_fit_scan_none|done].
Qed.

(** The order of the multisets of the other two allocators. *)
Definition by_idle (l : list ActiveVm) : Prop := StronglySorted (not_greater compareActiveVms) l.

Lemma sorted_lookup {A} (R : A -> A -> Prop) (l : list A) i j x y :
  StronglySorted R l -> (i < j)%nat -> l !! i = Some x -> l !! j = Some y -> R x y.
Proof.
  intros Hs. revert i j. induction Hs as [|z l Hs IH Hz]; intros i j Hlt Hi Hj; [done|].
  destruct j as [|j]; [lia|]. cbn in Hj. destruct i as [|i]; cbn in Hi.
  - simplify_eq. rewrite Forall_forall in Hz. apply Hz. by eapply list_elem_of_lookup_2.
  - apply (IH i j); [lia|done|done].
Qed.

Lemma delete_sorted {A} (R : A -> A -> Prop) (l : list A) i :
  StronglySorted R l -> StronglySorted R (delete i l).
Proof.
  intros Hs. revert i. induction Hs as [|x l Hs IH Hx]; intros i; [destruct i; constructor|].
  destruct i as [|i]; cbn; [done|]. constructor; [apply IH|].
  rewrite Forall_forall in *. intros y Hy. apply Hx. by eapply list_elem_of_delete_inv.
Qed.

Lemma reinsert_sorted vms pos vm job : by_idle vms -> by_idle (reinsert vms pos vm job).
Proof. intros Hs. unfold reinsert. apply multiset_insert_sorted; [apply _|]. by apply delete_sorted. Qed.

Lemma sorted_last (l : list ActiveVm) vm x :
  by_idle l -> l !! Nat.pred (length l) = Some vm -> x ∈ l -> slot_lt (idleCapacity vm) (idleCapacity x) = false.
Proof.
  intros Hs Hl Hx. apply list_elem_of_lookup in Hx as [i Hi].
  pose proof (lookup_lt_Some _ _ _ Hi). destruct (decide (i = Nat.pred (length l))) as [->|Hne].
  - simplify_eq. apply slot_lt_false. lia.
  - assert (i < Nat.pred (length l))%nat as Hlt by lia.
    exact (sorted_lookup _ _ _ _ _ _ Hs Hlt Hi Hl).
Qed.

(** [WorstFit] keeps its VMs ordered by idle capacity from the
    constructor on; [allocate] offers the job to a VM no other exceeds in that
    order, takes it when the job fits, and answers [nullopt] otherwise. *)
Theorem worst_fit_takes_largest `{StdLib} s job :
  by_idle (al_vms (wf_state s)) ->
  (forall l, by_idle (al_vms (wf_state (WorstFit_new l))))
  /\ exists r s', WorstFit_allocate s job = Ret (r, s') /\ by_idle (al_vms (wf_state s'))
     /\ match r with
        | Some v => exists vm, vm ∈ al_vms (wf_state s) /\ vm_id vm = v
            /\ fits (requiredCapacity job) (idleCapacity vm) = true
            /\ Forall (fun u => slot_lt (idleCapacity vm) (idleCapacity u) = false) (al_vms (wf_state s))
            /\ take_job vm job ∈ al_vms (wf_state s')
        | None => al_vms (wf_state s) = [] \/ exists vm, vm ∈ al_vms (wf_state s)
            /\ fits (requiredCapacity job) (idleCapacity vm) = false
            /\ Forall (fun u => slot_lt (idleCapacity vm) (idleCapacity u) = false) (al_vms (wf_state s))
        end.
Proof.
  intros Hs. split; [intros l; apply multiset_of_range_sorted, _|].
  unfold WorstFit_allocate. case_decide as Hnil; [eexists _, _; eauto|].
  set (vms := al_vms (wf_state s)) in *.
  destruct (lookup_lt_is_Some_2 vms (Nat.pred (length vms))) as [vm Hvm].
  { destruct vms; [done|cbn; lia]. }
  rewrite Hvm. cbn.
  assert (Hmax : Forall (fun u => slot_lt (idleCapacity vm) (idleCapacity u) = false) vms).
  { apply Forall_forall. intros u Hu. by eapply sorted_last. }
  pose proof (list_elem_of_lookup_2 _ _ _ Hvm) as Hin.
  destruct (fits _ _) eqn:Hf; eexists _, _; (split; [done|]); cbn; (split; [by try apply reinsert_sorted|]).
  - exists vm. repeat (split; [done|]). rewrite reinsert_perm. left.
  - right. by exists vm.
Qed.

Lemma worst_fit_takes_largest_witness :
  exists s', WorstFit_allocate (WorstFit_new (vms Samples.state3)) (mkJob 4 (mkSlot 2 1024)) = Ret (Some 7, s').
Proof.
  destruct (worst_fit_takes_largest (WorstFit_new (vms Samples.state3)) (mkJob 4 (mkSlot 2 1024)))
    as [_ (r & s' & Hr & _ & _)].
  - apply multiset_of_range_sorted, _.
  - exists s'. rewrite Hr. vm_compute in Hr. injection Hr as <- _. reflexivity.
Defined.

(** VMs any two of which are comparable in both components. *)
Definition comparable (l : list ActiveVm) : Prop := forall x y, x ∈ l -> y ∈ l ->
  fits (idleCapacity x) (idleCapacity y) = true \/ fits (idleCapacity y) (idleCapacity x) = true.

Lemma comparable_partitioned l job :
  by_idle l -> comparable l ->
  partitioned (fun vm => negb (fits (requiredCapacity job) (idleCapacity vm))) l.
Proof.
  intros Hs Hc i j x y Hx Hy Hij Hby. apply negb_true_iff in Hby. apply negb_true_iff.
  destruct (decide (i = j)) as [->|Hne]; [congruence|].
  assert (fits (idleCapacity x) (idleCapacity y) = true) as Hxy.
  { assert (not_greater compareActiveVms x y) as Hng by (apply (sorted_lookup _ l i j); [done|lia|done|done]).
    unfold not_greater, compareActiveVms in Hng. apply slot_lt_false in Hng.
    destruct (Hc x y) as [?|Hyx]; eauto using list_elem_of_lookup_2.
    apply fits_spec in Hyx. apply fits_spec. lia. }
  destruct (fits (requiredCapacity job) (idleCapacity x)) eqn:Hfx; [|done].
  by rewrite (fits_trans _ _ _ Hfx Hxy) in Hby.
Qed.

(** C37: [BestFit::allocate] never places a job where it does not fit.
    When the idle capacities are pairwise comparable, its binary search is exact:
    the job goes to a VM before which, in the order of idle capacity, it fits none,
    and is refused only when it fits no VM at all. *)
Theorem best_fit_takes_smallest s job :
  by_idle (al_vms (bf_state s)) ->
  exists r s', BestFit_allocate s job = Ret (r, s') /\ by_idle (al_vms (bf_state s'))
    /\ match r with
       | Some v => exists pre vm post, al_vms (bf_state s) = pre ++ vm :: post /\ vm_id vm = v
           /\ fits (requiredCapacity job) (idleCapacity vm) = true
           /\ (comparable (al_vms (bf_state s)) ->
                Forall (fun u => fits (requiredCapacity job) (idleCapacity u) = false) pre)
       | None => comparable (al_vms (bf_state s)) ->
           Forall (fun u => fits (requiredCapacity job) (idleCapacity u) = false) (al_vms (bf_state s))
       end.
Proof.
  intros Hs. unfold BestFit_allocate. set (vms := al_vms (bf_state s)) in *.
  pose proof (lower_bound_spec (fun vm => negb (fits (requiredCapacity job) (idleCapacity vm))) vms) as [Hle Hb].
  pose proof (lower_bound_partitioned (fun vm => negb (fits (requiredCapacity job) (idleCapacity vm)))
    vms) as Hpre.
  change (lower_bound (fun vm => negb (fits (requiredCapacity job) (idleCapacity vm))) vms)
    with (best_fit_pos vms job) in *.
  assert (Hbefore : comparable vms -> forall k u, (k < best_fit_pos vms job)%nat -> vms !! k = Some u ->
    fits (requiredCapacity job) (idleCapacity u) = false).
  { intros Hc k u Hk Hu. apply negb_true_iff. eapply Hpre; eauto using comparable_partitioned. }
  destruct (vms !! best_fit_pos vms job) as [vm|] eqn:Hvm.
  - destruct Hb as [Heq|(x & Hx & Hf)]; [apply lookup_lt_Some in Hvm; lia|].
    injection Hx as <-. apply negb_false_iff in Hf. rewrite Hf.
    eexists _, _. split; [done|]. split; [by apply reinsert_sorted|].
    destruct (list_elem_of_split_length _ _ _ Hvm) as (pre & post & Hsplit & Hlen).
    exists pre, vm, post. repeat (split; [done|]). intros Hc. apply Forall_lookup. intros k u Hu.
    apply (Hbefore Hc k); [pose proof (lookup_lt_Some _ _ _ Hu); lia|].
    rewrite Hsplit. by apply lookup_app_l_Some.
  - apply lookup_ge_None in Hvm. eexists _, _. split; [done|]. split; [done|]. intros Hc.
    apply Forall_lookup. intros k u Hu. apply (Hbefore Hc k); [|done].
    pose proof (lookup_lt_Some _ _ _ Hu). lia.
Qed.

Lemma best_fit_takes_smallest_witness :
  exists r s', BestFit_allocate (BestFit_new (vms Samples.state3)) (mkJob 3 (mkSlot 6 1024)) = Ret (r, s')
    /\ r = Some 7.
Proof.
  destruct (best_fit_takes_smallest (BestFit_new (vms Samples.state3)) (mkJob 3 (mkSlot 6 1024)))
    as (r & s' & Hr & _ & _).
  - apply multiset_of_range_sorted, _.
  - exists r, s'. split; [exact Hr|]. vm_compute in Hr. by injection Hr as <- _.
Defined.

(** ** The slot for a job *)

(** Slots each of which fits into the next one are partitioned by any requirement. *)
Lemma chain_partitioned possibleSlots slot :
  (forall i a b, possibleSlots !! i = Some a -> possibleSlots !! S i = Some b -> fits a b = true) ->
  partitioned (fun lhs => negb (fits slot lhs)) possibleSlots.
Proof.
  intros Hch i j x y Hx Hy Hij. rewrite !negb_true_iff. revert y Hy.
  induction Hij as [|j Hij IH]; intros y Hy Hby; [congruence|].
  destruct (lookup_lt_is_Some_2 possibleSlots j) as [z Hz]; [apply lookup_lt_Some in Hy; lia|].
  apply (IH z Hz). destruct (fits slot z) eqn:Hfz; [|done].
  by rewrite (fits_trans _ _ _ Hfz (Hch _ _ _ Hz Hy)) in Hby.
Qed.

(** On a list of slots each of which fits into the next, [getMinFitSlot_]
    returns the first slot the job fits, and the last slot when it fits none; on
    any non-empty list at all it returns one of the slots. *)
Theorem min_fit_slot_is_minimal possibleSlots slot :
  possibleSlots <> [] ->
  exists x, getMinFitSlot_ possibleSlots slot = Ret x /\ x ∈ possibleSlots
    /\ ((forall i a b, possibleSlots !! i = Some a -> possibleSlots !! S i = Some b -> fits a b = true) ->
        (fits slot x = true /\ exists pre post, possibleSlots = pre ++ x :: post
           /\ Forall (fun y => fits slot y = false) pre)
        \/ (last possibleSlots = Some x /\ Forall (fun y => fits slot y = false) possibleSlots)).
Proof.
  intros Hne. unfold getMinFitSlot_. set (before := fun lhs => negb (fits slot lhs)).
  destruct (lower_bound_spec before possibleSlots) as [Hle Hb].
  assert (Hpre : (forall i a b, possibleSlots !! i = Some a -> possibleSlots !! S i = Some b -> fits a b = true) ->
    forall k y, (k < lower_bound before possibleSlots)%nat -> possibleSlots !! k = Some y -> fits slot y = false).
  { intros Hch k y Hk Hy. apply negb_true_iff. revert k y Hk Hy.
    intros k y Hk Hy. by apply (lower_bound_partitioned before possibleSlots k y (chain_partitioned _ _ Hch)). }
  destruct (possibleSlots !! lower_bound before possibleSlots) as [x|] eqn:Hx.
  - destruct Hb as [Heq|(x' & Hx' & Hf)]; [apply lookup_lt_Some in Hx; lia|].
    simplify_eq. apply negb_false_iff in Hf. exists x'. split; [done|].
    split; [by eapply list_elem_of_lookup_2|]. intros Hch. left. split; [done|].
    destruct (list_elem_of_split_length _ _ _ Hx) as (pre & post & Hsplit & Hlen).
    exists pre, post. split; [done|]. apply Forall_lookup. intros k u Hu.
    apply (Hpre Hch k); [pose proof (lookup_lt_Some _ _ _ Hu); lia|].
    rewrite Hsplit. by apply lookup_app_l_Some.
  - apply lookup_ge_None in Hx. destruct (last possibleSlots) as [x|] eqn:Hl.
    + exists x. split; [done|]. split; [by apply last_Some_elem_of|]. intros Hch. right. split; [done|].
      apply Forall_lookup. intros k u Hu. apply (Hpre Hch k); [|done].
      pose proof (lookup_lt_Some _ _ _ Hu). lia.
    + by apply last_None in Hl.
Qed.

Lemma min_fit_slot_is_minimal_witness :
  exists x, getMinFitSlot_ [mkSlot 1 512; mkSlot 2 1024; mkSlot 4 2048] (mkSlot 2 600) = Ret x
    /\ x = mkSlot 2 1024.
Proof.
  destruct (min_fit_slot_is_minimal [mkSlot 1 512; mkSlot 2 1024; mkSlot 4 2048] (mkSlot 2 600))
    as (x & Hx & _); [done|].
  exists x. split; [exact Hx|]. vm_compute in Hx. by injection Hx as <-.
Defined.

(** ** Where the algorithms fall short *)

(** With the NextFit strategy and at least one VM, the first call of
    [allocate] dereferences an iterator of the moved-from constructor argument;
    and even with an iterator into [vms_] its loops never advance: on a VM the job
    does not fit they run forever. *)
Theorem next_fit_never_works vms job :
  vms <> [] ->
  (forall fuel, NextFit_allocate fuel (NextFit_new vms) job = Undefined)
  /\ (forall fuel a pos vm, al_vms a !! pos = Some vm ->
        fits (requiredCapacity job) (idleCapacity vm) = false ->
        next_fit_loop fuel a (InVms pos) (InVms (length (al_vms a))) job = NoFuel).
Proof.
  intros Hne. split.
  - intros fuel. destruct vms as [|vm vms]; [done|]. unfold NextFit_allocate.
    by destruct fuel.
  - intros fuel a pos vm Hvm Hf. pose proof (lookup_lt_Some _ _ _ Hvm) as Hlt.
    induction fuel as [|fuel IH]; cbn; (rewrite decide_False by (intros [= ->]; lia));
      by rewrite Hvm, Hf.
Qed.

Lemma next_fit_never_works_witness :
  NextFit_allocate 100 (NextFit_new [Samples.vm5]) (mkJob 1 (mkSlot 1 1)) = Undefined.
Proof. apply (next_fit_never_works [Samples.vm5] (mkJob 1 (mkSlot 1 1))). done. Defined.

(** "Fits" is not monotone along the order by idle capacity, and the binary
    searches that use it miss: [BestFit] refuses a job that fits one of
    its two VMs, and [getMinFitSlot_] picks a slot that is too small for a job
    although the other slot on offer is large enough. *)
Theorem binary_search_misses :
  let job := mkJob 1 (mkSlot 1 2000) in
  let v1 := mkVm 1 (mkSlot 1 2048) (mkSlot 1 2048) in
  let v2 := mkVm 2 (mkSlot 2 1024) (mkSlot 2 1024) in
  (fits (requiredCapacity job) (idleCapacity v1) = true
   /\ exists s, BestFit_allocate (BestFit_new [v1; v2]) job = Ret (None, s))
  /\ (fits (requiredCapacity job) (mkSlot 1 2048) = true
      /\ getMinFitSlot_ [mkSlot 1 2048; mkSlot 2 1024] (requiredCapacity job) = Ret (mkSlot 2 1024)
      /\ fits (requiredCapacity job) (mkSlot 2 1024) = false).
Proof.
  cbn zeta. split; [split; [done|]|split; [done|split; [|done]]]; vm_compute; [by eexists|done].
Qed.

(** A job without requirements is put on an idle VM that the same plan terminates. *)
Example zero_job_on_terminated_vm :
  exists c, ComplexVmAssigner_assign Samples.bfd
      (mkState [mkJob 1 slot_zero] [mkVm 5 (mkSlot 4 2048) (mkSlot 4 2048)]) Samples.slots = Ret c
    /\ jobToVm c !! 1 = Some (ExistingVm 5) /\ vmsToTerminate c = [5].
Proof. eexists. vm_compute. repeat split. Qed.

(** ** Capacities and names *)

(** On representable capacities the 32-bit subtraction of
    [SlotCapacity::operator-=] never overflows, and taking out a requirement that
    fits and adding it back gives the capacity one started from. *)
Theorem slot_take_and_return (a b : SlotCapacity) :
  slot_wf a -> slot_wf b ->
  slot_sub_defined a b /\ slot_wf (slot_sub a b)
  /\ (fits b a = true -> slot_add (slot_sub a b) b = a).
Proof. intros Ha Hb. auto using slot_sub_no_ub, slot_sub_wf, slot_sub_add. Qed.

Lemma slot_take_and_return_witness :
  slot_add (slot_sub (mkSlot 4 2048) (mkSlot 1 1024)) (mkSlot 1 1024) = mkSlot 4 2048.
Proof.
  apply (slot_take_and_return (mkSlot 4 2048) (mkSlot 1 1024)); [by split|by split|reflexivity].
Defined.

(** The names of job and VM statuses are parsed back to exactly the status
    they were printed from, and no other text is accepted. *)
Theorem status_names_round_trip s :
  (forall v, jobStatusFromString s = Some v <-> s = jobStatus_toString v)
  /\ (forall v, vmStatusFromString s = Some v <-> s = vmStatus_toString v).
Proof.
  split; intros v; (split; [|intros ->; by destruct v]); unfold jobStatusFromString, vmStatusFromString, map_at;
    cbn [find fst]; repeat (case_bool_decide; [cbn; intros [= <-]; done|]); by cbn.
Qed.
