(* ===== verification/Db.v ===== *)
(** * The database and transactions on it
    (src/libs/db/data/db_schema.sql, src/libs/postgres, src/libs/common/include/result.h)

    The tables the C++ code reads and writes, the statements it issues as functions
    on them, and a transaction monad: every query may be made to fail by the
    environment, a failed query aborts the transaction, and what was not committed
    is rolled back.  The two status logs are written by triggers only and read by
    nobody; a transaction collects what it adds to them. *)

From S2P Require Import Prelude Std Slot State.

(** ** Errors and results *)

(** The exception classes a [Result] may carry. *)
Inductive Exn : Type :=
  | RuntimeException
  | JobNotFoundException
  | JobCancelledException
  | LockUnavailable
  | PgException
  | InconsistentPgResultException
  | SchedulingCancelled
  | OptimisticLockingFailure
  | AllocationException
  | InputValidationException.

#[export] Instance Exn_eq_dec : EqDecision Exn.
Proof. solve_decision. Defined.

Inductive Result (A : Type) : Type :=
  | Success (a : A)
  | Failure (e : Exn).
Arguments Success {A} _.
Arguments Failure {A} _.

Definition IsFailure {A} (r : Result A) : bool :=
  match r with Success _ => false | Failure _ => true end.

Definition IsSuccess {A} (r : Result A) : bool :=
  match r with Success _ => true | Failure _ => false end.

(** [ErrorRefOrThrow]; [None] when the result holds a value and it throws. *)
Definition ErrorRefOrThrow {A} (r : Result A) : option Exn :=
  match r with Success _ => None | Failure e => Some e end.

(** [ValueRefOrThrow]. *)
Definition ValueRefOrThrow {A} (r : Result A) : option A :=
  match r with Success a => Some a | Failure _ => None end.

(** [holdsErrorType<TError>]: every class above but the first derives from
    [RuntimeException] directly, and none from another. *)
Definition holdsErrorType {A} (r : Result A) (t : Exn) : bool :=
  match r with
  | Success _ => false
  | Failure e => bool_decide (t = RuntimeException) || bool_decide (e = t)
  end.

(** ** Tables *)

Record VmRow : Type := mkVmRow {
  v_status : VmStatus;
  v_cpu : Z; v_ram : Z; v_cpu_idle : Z; v_ram_idle : Z;
  v_cloud_vm_id : option string; v_cloud_vm_type : option string;
  v_created : Z; v_last_status_update : Z; v_agent_activity : option Z;
  v_restart_count : Z;
}.

Record TaskRow : Type := mkTaskRow {
  t_job_count : Z; t_settings : string; t_image_version : string; t_client_id : string }.

Record JobRow : Type := mkJobRow {
  j_status : JobStatus; j_task_id : Z;
  j_cpu : Z; j_ram : Z; j_estimation : Z; j_options : string;
  j_result_url : option string;
  j_created : Z; j_started : option Z; j_finished : option Z;
  j_vm_id : option Z; j_restart_count : Z;
}.

Record PlanRow : Type := mkPlanRow { p_created : Z; p_updated : Z; p_backend_id : string }.

(** Table contents by primary key, and the next value of every [serial]. *)
Record Db : Type := mkDb {
  db_vms : gmap Z VmRow; db_tasks : gmap Z TaskRow; db_jobs : gmap Z JobRow;
  db_plans : gmap Z PlanRow; db_locks : gset Z;
  seq_vms : Z; seq_tasks : Z; seq_jobs : Z; seq_plans : Z;
}.

Definition with_vms (db : Db) (t : gmap Z VmRow) : Db :=
  mkDb t (db_tasks db) (db_jobs db) (db_plans db) (db_locks db)
    (seq_vms db) (seq_tasks db) (seq_jobs db) (seq_plans db).

Definition with_jobs (db : Db) (t : gmap Z JobRow) : Db :=
  mkDb (db_vms db) (db_tasks db) t (db_plans db) (db_locks db)
    (seq_vms db) (seq_tasks db) (seq_jobs db) (seq_plans db).

Definition with_plans (db : Db) (t : gmap Z PlanRow) : Db :=
  mkDb (db_vms db) (db_tasks db) (db_jobs db) t (db_locks db)
    (seq_vms db) (seq_tasks db) (seq_jobs db) (seq_plans db).

Definition with_locks (db : Db) (t : gset Z) : Db :=
  mkDb (db_vms db) (db_tasks db) (db_jobs db) (db_plans db) t
    (seq_vms db) (seq_tasks db) (seq_jobs db) (seq_plans db).

(** A sequence does not go back when the transaction that drew from it rolls back. *)
Definition rollback (before after : Db) : Db :=
  mkDb (db_vms before) (db_tasks before) (db_jobs before) (db_plans before) (db_locks before)
    (seq_vms after) (seq_tasks after) (seq_jobs after) (seq_plans after).

Definition vm_total (r : VmRow) : SlotCapacity := mkSlot (v_cpu r) (v_ram r).
Definition vm_idle (r : VmRow) : SlotCapacity := mkSlot (v_cpu_idle r) (v_ram_idle r).
Definition job_req (r : JobRow) : SlotCapacity := mkSlot (j_cpu r) (j_ram r).

Definition set_v_status (s : VmStatus) (r : VmRow) : VmRow :=
  mkVmRow s (v_cpu r) (v_ram r) (v_cpu_idle r) (v_ram_idle r) (v_cloud_vm_id r)
    (v_cloud_vm_type r) (v_created r) (v_last_status_update r) (v_agent_activity r)
    (v_restart_count r).

Definition set_v_idle (c m : Z) (r : VmRow) : VmRow :=
  mkVmRow (v_status r) (v_cpu r) (v_ram r) c m (v_cloud_vm_id r)
    (v_cloud_vm_type r) (v_created r) (v_last_status_update r) (v_agent_activity r)
    (v_restart_count r).

Definition set_v_cloud (i t : string) (r : VmRow) : VmRow :=
  mkVmRow (v_status r) (v_cpu r) (v_ram r) (v_cpu_idle r) (v_ram_idle r) (Some i) (Some t)
    (v_created r) (v_last_status_update r) (v_agent_activity r) (v_restart_count r).

Definition set_v_last_status_update (t : Z) (r : VmRow) : VmRow :=
  mkVmRow (v_status r) (v_cpu r) (v_ram r) (v_cpu_idle r) (v_ram_idle r) (v_cloud_vm_id r)
    (v_cloud_vm_type r) (v_created r) t (v_agent_activity r) (v_restart_count r).

Definition set_v_agent_activity (t : Z) (r : VmRow) : VmRow :=
  mkVmRow (v_status r) (v_cpu r) (v_ram r) (v_cpu_idle r) (v_ram_idle r) (v_cloud_vm_id r)
    (v_cloud_vm_type r) (v_created r) (v_last_status_update r) (Some t) (v_restart_count r).

Definition set_v_restart_count (n : Z) (r : VmRow) : VmRow :=
  mkVmRow (v_status r) (v_cpu r) (v_ram r) (v_cpu_idle r) (v_ram_idle r) (v_cloud_vm_id r)
    (v_cloud_vm_type r) (v_created r) (v_last_status_update r) (v_agent_activity r) n.

Definition set_j_status (s : JobStatus) (r : JobRow) : JobRow :=
  mkJobRow s (j_task_id r) (j_cpu r) (j_ram r) (j_estimation r) (j_options r) (j_result_url r)
    (j_created r) (j_started r) (j_finished r) (j_vm_id r) (j_restart_count r).

Definition set_j_vm_id (v : Z) (r : JobRow) : JobRow :=
  mkJobRow (j_status r) (j_task_id r) (j_cpu r) (j_ram r) (j_estimation r) (j_options r)
    (j_result_url r) (j_created r) (j_started r) (j_finished r) (Some v) (j_restart_count r).

Definition set_j_restart_count (n : Z) (r : JobRow) : JobRow :=
  mkJobRow (j_status r) (j_task_id r) (j_cpu r) (j_ram r) (j_estimation r) (j_options r)
    (j_result_url r) (j_created r) (j_started r) (j_finished r) (j_vm_id r) n.

Definition set_j_result (url : option string) (started finished : option Z) (r : JobRow) : JobRow :=
  mkJobRow (j_status r) (j_task_id r) (j_cpu r) (j_ram r) (j_estimation r) (j_options r)
    url (j_created r) started finished (j_vm_id r) (j_restart_count r).

(** ** Statements *)

(** What PostgreSQL and libpqxx leave open or decide: the order rows come back
    in, the text a [jsonb] column stores for an input ([None] when it refuses it),
    which numbers of seconds an [interval] literal may have and which instants a
    timestamp, and what [field::as<std::string>()] gives for a column ([None] when
    it throws). *)
Class Postgres : Type := {
  row_order : forall {V : Type}, gmap Z V -> list (Z * V);
  row_order_perm : forall {V} (m : gmap Z V), row_order m ≡ₚ map_to_list m;
  jsonb_in : string -> option string;
  interval_ok : Z -> bool;
  timestamp_ok : Z -> bool;
  as_string : option string -> option string;
  as_string_text : forall s, as_string (Some s) = Some s;
}.

(** A server that keeps rows in key order, takes every text for JSON, knows no
    limit of time, and a client library that refuses to read NULL as a string. *)
Program Definition reference_postgres : Postgres := {|
  row_order V m := map_to_list m;
  jsonb_in s := Some s;
  interval_ok _ := true;
  timestamp_ok _ := true;
  as_string o := o;
|}.
Next Obligation. done. Qed.
Next Obligation. done. Qed.

(** [field::as<size_t>()] throws for a negative number. *)
Definition as_size_t (z : Z) : option Z := if 0 <=? z then Some z else None.

(** Timestamps are counted in microseconds. *)
Definition seconds (s : Z) : Z := s * 1000000.

(** [UPDATE t SET .. WHERE ..]. *)
Definition sql_update {R} (where_ : Z -> R -> bool) (set_ : Z -> R -> R) (t : gmap Z R) : gmap Z R :=
  map_imap (fun i r => Some (if where_ i r then set_ i r else r)) t.

(** The rows a [WHERE] clause selects. *)
Definition sql_rows {R} `{Postgres} (where_ : Z -> R -> bool) (t : gmap Z R) : list (Z * R) :=
  row_order (filter (fun ir => where_ ir.1 ir.2 = true) t).

(** The trigger [update_last_status_update]. *)
Definition status_trigger (now : Z) (old new : VmRow) : VmRow :=
  if decide (v_status old = v_status new) then new else set_v_last_status_update now new.

Definition update_vms (now : Z) (where_ : Z -> VmRow -> bool) (set_ : Z -> VmRow -> VmRow)
    (db : Db) : Db :=
  with_vms db (sql_update where_ (fun i r => status_trigger now r (set_ i r)) (db_vms db)).

Definition update_jobs (where_ : Z -> JobRow -> bool) (set_ : Z -> JobRow -> JobRow)
    (db : Db) : Db :=
  with_jobs db (sql_update where_ set_ (db_jobs db)).

(** ** Status logs *)

Record LogRow (S : Type) : Type := mkLog { log_id : Z; log_status : S; log_timestamp : Z }.
Arguments mkLog {S} _ _ _.
Arguments log_id {S} _.
Arguments log_status {S} _.
Arguments log_timestamp {S} _.

Record Logs : Type := mkLogs {
  vm_statuses_log : list (LogRow VmStatus); job_statuses_log : list (LogRow JobStatus) }.

Definition no_logs : Logs := mkLogs [] [].

Definition add_logs (a b : Logs) : Logs :=
  mkLogs (vm_statuses_log a ++ vm_statuses_log b) (job_statuses_log a ++ job_statuses_log b).

(** A row of the log for every row a statement inserted, and for every row whose
    status it changed. *)
Definition status_log {R S} `{EqDecision S} (status : R -> S) (now : Z) (old new : gmap Z R)
  : list (LogRow S) :=
  omap (fun ir => if decide (status <$> old !! ir.1 = Some (status ir.2)) then None
                  else Some (mkLog ir.1 (status ir.2) now)) (map_to_list new).

(** The triggers [update_vm_log] and [update_job_log], over a statement. *)
Definition update_vm_log (now : Z) (old new : Db) : list (LogRow VmStatus) :=
  status_log v_status now (db_vms old) (db_vms new).
Definition update_job_log (now : Z) (old new : Db) : list (LogRow JobStatus) :=
  status_log j_status now (db_jobs old) (db_jobs new).

Definition statement_logs (now : Z) (old new : Db) : Logs :=
  mkLogs (update_vm_log now old new) (update_job_log now old new).

(** A value an [integer] column takes; printed from a [size_t], it is never negative. *)
Definition int4 (z : Z) : bool := (0 <=? z) && (z <? 2 ^ 31).

(** A [serial] primary key that can be inserted. *)
Definition new_key {R} (id : Z) (t : gmap Z R) : bool := int4 id && bool_decide (t !! id = None).

(** ** Transactions *)

(** What a query can throw: the refusal of a lock, or anything else. *)
Inductive TxExn : Type := LockError | SqlError.

(** The environment of one call: the transaction's [NOW()], the rows other
    transactions hold locked, which queries fail and how, and whether a commit
    reported as failed took effect nevertheless. *)
Record Env : Type := mkEnv {
  env_now : Z; env_locked : gset Z; env_fault : nat -> option TxExn; env_in_doubt : bool }.

Record TxState : Type := mkTx {
  tx_db : Db; tx_queries : nat; tx_aborted : bool; tx_committed : bool; tx_logs : Logs }.

Inductive TxOut (A : Type) : Type :=
  | TxVal (a : A)
  | TxThrow (e : TxExn)
  | TxTerminate.
Arguments TxVal {A} _.
Arguments TxThrow {A} _.
Arguments TxTerminate {A}.


Definition Tx (A : Type) : Type := Env -> TxState -> TxOut A * TxState.

#[export] Instance tx_ret : MRet Tx := fun A a _ st => (TxVal a, st).
#[export] Instance tx_bind : MBind Tx := fun A B f m env st =>
  match m env st with
  | (TxVal a, st') => f a env st'
  | (TxThrow e, st') => (TxThrow e, st')
  | (TxTerminate, st') => (TxTerminate, st')
  end.

(** [pg::execQuery]: on failure the transaction is aborted and the exception rethrown. *)
Definition exec {A} (q : Env -> Db -> option (A * Db)) : Tx A := fun env st =>
  let n := tx_queries st in
  let failed e := (TxThrow e, mkTx (tx_db st) (S n) true (tx_committed st) (tx_logs st)) in
  if tx_aborted st then failed SqlError
  else
    match env_fault env n with
    | Some e => failed e
    | None =>
      match q env (tx_db st) with
      | None => failed SqlError
      | Some (a, db') => 
        (TxVal a, mkTx db' (S n) false (tx_committed st)
           (add_logs (tx_logs st) (statement_logs (env_now env) (tx_db st) db')))
      end
    end.

(** A statement that only reads. *)
Definition query {A} (q : Env -> Db -> A) : Tx A := exec (fun env db => Some (q env db, db)).

(** An exception thrown by the code itself. *)
Definition throw {A} (e : TxExn) : Tx A := fun _ st => (TxThrow e, st).

Definition or_throw {A} (o : option A) : Tx A :=
  match o with
  | Some a => mret a
  | None => throw SqlError
  end.

(** Drawing a connection from the pool and opening the transaction. *)
Definition begin_txn : Tx unit := exec (fun _ db => Some (tt, db)).

Definition commit : Tx unit := fun env st =>
  match exec (fun _ db => Some (tt, db)) env st with
  | (TxVal _, st') => (TxVal tt, mkTx (tx_db st') (tx_queries st') false true (tx_logs st'))
  | (o, st') => (o, mkTx (tx_db st') (tx_queries st') true
                      (env_in_doubt env && negb (tx_aborted st)) (tx_logs st'))
  end.

(** [try { m } catch (...) { h }]. *)
Definition try_catch {A} (m : Tx A) (h : TxExn -> A) : Tx A := fun env st =>
  match m env st with
  | (TxThrow e, st') => (TxVal (h e), st')
  | o => o
  end.

(** An exception that reaches the end of a [noexcept] function. *)
Definition noexcept {A} (m : Tx A) : Tx A := fun env st =>
  match m env st with
  | (TxThrow _, st') => (TxTerminate, st')
  | o => o
  end.

(** [if (r.IsFailure()) return Failure(r.ErrorOrThrow())], the way the storage
    methods chain. *)
Definition and_then {A B} (m : Tx (Result A)) (k : A -> Tx (Result B)) : Tx (Result B) :=
  r ← m;
  match r with
  | Failure e => mret (Failure e)
  | Success a => k a
  end.

Notation "'let?' x ':=' m 'in' k" := (and_then m (fun x => k))
  (at level 10, x name, m at level 200, k at level 200, format "'let?'  x  ':='  m  'in' '//' k")
  : vms_scope.

(** A call of a storage method: its result and the database it leaves, or the
    end of the process. *)
Inductive Call (A : Type) : Type :=
  | Answer (r : Result A) (db : Db)
  | Crash (db : Db).
Arguments Answer {A} _ _.
Arguments Crash {A} _.

Definition final_db (before : Db) (st : TxState) : Db :=
  if tx_committed st then tx_db st else rollback before (tx_db st).

Definition tx_start (db : Db) : TxState := mkTx db 0 false false no_logs.

Definition run_call {A} (m : Tx (Result A)) (env : Env) (db : Db) : Call A :=
  match m env (tx_start db) with
  | (TxVal r, st) => Answer r (final_db db st)
  | (TxThrow _, st) | (TxTerminate, st) => Crash (final_db db st)
  end.

(** What the call added to the status logs. *)
Definition call_logs {A} (m : Tx (Result A)) (env : Env) (db : Db) : Logs :=
  let st := (m env (tx_start db)).2 in if tx_committed st then tx_logs st else no_logs.

Definition call_db {A} (c : Call A) : Db :=
  match c with
  | Answer _ db => db
  | Crash db => db
  end.

(** The next call, on what the previous one left, when that succeeded. *)
Definition then_call {A B} (c : Call A) (k : A -> Db -> Call B) : Call B :=
  match c with
  | Answer (Success a) db => k a db
  | Answer (Failure e) db => Answer (Failure e) db
  | Crash db => Crash db
  end.

(** An environment in which nothing goes wrong. *)
Definition calm (now : Z) : Env := mkEnv now ∅ (fun _ => None) false.

(** ** Facts *)

Lemma sql_update_lookup {R} (where_ : Z -> R -> bool) set_ (t : gmap Z R) i :
  sql_update where_ set_ t !! i = (fun r => if where_ i r then set_ i r else r) <$> t !! i.
Proof. unfold sql_update. rewrite map_lookup_imap. by destruct (t !! i). Qed.

Lemma sql_rows_elem {R} `{Postgres} (where_ : Z -> R -> bool) (t : gmap Z R) i r :
  (i, r) ∈ sql_rows where_ t <-> t !! i = Some r /\ where_ i r = true.
Proof.
  unfold sql_rows. rewrite row_order_perm, elem_of_map_to_list, map_lookup_filter_Some. done.
Qed.

