(* ===== verification/Storage.v ===== *)
(** * The task storage (src/libs/db/impl/pg_task_storage.cpp)

    Every method of [PgTaskStorage] as a transaction on the tables of [Db]: the
    statements in the order the method issues them, its early returns, what it
    catches and what escapes a [noexcept] function.  A method [m] is the
    transaction [m_txn] and the call [m] that runs it; the two that use more than
    one transaction are calls only.  Calls take effect one after the other. *)

From S2P Require Import Prelude Std Slot State Db.

Section storage.
Context `{StdLib} `{Postgres}.

(** ** Shared helpers *)

(** The sum of [f] over the rows of [jobIds] that are on VM [v]. *)
Definition freed (f : JobRow -> Z) (jobIds : list JobId) (jobs : gmap Z JobRow) (v : VmId) : Z :=
  sum_list_Z (fun ir => f ir.2)
    (map_to_list (filter (fun ir => ir.1 ∈ jobIds /\ j_vm_id ir.2 = Some v) jobs)).

Definition has_job_of (jobIds : list JobId) (jobs : gmap Z JobRow) (v : VmId) : bool :=
  bool_decide (filter (fun ir => ir.1 ∈ jobIds /\ j_vm_id ir.2 = Some v) jobs <> ∅).

(** [releaseVmResources], its statement. *)
Definition release (now : Z) (jobIds : list JobId) (db : Db) : Db :=
  update_vms now (fun v _ => has_job_of jobIds (db_jobs db) v)
    (fun v r => set_v_idle (Z.min (v_cpu_idle r + freed j_cpu jobIds (db_jobs db) v) (v_cpu r))
                           (Z.min (v_ram_idle r + freed j_ram jobIds (db_jobs db) v) (v_ram r)) r) db.

Definition releaseVmResources (jobIds : list JobId) : Tx unit :=
  match jobIds with
  | [] => mret tt
  | _ => exec (fun env db => Some (tt, release (env_now env) jobIds db))
  end.

(** [getStatusesWithLock], for jobs and for VMs; an id without a row is absent. *)
Definition getJobStatusesWithLock (m : gmap Z VmInfo) : Tx (gmap Z JobStatus) :=
  if decide (m = ∅) then mret ∅
  else query (fun _ db => j_status <$> filter (fun ir => is_Some (m !! ir.1)) (db_jobs db)).

Definition getVmStatusesWithLock (m : gmap Z SlotCapacity) : Tx (gmap Z VmStatus) :=
  if decide (m = ∅) then mret ∅
  else query (fun _ db => v_status <$> filter (fun ir => is_Some (m !! ir.1)) (db_vms db)).

(** [execWritableQuery_] *)
Definition execWritableQuery_ {A} (q : Env -> Db -> option (A * Db)) : Tx (Result A) :=
  try_catch (begin_txn ;; r ← exec q; commit ;; mret (Success r))
    (fun _ => Failure PgException).

(** [readOnlyTransaction_]: opened, read from, never committed. *)
Definition readOnlyTransaction_ : Tx (Result unit) :=
  try_catch (begin_txn ;; mret (Success tt)) (fun _ => Failure PgException).

(** ** Adding a task *)

Definition new_job (now taskId : Z) (p : TaskParameters) (options : string) : JobRow :=
  mkJobRow Queued taskId (cpu (tp_requiredCapacity p)) (ram (tp_requiredCapacity p))
    (tp_estimation p) options None now None None None 0.

(** [INSERT INTO scheduler.jobs ... VALUES ... RETURNING id]: no rows is a syntax error. *)
Fixpoint insert_jobs (now taskId : Z) (p : TaskParameters) (options : list string) (db : Db)
  : option (list JobId * Db) :=
  match options with
  | [] => Some ([], db)
  | o :: options' =>
    o' ← jsonb_in o;
    let id := seq_jobs db in
    if new_key id (db_jobs db) then
      '(ids, db') ← insert_jobs now taskId p options'
        (mkDb (db_vms db) (db_tasks db) (<[id := new_job now taskId p o']> (db_jobs db))
           (db_plans db) (db_locks db) (seq_vms db) (seq_tasks db) (id + 1) (seq_plans db));
      Some (id :: ids, db')
    else None
  end.

Definition insert_task (p : TaskParameters) (db : Db) : option (TaskId * Db) :=
  settings ← jsonb_in (tp_settings p);
  let id := seq_tasks db in
  if int4 (tp_jobCount p) && new_key id (db_tasks db) then
    Some (id, mkDb (db_vms db)
      (<[id := mkTaskRow (tp_jobCount p) settings (tp_imageVersion p) (tp_clientId p)]> (db_tasks db))
      (db_jobs db) (db_plans db) (db_locks db) (seq_vms db) (id + 1) (seq_jobs db) (seq_plans db))
  else None.

Definition insert_jobs_query (taskId : TaskId) (p : TaskParameters) (env : Env) (db : Db)
  : option (list JobId * Db) :=
  match tp_jobOptions p with
  | [] => None
  | options =>
    if int4 (cpu (tp_requiredCapacity p)) && int4 (ram (tp_requiredCapacity p))
       && interval_ok (tp_estimation p)
    then insert_jobs (env_now env) taskId p options db
    else None
  end.

Definition addTask_txn (p : TaskParameters) : Tx (Result CreatedJobs) :=
  try_catch
    (begin_txn ;;
     taskId ← exec (fun _ db => insert_task p db);
     jobIds ← exec (insert_jobs_query taskId p);
     commit ;;
     mret (Success (mkCreatedJobs taskId jobIds)))
    (fun _ => Failure PgException).

Definition addTask (p : TaskParameters) : Env -> Db -> Call CreatedJobs := run_call (addTask_txn p).

(** ** Scheduling *)

Definition acquireLock_ : Tx (Result unit) :=
  try_catch (begin_txn ;; exec (fun _ db => Some (tt, db)) ;; mret (Success tt))
    (fun e => match e with
              | LockError => Failure LockUnavailable
              | SqlError => Failure PgException
              end).

(** [SELECT COALESCE(MAX(id), 0)]; [as<size_t>]: ids are inserted from a [size_t]. *)
Definition max_lock (db : Db) : Z := foldr Z.max 0 (elements (db_locks db)).

Definition checkLeader_ (lockNumber : Z) : Tx (Result unit) :=
  try_catch
    (maxId ← query (fun _ db => max_lock db);
     if lockNumber >? maxId then
       exec (fun _ db =>
         if lockNumber <? 2 ^ 63 then Some (tt, with_locks db ({[lockNumber]} ∪ db_locks db))
         else None) ;;
       mret (Success tt)
     else mret (Success tt))
    (fun _ => Failure PgException).

(** [MAX(updated)]; [None] for an empty table. *)
Definition last_updated (db : Db) : option Z :=
  foldr (fun ir m => Some (match m with None => p_updated ir.2 | Some x => Z.max (p_updated ir.2) x end))
    None (map_to_list (db_plans db)).

Definition planWasRecentlyUpdated_ (schedulingInterval : Z) : Tx (Result bool) :=
  try_catch
    (r ← query (fun env db =>
       default 0 (last_updated db) + seconds schedulingInterval >? env_now env);
     mret (Success r))
    (fun _ => Failure PgException).

Definition insert_plan (now : Z) (backendId : string) (db : Db) : option (PlanId * Db) :=
  let id := seq_plans db in
  if new_key id (db_plans db) then
    Some (id, mkDb (db_vms db) (db_tasks db) (db_jobs db)
      (<[id := mkPlanRow now now backendId]> (db_plans db)) (db_locks db)
      (seq_vms db) (seq_tasks db) (seq_jobs db) (id + 1))
  else None.

Definition insertNewPlanRecord_ (backendId : string) : Tx (Result PlanId) :=
  try_catch
    (id ← exec (fun env db => insert_plan (env_now env) backendId db);
     commit ;;
     mret (Success id))
    (fun _ => Failure PgException).

(** The result of [checkLeader_] is dropped; the commit of the early return is
    not guarded. *)
Definition startScheduling_txn (backendId : string) (schedulingInterval : Z)
    (lockNumber : option Z) : Tx (Result PlanId) :=
  let? _ := acquireLock_ in
  match lockNumber with
  | Some n => _ ← checkLeader_ n; mret tt
  | None => mret tt
  end ;;
  let? recent := planWasRecentlyUpdated_ schedulingInterval in
  if (recent : bool) then commit ;; mret (Failure SchedulingCancelled)
  else insertNewPlanRecord_ backendId.

Definition startScheduling (backendId : string) (schedulingInterval : Z) (lockNumber : option Z)
  : Env -> Db -> Call PlanId :=
  run_call (startScheduling_txn backendId schedulingInterval lockNumber).

Definition read_job (ir : Z * JobRow) : option QueuedJobInfo :=
  c ← as_size_t (j_cpu ir.2); m ← as_size_t (j_ram ir.2);
  Some (mkJob ir.1 (mkSlot c m)).

Definition getQueuedJobs_ : Tx (Result (list QueuedJobInfo)) :=
  try_catch
    (rows ← query (fun _ db => sql_rows (fun _ r => bool_decide (j_status r = Queued)) (db_jobs db));
     jobs ← or_throw (mapM read_job rows);
     mret (Success jobs))
    (fun _ => Failure PgException).

Definition vm_active (r : VmRow) : bool := bool_decide (v_status r ∈ getActiveVmStatuses).

Definition read_vm (ir : Z * VmRow) : option ActiveVm :=
  c ← as_size_t (v_cpu ir.2); m ← as_size_t (v_ram ir.2);
  ci ← as_size_t (v_cpu_idle ir.2); mi ← as_size_t (v_ram_idle ir.2);
  Some (mkVm ir.1 (mkSlot c m) (mkSlot ci mi)).

Definition getActiveVms_ : Tx (Result (list ActiveVm)) :=
  try_catch
    (rows ← query (fun _ db => sql_rows (fun _ r => vm_active r) (db_vms db));
     vms ← or_throw (mapM read_vm rows);
     mret (Success vms))
    (fun _ => Failure PgException).

Definition getCurrentState_txn : Tx (Result State) :=
  let? _ := readOnlyTransaction_ in
  let? jobs := getQueuedJobs_ in
  let? vms := getActiveVms_ in
  mret (Success (mkState jobs vms)).

Definition getCurrentState : Env -> Db -> Call State := run_call getCurrentState_txn.

(** ** Committing a plan *)

Definition latest_plans (db : Db) : list PlanId :=
  (sql_rows (fun _ r => bool_decide (Some (p_updated r) = last_updated db)) (db_plans db)).*1.

Definition isSchedulingRelevant_ (currentPlanId : PlanId) : Tx (Result bool) :=
  noexcept
    (ids ← query (fun _ db => latest_plans db);
     mret match ids with
          | [id] => Success (bool_decide (id = currentPlanId))
          | _ => Failure InconsistentPgResultException
          end).

Definition some_status {S} (p : S -> bool) (m : gmap Z S) : bool :=
  existsb (fun kv => p kv.2) (map_to_list m).

Definition job_final (s : JobStatus) : bool := bool_decide (s ∈ getFinalJobStatuses).

Definition checkConflicts_ (state : StateChange) : Tx (Result unit) :=
  try_catch
    (jobStatuses ← getJobStatusesWithLock (jobToVm state);
     vmStatuses ← getVmStatusesWithLock (updatedIdleCapacities state);
     mret (if some_status job_final jobStatuses then Failure OptimisticLockingFailure
           else if some_status (fun s => negb (bool_decide (s ∈ getActiveVmStatuses))) vmStatuses
           then Failure OptimisticLockingFailure
           else Success tt))
    (fun _ => Failure PgException).

(** [terminateVms_(txn, vmsToTerminate)]: whatever status the VM is in. *)
Definition terminatePlannedVms_ (vmsToTerminate : list VmId) : Tx (Result unit) :=
  match vmsToTerminate with
  | [] => mret (Success tt)
  | _ =>
    try_catch
      (exec (fun env db =>
         Some (tt, update_vms (env_now env) (fun i _ => bool_decide (i ∈ vmsToTerminate))
                     (fun _ => set_v_status PendingTermination) db)) ;;
       mret (Success tt))
      (fun _ => Failure PgException)
  end.

(** A value out of the range of the column is an error only for a row it is assigned to. *)
Definition idle_storable (m : gmap Z SlotCapacity) (t : gmap Z VmRow) : bool :=
  forallb (fun vs => bool_decide (t !! vs.1 = None) || (int4 (cpu vs.2) && int4 (ram vs.2)))
    (map_to_list m).

Definition updateVmCapacities_ (m : gmap Z SlotCapacity) : Tx (Result unit) :=
  if decide (m = ∅) then mret (Success tt)
  else
    try_catch
      (exec (fun env db =>
         if idle_storable m (db_vms db) then
           Some (tt, update_vms (env_now env) (fun i _ => bool_decide (is_Some (m !! i)))
                       (fun i r => match m !! i with
                                   | Some s => set_v_idle (cpu s) (ram s) r
                                   | None => r
                                   end) db)
         else None) ;;
       mret (Success tt))
      (fun _ => Failure PgException).

Definition new_vm (now : Z) (s : DesiredSlot) : VmRow :=
  mkVmRow PendingAllocation (cpu (total s)) (ram (total s)) (cpu (idle s)) (ram (idle s))
    None None now now None 0.

Definition insert_vm (now : Z) (s : DesiredSlot) (db : Db) : option (VmId * Db) :=
  let id := seq_vms db in
  if new_key id (db_vms db) && int4 (cpu (total s)) && int4 (ram (total s)) && int4 (cpu (idle s)) && int4 (ram (idle s))
  then Some (id, mkDb (<[id := new_vm now s]> (db_vms db)) (db_tasks db) (db_jobs db) (db_plans db)
                   (db_locks db) (id + 1) (seq_tasks db) (seq_jobs db) (seq_plans db))
  else None.

(** The loop of [allocateNewVms_], one statement per desired slot. *)
Fixpoint allocate_loop (slots : list (Z * DesiredSlot)) (allocatedVms : gmap Z VmId)
  : Tx (Result (gmap Z VmId)) :=
  match slots with
  | [] => mret (Success allocatedVms)
  | (d, s) :: slots' =>
    let? v := try_catch (v ← exec (fun env db => insert_vm (env_now env) s db); mret (Success v))
                (fun _ => Failure PgException) in
    allocate_loop slots' (<[d := v]> allocatedVms)
  end.

Definition allocateNewVms_ (desiredSlots : gmap Z DesiredSlot) : Tx (Result (gmap Z VmId)) :=
  allocate_loop (unordered desiredSlots) ∅.

(** [slotsToVms.at] for every assignment; [None] when one of them throws. *)
Definition resolve (slotsToVms : gmap Z VmId) (a : VmInfo) : option VmId :=
  match a with
  | ExistingVm v => Some v
  | DesiredVm d => slotsToVms !! d
  end.

Definition unresolved (slotsToVms : gmap Z VmId) (a : gmap Z VmInfo) : bool :=
  existsb (fun ja => bool_decide (resolve slotsToVms ja.2 = None)) (map_to_list a).

(** The foreign key [jobs.vm_id]. *)
Definition fk_ok (targets : gmap Z VmId) (db : Db) : bool :=
  forallb (fun jv => bool_decide (is_Some (db_vms db !! jv.2)) || bool_decide (db_jobs db !! jv.1 = None))
    (map_to_list targets).

Definition assign_row (targets : gmap Z VmId) (i : Z) (r : JobRow) : JobRow :=
  match targets !! i with
  | Some v => set_j_vm_id v (set_j_status Scheduled r)
  | None => r
  end.

Definition applyJobVmAssignments_ (vmAssignments : gmap Z VmInfo) (slotsToVms : gmap Z VmId)
  : Tx (Result unit) :=
  if decide (vmAssignments = ∅) then mret (Success tt)
  else if unresolved slotsToVms vmAssignments then noexcept (throw SqlError)
  else
    let targets := omap (resolve slotsToVms) vmAssignments in
    try_catch
      (exec (fun _ db =>
         if fk_ok targets db then
           Some (tt, update_jobs (fun i _ => bool_decide (is_Some (targets !! i))) (assign_row targets) db)
         else None) ;;
       mret (Success tt))
      (fun _ => Failure PgException).

Definition refreshPlanActivityTs_ (currentPlanId : PlanId) : Tx (Result unit) :=
  try_catch
    (exec (fun env db =>
       Some (tt, with_plans db
         (sql_update (fun i _ => bool_decide (i = currentPlanId))
            (fun _ r => mkPlanRow (p_created r) (env_now env) (p_backend_id r)) (db_plans db)))) ;;
     mret (Success tt))
    (fun _ => Failure PgException).

Definition commitPlanChange_txn (state : StateChange) (planId : PlanId) : Tx (Result unit) :=
  let? _ := acquireLock_ in
  let? relevant := isSchedulingRelevant_ planId in
  if negb relevant then mret (Failure SchedulingCancelled)
  else
    let? _ := checkConflicts_ state in
    let? _ := terminatePlannedVms_ (vmsToTerminate state) in
    let? _ := updateVmCapacities_ (updatedIdleCapacities state) in
    let? allocatedVms := allocateNewVms_ (desiredSlotMap state) in
    let? _ := applyJobVmAssignments_ (jobToVm state) allocatedVms in
    let? _ := refreshPlanActivityTs_ planId in
    try_catch (commit ;; mret (Success tt)) (fun _ => Failure PgException).

Definition commitPlanChange (state : StateChange) (planId : PlanId) : Env -> Db -> Call unit :=
  run_call (commitPlanChange_txn state planId).

(** ** Allocation and termination of VMs *)

(** [UPDATE .. SET status = to WHERE id IN (SELECT id .. WHERE status = from LIMIT n
    FOR UPDATE SKIP LOCKED) RETURNING ..]; a limit beyond [bigint] is refused. *)
Definition pick_vms (from : VmStatus) (limit : Z) (env : Env) (db : Db) : list VmId :=
  take (Z.to_nat limit)
    (sql_rows (fun i r => bool_decide (v_status r = from) && negb (bool_decide (i ∈ env_locked env)))
       (db_vms db)).*1.

Definition move_vms (from to : VmStatus) (limit : Z) (env : Env) (db : Db)
  : option (list (Z * VmRow) * Db) :=
  if limit <? 2 ^ 63 then
    let ids := pick_vms from limit env db in
    let db' := update_vms (env_now env) (fun i _ => bool_decide (i ∈ ids)) (fun _ => set_v_status to) db in
    Some (sql_rows (fun i _ => bool_decide (i ∈ ids)) (db_vms db'), db')
  else None.

Definition read_pending (ir : Z * VmRow) : option AllocationPendingVmInfo :=
  c ← as_size_t (v_cpu ir.2); m ← as_size_t (v_ram ir.2);
  Some (mkAllocationPending ir.1 (mkSlot c m)).

(** The rows are read after the commit, outside of any [try]. *)
Definition getVmsToAllocate_txn (maxVmAllocationCount : Z) : Tx (Result (list AllocationPendingVmInfo)) :=
  let? rows := execWritableQuery_ (move_vms PendingAllocation Allocating maxVmAllocationCount) in
  vms ← or_throw (mapM read_pending rows);
  mret (Success vms).

Definition getVmsToAllocate (maxVmAllocationCount : Z) : Env -> Db -> Call (list AllocationPendingVmInfo) :=
  run_call (getVmsToAllocate_txn maxVmAllocationCount).

Definition read_terminating (ir : Z * VmRow) : option TerminationPendingVmInfo :=
  c ← as_string (v_cloud_vm_id ir.2); Some (mkTerminationPending ir.1 c).

Definition getVmsToTerminate_txn (maxVmATerminationCount : Z) : Tx (Result (list TerminationPendingVmInfo)) :=
  let? rows := execWritableQuery_ (move_vms PendingTermination Terminating maxVmATerminationCount) in
  vms ← or_throw (mapM read_terminating rows);
  mret (Success vms).

Definition getVmsToTerminate (maxVmATerminationCount : Z) : Env -> Db -> Call (list TerminationPendingVmInfo) :=
  run_call (getVmsToTerminate_txn maxVmATerminationCount).

(** [id IN ()] is a syntax error. *)
Definition set_status_query (vmIds : list VmId) (status : VmStatus) (env : Env) (db : Db)
  : option (unit * Db) :=
  match vmIds with
  | [] => None
  | _ => Some (tt, update_vms (env_now env) (fun i _ => bool_decide (i ∈ vmIds))
                     (fun _ => set_v_status status) db)
  end.

Definition setVmStatus_ (vmIds : list VmId) (status : VmStatus) : Tx (Result unit) :=
  execWritableQuery_ (set_status_query vmIds status).

Definition returnUnterminatedVms (vmIds : list VmId) : Env -> Db -> Call unit :=
  run_call (setVmStatus_ vmIds PendingTermination).

Definition saveVmTerminationResult (vmId : VmId) : Env -> Db -> Call unit :=
  run_call (setVmStatus_ [vmId] Terminated).

(** The cloud's names are pasted between quotes unescaped.  A name with a quote in
    it changes the statement; the model stops at refusing it. *)
Fixpoint no_quote (s : string) : bool :=
  match s with
  | EmptyString => true
  | String c s' => negb (Ascii.eqb c (Ascii.ascii_of_nat 39)) && no_quote s'
  end.

Definition save_allocation_query (id : VmId) (info : AllocatedVmInfo) (env : Env) (db : Db)
  : option (unit * Db) :=
  if no_quote (av_id info) && no_quote (av_type info) then
    Some (tt, update_vms (env_now env) (fun i _ => bool_decide (i = id))
                (fun _ r => set_v_cloud (av_id info) (av_type info) (set_v_status Allocated r)) db)
  else None.

Definition saveVmAllocationResult (id : VmId) (allocatedVmInfo : AllocatedVmInfo)
  : Env -> Db -> Call unit :=
  run_call (execWritableQuery_ (save_allocation_query id allocatedVmInfo)).

(** ** Cancelling *)

(** The conditions [cancelJobs_] is given. *)
Inductive JobCondition : Type :=
  | OfTask (taskId : TaskId)
  | TimedOut.

Definition timed_out (now : Z) (r : JobRow) : bool := j_created r + seconds (j_estimation r) <? now.

(** Both conditions go on with [AND status NOT IN (final statuses)]. *)
Definition job_condition (c : JobCondition) (now : Z) (r : JobRow) : bool :=
  match c with
  | OfTask t => bool_decide (j_task_id r = t)
  | TimedOut => timed_out now r
  end && negb (job_final (j_status r)).

(** The addition of the second condition has a result for every open job. *)
Definition job_condition_ok (c : JobCondition) (db : Db) : bool :=
  match c with
  | OfTask _ => true
  | TimedOut => forallb (fun ir => job_final (j_status ir.2)
                  || timestamp_ok (j_created ir.2 + seconds (j_estimation ir.2)))
                  (map_to_list (db_jobs db))
  end.

Definition cancel_row (r : JobRow) : JobRow :=
  set_j_status (if decide (j_status r = Queued) then Cancelled else Cancelling) r.

Definition cancel_query (c : JobCondition) (env : Env) (db : Db) : option (list (Z * JobStatus) * Db) :=
  if job_condition_ok c db then
    let hit := fun (_ : Z) r => job_condition c (env_now env) r in
    Some ((fun ir => (ir.1, j_status (cancel_row ir.2))) <$> sql_rows hit (db_jobs db),
          update_jobs hit (fun _ => cancel_row) db)
  else None.

Definition cancelJobs_ (c : JobCondition) : Tx (Result unit) :=
  try_catch
    (begin_txn ;;
     result ← exec (cancel_query c);
     let cancelledJobIds := (filter (fun js => js.2 = Cancelled) result).*1 in
     (if decide (result = []) then mret tt else releaseVmResources cancelledJobIds) ;;
     commit ;;
     mret (Success tt))
    (fun _ => Failure PgException).

Definition cancelTask (taskId : TaskId) : Env -> Db -> Call unit := run_call (cancelJobs_ (OfTask taskId)).

Definition cancelTimedOutJobs : Env -> Db -> Call unit := run_call (cancelJobs_ TimedOut).

(** [COALESCE(result_url, '')]: an absent URL comes back as an empty one. *)
Definition read_job_state (ir : Z * JobRow) : JobState :=
  mkJobState (j_status ir.2) (Some (default EmptyString (j_result_url ir.2))).

Definition getJobStates_txn (taskId : TaskId) : Tx (Result (list JobState)) :=
  try_catch
    (begin_txn ;;
     rows ← query (fun _ db => sql_rows (fun _ r => bool_decide (j_task_id r = taskId)) (db_jobs db));
     mret (Success (read_job_state <$> rows)))
    (fun _ => Failure PgException).

Definition getJobStates (taskId : TaskId) : Env -> Db -> Call (list JobState) :=
  run_call (getJobStates_txn taskId).

(** ** Restarting and giving up *)

(** The conditions [restartAllocatingVms_] and [terminateVms_] are given. *)
Inductive VmCondition : Type :=
  | StatusOlderThan (limit : Z)
  | VmIdIn (vmIds : list VmId).

Definition vm_condition (c : VmCondition) (now : Z) (i : Z) (r : VmRow) : bool :=
  match c with
  | StatusOlderThan limit => now >? v_last_status_update r + seconds limit
  | VmIdIn vmIds => bool_decide (i ∈ vmIds)
  end.

(** Whether the condition is accepted and has a value on the VMs in [status]. *)
Definition vm_condition_ok (c : VmCondition) (status : VmStatus) (db : Db) : bool :=
  match c with
  | StatusOlderThan limit =>
    interval_ok limit
    && forallb (fun ir => negb (bool_decide (v_status ir.2 = status))
         || timestamp_ok (v_last_status_update ir.2 + seconds limit)) (map_to_list (db_vms db))
  | VmIdIn [] => false
  | VmIdIn _ => true
  end.

Definition restart_vms_query (c : VmCondition) (vmRestartAttemptCount : Z) (env : Env) (db : Db)
  : option (unit * Db) :=
  let hit := fun i r => bool_decide (v_status r = Allocating)
    && (v_restart_count r <? vmRestartAttemptCount) && vm_condition c (env_now env) i r in
  if vm_condition_ok c Allocating db
     && forallb (fun ir => int4 (v_restart_count ir.2 + 1)) (sql_rows hit (db_vms db))
  then Some (tt, update_vms (env_now env) hit
    (fun _ r => set_v_restart_count (v_restart_count r + 1) (set_v_status PendingAllocation r)) db)
  else None.

Definition restartAllocatingVms_ (c : VmCondition) (vmRestartAttemptCount : Z) : Tx (Result unit) :=
  execWritableQuery_ (restart_vms_query c vmRestartAttemptCount).

Definition restartStaleAllocatingVms (allocationTimeLimit vmRestartAttemptCount : Z)
  : Env -> Db -> Call unit :=
  run_call (restartAllocatingVms_ (StatusOlderThan allocationTimeLimit) vmRestartAttemptCount).

Definition on_vms (vmIds : list VmId) (r : JobRow) : bool :=
  match j_vm_id r with
  | Some v => bool_decide (v ∈ vmIds)
  | None => false
  end.

Definition requeue_query (vmIds : list VmId) (initialStatus : JobStatus) (attempts : Z)
    (env : Env) (db : Db) : option (unit * Db) :=
  let hit := fun (_ : Z) r => bool_decide (j_status r = initialStatus)
    && (j_restart_count r <? attempts) && on_vms vmIds r in
  if forallb (fun ir => int4 (j_restart_count ir.2 + 1)) (sql_rows hit (db_jobs db))
  then Some (tt, update_jobs hit
    (fun _ r => set_j_restart_count (j_restart_count r + 1) (set_j_status Queued r)) db)
  else None.

Definition fail_query (vmIds : list VmId) (initialStatus : JobStatus) (attempts : Z)
    (env : Env) (db : Db) : option (unit * Db) :=
  Some (tt, update_jobs
    (fun _ r => bool_decide (j_status r = initialStatus)
       && (j_restart_count r >=? attempts) && on_vms vmIds r)
    (fun _ => set_j_status InternalError) db).

Definition restartJobs (vmIds : list VmId) (initialStatus : JobStatus) (jobRestartAttemptCount : Z) : Tx unit :=
  exec (requeue_query vmIds initialStatus jobRestartAttemptCount) ;;
  exec (fail_query vmIds initialStatus jobRestartAttemptCount).

Definition terminate_query (c : VmCondition) (initialStatus targetStatus : VmStatus)
    (vmRestartAttemptCount : Z) (env : Env) (db : Db) : option (list VmId * Db) :=
  let hit := fun i r => bool_decide (v_status r = initialStatus)
    && (v_restart_count r >=? vmRestartAttemptCount) && vm_condition c (env_now env) i r in
  if vm_condition_ok c initialStatus db
  then Some ((sql_rows hit (db_vms db)).*1,
             update_vms (env_now env) hit (fun _ => set_v_status targetStatus) db)
  else None.

(** [terminateVms_] with a condition; nothing to commit when no row matched. *)
Definition terminateVms_ (c : VmCondition) (initialStatus targetStatus : VmStatus)
    (vmRestartAttemptCount jobRestartAttemptCount : Z) : Tx (Result unit) :=
  try_catch
    (begin_txn ;;
     terminatedVmIds ← exec (terminate_query c initialStatus targetStatus vmRestartAttemptCount);
     if decide (terminatedVmIds = []) then mret (Success tt)
     else
       restartJobs terminatedVmIds Scheduled jobRestartAttemptCount ;;
       commit ;;
       mret (Success tt))
    (fun _ => Failure PgException).

Definition terminateStaleAllocatingVms (allocationTimeLimit vmRestartAttemptCount jobRestartAttemptCount : Z)
  : Env -> Db -> Call unit :=
  run_call (terminateVms_ (StatusOlderThan allocationTimeLimit) Allocating Terminated
              vmRestartAttemptCount jobRestartAttemptCount).

(** Two transactions. *)
Definition rollbackUnallocatedVmsState (vmIds : list VmId)
    (vmRestartAttemptCount jobRestartAttemptCount : Z) (env1 env2 : Env) (db : Db) : Call unit :=
  then_call (run_call (restartAllocatingVms_ (VmIdIn vmIds) vmRestartAttemptCount) env1 db)
    (fun _ => run_call (terminateVms_ (VmIdIn vmIds) Allocating Terminated
                          vmRestartAttemptCount jobRestartAttemptCount) env2).

Definition inactive_agent (now limit : Z) (r : VmRow) : bool :=
  bool_decide (v_status r = AgentStarted)
  && match v_agent_activity r with
     | Some t => now >? t + seconds limit
     | None => false
     end.

Definition agent_times_ok (limit : Z) (db : Db) : bool :=
  interval_ok limit
  && forallb (fun ir => match v_agent_activity ir.2 with
                        | Some t => timestamp_ok (t + seconds limit)
                        | None => true
                        end) (map_to_list (db_vms db)).

Definition inactive_query (limit : Z) (env : Env) (db : Db) : option (list VmId * Db) :=
  let hit := fun (_ : Z) r => inactive_agent (env_now env) limit r in
  if agent_times_ok limit db
  then Some ((sql_rows hit (db_vms db)).*1,
             update_vms (env_now env) hit (fun _ => set_v_status PendingTermination) db)
  else None.

Definition terminateVmsWithInactiveAgents_txn (agentInactivityTimeLimit jobRestartAttemptCount : Z)
  : Tx (Result unit) :=
  try_catch
    (begin_txn ;;
     pendingTerminationVmIds ← exec (inactive_query agentInactivityTimeLimit);
     if decide (pendingTerminationVmIds = []) then mret (Success tt)
     else
       restartJobs pendingTerminationVmIds Running jobRestartAttemptCount ;;
       commit ;;
       mret (Success tt))
    (fun _ => Failure PgException).

Definition terminateVmsWithInactiveAgents (agentInactivityTimeLimit jobRestartAttemptCount : Z)
  : Env -> Db -> Call unit :=
  run_call (terminateVmsWithInactiveAgents_txn agentInactivityTimeLimit jobRestartAttemptCount).

Definition terminateVmsWithoutAgents (agentStartupTimeLimit jobRestartAttemptCount : Z)
  : Env -> Db -> Call unit :=
  run_call (terminateVms_ (StatusOlderThan agentStartupTimeLimit) Allocated PendingTermination
              0 jobRestartAttemptCount).

(** ** The agent's calls *)

Definition pgResultToAssignedJobs (rows : list (Z * JobRow)) : list AssignedJob :=
  (fun ir => mkAssignedJob ir.1 (j_status ir.2)) <$> rows.

Definition assigned_to (vmId : VmId) (r : JobRow) : bool :=
  bool_decide (j_vm_id r = Some vmId) && bool_decide (j_status r ∈ getAssignedJobStatuses).

Definition getAssignedJobs_txn (vmId : VmId) : Tx (Result (list AssignedJob)) :=
  try_catch
    (begin_txn ;;
     exec (fun env db => Some (tt, update_vms (env_now env)
       (fun i r => bool_decide (i = vmId) && bool_decide (v_status r = Allocated))
       (fun _ => set_v_status AgentStarted) db)) ;;
     exec (fun env db => Some (tt, update_vms (env_now env)
       (fun i _ => bool_decide (i = vmId)) (fun _ => set_v_agent_activity (env_now env)) db)) ;;
     assignedJobs ← query (fun _ db => sql_rows (fun _ r => assigned_to vmId r) (db_jobs db));
     commit ;;
     mret (Success (pgResultToAssignedJobs assignedJobs)))
    (fun _ => Failure PgException).

Definition getAssignedJobs (vmId : VmId) : Env -> Db -> Call (list AssignedJob) :=
  run_call (getAssignedJobs_txn vmId).

(** The row of a job on a VM, joined with its task. *)
Definition job_on (vmId : VmId) (jobId : JobId) (db : Db) : option JobRow :=
  r ← db_jobs db !! jobId;
  if decide (j_vm_id r = Some vmId) then Some r else None.

Definition pgResultToJobToLaunch (jobId : JobId) (r : JobRow) (t : TaskRow) : option JobToLaunch :=
  c ← as_size_t (j_cpu r); m ← as_size_t (j_ram r);
  Some (mkJobToLaunch jobId (mkSlot c m) (t_settings t) (t_image_version t) (j_options r)).

Definition getJobToLaunch_txn (vmId : VmId) (jobId : JobId) : Tx (Result JobToLaunch) :=
  try_catch
    (begin_txn ;;
     row ← query (fun _ db => r ← job_on vmId jobId db; t ← db_tasks db !! j_task_id r; Some (r, t));
     match row with
     | None => mret (Failure JobNotFoundException)
     | Some (r, t) => j ← or_throw (pgResultToJobToLaunch jobId r t); mret (Success j)
     end)
    (fun _ => Failure PgException).

Definition getJobToLaunch (vmId : VmId) (jobId : JobId) : Env -> Db -> Call JobToLaunch :=
  run_call (getJobToLaunch_txn vmId jobId).

Definition report_row (now : Z) (s : JobState) (r : JobRow) : JobRow :=
  let r' := set_j_status (js_status s) r in
  if job_final (js_status s)
  then set_j_result (js_resultUrl s) (j_started r) (Some now) r'
  else set_j_result (js_resultUrl s) (Some (default now (j_started r))) (j_finished r) r'.

Definition updateJobState_txn (vmId : VmId) (jobId : JobId) (jobState : JobState) : Tx (Result unit) :=
  try_catch
    (begin_txn ;;
     statusResult ← query (fun _ db => j_status <$> job_on vmId jobId db);
     match statusResult with
     | None => mret (Failure JobNotFoundException)
     | Some jobStatus =>
       if bool_decide (jobStatus = Cancelling) && negb (bool_decide (js_status jobState = Cancelled))
       then mret (Success tt)
       else
         exec (fun env db => Some (tt, update_jobs
           (fun i r => bool_decide (j_vm_id r = Some vmId) && bool_decide (i = jobId)
                       && negb (job_final (j_status r)))
           (fun _ => report_row (env_now env) jobState) db)) ;;
         (if job_final (js_status jobState) then releaseVmResources [jobId] else mret tt) ;;
         commit ;;
         mret (Success tt)
     end)
    (fun _ => Failure PgException).

Definition updateJobState (vmId : VmId) (jobId : JobId) (jobState : JobState) : Env -> Db -> Call unit :=
  run_call (updateJobState_txn vmId jobId jobState).

(** ** The VMs the scheduler knows of *)

Definition read_allocated (ir : Z * VmRow) : option AllocatedVmInfo :=
  i ← as_string (v_cloud_vm_id ir.2); t ← as_string (v_cloud_vm_type ir.2);
  Some (mkAllocatedVm i t).

Definition getAllocatedVms_txn : Tx (Result (list AllocatedVmInfo)) :=
  try_catch
    (begin_txn ;;
     rows ← query (fun _ db => sql_rows (fun _ r => vm_active r) (db_vms db));
     vms ← or_throw (mapM read_allocated rows);
     mret (Success vms))
    (fun _ => Failure PgException).

Definition getAllocatedVms : Env -> Db -> Call (list AllocatedVmInfo) := run_call getAllocatedVms_txn.
End storage.
