(* ===== verification/TxLogic.v ===== *)
(** * Reasoning about transactions

    A weakest-precondition reading of the transaction monad, with one rule per
    construct, and the consequences for whole calls: relations between the
    database before and after that every statement respects, atomicity of failed
    calls, and evaluation in an environment without faults. *)

From S2P Require Import Prelude Std Slot State Db.

(** ** Weakest preconditions *)

Definition wp {A} (env : Env) (m : Tx A) (Q : TxOut A -> TxState -> Prop) (st : TxState) : Prop :=
  Q (m env st).1 (m env st).2.

(** The state a refused statement leaves. *)
Definition refused (st : TxState) : TxState :=
  mkTx (tx_db st) (S (tx_queries st)) true (tx_committed st) (tx_logs st).

Definition executed (env : Env) (db : Db) (st : TxState) : TxState :=
  mkTx db (S (tx_queries st)) false (tx_committed st)
    (add_logs (tx_logs st) (statement_logs (env_now env) (tx_db st) db)).

(** The state a commit leaves. *)
Definition ended_txn (env : Env) (aborted committed : bool) (st : TxState) : TxState :=
  mkTx (tx_db st) (S (tx_queries st)) aborted committed
    (if aborted then tx_logs st
     else add_logs (tx_logs st) (statement_logs (env_now env) (tx_db st) (tx_db st))).

(** Postconditions of the rest of a computation. *)
Definition chain {A B} (env : Env) (f : A -> Tx B) (Q : TxOut B -> TxState -> Prop)
    (o : TxOut A) (st : TxState) : Prop :=
  match o with
  | TxVal a => wp env (f a) Q st
  | TxThrow e => Q (TxThrow e) st
  | TxTerminate => Q TxTerminate st
  end.

Definition caught {A} (h : TxExn -> A) (Q : TxOut A -> TxState -> Prop) (o : TxOut A) (st : TxState) : Prop :=
  match o with
  | TxThrow e => Q (TxVal (h e)) st
  | o => Q o st
  end.

Section wp.
Context (env : Env).

Lemma wp_ret {A} (a : A) (Q : TxOut A -> TxState -> Prop) st : Q (TxVal a) st -> wp env (mret a) Q st.
Proof. done. Qed.

Lemma wp_bind {A B} (m : Tx A) (f : A -> Tx B) Q st :
  wp env m (chain env f Q) st -> wp env (m ≫= f) Q st.
Proof. unfold wp, chain, mbind, tx_bind. by destruct (m env st) as [[] st']. Qed.

Lemma wp_try {A} (m : Tx A) (h : TxExn -> A) Q st :
  wp env m (caught h Q) st -> wp env (try_catch m h) Q st.
Proof. unfold wp, caught, try_catch. by destruct (m env st) as [[] st']. Qed.

Lemma wp_noexcept {A} (m : Tx A) Q st :
  wp env m (fun o st' => match o with TxThrow _ => Q TxTerminate st' | o => Q o st' end) st ->
  wp env (noexcept m) Q st.
Proof. unfold wp, noexcept. by destruct (m env st) as [[] st']. Qed.

Lemma wp_throw {A} e (Q : TxOut A -> TxState -> Prop) st : Q (TxThrow e) st -> wp env (throw e) Q st.
Proof. done. Qed.

Lemma wp_or_throw {A} (o : option A) (Q : TxOut A -> TxState -> Prop) st :
  (forall a, o = Some a -> Q (TxVal a) st) -> (o = None -> Q (TxThrow SqlError) st) ->
  wp env (or_throw o) Q st.
Proof. destruct o; unfold wp; cbn; auto. Qed.

Lemma wp_exec {A} (q : Env -> Db -> option (A * Db)) Q st :
  (forall e, Q (TxThrow e) (refused st)) ->
  (forall a db', tx_aborted st = false -> q env (tx_db st) = Some (a, db') ->
     Q (TxVal a) (executed env db' st)) ->
  wp env (exec q) Q st.
Proof.
  intros Hf Hs. unfold wp, exec. destruct (tx_aborted st) eqn:?; [apply Hf|].
  destruct (env_fault env (tx_queries st)); [apply Hf|].
  destruct (q env (tx_db st)) as [[a db']|] eqn:?; [by apply Hs|apply Hf].
Qed.

Lemma wp_query {A} (q : Env -> Db -> A) Q st :
  (forall e, Q (TxThrow e) (refused st)) ->
  (tx_aborted st = false -> Q (TxVal (q env (tx_db st))) (executed env (tx_db st) st)) ->
  wp env (query q) Q st.
Proof. intros Hf Hs. apply wp_exec; [done|]. intros a db' Hab [= <- <-]. auto. Qed.

(** A commit that throws may have taken effect all the same. *)
Lemma wp_commit Q st :
  (forall e c, (c = true -> env_in_doubt env = true /\ tx_aborted st = false) ->
     Q (TxThrow e) (ended_txn env true c st)) ->
  (tx_aborted st = false -> Q (TxVal tt) (ended_txn env false true st)) ->
  wp env commit Q st.
Proof.
  intros Hf Hs. unfold wp, commit, exec. destruct (tx_aborted st) eqn:Hab.
  - apply Hf. by rewrite andb_false_r.
  - destruct (env_fault env (tx_queries st)); cbn; [apply Hf|by apply Hs].
    rewrite andb_true_r. auto.
Qed.

Lemma wp_and_then {A B} (m : Tx (Result A)) (k : A -> Tx (Result B)) Q st :
  wp env m (chain env (fun r => match r with Failure e => mret (Failure e) | Success a => k a end) Q) st ->
  wp env (and_then m k) Q st.
Proof. apply wp_bind. Qed.

Lemma wp_mono {A} (m : Tx A) (Q Q' : TxOut A -> TxState -> Prop) st :
  wp env m Q st -> (forall o st', Q o st' -> Q' o st') -> wp env m Q' st.
Proof. unfold wp. auto. Qed.

Lemma wp_conj {A} (m : Tx A) (Q Q' : TxOut A -> TxState -> Prop) st :
  wp env m Q st -> wp env m Q' st -> wp env m (fun o st' => Q o st' /\ Q' o st') st.
Proof. done. Qed.
End wp.

(** ** Total correctness *)

(** No statement is made to fail. *)
Definition quiet (env : Env) : Prop := forall n, env_fault env n = None.

Lemma calm_quiet now : quiet (calm now).
Proof. done. Qed.

(** A transaction in progress. *)
Definition live (st : TxState) : Prop := tx_aborted st = false.

Section quiet.
Context (env : Env) (Hquiet : quiet env).

Lemma wp_exec_quiet {A} (q : Env -> Db -> option (A * Db)) Q st a db' :
  live st -> q env (tx_db st) = Some (a, db') -> Q (TxVal a) (executed env db' st) -> wp env (exec q) Q st.
Proof. intros Hl Hq HQ. unfold wp, exec. by rewrite Hl, Hquiet, Hq. Qed.

Lemma wp_query_quiet {A} (q : Env -> Db -> A) Q st :
  live st -> Q (TxVal (q env (tx_db st))) (executed env (tx_db st) st) -> wp env (query q) Q st.
Proof. intros Hl HQ. by eapply wp_exec_quiet. Qed.

Lemma wp_commit_quiet Q st :
  live st -> Q (TxVal tt) (ended_txn env false true st) -> wp env commit Q st.
Proof. intros Hl HQ. unfold wp, commit, exec. by rewrite Hl, Hquiet. Qed.
End quiet.

(** One step of symbolic execution: the rule of the construct in front. *)
Ltac wp_step :=
  lazymatch goal with
  | |- wp _ (mret _) _ _ => apply wp_ret
  | |- wp _ (_ ≫= _) _ _ => apply wp_bind
  | |- wp _ (try_catch _ _) _ _ => apply wp_try
  | |- wp _ (noexcept _) _ _ => apply wp_noexcept
  | |- wp _ (throw _) _ _ => apply wp_throw
  | |- wp _ (or_throw _) _ _ => apply wp_or_throw; intros
  | |- wp _ (query _) _ _ => apply wp_query; [intros ?|intros ?]
  | |- wp _ begin_txn _ _ => unfold begin_txn
  | |- wp _ (exec _) _ _ => apply wp_exec; [intros ?|intros ? ? ? ?]
  | |- wp _ commit _ _ => apply wp_commit; [intros ? ? ?|intros ?]
  | |- wp _ (and_then _ _) _ _ => apply wp_and_then
  | |- wp _ (if ?b then _ else _) _ _ => destruct b eqn:?
  | |- wp _ (match ?x with _ => _ end) _ _ => destruct x eqn:?
  | |- wp _ (let '(_, _) := ?x in _) _ _ => destruct x eqn:?
  | |- chain _ _ _ _ _ => cbn [chain caught]
  | |- caught _ _ _ _ => cbn [chain caught]
  end.

Lemma run_call_wp {A} (m : Tx (Result A)) env db (Q : Call A -> Prop) :
  wp env m (fun o st => match o with
                        | TxVal r => Q (Answer r (final_db db st))
                        | _ => Q (Crash (final_db db st))
                        end) (tx_start db) ->
  Q (run_call m env db).
Proof. unfold wp, run_call. by destruct (m env (tx_start db)) as [[] st]. Qed.

(** ** Relations every statement respects *)

Lemma status_log_same {R S} `{EqDecision S} (status : R -> S) now (t : gmap Z R) : status_log status now t t = [].
Proof.
  unfold status_log. assert (forall l, (forall ir, ir ∈ l -> t !! ir.1 = Some ir.2) -> omap (fun ir : Z * R =>
    if decide (status <$> t !! ir.1 = Some (status ir.2)) then None else Some (mkLog ir.1 (status ir.2) now)) l = []) as H.
  { induction l as [|ir l IH]; intros Hl; cbn; [done|]. rewrite (Hl ir) by set_solver.
    rewrite decide_True by done. apply IH. set_solver. }
  apply H. by intros [i r] ?%elem_of_map_to_list.
Qed.

Lemma add_no_logs now (l : Logs) db : add_logs l (statement_logs now db db) = l.
Proof.
  unfold add_logs, statement_logs, update_vm_log, update_job_log. cbn. rewrite !status_log_same, !app_nil_r. by destruct l.
Qed.

(** A preorder on states of a transaction that sees the database and the logs only. *)
Class TxRel (T : Env -> TxState -> TxState -> Prop) : Prop := {
  tx_rel_silent : forall env a b, tx_db a = tx_db b -> tx_logs a = tx_logs b -> T env a b;
  tx_rel_trans : forall env a b c, T env a b -> T env b c -> T env a c;
}.

Definition respects {A} (T : Env -> TxState -> TxState -> Prop) (m : Tx A) : Prop :=
  forall env st, T env st (m env st).2.

Section respects.
Context {T : Env -> TxState -> TxState -> Prop} `{!TxRel T}.

Lemma respects_ret {A} (a : A) : respects T (mret a).
Proof. intros env st. by apply tx_rel_silent. Qed.

Lemma respects_throw {A} e : respects T (throw (A := A) e).
Proof. intros env st. by apply tx_rel_silent. Qed.

Lemma respects_or_throw {A} (o : option A) : respects T (or_throw o).
Proof. destruct o; [apply respects_ret|apply respects_throw]. Qed.

Lemma respects_bind {A B} (m : Tx A) (f : A -> Tx B) :
  respects T m -> (forall a, respects T (f a)) -> respects T (m ≫= f).
Proof.
  intros Hm Hf env st. unfold mbind, tx_bind. specialize (Hm env st).
  destruct (m env st) as [[a|e|] st']; cbn in *; [|done..].
  eapply tx_rel_trans; [done|]. apply Hf.
Qed.

Lemma respects_and_then {A B} (m : Tx (Result A)) (k : A -> Tx (Result B)) :
  respects T m -> (forall a, respects T (k a)) -> respects T (and_then m k).
Proof. intros Hm Hk. apply respects_bind; [done|]. intros [a|e]; [done|apply respects_ret]. Qed.

Lemma respects_try {A} (m : Tx A) h : respects T m -> respects T (try_catch m h).
Proof. intros Hm env st. specialize (Hm env st). unfold try_catch. by destruct (m env st) as [[] ?]. Qed.

Lemma respects_noexcept {A} (m : Tx A) : respects T m -> respects T (noexcept m).
Proof. intros Hm env st. specialize (Hm env st). unfold noexcept. by destruct (m env st) as [[] ?]. Qed.

Lemma respects_exec {A} (q : Env -> Db -> option (A * Db)) :
  (forall env st a db', q env (tx_db st) = Some (a, db') -> T env st (executed env db' st)) -> respects T (exec q).
Proof.
  intros Hq env st. apply (wp_exec env q (fun _ st' => T env st st')); [intros _; by apply tx_rel_silent|].
  intros a db' _ Hs. by eapply Hq.
Qed.

Lemma respects_query {A} (q : Env -> Db -> A) : respects T (query q).
Proof.
  apply respects_exec. intros env st a db' [= _ <-]. apply tx_rel_silent; [done|]. cbn. by rewrite add_no_logs.
Qed.

Lemma respects_begin : respects T begin_txn.
Proof. apply (respects_query (fun _ _ => tt)). Qed.

Lemma respects_commit : respects T commit.
Proof.
  intros env st. apply (wp_commit env (fun _ st' => T env st st')); intros; apply tx_rel_silent; try done.
  cbn. by rewrite add_no_logs.
Qed.
End respects.

(** A preorder on databases that forgetting a transaction respects too. *)
Class TxOrder (R : Db -> Db -> Prop) : Prop := {
  #[global] tx_order_pre :: PreOrder R;
  tx_order_rollback : forall a b, R a b -> R a (rollback a b);
}.

Definition on_db (R : Db -> Db -> Prop) (_ : Env) (a b : TxState) : Prop := R (tx_db a) (tx_db b).

Abbreviation keeps R := (respects (on_db R)).

(** What a statement does when it is not refused. *)
Definition query_keeps {A} (R : Db -> Db -> Prop) (q : Env -> Db -> option (A * Db)) : Prop :=
  forall env db a db', q env db = Some (a, db') -> R db db'.

Lemma wp_keeps {A} (R : Db -> Db -> Prop) env (m : Tx A) (Q : TxOut A -> TxState -> Prop) st :
  wp env m Q st -> keeps R m -> wp env m (fun o st' => Q o st' /\ R (tx_db st) (tx_db st')) st.
Proof. intros HQ Hm. apply wp_conj; [done|]. apply Hm. Qed.

Section keeps.
Context {R : Db -> Db -> Prop} `{!TxOrder R}.

#[export] Instance on_db_rel : TxRel (on_db R).
Proof. split; unfold on_db; [by intros env a b -> _|]. intros env a b c Hab Hbc. by etrans. Qed.

Lemma keeps_wp {A} (m : Tx A) :
  (forall env st, wp env m (fun _ st' => R (tx_db st) (tx_db st')) st) -> keeps R m.
Proof. intros Hm env st. apply Hm. Qed.

Lemma keeps_exec {A} (q : Env -> Db -> option (A * Db)) : query_keeps R q -> keeps R (exec q).
Proof. intros Hq. apply respects_exec. intros env st a db' Hs. by eapply Hq. Qed.

(** From the statements of a method to a call of it, faults and all. *)
Lemma run_call_keeps {A} (m : Tx (Result A)) env db :
  keeps R m -> R db (call_db (run_call m env db)).
Proof.
  intros Hm. specialize (Hm env (tx_start db)). unfold run_call, final_db.
  destruct (m env (tx_start db)) as [[r|e|] st]; cbn in *;
    (destruct (tx_committed st); [done|by apply tx_order_rollback]).
Qed.
End keeps.

(** Splits a method into its statements; what is left is one goal per statement. *)
Ltac keeps_step :=
  lazymatch goal with
  | |- respects _ (mret _) => apply respects_ret
  | |- respects _ (throw _) => apply respects_throw
  | |- respects _ (or_throw _) => apply respects_or_throw
  | |- respects _ (_ ≫= _) => apply respects_bind; [|intros ?]
  | |- respects _ (and_then _ _) => apply respects_and_then; [|intros ?]
  | |- respects _ (try_catch _ _) => apply respects_try
  | |- respects _ (noexcept _) => apply respects_noexcept
  | |- respects _ (query _) => apply respects_query
  | |- respects _ begin_txn => apply respects_begin
  | |- respects _ commit => apply respects_commit
  | |- respects _ (if ?b then _ else _) => destruct b
  | |- respects _ (match ?x with _ => _ end) => destruct x
  | |- respects (on_db _) (exec _) => apply keeps_exec
  end.

(** ** Atomicity *)

(** Equal but for the sequences. *)
Record same_tables (a b : Db) : Prop := {
  same_vms : db_vms a = db_vms b;
  same_tasks : db_tasks a = db_tasks b;
  same_jobs : db_jobs a = db_jobs b;
  same_plans : db_plans a = db_plans b;
  same_locks : db_locks a = db_locks b;
}.

Lemma rollback_same a b : same_tables a (rollback a b).
Proof. done. Qed.

Lemma same_tables_refl a : same_tables a a.
Proof. done. Qed.

(** [m] does not commit on the way to a failure, unless the commit is in doubt. *)
Definition atomic {A} (m : Tx (Result A)) : Prop := forall env st,
  env_in_doubt env = false -> tx_committed st = false ->
  wp env m (fun o st' => match o with
                         | TxVal (Failure _) => tx_committed st' = false
                         | _ => True
                         end) st.

(** The rules for a method whose only commit is its last statement. *)
Ltac atomic_auto :=
  intros ?env ?st ?Hdoubt ?Hc;
  repeat (wp_step; cbn [chain caught]); cbn; try done;
  repeat match goal with
  | K : ?c = true -> _ /\ _ |- ?c = false => destruct c; [destruct (K eq_refl); congruence|done]
  end.

Lemma run_call_atomic {A} (m : Tx (Result A)) env db e db' :
  atomic m -> env_in_doubt env = false ->
  run_call m env db = Answer (Failure e) db' -> same_tables db db'.
Proof.
  intros Hm Hd. specialize (Hm env (tx_start db) Hd eq_refl). unfold run_call, final_db. unfold wp in Hm.
  destruct (m env (tx_start db)) as [[[a|e']|e'|] st]; cbn in Hm; intros Hc; inversion Hc; subst; [].
  by rewrite Hm.
Qed.
