(* ===== verification/StorageFacts.v ===== *)
(** * What the storage methods do to the tables

    The effect of a committed plan, and the relations between the database before
    and after that every method respects, whatever faults it meets. *)

From S2P Require Import Prelude Std Slot State Db TxLogic Storage.

(** ** Tables *)

Section tables.
Context {R : Type}.
Implicit Types (t : gmap Z R).

Lemma sql_update_is_Some (where_ : Z -> R -> bool) set_ t i :
  is_Some (sql_update where_ set_ t !! i) <-> is_Some (t !! i).
Proof. rewrite sql_update_lookup. apply fmap_is_Some. Qed.

Lemma new_key_spec id t : new_key id t = true <-> 0 <= id < 2 ^ 31 /\ t !! id = None.
Proof. unfold new_key, int4. rewrite !andb_true_iff, bool_decide_eq_true. intuition lia. Qed.
End tables.

Lemma int4_spec z : int4 z = true <-> 0 <= z < 2 ^ 31.
Proof. unfold int4. lia. Qed.

Lemma update_vms_lookup now w f db i :
  db_vms (update_vms now w f db) !! i
  = (fun r => if w i r then status_trigger now r (f i r) else r) <$> db_vms db !! i.
Proof. apply sql_update_lookup. Qed.

Lemma update_jobs_lookup w f db i :
  db_jobs (update_jobs w f db) !! i = (fun r => if w i r then f i r else r) <$> db_jobs db !! i.
Proof. apply sql_update_lookup. Qed.

(** The trigger changes one column. *)
Lemma status_trigger_same now old new :
  v_status old = v_status new -> status_trigger now old new = new.
Proof. intros Heq. unfold status_trigger. by rewrite decide_True. Qed.

Lemma job_final_spec s : job_final s = true <-> s ∈ getFinalJobStatuses.
Proof. apply bool_decide_eq_true. Qed.

(** ** The effect of a committed plan *)

(** The row of a VM that was there before. *)
Definition plan_vm_row (now : Z) (c : StateChange) (v : VmId) (r : VmRow) : VmRow :=
  let r1 := if decide (v ∈ vmsToTerminate c)
            then status_trigger now r (set_v_status PendingTermination r) else r in
  match updatedIdleCapacities c !! v with
  | Some s => set_v_idle (cpu s) (ram s) r1
  | None => r1
  end.

Record plan_effect (now : Z) (c : StateChange) (planId : PlanId) (slotsToVms : gmap Z VmId)
    (db db' : Db) : Prop := {
  pe_new : forall d s, desiredSlotMap c !! d = Some s -> exists v,
    slotsToVms !! d = Some v /\ db_vms db !! v = None /\ db_vms db' !! v = Some (new_vm now s);
  pe_inj : forall d1 d2 v, slotsToVms !! d1 = Some v -> slotsToVms !! d2 = Some v -> d1 = d2;
  pe_slots : forall d v, slotsToVms !! d = Some v -> is_Some (desiredSlotMap c !! d);
  pe_old : forall v r, db_vms db !! v = Some r -> db_vms db' !! v = Some (plan_vm_row now c v r);
  pe_only : forall v, is_Some (db_vms db' !! v) ->
    is_Some (db_vms db !! v) \/ exists d, slotsToVms !! d = Some v;
  pe_targets : forall i a, jobToVm c !! i = Some a -> is_Some (resolve slotsToVms a);
  pe_jobs : forall i, db_jobs db' !! i
    = assign_row (omap (resolve slotsToVms) (jobToVm c)) i <$> db_jobs db !! i;
  pe_fk : forall i r, db_jobs db' !! i = Some r -> is_Some (jobToVm c !! i) ->
    exists v, j_vm_id r = Some v /\ is_Some (db_vms db' !! v);
  pe_plans : db_plans db' = sql_update (fun i _ => bool_decide (i = planId))
    (fun _ r => mkPlanRow (p_created r) now (p_backend_id r)) (db_plans db);
  pe_tasks : db_tasks db' = db_tasks db;
  pe_locks : db_locks db' = db_locks db;
}.

(** What the checks before the first write established. *)
Record plan_admitted `{Postgres} (c : StateChange) (planId : PlanId) (db : Db) : Prop := {
  pa_latest : latest_plans db = [planId];
  pa_jobs : forall i r, is_Some (jobToVm c !! i) -> db_jobs db !! i = Some r ->
    job_final (j_status r) = false;
  pa_vms : forall v r, is_Some (updatedIdleCapacities c !! v) -> db_vms db !! v = Some r ->
    vm_active r = true;
}.

(** A change of the VM table only. *)
Definition only_vms (db db' : Db) : Prop :=
  db_jobs db' = db_jobs db /\ db_tasks db' = db_tasks db
  /\ db_plans db' = db_plans db /\ db_locks db' = db_locks db.

#[export] Instance only_vms_pre : PreOrder only_vms.
Proof. unfold only_vms. split; [done|]. intros ???. intuition congruence. Qed.

Section commit_plan.
Context `{StdLib} `{Postgres}.

(** New rows, and nothing but new rows. *)
Record vms_added (now : Z) (todo : list (Z * DesiredSlot)) (acc acc' : gmap Z VmId) (db db' : Db) : Prop := {
  va_old : forall v r, db_vms db !! v = Some r -> db_vms db' !! v = Some r;
  va_new : forall d s, (d, s) ∈ todo -> exists v,
    acc' !! d = Some v /\ db_vms db !! v = None /\ db_vms db' !! v = Some (new_vm now s);
  va_inj : forall d1 d2 v, d1 ∈ todo.*1 -> d2 ∈ todo.*1 ->
    acc' !! d1 = Some v -> acc' !! d2 = Some v -> d1 = d2;
  va_keep : forall d, d ∉ todo.*1 -> acc' !! d = acc !! d;
  va_only : forall v, is_Some (db_vms db' !! v) -> is_Some (db_vms db !! v)
    \/ exists d, d ∈ todo.*1 /\ acc' !! d = Some v;
  va_rest : only_vms db db';
}.

Lemma insert_vm_spec now s db v db' :
  insert_vm now s db = Some (v, db') ->
  db_vms db !! v = None /\ db_vms db' = <[v := new_vm now s]> (db_vms db)
  /\ only_vms db db'.
Proof.
  unfold insert_vm. case_bool; [|done]. intros [= <- <-]. cbn.
  rewrite !andb_true_iff, new_key_spec in Heqb. unfold only_vms. intuition.
Qed.

Lemma allocate_loop_spec env todo acc st :
  NoDup todo.*1 ->
  wp env (allocate_loop todo acc) (fun o st' => tx_committed st' = tx_committed st /\
    match o with
    | TxVal (Success acc') => vms_added (env_now env) todo acc acc' (tx_db st) (tx_db st')
    | TxVal (Failure e) => e = PgException
    | _ => False
    end) st.
Proof.
  revert acc st. induction todo as [|[d s] todo IH]; cbn [allocate_loop]; intros acc st Hnd.
  { apply wp_ret. split; [done|]. split; naive_solver set_solver. }
  apply NoDup_cons in Hnd as [Hd Hnd].
  do 5 wp_step; cbn [chain caught]; [by apply wp_ret|]. apply wp_ret. cbn [caught chain].
  eapply wp_mono; [by apply IH|]. intros o st' [Hc Ho]. split; [done|].
  destruct o as [[acc'|e']|e'|]; try done. cbn in Ho.
  match goal with HS : insert_vm _ _ _ = _ |- _ => apply insert_vm_spec in HS as (Hnone & Hvms & Hrest) end.
  destruct Ho as [Hold Hnew Hinj Hkeep Honly Hrest']. rewrite Hvms in *.
  assert (Hfresh : forall d' v, d' ∈ todo.*1 -> acc' !! d' = Some v -> v <> a).
  { intros d' v Hd' Hv ->. apply list_elem_of_fmap in Hd' as ([d1 s1] & -> & Hin).
    destruct (Hnew _ _ Hin) as (v & Hv' & Hn & _). cbn in Hv. simplify_eq.
    by rewrite lookup_insert_eq in Hn. }
  assert (Hhead : acc' !! d = Some a) by (rewrite Hkeep, lookup_insert_eq by done; done).
  split.
  - intros v r Hv. apply Hold. rewrite lookup_insert_ne; [done|congruence].
  - intros d' s' Hin. apply elem_of_cons in Hin as [[= -> ->]|Hin].
    + exists a. split; [done|]. split; [done|].
      apply Hold. by rewrite lookup_insert_eq.
    + destruct (Hnew _ _ Hin) as (v & ? & Hv & ?). exists v. split; [done|]. split; [|done].
      by apply lookup_insert_None in Hv as [].
  - cbn. intros d1 d2 v [->|K1]%elem_of_cons [->|K2]%elem_of_cons Hv1 Hv2; [done| | |eauto].
    + simplify_eq. by destruct (Hfresh d2 a).
    + simplify_eq. by destruct (Hfresh d1 a).
  - intros d' Hd'. cbn in Hd'. apply not_elem_of_cons in Hd' as [Hne Hd'].
    rewrite Hkeep by done. by rewrite lookup_insert_ne.
  - intros v Hv. apply Honly in Hv as [Hv|(d' & ? & ?)].
    + apply lookup_insert_is_Some in Hv as [<-|[_ Hv]]; [|by left]. right. exists d.
      split; [left|done].
    + right. exists d'. split; [by right|done].
  - by etrans.
Qed.

(** The checks. *)
Lemma some_status_false {S} (p : S -> bool) (m : gmap Z S) i s :
  some_status p m = false -> m !! i = Some s -> p s = false.
Proof.
  intros Hp Hi. apply not_true_iff_false. intros Ht. apply not_true_iff_false in Hp. apply Hp.
  apply existsb_exists. exists (i, s). split; [|done].
  by apply list_elem_of_In, elem_of_map_to_list.
Qed.

Lemma statuses_lookup {X R S} (m : gmap Z X) (f : R -> S) (t : gmap Z R) i r :
  is_Some (m !! i) -> t !! i = Some r ->
  (f <$> filter (fun ir => is_Some (m !! ir.1)) t) !! i = Some (f r).
Proof. intros Hm Ht. by rewrite lookup_fmap, (map_lookup_filter_Some_2 _ _ _ _ Ht Hm). Qed.

Lemma getJobStatusesWithLock_spec env m st :
  wp env (getJobStatusesWithLock m) (fun o st' => tx_committed st' = tx_committed st /\
    match o with
    | TxVal ss => tx_db st' = tx_db st /\ forall i r, is_Some (m !! i) ->
        db_jobs (tx_db st) !! i = Some r -> ss !! i = Some (j_status r)
    | TxThrow _ => True
    | TxTerminate => False
    end) st.
Proof.
  unfold getJobStatusesWithLock. do 2 wp_step; try done.
  - split; [done|]. split; [done|]. intros i r Hm. subst m. rewrite lookup_empty in Hm. by destruct Hm.
  - split; [done|]. split; [done|]. apply statuses_lookup.
Qed.

Lemma getVmStatusesWithLock_spec env m st :
  wp env (getVmStatusesWithLock m) (fun o st' => tx_committed st' = tx_committed st /\
    match o with
    | TxVal ss => tx_db st' = tx_db st /\ forall i r, is_Some (m !! i) ->
        db_vms (tx_db st) !! i = Some r -> ss !! i = Some (v_status r)
    | TxThrow _ => True
    | TxTerminate => False
    end) st.
Proof.
  unfold getVmStatusesWithLock. do 2 wp_step; try done.
  - split; [done|]. split; [done|]. intros i r Hm. subst m. rewrite lookup_empty in Hm. by destruct Hm.
  - split; [done|]. split; [done|]. apply statuses_lookup.
Qed.

Lemma checkConflicts_spec env c st :
  wp env (checkConflicts_ c) (fun o st' => tx_committed st' = tx_committed st /\
    match o with
    | TxVal (Success _) => tx_db st' = tx_db st
        /\ (forall i r, is_Some (jobToVm c !! i) -> db_jobs (tx_db st) !! i = Some r ->
              job_final (j_status r) = false)
        /\ (forall v r, is_Some (updatedIdleCapacities c !! v) -> db_vms (tx_db st) !! v = Some r ->
              vm_active r = true)
    | TxVal (Failure _) => True
    | _ => False
    end) st.
Proof.
  unfold checkConflicts_. do 2 wp_step. eapply wp_mono; [apply getJobStatusesWithLock_spec|].
  intros [js|e|] st1 [Hc1 Ho1]; cbn [chain caught]; [|done..]. destruct Ho1 as [Hdb1 Hjs].
  wp_step. eapply wp_mono; [apply getVmStatusesWithLock_spec|].
  intros [vs|e|] st2 [Hc2 Ho2]; cbn [chain caught]; [|by rewrite Hc2|done].
  destruct Ho2 as [Hdb2 Hvs]. apply wp_ret. cbn [caught]. split; [congruence|].
  destruct (some_status job_final js) eqn:Hj; [done|].
  destruct (some_status _ vs) eqn:Hv; [done|]. rewrite Hdb1 in Hvs.
  split; [congruence|]. split.
  - intros i r Hi Hr. by apply (some_status_false _ _ i _ Hj), Hjs.
  - intros v r Hi Hr. pose proof (some_status_false _ _ _ _ Hv (Hvs _ _ Hi Hr)) as Hn.
    by apply negb_false_iff in Hn.
Qed.

(** The writes. *)
Lemma terminatePlannedVms_spec env l st :
  wp env (terminatePlannedVms_ l) (fun o st' => tx_committed st' = tx_committed st /\
    match o with
    | TxVal (Success _) => only_vms (tx_db st) (tx_db st') /\ forall v,
        db_vms (tx_db st') !! v = (fun r => if decide (v ∈ l)
          then status_trigger (env_now env) r (set_v_status PendingTermination r) else r)
          <$> db_vms (tx_db st) !! v
    | TxVal (Failure _) => True
    | _ => False
    end) st.
Proof.
  unfold terminatePlannedVms_. destruct l as [|v0 l].
  { apply wp_ret. split; [done|]. split; [done|]. intros v. by destruct (_ !! v). }
  do 3 wp_step; cbn [chain caught]; [done|]. apply wp_ret. split; [done|].
  match goal with HS : Some _ = Some _ |- _ => injection HS as _ <- end.
  split; [done|]. intros v. cbn [executed tx_db]. rewrite update_vms_lookup.
  destruct (_ !! v); [|done]. cbn [fmap option_fmap option_map]. f_equal.
  by case_decide; [rewrite bool_decide_eq_true_2|rewrite bool_decide_eq_false_2].
Qed.

Lemma updateVmCapacities_spec env m st :
  wp env (updateVmCapacities_ m) (fun o st' => tx_committed st' = tx_committed st /\
    match o with
    | TxVal (Success _) => only_vms (tx_db st) (tx_db st') /\ forall v,
        db_vms (tx_db st') !! v = (fun r => match m !! v with
          | Some s => set_v_idle (cpu s) (ram s) r
          | None => r
          end) <$> db_vms (tx_db st) !! v
    | TxVal (Failure _) => True
    | _ => False
    end) st.
Proof.
  unfold updateVmCapacities_. wp_step.
  { apply wp_ret. subst m. split; [done|]. split; [done|]. intros v. rewrite lookup_empty.
    by destruct (_ !! v). }
  do 3 wp_step; cbn [chain caught]; [done|]. apply wp_ret. split; [done|].
  match goal with HS : (if _ then _ else _) = _ |- _ => revert HS; case_bool; [|done]; intros [= _ <-] end.
  split; [done|]. intros v. cbn [executed tx_db]. rewrite update_vms_lookup.
  destruct (db_vms _ !! v) as [r|]; [|done]. cbn [fmap option_fmap option_map]. f_equal.
  destruct (m !! v); [|by rewrite bool_decide_eq_false_2 by apply is_Some_None].
  rewrite bool_decide_eq_true_2 by done. by rewrite status_trigger_same.
Qed.

Lemma applyJobVmAssignments_spec env a slots st :
  wp env (applyJobVmAssignments_ a slots) (fun o st' => tx_committed st' = tx_committed st /\
    match o with
    | TxVal (Success _) =>
        (forall i t, a !! i = Some t -> is_Some (resolve slots t))
        /\ tx_db st' = with_jobs (tx_db st) (db_jobs (tx_db st'))
        /\ (forall i, db_jobs (tx_db st') !! i
             = assign_row (omap (resolve slots) a) i <$> db_jobs (tx_db st) !! i)
        /\ (forall i v, omap (resolve slots) a !! i = Some v -> is_Some (db_jobs (tx_db st) !! i) ->
              is_Some (db_vms (tx_db st) !! v))
    | TxVal (Failure _) => True
    | _ => True
    end) st.
Proof.
  unfold applyJobVmAssignments_. wp_step.
  { apply wp_ret. subst a. split; [done|]. rewrite omap_empty. split; [intros ?? Hi; by rewrite lookup_empty in Hi|].
    split; [by destruct (tx_db st)|]. unfold assign_row. split.
    - intros i. rewrite lookup_empty. by destruct (_ !! i).
    - intros ?? Hi; by rewrite lookup_empty in Hi. }
  wp_step; [do 2 wp_step; done|].
  do 3 wp_step; cbn [chain caught]; [done|]. apply wp_ret. split; [done|].
  match goal with HS : (if _ then _ else _) = _ |- _ => revert HS; case_bool; [|done]; intros [= _ <-] end.
  split.
  - intros i t Hi. apply not_eq_None_Some. intros Hr.
    assert (unresolved slots a = true) as Hu; [|congruence].
    apply existsb_exists. exists (i, t). split; [by apply list_elem_of_In, elem_of_map_to_list|].
    by apply bool_decide_eq_true.
  - split; [by destruct (tx_db st)|]. split.
    + intros i. cbn [executed tx_db]. rewrite update_jobs_lookup. destruct (db_jobs _ !! i) as [r|]; [|done].
      cbn [fmap option_fmap option_map]. f_equal. unfold assign_row.
      destruct (omap _ a !! i) as [v|]; [by rewrite bool_decide_eq_true_2|].
      by rewrite bool_decide_eq_false_2 by apply is_Some_None.
    + intros i v Hi [r Hr].
      match goal with HF : fk_ok _ _ = true |- _ =>
        pose proof (proj1 (forallb_forall _ _) HF (i, v)) as Hfk end.
      cbn in Hfk. rewrite Hr in Hfk. rewrite orb_true_iff, !bool_decide_eq_true in Hfk.
      destruct Hfk as [?|?]; [|done..]. by apply list_elem_of_In, elem_of_map_to_list.
Qed.

Lemma refreshPlanActivityTs_spec env planId st :
  wp env (refreshPlanActivityTs_ planId) (fun o st' => tx_committed st' = tx_committed st /\
    match o with
    | TxVal (Success _) => tx_db st' = with_plans (tx_db st)
        (sql_update (fun i _ => bool_decide (i = planId))
          (fun _ r => mkPlanRow (p_created r) (env_now env) (p_backend_id r)) (db_plans (tx_db st)))
    | TxVal (Failure _) => True
    | _ => False
    end) st.
Proof.
  unfold refreshPlanActivityTs_. do 3 wp_step; cbn [chain caught]; [done|]. apply wp_ret.
  match goal with HS : Some _ = Some _ |- _ => injection HS as _ <- end. done.
Qed.

Lemma acquireLock_spec env st :
  wp env acquireLock_ (fun o st' => tx_committed st' = tx_committed st /\
    match o with
    | TxVal (Success _) => tx_db st' = tx_db st
    | TxVal (Failure _) => True
    | _ => False
    end) st.
Proof.
  unfold acquireLock_. do 2 wp_step. wp_step. wp_step; cbn [chain caught]; [by destruct e|].
  do 2 wp_step; cbn [chain caught]; [by destruct e|]. apply wp_ret. cbn.
  repeat match goal with HS : Some _ = Some _ |- _ => injection HS as _ <- end. done.
Qed.

Lemma isSchedulingRelevant_spec env planId st :
  wp env (isSchedulingRelevant_ planId) (fun o st' => tx_committed st' = tx_committed st /\
    match o with
    | TxVal (Success b) => tx_db st' = tx_db st
        /\ (b = true -> latest_plans (tx_db st) = [planId])
    | TxVal (Failure _) => True
    | TxThrow _ => False
    | TxTerminate => True
    end) st.
Proof.
  unfold isSchedulingRelevant_. do 3 wp_step; cbn [chain]; [done|]. apply wp_ret. split; [done|].
  destruct (latest_plans _) as [|id [|]]; [done| |done]. split; [done|].
  intros Hb. apply bool_decide_eq_true in Hb. congruence.
Qed.

(** The parts of the effect put together. *)
Lemma plan_effect_from_parts now c planId slots db db1 db2 db3 db4 db5 :
  only_vms db db1 ->
  (forall v, db_vms db1 !! v = (fun r => if decide (v ∈ vmsToTerminate c)
     then status_trigger now r (set_v_status PendingTermination r) else r) <$> db_vms db !! v) ->
  only_vms db1 db2 ->
  (forall v, db_vms db2 !! v = (fun r => match updatedIdleCapacities c !! v with
     | Some s => set_v_idle (cpu s) (ram s) r
     | None => r
     end) <$> db_vms db1 !! v) ->
  vms_added now (unordered (desiredSlotMap c)) ∅ slots db2 db3 ->
  (forall i t, jobToVm c !! i = Some t -> is_Some (resolve slots t)) ->
  db4 = with_jobs db3 (db_jobs db4) ->
  (forall i, db_jobs db4 !! i = assign_row (omap (resolve slots) (jobToVm c)) i <$> db_jobs db3 !! i) ->
  (forall i v, omap (resolve slots) (jobToVm c) !! i = Some v -> is_Some (db_jobs db3 !! i) ->
     is_Some (db_vms db3 !! v)) ->
  db5 = with_plans db4 (sql_update (fun i _ => bool_decide (i = planId))
          (fun _ r => mkPlanRow (p_created r) now (p_backend_id r)) (db_plans db4)) ->
  plan_effect now c planId slots db db5.
Proof.
  intros Ho1 Hv1 Ho2 Hv2 Ha Hres H4 Hjobs Hfk ->.
  destruct Ha as [Hold Hnew Hinj Hkeep Honly Ho3].
  assert (only_vms db db3) as (Ej & Et & Ep & El) by (etrans; [exact Ho1|]; by etrans).
  assert (Hv : forall v, db_vms db2 !! v = plan_vm_row now c v <$> db_vms db !! v).
  { intros v. rewrite Hv2, Hv1. by destruct (db_vms db !! v). }
  assert (Hnone : forall v, db_vms db2 !! v = None <-> db_vms db !! v = None).
  { intros v. rewrite Hv. apply fmap_None. }
  assert (Hdom : forall d, d ∈ (unordered (desiredSlotMap c)).*1 <-> is_Some (desiredSlotMap c !! d)).
  { intros d. rewrite unordered_perm. rewrite list_elem_of_fmap. split.
    - intros ([d' s] & -> & Hin). apply elem_of_map_to_list in Hin. cbn. eauto.
    - intros [s Hs]. exists (d, s). by rewrite elem_of_map_to_list. }
  assert (Hrow : forall d v, slots !! d = Some v -> exists s, desiredSlotMap c !! d = Some s
     /\ db_vms db2 !! v = None /\ db_vms db3 !! v = Some (new_vm now s)).
  { intros d v Hd. destruct (decide (d ∈ (unordered (desiredSlotMap c)).*1)) as [Hin|Hin].
    - apply Hdom in Hin as [s Hs]. exists s. split; [done|].
      destruct (Hnew d s) as (v' & Hd' & ? & ?); [by rewrite unordered_perm, elem_of_map_to_list|].
      by simplify_eq.
    - rewrite Hkeep, lookup_empty in Hd by done. done. }
  rewrite H4. split; cbn [db_vms db_jobs db_tasks db_plans db_locks with_plans with_jobs].
  - intros d s Hd. destruct (Hnew d s) as (v & Hv1' & Hv2' & Hv3');
      [by rewrite unordered_perm, elem_of_map_to_list|].
    exists v. by rewrite <- Hnone.
  - intros d1 d2 v K1 K2. destruct (Hrow _ _ K1) as (s1 & Hs1 & _), (Hrow _ _ K2) as (s2 & Hs2 & _).
    apply (Hinj d1 d2 v); [apply Hdom; eauto..|done|done].
  - intros d v Hd. destruct (Hrow _ _ Hd) as (s & Hs & _). eauto.
  - intros v r Hr. apply Hold. by rewrite Hv, Hr.
  - intros v Hs. apply Honly in Hs as [Hs|(d & _ & Hd)]; [left|by eauto].
    rewrite Hv in Hs. by apply fmap_is_Some in Hs.
  - done.
  - intros i. by rewrite Hjobs, Ej.
  - intros i r Hi [t Ht]. destruct (Hres _ _ Ht) as [v Hres'].
    assert (omap (resolve slots) (jobToVm c) !! i = Some v) as Hm by by rewrite lookup_omap, Ht.
    rewrite Hjobs in Hi. apply fmap_Some in Hi as (r0 & Hr0 & ->).
    exists v. unfold assign_row. rewrite Hm. split; [done|]. eauto.
  - by rewrite Ep.
  - done.
  - done.
Qed.

Lemma unordered_nodup {V} (m : gmap Z V) : NoDup (unordered m).*1.
Proof. rewrite unordered_perm. apply NoDup_fst_map_to_list. Qed.

(** A branch that returns before the commit. *)
Local Ltac wp_bail :=
  cbn [chain]; try done; try apply wp_ret;
  try (split; [intros _; congruence|intros ?; congruence]).

Lemma commitPlanChange_wp env c planId db :
  wp env (commitPlanChange_txn c planId) (fun o st =>
    match o with
    | TxVal (Success _) => tx_committed st = true
    | _ => env_in_doubt env = false -> tx_committed st = false
    end /\ (tx_committed st = true -> plan_admitted c planId db
      /\ exists slots, plan_effect (env_now env) c planId slots db (tx_db st))) (tx_start db).
Proof.
  unfold commitPlanChange_txn.
  assert (Hc0 : tx_committed (tx_start db) = false) by done.
  wp_step. eapply wp_mono; [apply acquireLock_spec|].
  intros [[[]|e]|e|] st1 [Hc1 Ho1]; wp_bail.
  wp_step. eapply wp_mono; [apply isSchedulingRelevant_spec|].
  intros [[b|e]|e|] st2 [Hc2 Ho2]; wp_bail.
  destruct Ho2 as [Hdb2 Hlatest]. wp_step; wp_bail. destruct b; [|done].
  wp_step. eapply wp_mono; [apply checkConflicts_spec|].
  intros [[[]|e]|e|] st3 [Hc3 Ho3]; wp_bail. destruct Ho3 as (Hdb3 & Hjobs & Hvms).
  wp_step. eapply wp_mono; [apply terminatePlannedVms_spec|].
  intros [[[]|e]|e|] st4 [Hc4 Ho4]; wp_bail. destruct Ho4 as (Hov4 & Hv4).
  wp_step. eapply wp_mono; [apply updateVmCapacities_spec|].
  intros [[[]|e]|e|] st5 [Hc5 Ho5]; wp_bail. destruct Ho5 as (Hov5 & Hv5).
  wp_step. eapply wp_mono; [apply allocate_loop_spec, unordered_nodup|].
  intros [[slots|e]|e|] st6 [Hc6 Ho6]; wp_bail.
  wp_step. eapply wp_mono; [apply applyJobVmAssignments_spec|].
  intros [[[]|e]|e|] st7 [Hc7 Ho7]; wp_bail. destruct Ho7 as (Hres & Hdb7 & Hj7 & Hfk).
  wp_step. eapply wp_mono; [apply refreshPlanActivityTs_spec|].
  intros [[[]|e]|e|] st8 [Hc8 Ho8]; wp_bail.
  rewrite Hdb2, Ho1 in *. cbn [tx_start tx_db] in *. rewrite Hdb3 in *.
  assert (plan_admitted c planId db) by (split; auto).
  assert (plan_effect (env_now env) c planId slots db (tx_db st8)) by
    by eapply plan_effect_from_parts.
  wp_step. wp_step. wp_step; cbn [chain caught].
  - split; [|by eauto]. intros Hd. destruct c0; [|done]. naive_solver.
  - apply wp_ret. cbn. eauto.
Qed.
End commit_plan.
