(* ===== verification/Lifecycle.v ===== *)
(** * The lifecycle of jobs and VMs

    An abstract account of what the storage may do to its tables: elementary
    edits of rows, each with the condition under which the code makes it, and
    insertions.  The well-formedness of the database and the permanence of final
    jobs are proved here once, by induction over sequences of edits; that every
    storage method is such a sequence is proved in [StorageRefines]. *)

From S2P Require Import Prelude Std Slot State Db TxLogic Storage StorageFacts.

(** ** Edits of a row *)

Definition job_open (r : JobRow) : Prop := job_final (j_status r) = false.

Definition job_restartable (r : JobRow) : Prop := j_status r = Scheduled \/ j_status r = Running.

Inductive job_edit (vms : gmap Z VmRow) : JobRow -> JobRow -> Prop :=
  | je_schedule r v : job_open r -> is_Some (vms !! v) ->
      job_edit vms r (set_j_vm_id v (set_j_status Scheduled r))
  | je_cancel r : job_open r -> job_edit vms r (cancel_row r)
  | je_requeue r : job_restartable r -> int4 (j_restart_count r + 1) = true ->
      job_edit vms r (set_j_restart_count (j_restart_count r + 1) (set_j_status Queued r))
  | je_fail r : job_restartable r -> job_edit vms r (set_j_status InternalError r)
  | je_report r now s : job_open r -> is_Some (j_vm_id r) -> job_edit vms r (report_row now s r).

(** Which statuses a VM is moved from: the scheduler's termination and the saving
    of cloud results do not ask. *)
Inductive vm_edit : VmRow -> VmRow -> Prop :=
  | ve_terminate r : vm_edit r (set_v_status PendingTermination r)
  | ve_terminated r : vm_edit r (set_v_status Terminated r)
  | ve_allocating r : v_status r = PendingAllocation -> vm_edit r (set_v_status Allocating r)
  | ve_terminating r : v_status r = PendingTermination -> vm_edit r (set_v_status Terminating r)
  | ve_allocated r i t : vm_edit r (set_v_cloud i t (set_v_status Allocated r))
  | ve_restart r : v_status r = Allocating -> int4 (v_restart_count r + 1) = true ->
      vm_edit r (set_v_restart_count (v_restart_count r + 1) (set_v_status PendingAllocation r))
  | ve_agent r : v_status r = Allocated -> vm_edit r (set_v_status AgentStarted r)
  | ve_activity r t : vm_edit r (set_v_agent_activity t r)
  | ve_release r c m : 0 <= c -> 0 <= m ->
      vm_edit r (set_v_idle (Z.min (v_cpu_idle r + c) (v_cpu r)) (Z.min (v_ram_idle r + m) (v_ram r)) r)
  | ve_occupy r s : slot_wf s -> fits s (vm_total r) = true -> vm_edit r (set_v_idle (cpu s) (ram s) r).

(** ** Edits of the database *)

(** What an [UPDATE] does to the row of one key. *)
Definition row_edit {R} (edit : R -> R -> Prop) (old new : option R) : Prop :=
  match old, new with
  | None, None => True
  | Some r, Some r' => r' = r \/ edit r r'
  | _, _ => False
  end.

Definition vm_row_edit (r r' : VmRow) : Prop :=
  exists now r1, vm_edit r r1 /\ r' = status_trigger now r r1.

Definition seqs_le (a b : Db) : Prop :=
  seq_vms a <= seq_vms b /\ seq_tasks a <= seq_tasks b
  /\ seq_jobs a <= seq_jobs b /\ seq_plans a <= seq_plans b.

Definition same_seqs (a b : Db) : Prop :=
  seq_vms a = seq_vms b /\ seq_tasks a = seq_tasks b
  /\ seq_jobs a = seq_jobs b /\ seq_plans a = seq_plans b.

(** A queued job of task [t] under the next id. *)
Inductive job_added (t : TaskId) : Db -> Db -> Prop :=
  | job_added_row db now p o :
      is_Some (db_tasks db !! t) -> slot_wf (tp_requiredCapacity p) ->
      new_key (seq_jobs db) (db_jobs db) = true ->
      job_added t db (mkDb (db_vms db) (db_tasks db) (<[seq_jobs db := new_job now t p o]> (db_jobs db))
        (db_plans db) (db_locks db) (seq_vms db) (seq_tasks db) (seq_jobs db + 1) (seq_plans db)).

(** Jobs come with their task and not later. *)
Inductive change : Db -> Db -> Prop :=
  | change_vms db t :
      (forall v, row_edit vm_row_edit (db_vms db !! v) (t !! v)) ->
      change db (with_vms db t)
  | change_jobs db t :
      (forall i, row_edit (job_edit (db_vms db)) (db_jobs db !! i) (t !! i)) ->
      change db (with_jobs db t)
  | change_plans db t : (forall p, is_Some (t !! p) <-> is_Some (db_plans db !! p)) ->
      change db (with_plans db t)
  | change_locks db t : db_locks db ⊆ t -> change db (with_locks db t)
  | change_new_vm db now s db' v :
      slot_wf (total s) -> slot_wf (idle s) -> fits (idle s) (total s) = true ->
      insert_vm now s db = Some (v, db') -> change db db'
  | change_new_task `{Postgres} db p t db1 db' : insert_task p db = Some (t, db1) ->
      rtc (job_added t) db1 db' -> change db db'
  | change_new_plan db now b db' p : insert_plan now b db = Some (p, db') -> change db db'
  | change_seqs db db' : same_tables db db' -> seqs_le db db' -> change db db'.

(** ** Well-formed databases *)

Record vm_row_wf (r : VmRow) : Prop := {
  vr_total : slot_wf (vm_total r);
  vr_idle : slot_wf (vm_idle r);
  vr_fits : fits (vm_idle r) (vm_total r) = true;
  vr_restarts : 0 <= v_restart_count r < 2 ^ 31;
  vr_cloud : v_status r = Allocated \/ v_status r = AgentStarted ->
    is_Some (v_cloud_vm_id r) /\ is_Some (v_cloud_vm_type r);
}.

Record job_row_wf (tasks : gmap Z TaskRow) (vms : gmap Z VmRow) (r : JobRow) : Prop := {
  jr_req : slot_wf (job_req r);
  jr_task : is_Some (tasks !! j_task_id r);
  jr_vm : forall v, j_vm_id r = Some v -> is_Some (vms !! v);
  jr_assigned : j_status r ∈ getAssignedJobStatuses -> is_Some (j_vm_id r);
  jr_restarts : 0 <= j_restart_count r < 2 ^ 31;
}.

Definition below {R} (t : gmap Z R) (n : Z) : Prop := forall i, is_Some (t !! i) -> i < n.

Record db_wf (db : Db) : Prop := {
  wf_vms : forall v r, db_vms db !! v = Some r -> vm_row_wf r;
  wf_jobs : forall i r, db_jobs db !! i = Some r -> job_row_wf (db_tasks db) (db_vms db) r;
  wf_seq_vms : below (db_vms db) (seq_vms db);
  wf_seq_tasks : below (db_tasks db) (seq_tasks db);
  wf_seq_jobs : below (db_jobs db) (seq_jobs db);
  wf_seq_plans : below (db_plans db) (seq_plans db);
}.

Lemma status_trigger_wf now r r' : vm_row_wf r' -> vm_row_wf (status_trigger now r r').
Proof. unfold status_trigger. case_decide; [done|]. by intros []. Qed.

Lemma vm_edit_wf r r' : vm_row_wf r -> vm_edit r r' -> vm_row_wf r'.
Proof.
  intros [Ht Hi Hf Hr Hc] He. destruct He; split; cbn in *; try done; try (intros [?|?]; done);
    try (by rewrite int4_spec in *; lia); try (intros _; eauto).
  - destruct Ht, Hi. unfold slot_wf; cbn in *. lia.
  - apply fits_spec. cbn. lia.
Qed.

(** An open job that is not queued is on a VM. *)
Lemma job_open_assigned r :
  job_open r -> j_status r <> Queued -> j_status r ∈ getAssignedJobStatuses.
Proof. unfold job_open, getAssignedJobStatuses. destruct (j_status r); set_solver. Qed.

Lemma job_restartable_open r : job_restartable r -> job_open r.
Proof. unfold job_open. by intros [-> | ->]. Qed.

(** Statuses of [l] are those listed, nothing else. *)
Ltac not_assigned := intros Hin; exfalso; revert Hin; by apply (bool_decide_eq_false_1 (_ ∈ _)).

Lemma job_edit_wf tasks vms r r' :
  job_row_wf tasks vms r -> job_edit vms r r' -> job_row_wf tasks vms r'.
Proof.
  intros [Hq Ht Hv Ha Hr] He. destruct He; [| | | |unfold report_row; case_bool];
    split; cbn in *; try done; try (by rewrite int4_spec in *; lia); try not_assigned.
  - intros ? [= <-]. done.
  - case_decide; [not_assigned|]. intros _. apply Ha. by apply job_open_assigned.
Qed.

(** ** Edits keep the database well-formed *)

Lemma row_edit_dom {R} (edit : R -> R -> Prop) (t t' : gmap Z R) i :
  (forall i, row_edit edit (t !! i) (t' !! i)) -> is_Some (t' !! i) <-> is_Some (t !! i).
Proof.
  intros Hrow. specialize (Hrow i). unfold row_edit in Hrow.
  by destruct (t !! i), (t' !! i).
Qed.

Lemma row_edit_inv {R} (edit : R -> R -> Prop) (t t' : gmap Z R) i r' :
  (forall i, row_edit edit (t !! i) (t' !! i)) -> t' !! i = Some r' ->
  exists r, t !! i = Some r /\ (r' = r \/ edit r r').
Proof.
  intros Hrow Hi. specialize (Hrow i). unfold row_edit in Hrow. rewrite Hi in Hrow.
  destruct (t !! i); [eauto|done].
Qed.

Lemma job_row_wf_mono tasks tasks' vms vms' r :
  (forall i, is_Some (tasks !! i) -> is_Some (tasks' !! i)) ->
  (forall i, is_Some (vms !! i) -> is_Some (vms' !! i)) ->
  job_row_wf tasks vms r -> job_row_wf tasks' vms' r.
Proof. intros Ht Hv []. split; auto. Qed.

Lemma below_insert {R} (t : gmap Z R) n r : below t n -> below (<[n := r]> t) (n + 1).
Proof.
  intros Hb i Hi. apply lookup_insert_is_Some in Hi as [<-|[_ Hi]]; [lia|].
  specialize (Hb i Hi). lia.
Qed.

Lemma is_Some_insert {R} (t : gmap Z R) k r i : is_Some (t !! i) -> is_Some (<[k := r]> t !! i).
Proof. rewrite lookup_insert_is_Some. destruct (decide (k = i)); auto. Qed.

Lemma below_mono {R} (t : gmap Z R) n m : n <= m -> below t n -> below t m.
Proof. intros Hle Hb i Hi. specialize (Hb i Hi). lia. Qed.

Lemma new_vm_wf now s :
  slot_wf (total s) -> slot_wf (idle s) -> fits (idle s) (total s) = true -> vm_row_wf (new_vm now s).
Proof. intros. split; cbn; try done. by intros [?|?]. Qed.

Lemma new_job_wf tasks vms now t p o :
  is_Some (tasks !! t) -> slot_wf (tp_requiredCapacity p) ->
  job_row_wf tasks vms (new_job now t p o).
Proof. intros. split; cbn; try done. not_assigned. Qed.

Lemma insert_task_spec `{Postgres} p db t db' : insert_task p db = Some (t, db') ->
  exists r, db_tasks db !! t = None
    /\ db' = mkDb (db_vms db) (<[t := r]> (db_tasks db)) (db_jobs db) (db_plans db) (db_locks db) (seq_vms db)
                (seq_tasks db + 1) (seq_jobs db) (seq_plans db) /\ t = seq_tasks db.
Proof.
  unfold insert_task. destruct (jsonb_in _); [cbn|done]. case_bool; [|done]. intros [= <- <-].
  apply andb_true_iff in Heqb as [_ Hk]. eexists. split; [by eapply new_key_spec|]. done.
Qed.

Lemma insert_task_wf `{Postgres} p db t db' : insert_task p db = Some (t, db') -> db_wf db -> db_wf db'.
Proof.
  intros (r & _ & -> & ->)%insert_task_spec [Hv Hj Hsv Hst Hsj Hsp]. split; cbn; try done.
  - intros i x Hx. eapply job_row_wf_mono; [| |by eauto]; auto using is_Some_insert.
  - by apply below_insert.
Qed.

Lemma job_added_wf t a b : job_added t a b -> db_wf a -> db_wf b.
Proof.
  intros [db now p o Ht Hp Hk] [Hv Hj Hsv Hst Hsj Hsp]. split; cbn; try done; [|by apply below_insert].
  intros i r [[<- <-]|[_ ?]]%lookup_insert_Some; [by apply new_job_wf|by eauto].
Qed.

Lemma jobs_added_wf t a b : rtc (job_added t) a b -> db_wf a -> db_wf b.
Proof. induction 1; eauto using job_added_wf. Qed.

Lemma change_wf a b : change a b -> db_wf a -> db_wf b.
Proof.
  intros Hch Ha. pose proof Ha as [Hv Hj Hsv Hst Hsj Hsp]. destruct Hch.
  - pose proof (fun i => row_edit_dom _ _ _ i H) as Hdom. split; cbn; try done.
    + intros v r Hr. destruct (row_edit_inv _ _ _ _ _ H Hr) as (r0 & Hr0 & [->|(now & r1 & He & ->)]);
        [by eauto|]. apply status_trigger_wf. eapply vm_edit_wf; eauto.
    + intros i r Hr. eapply job_row_wf_mono; [| |by eauto]; [done|]. intros; by apply Hdom.
    + intros i Hi. by apply Hsv, Hdom.
  - pose proof (fun i => row_edit_dom _ _ _ i H) as Hdom. split; cbn; try done.
    + intros i r Hr. destruct (row_edit_inv _ _ _ _ _ H Hr) as (r0 & Hr0 & [->|He]); [by eauto|].
      eapply job_edit_wf; eauto.
    + intros i Hi. by apply Hsj, Hdom.
  - split; cbn; try done. intros i Hi. by apply Hsp, H.
  - by split.
  - unfold insert_vm in *. revert H2. case_bool; [|done]. intros [= <- <-]. split; cbn; try done.
    + intros v r [[<- <-]|[_ ?]]%lookup_insert_Some; [by apply new_vm_wf|by eauto].
    + intros i r Hr. eapply job_row_wf_mono; [| |by eauto]; auto using is_Some_insert.
    + by apply below_insert.
  - eapply jobs_added_wf; [done|]. by eapply insert_task_wf.
  - unfold insert_plan in *. revert H. case_bool; [|done]. intros [= <- <-]. split; cbn; try done.
    by apply below_insert.
  - destruct H as [E1 E2 E3 E4 E5], H0 as (?&?&?&?).
    split; rewrite <- ?E1, <- ?E2, <- ?E3, <- ?E4; eauto using below_mono.
Qed.

Lemma changes_wf a b : rtc change a b -> db_wf a -> db_wf b.
Proof. induction 1; eauto using change_wf. Qed.

Lemma job_added_seqs t a b : rtc (job_added t) a b -> seqs_le a b.
Proof. induction 1 as [|x y z [] _ IH]; [unfold seqs_le; lia|]. unfold seqs_le in *. cbn in *. lia. Qed.

Lemma change_seqs_le a b : change a b -> seqs_le a b.
Proof.
  destruct 1; try (unfold seqs_le; cbn; lia); [| | |done].
  - revert H2. unfold insert_vm. case_bool; [|done]. intros [= _ <-]. unfold seqs_le; cbn. lia.
  - apply insert_task_spec in H0 as (r & _ & -> & _).
    match goal with K : rtc _ _ _ |- _ => apply job_added_seqs in K end. unfold seqs_le in *; cbn in *. lia.
  - revert H. unfold insert_plan. case_bool; [|done]. intros [= _ <-]. unfold seqs_le; cbn. lia.
Qed.

Lemma changes_seqs_le a b : rtc change a b -> seqs_le a b.
Proof.
  induction 1 as [|x y z Hxy _ IH]; [unfold seqs_le; lia|].
  apply change_seqs_le in Hxy. unfold seqs_le in *. lia.
Qed.

(** ** Final jobs are final *)

(** What never changes about a job, and that nothing changes once it is final. *)
Record row_evolves (r r' : JobRow) : Prop := {
  ev_frozen : job_final (j_status r) = true -> r' = r;
  ev_task : j_task_id r' = j_task_id r;
  ev_req : job_req r' = job_req r;
  ev_options : j_options r' = j_options r;
  ev_created : j_created r' = j_created r /\ j_estimation r' = j_estimation r;
  ev_restarts : j_restart_count r <= j_restart_count r';
}.

#[export] Instance row_evolves_pre : PreOrder row_evolves.
Proof.
  split; [by split|]. intros r1 r2 r3 [F1 T1 Q1 O1 [C1 S1] R1] [F2 T2 Q2 O2 [C2 S2] R2].
  split; try congruence.
  - intros Hf. pose proof (F1 Hf) as ->. auto.
  - split; congruence.
  - lia.
Qed.

Lemma job_edit_evolves vms r r' : job_edit vms r r' -> row_evolves r r'.
Proof.
  destruct 1; try (match goal with K : job_restartable _ |- _ => apply job_restartable_open in K end);
    unfold job_open in *; try (unfold report_row; case_bool);
    (split; [congruence|..]); cbn; try done; lia.
Qed.

Definition jobs_evolve (a b : Db) : Prop := forall i r, db_jobs a !! i = Some r ->
  exists r', db_jobs b !! i = Some r' /\ row_evolves r r'.

#[export] Instance jobs_evolve_pre : PreOrder jobs_evolve.
Proof.
  split.
  - intros db i r Hr. exists r. by split.
  - intros a b c Hab Hbc i r Hr. destruct (Hab i r Hr) as (r1 & Hr1 & He1).
    destruct (Hbc i r1 Hr1) as (r2 & Hr2 & He2). exists r2. split; [done|]. by etrans.
Qed.

Lemma jobs_evolve_eq a b : db_jobs a = db_jobs b -> jobs_evolve a b.
Proof. intros Heq i r Hr. exists r. by rewrite <- Heq. Qed.

Lemma job_added_evolve t a b : job_added t a b -> jobs_evolve a b.
Proof.
  intros [db now p o _ _ Hk] i r Hr. exists r. split; [|done]. cbn. rewrite lookup_insert_ne; [done|].
  apply new_key_spec in Hk. intros <-. destruct Hk. congruence.
Qed.

Lemma jobs_added_evolve t a b : rtc (job_added t) a b -> jobs_evolve a b.
Proof. induction 1; [done|]. etrans; [by eapply job_added_evolve|done]. Qed.

Lemma change_jobs_evolve a b : change a b -> jobs_evolve a b.
Proof.
  destruct 1; try by apply jobs_evolve_eq.
  - intros i r Hr. specialize (H i). unfold row_edit in H. rewrite Hr in H. cbn.
    destruct (t !! i) as [r'|]; [|done]. exists r'. split; [done|].
    destruct H as [->|He]; [done|]. by eapply job_edit_evolves.
  - apply jobs_evolve_eq. by apply insert_vm_spec in H2 as (_ & _ & -> & _).
  - apply insert_task_spec in H0 as (r & _ & E & _). etrans; [by apply (jobs_evolve_eq db db1); rewrite E|].
    by eapply jobs_added_evolve.
  - apply jobs_evolve_eq. revert H. unfold insert_plan. case_bool; [|done]. by intros [= _ <-].
  - by apply jobs_evolve_eq, same_jobs.
Qed.

Lemma changes_jobs_evolve a b : rtc change a b -> jobs_evolve a b.
Proof. induction 1; [done|]. etrans; [|done]. by apply change_jobs_evolve. Qed.

(** ** Tasks keep their jobs *)

(** The rows of jobs that were added, and that nothing else but sequences changed. *)
Lemma job_added_only t a b : rtc (job_added t) a b ->
  db_vms b = db_vms a /\ db_tasks b = db_tasks a
  /\ forall i r, db_jobs b !! i = Some r -> db_jobs a !! i = Some r \/ j_task_id r = t.
Proof.
  induction 1 as [|x y z [db now p o _ _ _] _ (Ev & Et & Hj)]; [by auto|]. cbn in *. split; [done|]. split; [done|].
  intros i r Hr. destruct (Hj i r Hr) as [[[_ <-]|[_ ?]]%lookup_insert_Some|?]; auto.
Qed.

(** A task that exists gets no new jobs. *)
Record tasks_closed (a b : Db) : Prop := {
  tc_tasks : forall t, is_Some (db_tasks a !! t) -> is_Some (db_tasks b !! t);
  tc_jobs : forall i r', db_jobs b !! i = Some r' -> is_Some (db_tasks a !! j_task_id r') ->
    exists r, db_jobs a !! i = Some r /\ j_task_id r = j_task_id r';
}.

#[export] Instance tasks_closed_pre : PreOrder tasks_closed.
Proof.
  split.
  - intros db. split; eauto.
  - intros a b c [T1 J1] [T2 J2]. split; [by eauto|]. intros i r Hr Ht.
    destruct (J2 i r Hr (T1 _ Ht)) as (r1 & Hr1 & E). rewrite <- E in Ht |- *. by eauto.
Qed.

Lemma tasks_closed_eq a b : db_tasks b = db_tasks a -> db_jobs b = db_jobs a -> tasks_closed a b.
Proof. intros Et Ej. split; rewrite Et || (intros i r; rewrite Ej); eauto. Qed.

Lemma change_tasks_closed a b : change a b -> tasks_closed a b.
Proof.
  destruct 1; try by apply tasks_closed_eq.
  - split; [done|]. intros i r' Hr' Ht. cbn in Hr'. destruct (row_edit_inv _ _ _ _ _ H Hr') as (r & Hr & [->|He]); [by eauto|].
    exists r. split; [done|]. by rewrite (ev_task _ _ (job_edit_evolves _ _ _ He)).
  - apply insert_vm_spec in H2 as (_ & _ & Hj & Ht & _). by apply tasks_closed_eq.
  - apply insert_task_spec in H0 as (row & Hnone & E & _).
    match goal with K : rtc _ _ _ |- _ => apply job_added_only in K as (_ & Et & Hj) end. subst db1. cbn in *.
    split; [intros x Hx; rewrite Et; by apply is_Some_insert|].
    intros i r Hr Ht. destruct (Hj i r Hr) as [?|<-]; [by eauto|]. rewrite Hnone in Ht. by destruct Ht.
  - apply tasks_closed_eq; revert H; unfold insert_plan; case_bool; try done; by intros [= _ <-].
  - destruct H. by apply tasks_closed_eq.
Qed.

Lemma changes_tasks_closed a b : rtc change a b -> tasks_closed a b.
Proof. induction 1; [done|]. etrans; [|done]. by apply change_tasks_closed. Qed.

(** ** VMs stay, and keep their size *)

Definition vms_persist (a b : Db) : Prop := forall v r, db_vms a !! v = Some r ->
  exists r', db_vms b !! v = Some r' /\ vm_total r' = vm_total r.

#[export] Instance vms_persist_pre : PreOrder vms_persist.
Proof.
  split.
  - intros db v r Hr. eauto.
  - intros a b c Hab Hbc v r Hr. destruct (Hab v r Hr) as (r1 & Hr1 & E1).
    destruct (Hbc v r1 Hr1) as (r2 & Hr2 & E2). exists r2. split; [done|congruence].
Qed.

Lemma vms_persist_eq a b : db_vms a = db_vms b -> vms_persist a b.
Proof. intros Heq v r Hr. rewrite <- Heq. eauto. Qed.

Lemma vm_row_edit_total r r' : vm_row_edit r r' -> vm_total r' = vm_total r.
Proof.
  intros (now & r1 & He & ->). assert (vm_total r1 = vm_total r) as <- by by destruct He.
  unfold status_trigger. by case_decide.
Qed.

Lemma change_vms_persist a b : change a b -> vms_persist a b.
Proof.
  destruct 1; try by apply vms_persist_eq.
  - intros v r Hr. specialize (H v). unfold row_edit in H. rewrite Hr in H. cbn.
    destruct (t !! v) as [r'|]; [|done]. exists r'. split; [done|].
    destruct H as [->|He]; [done|]. by apply vm_row_edit_total.
  - apply insert_vm_spec in H2 as (Hnone & Hvms & _). intros w r Hr. exists r. rewrite Hvms.
    rewrite lookup_insert_ne; [done|congruence].
  - apply insert_task_spec in H0 as (r & _ & E & _). apply vms_persist_eq.
    match goal with K : rtc _ _ _ |- _ => apply job_added_only in K as [-> _] end. by rewrite E.
  - apply vms_persist_eq. revert H. unfold insert_plan. case_bool; [|done]. by intros [= _ <-].
  - by apply vms_persist_eq, same_vms.
Qed.

Lemma changes_vms_persist a b : rtc change a b -> vms_persist a b.
Proof. induction 1; [done|]. etrans; [|done]. by apply change_vms_persist. Qed.
