(* ===== verification/Checker.v ===== *)
(** * Checking databases

    Well-formedness as a computation, and small databases on which the theorems
    about the storage are evaluated. *)

From S2P Require Import Prelude Std Slot State Db Storage StorageFacts Lifecycle.

Definition slot_wfb (s : SlotCapacity) : bool := int4 (cpu s) && int4 (ram s).

Definition vm_row_wfb (r : VmRow) : bool :=
  slot_wfb (vm_total r) && slot_wfb (vm_idle r) && fits (vm_idle r) (vm_total r)
  && int4 (v_restart_count r)
  && (negb (bool_decide (v_status r = Allocated \/ v_status r = AgentStarted))
      || (bool_decide (is_Some (v_cloud_vm_id r)) && bool_decide (is_Some (v_cloud_vm_type r)))).

Definition job_row_wfb (tasks : gmap Z TaskRow) (vms : gmap Z VmRow) (r : JobRow) : bool :=
  slot_wfb (job_req r) && bool_decide (is_Some (tasks !! j_task_id r))
  && match j_vm_id r with Some v => bool_decide (is_Some (vms !! v)) | None => true end
  && (negb (bool_decide (j_status r ∈ getAssignedJobStatuses)) || bool_decide (is_Some (j_vm_id r)))
  && int4 (j_restart_count r).

Definition belowb {R} (t : gmap Z R) (n : Z) : bool := forallb (fun ir => ir.1 <? n) (map_to_list t).

Definition db_wfb (db : Db) : bool :=
  forallb (fun ir => vm_row_wfb ir.2) (map_to_list (db_vms db))
  && forallb (fun ir => job_row_wfb (db_tasks db) (db_vms db) ir.2) (map_to_list (db_jobs db))
  && belowb (db_vms db) (seq_vms db) && belowb (db_tasks db) (seq_tasks db)
  && belowb (db_jobs db) (seq_jobs db) && belowb (db_plans db) (seq_plans db).

(** ** Soundness *)

Lemma slot_wfb_sound s : slot_wfb s = true -> slot_wf s.
Proof. unfold slot_wfb. rewrite andb_true_iff, !int4_spec. done. Qed.

Lemma forallb_rows {R} (p : Z * R -> bool) (t : gmap Z R) i r :
  forallb p (map_to_list t) = true -> t !! i = Some r -> p (i, r) = true.
Proof.
  intros Hall Hr. apply (proj1 (forallb_forall _ _) Hall).
  by apply list_elem_of_In, elem_of_map_to_list.
Qed.

Lemma vm_row_wfb_sound r : vm_row_wfb r = true -> vm_row_wf r.
Proof.
  unfold vm_row_wfb. rewrite !andb_true_iff, orb_true_iff, negb_true_iff, andb_true_iff.
  rewrite bool_decide_eq_false, !bool_decide_eq_true, int4_spec.
  intros ((((Ht & Hi) & Hf) & Hr) & Hc). split; auto using slot_wfb_sound. intros Hs. by destruct Hc.
Qed.

Lemma job_row_wfb_sound tasks vms r : job_row_wfb tasks vms r = true -> job_row_wf tasks vms r.
Proof.
  unfold job_row_wfb. rewrite !andb_true_iff, orb_true_iff, negb_true_iff.
  rewrite bool_decide_eq_false, !bool_decide_eq_true, int4_spec.
  intros ((((Hq & Ht) & Hv) & Ha) & Hr). split; auto using slot_wfb_sound.
  - intros v Hvm. rewrite Hvm in Hv. by apply bool_decide_eq_true in Hv.
  - intros Hin. by destruct Ha.
Qed.

Lemma belowb_sound {R} (t : gmap Z R) n : belowb t n = true -> below t n.
Proof.
  intros Hb i [r Hr]. pose proof (forallb_rows _ _ _ _ Hb Hr) as Hlt. cbn in Hlt. lia.
Qed.

Lemma db_wfb_sound db : db_wfb db = true -> db_wf db.
Proof.
  unfold db_wfb. rewrite !andb_true_iff. intros (((((Hv & Hj) & B1) & B2) & B3) & B4).
  split; auto using belowb_sound.
  - intros v r Hr. apply vm_row_wfb_sound. exact (forallb_rows _ _ _ _ Hv Hr).
  - intros i r Hr. apply job_row_wfb_sound. exact (forallb_rows _ _ _ _ Hj Hr).
Qed.

(** ** Samples *)

(** A VM row of the given status, size and idle capacity. *)
Definition sample_vm (s : VmStatus) (c m ci mi : Z) (cloud : option string) : VmRow :=
  mkVmRow s c m ci mi cloud cloud 0 0 (Some 0) 0.

Definition sample_job (s : JobStatus) (c m : Z) (vm : option Z) : JobRow :=
  mkJobRow s 1 c m 3600 "{}" None 0 None None vm 0.

Definition sample_task : TaskRow := mkTaskRow 1 "{}" "image" "client".

(** One task; VM 1 runs job 1, VM 2 is still to be allocated, jobs 2 and 3 wait. *)
Definition sample_db : Db := mkDb
  (list_to_map [(1, sample_vm AgentStarted 4 4096 2 2048 (Some "i-1"%string));
                (2, sample_vm PendingAllocation 1 1024 1 1024 None)])
  (list_to_map [(1, sample_task)])
  (list_to_map [(1, sample_job Running 2 2048 (Some 1)); (2, sample_job Queued 1 1024 None);
                (3, sample_job Queued 4 4096 None)])
  ∅ ∅ 3 2 4 1.

Lemma sample_db_wf : db_wf sample_db.
Proof. apply db_wfb_sound. vm_compute. reflexivity. Qed.
