(* ===== verification/StorageRefines.v ===== *)
(** * The storage refines the lifecycle

    Every method of the storage, on any well-formed database and whatever faults
    it meets, amounts to a sequence of the edits of [Lifecycle]. *)

From S2P Require Import Prelude Std Slot State Db TxLogic Storage StorageFacts Lifecycle.

Definition refines (a b : Db) : Prop := db_wf a -> rtc change a b.

#[export] Instance refines_order : TxOrder refines.
Proof.
  split.
  - split; [intros a _; apply rtc_refl|]. intros a b c Hab Hbc Hwf.
    etrans; [by apply Hab|]. apply Hbc. eapply changes_wf; eauto.
  - intros a b Hab Hwf. apply rtc_once, change_seqs; [apply rollback_same|].
    by apply (changes_seqs_le a b), Hab.
Qed.

Lemma refines_once a b : change a b -> refines a b.
Proof. intros Hc _. by apply rtc_once. Qed.

(** ** Statements *)

Lemma update_vms_refines now w f db :
  (forall i r, w i r = true -> db_vms db !! i = Some r -> vm_edit r (f i r)) ->
  change db (update_vms now w f db).
Proof.
  intros He. apply change_vms. intros v. rewrite sql_update_lookup.
  destruct (db_vms db !! v) as [r|] eqn:Hr; [|done]. cbn.
  destruct (w v r) eqn:Hw; [|by left]. right. exists now, (f v r). auto.
Qed.

Lemma update_jobs_refines w f db :
  (forall i r, w i r = true -> db_jobs db !! i = Some r -> job_edit (db_vms db) r (f i r)) ->
  change db (update_jobs w f db).
Proof.
  intros He. apply change_jobs. intros v. rewrite sql_update_lookup.
  destruct (db_jobs db !! v) as [r|] eqn:Hr; [|done]. cbn.
  destruct (w v r) eqn:Hw; [|by left]. right. auto.
Qed.

Ltac split_bools :=
  repeat match goal with
  | H : (_ && _)%bool = true |- _ => apply andb_true_iff in H as [? ?]
  | H : bool_decide _ = true |- _ => apply bool_decide_eq_true in H
  | H : negb _ = true |- _ => apply negb_true_iff in H
  end.

Section statements.
Context `{Postgres}.

Lemma freed_nonneg f jobIds db v :
  db_wf db -> (forall i r, db_jobs db !! i = Some r -> 0 <= f r) ->
  0 <= freed f jobIds (db_jobs db) v.
Proof.
  intros Hwf Hf. apply sum_list_Z_nonneg. intros [i r] Hin.
  apply elem_of_map_to_list, map_lookup_filter_Some in Hin as [Hr _]. eapply Hf; eauto.
Qed.

Lemma release_refines now jobIds db : refines db (release now jobIds db).
Proof.
  intros Hwf. apply rtc_once, update_vms_refines. intros i r _ _.
  apply ve_release; apply freed_nonneg; try done; intros k s Hs;
    destruct (jr_req _ _ _ (wf_jobs _ Hwf k s Hs)); cbn in *; lia.
Qed.

Lemma move_vms_refines from to limit :
  (forall r, v_status r = from -> vm_edit r (set_v_status to r)) ->
  query_keeps refines (move_vms from to limit).
Proof.
  intros He env db a db' Hq. unfold move_vms in Hq. revert Hq. case_bool; [|done].
  intros [= _ <-]. apply refines_once, update_vms_refines. intros i r Hi Hr.
  split_bools. apply He. unfold pick_vms in Hi. apply elem_of_take in Hi as (k & Hi & _).
  apply list_elem_of_lookup_2, list_elem_of_fmap in Hi as ([i' r'] & -> & Hi).
  apply sql_rows_elem in Hi as [Hr' Hw]. split_bools. cbn in *. congruence.
Qed.

Lemma set_status_refines vmIds status :
  (forall r, vm_edit r (set_v_status status r)) ->
  query_keeps refines (set_status_query vmIds status).
Proof.
  intros He env db a db' Hq. destruct vmIds; [done|]. injection Hq as _ <-.
  apply refines_once, update_vms_refines. auto.
Qed.

Lemma save_allocation_refines id info : query_keeps refines (save_allocation_query id info).
Proof.
  intros env db x db'. unfold save_allocation_query. case_bool; [|done]. intros [= _ <-].
  apply refines_once, update_vms_refines. intros. constructor.
Qed.

Lemma cancel_refines c : query_keeps refines (cancel_query c).
Proof.
  intros env db x db'. unfold cancel_query. case_bool; [|done]. intros [= _ <-].
  apply refines_once, update_jobs_refines. intros i r Hc _. constructor.
  unfold job_condition in Hc. by split_bools.
Qed.

Lemma restart_vms_refines c n : query_keeps refines (restart_vms_query c n).
Proof.
  intros env db x db'. unfold restart_vms_query. case_bool; [|done]. intros [= _ <-].
  apply refines_once, update_vms_refines. intros i r Hw Hr. apply andb_true_iff in Heqb as [_ Hall].
  constructor; [by split_bools|]. apply (proj1 (forallb_forall _ _) Hall (i, r)).
  by apply list_elem_of_In, sql_rows_elem.
Qed.

Lemma requeue_refines vmIds s n : s = Scheduled \/ s = Running ->
  query_keeps refines (requeue_query vmIds s n).
Proof.
  intros Hs env db a db'. unfold requeue_query. case_bool; [|done]. intros [= _ <-].
  apply refines_once, update_jobs_refines. intros i r Hw Hr. constructor.
  - split_bools. unfold job_restartable. naive_solver.
  - apply (proj1 (forallb_forall _ _) Heqb (i, r)). by apply list_elem_of_In, sql_rows_elem.
Qed.

Lemma fail_refines vmIds s n : s = Scheduled \/ s = Running ->
  query_keeps refines (fail_query vmIds s n).
Proof.
  intros Hs env db a db' [= _ <-]. apply refines_once, update_jobs_refines. intros i r Hw Hr.
  constructor. split_bools. unfold job_restartable. naive_solver.
Qed.

Lemma terminate_refines c from to n :
  (forall r, vm_edit r (set_v_status to r)) -> query_keeps refines (terminate_query c from to n).
Proof.
  intros He env db a db'. unfold terminate_query. case_bool; [|done]. intros [= _ <-].
  apply refines_once, update_vms_refines. auto.
Qed.

Lemma inactive_refines limit : query_keeps refines (inactive_query limit).
Proof.
  intros env db x db'. unfold inactive_query. case_bool; [|done]. intros [= _ <-].
  apply refines_once, update_vms_refines. constructor.
Qed.

(** ** Methods *)

Lemma execWritableQuery_keeps {A} (q : Env -> Db -> option (A * Db)) :
  query_keeps refines q -> keeps refines (execWritableQuery_ q).
Proof. intros Hq. unfold execWritableQuery_. by repeat keeps_step. Qed.

Lemma releaseVmResources_keeps jobIds : keeps refines (releaseVmResources jobIds).
Proof.
  unfold releaseVmResources. repeat keeps_step. intros env db x db' [= _ <-]. apply release_refines.
Qed.

Lemma restartJobs_keeps vmIds s n : s = Scheduled \/ s = Running ->
  keeps refines (restartJobs vmIds s n).
Proof.
  intros Hs. unfold restartJobs. repeat keeps_step; auto using requeue_refines, fail_refines.
Qed.

Lemma acquireLock_keeps : keeps refines acquireLock_.
Proof. unfold acquireLock_. repeat keeps_step. intros env db x db' [= _ <-]. reflexivity. Qed.

Lemma getCurrentState_keeps : keeps refines getCurrentState_txn.
Proof.
  unfold getCurrentState_txn, readOnlyTransaction_, getQueuedJobs_, getActiveVms_. by repeat keeps_step.
Qed.

Lemma startScheduling_keeps b i l : keeps refines (startScheduling_txn b i l).
Proof.
  unfold startScheduling_txn, checkLeader_, planWasRecentlyUpdated_, insertNewPlanRecord_.
  apply respects_and_then; [apply acquireLock_keeps|]. intros _. repeat keeps_step.
  - intros env db x db'. case_bool; [|done]. intros [= _ <-]. apply refines_once, change_locks. set_solver.
  - intros env db x db' Hq. by eapply refines_once, change_new_plan.
Qed.

Lemma cancelJobs_keeps c : keeps refines (cancelJobs_ c).
Proof.
  unfold cancelJobs_. repeat keeps_step; [apply cancel_refines|apply releaseVmResources_keeps].
Qed.

Lemma terminateVms_keeps c from to n m :
  (forall r, vm_edit r (set_v_status to r)) -> keeps refines (terminateVms_ c from to n m).
Proof.
  intros He. unfold terminateVms_. repeat keeps_step; [by apply terminate_refines|].
  apply restartJobs_keeps. auto.
Qed.

Lemma terminateVmsWithInactiveAgents_keeps n m :
  keeps refines (terminateVmsWithInactiveAgents_txn n m).
Proof.
  unfold terminateVmsWithInactiveAgents_txn. repeat keeps_step; [apply inactive_refines|].
  apply restartJobs_keeps. auto.
Qed.

Lemma getAssignedJobs_keeps v : keeps refines (getAssignedJobs_txn v).
Proof.
  unfold getAssignedJobs_txn. repeat keeps_step; intros env db x db' [= _ <-];
    apply refines_once, update_vms_refines; intros i r Hw Hr; split_bools; by constructor.
Qed.

Lemma updateJobState_keeps v j s : keeps refines (updateJobState_txn v j s).
Proof.
  unfold updateJobState_txn. repeat keeps_step; try apply releaseVmResources_keeps;
    intros env db x db' [= _ <-]; apply refines_once, update_jobs_refines; intros i r Hw Hr;
    split_bools; constructor; unfold job_open; eauto.
Qed.
End statements.

(** ** Adding a task *)

Section add_task.
Context `{Postgres}.

Lemma insert_jobs_adds now t p options db ids db' :
  slot_wf (tp_requiredCapacity p) -> is_Some (db_tasks db !! t) ->
  insert_jobs now t p options db = Some (ids, db') -> rtc (job_added t) db db'.
Proof.
  intros Hp. revert db ids db'. induction options as [|o options IH]; cbn; intros db ids db' Ht.
  { intros [= _ <-]. apply rtc_refl. }
  destruct (jsonb_in o) as [o'|]; [cbn|done]. case_bool; [|done].
  destruct (insert_jobs _ _ _ _ _) as [[ids' db1]|] eqn:Hi; [cbn|done]. intros [= _ <-].
  eapply rtc_l; [by apply (job_added_row t db now p o')|]. by apply IH in Hi.
Qed.

(** The task alone after its statement, and with its jobs after theirs. *)
Lemma addTask_keeps p : keeps refines (addTask_txn p).
Proof.
  apply keeps_wp. intros env st. unfold addTask_txn.
  do 4 wp_step; cbn [chain caught]; [reflexivity|].
  match goal with K : Some _ = Some _ |- _ => injection K as _ <- end.
  do 2 wp_step; cbn [chain caught]; [reflexivity|].
  match goal with K : insert_task _ _ = _ |- _ => rename K into Ht end.
  cbn [tx_db executed] in Ht.
  assert (refines (tx_db st) db') as R1 by (eapply refines_once, change_new_task; [exact Ht|apply rtc_refl]).
  do 2 wp_step; cbn [chain caught]; [exact R1|].
  match goal with K : insert_jobs_query _ _ _ _ = _ |- _ => rename K into Hj end.
  assert (refines (tx_db st) db'0) as R2.
  { unfold insert_jobs_query in Hj. cbn [tx_db executed] in Hj.
    destruct (tp_jobOptions p); [done|]. revert Hj. case_bool; [|done]. split_bools. intros Hj.
    eapply refines_once, change_new_task; [exact Ht|].
    eapply insert_jobs_adds; [split; by apply int4_spec| |exact Hj].
    apply insert_task_spec in Ht as (r & _ & -> & _). cbn. by rewrite lookup_insert_eq. }
  do 2 wp_step; cbn [chain caught]; [exact R2|]. by apply wp_ret.
Qed.
End add_task.

(** ** Committing a plan *)

(** What the storage needs of a plan: capacities that are representable and
    within the size of the VM they are for. *)
Record change_fits (c : StateChange) (db : Db) : Prop := {
  cf_updated : forall v s r, updatedIdleCapacities c !! v = Some s -> db_vms db !! v = Some r ->
    slot_wf s /\ fits s (vm_total r) = true;
  cf_desired : forall d s, desiredSlotMap c !! d = Some s ->
    slot_wf (total s) /\ slot_wf (idle s) /\ fits (idle s) (total s) = true;
}.

Section commit_refines.
Context `{StdLib} `{Postgres}.

Lemma terminatePlannedVms_keeps l : keeps refines (terminatePlannedVms_ l).
Proof.
  unfold terminatePlannedVms_. repeat keeps_step. intros env db x db' [= _ <-].
  apply refines_once, update_vms_refines. constructor.
Qed.

Lemma updateVmCapacities_refines env m st :
  (forall v s r, m !! v = Some s -> db_vms (tx_db st) !! v = Some r ->
     slot_wf s /\ fits s (vm_total r) = true) ->
  wp env (updateVmCapacities_ m) (fun _ st' => refines (tx_db st) (tx_db st')) st.
Proof.
  intros Hm. unfold updateVmCapacities_. wp_step; [by apply wp_ret|].
  do 3 wp_step; cbn [chain caught]; [reflexivity|]. apply wp_ret. cbn.
  match goal with K : (if _ then _ else _) = _ |- _ => revert K; case_bool; [|done]; intros [= _ <-] end.
  apply refines_once, update_vms_refines. intros v r Hw Hr. split_bools. destruct Hw as [s Hs].
  rewrite Hs. destruct (Hm _ _ _ Hs Hr). by constructor.
Qed.

Lemma allocate_loop_keeps todo acc :
  Forall (fun ds => slot_wf (total ds.2) /\ slot_wf (idle ds.2)
                    /\ fits (idle ds.2) (total ds.2) = true) todo ->
  keeps refines (allocate_loop todo acc).
Proof.
  intros Hall. revert acc. induction Hall as [|[d s] todo (Ht & Hi & Hf) _ IH]; intros acc;
    cbn [allocate_loop]; repeat keeps_step; [|apply IH].
  intros env db x db' Hq. by eapply refines_once, change_new_vm.
Qed.

Lemma applyJobVmAssignments_refines env a slots st :
  (forall i r, is_Some (a !! i) -> db_jobs (tx_db st) !! i = Some r -> job_open r) ->
  wp env (applyJobVmAssignments_ a slots) (fun _ st' => refines (tx_db st) (tx_db st')) st.
Proof.
  intros Ho. unfold applyJobVmAssignments_. wp_step; [by apply wp_ret|].
  wp_step; [by do 2 wp_step|]. do 3 wp_step; cbn [chain caught]; [reflexivity|]. apply wp_ret. cbn.
  match goal with K : (if _ then _ else _) = _ |- _ => revert K; case_bool; [|done]; intros [= _ <-] end.
  apply refines_once, update_jobs_refines. intros i r Hw Hr. split_bools. destruct Hw as [v Hv].
  unfold assign_row. rewrite Hv. constructor.
  - apply (Ho i); [|done]. rewrite lookup_omap in Hv. destruct (a !! i); [by eauto|done].
  - match goal with K : fk_ok _ _ = true |- _ => pose proof (proj1 (forallb_forall _ _) K (i, v)) as Hfk end.
    cbn in Hfk. rewrite Hr in Hfk. rewrite orb_true_iff, !bool_decide_eq_true in Hfk.
    destruct Hfk as [?|?]; [|done..]. by apply list_elem_of_In, elem_of_map_to_list.
Qed.

Lemma refreshPlanActivityTs_keeps p : keeps refines (refreshPlanActivityTs_ p).
Proof.
  unfold refreshPlanActivityTs_. repeat keeps_step. intros env db x db' [= _ <-].
  apply refines_once, change_plans. intros i. apply sql_update_is_Some.
Qed.

Lemma isSchedulingRelevant_keeps p : keeps refines (isSchedulingRelevant_ p).
Proof. unfold isSchedulingRelevant_. by repeat keeps_step. Qed.

Lemma checkConflicts_keeps c : keeps refines (checkConflicts_ c).
Proof.
  unfold checkConflicts_, getJobStatusesWithLock, getVmStatusesWithLock. by repeat keeps_step.
Qed.

(** The capacities of a plan still fit after some VMs were given up. *)
Lemma cf_updated_terminated now (l : list VmId) c db db' :
  change_fits c db ->
  (forall v, db_vms db' !! v = (fun r => if decide (v ∈ l)
     then status_trigger now r (set_v_status PendingTermination r) else r) <$> db_vms db !! v) ->
  forall v s r, updatedIdleCapacities c !! v = Some s -> db_vms db' !! v = Some r ->
    slot_wf s /\ fits s (vm_total r) = true.
Proof.
  intros Hc Hv v s r Hs Hr. rewrite Hv in Hr. apply fmap_Some in Hr as (r0 & Hr0 & ->).
  assert (vm_total (if decide (v ∈ l) then status_trigger now r0 (set_v_status PendingTermination r0)
          else r0) = vm_total r0) as ->; [|by eapply cf_updated].
  case_decide; [|done]. unfold status_trigger. by case_decide.
Qed.

(** A branch that returns. *)
Local Ltac wp_leave :=
  cbn [chain]; try apply wp_ret; try first [eassumption|etrans; eassumption|congruence].

Lemma commitPlanChange_refines env c planId db :
  change_fits c db ->
  wp env (commitPlanChange_txn c planId) (fun _ st => refines db (tx_db st)) (tx_start db).
Proof.
  intros Hfits. unfold commitPlanChange_txn.
  assert (S0 : refines db (tx_db (tx_start db))) by reflexivity.
  wp_step. eapply wp_mono; [eapply wp_keeps; [apply acquireLock_spec|apply acquireLock_keeps]|].
  intros [[[]|e]|e|] st1 [[_ E1] R1]; wp_leave.
  wp_step. eapply wp_mono; [eapply wp_keeps; [apply isSchedulingRelevant_spec|apply isSchedulingRelevant_keeps]|].
  rewrite E1. intros [[b|e]|e|] st2 [[_ E2] R2]; wp_leave.
  destruct E2 as [E2 _]. wp_step; wp_leave.
  wp_step. eapply wp_mono; [eapply wp_keeps; [apply checkConflicts_spec|apply checkConflicts_keeps]|].
  rewrite E2. intros [[[]|e]|e|] st3 [[_ E3] R3]; wp_leave.
  destruct E3 as (E3 & Hjobs & _).
  wp_step. eapply wp_mono; [eapply wp_keeps; [apply terminatePlannedVms_spec|apply terminatePlannedVms_keeps]|].
  rewrite E3. intros [[[]|e]|e|] st4 [[_ E4] R4]; wp_leave. destruct E4 as [O4 V4].
  wp_step. eapply wp_mono; [apply wp_conj; [apply updateVmCapacities_spec|apply updateVmCapacities_refines]|].
  { apply (cf_updated_terminated (env_now env) (vmsToTerminate c) c db); [done|exact V4]. }
  intros [[[]|e]|e|] st5 [[_ E5] R5]; wp_leave. destruct E5 as [O5 _].
  assert (S5 : refines db (tx_db st5)) by (etrans; eassumption).
  wp_step. eapply wp_mono; [eapply wp_keeps; [apply allocate_loop_spec, unordered_nodup|apply allocate_loop_keeps]|].
  { apply Forall_forall. intros [d s] Hin. rewrite unordered_perm in Hin.
    apply elem_of_map_to_list in Hin. by apply (cf_desired _ _ Hfits d). }
  intros [[slots|e]|e|] st6 [[_ E6] R6]; wp_leave.
  assert (db_jobs (tx_db st6) = db_jobs db) as J6.
  { destruct E6 as [_ _ _ _ _ (-> & _)]. destruct O5 as (-> & _). by destruct O4 as (-> & _). }
  assert (S6 : refines db (tx_db st6)) by (etrans; eassumption).
  wp_step. eapply wp_mono; [apply applyJobVmAssignments_refines|].
  { intros i r. rewrite J6. apply Hjobs. }
  intros [[[]|e]|e|] st7 R7; wp_leave.
  assert (S7 : refines db (tx_db st7)) by (etrans; eassumption).
  wp_step. eapply wp_mono; [eapply wp_keeps with (Q := fun _ _ => True); [done|apply refreshPlanActivityTs_keeps]|].
  intros [[[]|e]|e|] st8 [_ R8]; wp_leave.
  assert (S8 : refines db (tx_db st8)) by (etrans; eassumption).
  do 3 wp_step; cbn [chain caught]; [exact S8|]. by apply wp_ret.
Qed.
End commit_refines.

(** ** The whole interface *)

(** The calls of [TaskStorage]. *)
Inductive StorageOp : Type :=
  | OpAddTask (p : TaskParameters)
  | OpStartScheduling (backendId : string) (interval : Z) (lockNumber : option Z)
  | OpGetCurrentState
  | OpCommitPlanChange (c : StateChange) (planId : PlanId)
  | OpGetVmsToAllocate (limit : Z)
  | OpGetVmsToTerminate (limit : Z)
  | OpReturnUnterminatedVms (vmIds : list VmId)
  | OpSaveVmTerminationResult (vmId : VmId)
  | OpSaveVmAllocationResult (vmId : VmId) (info : AllocatedVmInfo)
  | OpCancelTask (taskId : TaskId)
  | OpCancelTimedOutJobs
  | OpGetJobStates (taskId : TaskId)
  | OpRestartStaleAllocatingVms (limit attempts : Z)
  | OpTerminateStaleAllocatingVms (limit vmAttempts jobAttempts : Z)
  | OpRollbackUnallocatedVmsState (vmIds : list VmId) (vmAttempts jobAttempts : Z)
  | OpTerminateVmsWithInactiveAgents (limit jobAttempts : Z)
  | OpTerminateVmsWithoutAgents (limit jobAttempts : Z)
  | OpGetAssignedJobs (vmId : VmId)
  | OpGetJobToLaunch (vmId : VmId) (jobId : JobId)
  | OpUpdateJobState (vmId : VmId) (jobId : JobId) (s : JobState)
  | OpGetAllocatedVms.

Section operations.
Context `{StdLib} `{Postgres}.

(** The database a call leaves, answered or not; [env2] serves a second transaction. *)
Definition op_db (op : StorageOp) (env env2 : Env) (db : Db) : Db :=
  match op with
  | OpAddTask p => call_db (addTask p env db)
  | OpStartScheduling b i l => call_db (startScheduling b i l env db)
  | OpGetCurrentState => call_db (getCurrentState env db)
  | OpCommitPlanChange c p => call_db (commitPlanChange c p env db)
  | OpGetVmsToAllocate n => call_db (getVmsToAllocate n env db)
  | OpGetVmsToTerminate n => call_db (getVmsToTerminate n env db)
  | OpReturnUnterminatedVms l => call_db (returnUnterminatedVms l env db)
  | OpSaveVmTerminationResult v => call_db (saveVmTerminationResult v env db)
  | OpSaveVmAllocationResult v i => call_db (saveVmAllocationResult v i env db)
  | OpCancelTask t => call_db (cancelTask t env db)
  | OpCancelTimedOutJobs => call_db (cancelTimedOutJobs env db)
  | OpGetJobStates t => call_db (getJobStates t env db)
  | OpRestartStaleAllocatingVms l n => call_db (restartStaleAllocatingVms l n env db)
  | OpTerminateStaleAllocatingVms l n m => call_db (terminateStaleAllocatingVms l n m env db)
  | OpRollbackUnallocatedVmsState l n m => call_db (rollbackUnallocatedVmsState l n m env env2 db)
  | OpTerminateVmsWithInactiveAgents l n => call_db (terminateVmsWithInactiveAgents l n env db)
  | OpTerminateVmsWithoutAgents l n => call_db (terminateVmsWithoutAgents l n env db)
  | OpGetAssignedJobs v => call_db (getAssignedJobs v env db)
  | OpGetJobToLaunch v j => call_db (getJobToLaunch v j env db)
  | OpUpdateJobState v j s => call_db (updateJobState v j s env db)
  | OpGetAllocatedVms => call_db (getAllocatedVms env db)
  end.

(** The one call with a precondition. *)
Definition op_admissible (op : StorageOp) (db : Db) : Prop :=
  match op with
  | OpCommitPlanChange c _ => change_fits c db
  | _ => True
  end.

Lemma then_call_refines {A B} (c : Call A) (k : A -> Db -> Call B) db :
  refines db (call_db c) -> (forall a db1, refines db1 (call_db (k a db1))) ->
  refines db (call_db (then_call c k)).
Proof. intros Hc Hk. destruct c as [[a|e] db1|db1]; cbn in *; [|done..]. by etrans. Qed.

Lemma commitPlanChange_call_refines c planId env db :
  change_fits c db -> refines db (call_db (commitPlanChange c planId env db)).
Proof.
  intros Hc. pose proof (commitPlanChange_refines env c planId db Hc) as Hr.
  unfold commitPlanChange, run_call, final_db. unfold wp in Hr.
  destruct (commitPlanChange_txn _ _ _ _) as [[r|e|] st]; cbn in *;
    (destruct (tx_committed st); [done|by apply tx_order_rollback]).
Qed.

Lemma op_refines op env env2 db : op_admissible op db -> refines db (op_db op env env2 db).
Proof.
  destruct op; cbn [op_db op_admissible]; intros Hadm;
    try (by apply commitPlanChange_call_refines);
    try (apply run_call_keeps; clear Hadm).
  - apply addTask_keeps.
  - apply startScheduling_keeps.
  - apply getCurrentState_keeps.
  - unfold getVmsToAllocate_txn. repeat keeps_step. apply execWritableQuery_keeps, move_vms_refines.
    by constructor.
  - unfold getVmsToTerminate_txn. repeat keeps_step. apply execWritableQuery_keeps, move_vms_refines.
    by constructor.
  - apply execWritableQuery_keeps, set_status_refines. constructor.
  - apply execWritableQuery_keeps, set_status_refines. constructor.
  - apply execWritableQuery_keeps, save_allocation_refines.
  - apply cancelJobs_keeps.
  - apply cancelJobs_keeps.
  - unfold getJobStates_txn. by repeat keeps_step.
  - apply execWritableQuery_keeps, restart_vms_refines.
  - apply terminateVms_keeps. constructor.
  - apply then_call_refines; [|intros _ db1]; apply run_call_keeps.
    + apply execWritableQuery_keeps, restart_vms_refines.
    + apply terminateVms_keeps. constructor.
  - apply terminateVmsWithInactiveAgents_keeps.
  - apply terminateVms_keeps. constructor.
  - apply getAssignedJobs_keeps.
  - unfold getJobToLaunch_txn. by repeat keeps_step.
  - apply updateJobState_keeps.
  - unfold getAllocatedVms_txn. by repeat keeps_step.
Qed.

(** Any interleaving of the calls of any number of schedulers, allocators, failure
    detectors and API servers. *)
Inductive step : Db -> Db -> Prop :=
  | step_call op env env2 db : op_admissible op db -> step db (op_db op env env2 db).

Lemma steps_refine a b : rtc step a b -> refines a b.
Proof.
  induction 1 as [|x y z Hxy _ IH]; [reflexivity|]. etrans; [|done].
  destruct Hxy. by apply op_refines.
Qed.
End operations.
