(* ===== verification/StorageSpec.v ===== *)
(** * The storage methods without faults

    In an environment where no statement is made to fail, every method is the
    composition of its statements; these equations evaluate the transactions. *)

From S2P Require Import Prelude Std Slot State Db TxLogic Storage StorageFacts Lifecycle StorageRefines.

#[local] Arguments exec : simpl never.
#[local] Arguments commit : simpl never.
#[local] Arguments final_db : simpl never.
#[local] Arguments rollback : simpl never.

Section quiet_calls.
Context `{Postgres} (env : Env) (Hquiet : quiet env).

Lemma exec_quiet {A} (q : Env -> Db -> option (A * Db)) st :
  tx_aborted st = false ->
  exec q env st = match q env (tx_db st) with
                  | Some (a, db') => (TxVal a, executed env db' st)
                  | None => (TxThrow SqlError, refused st)
                  end.
Proof. intros Hl. unfold exec. rewrite Hl, Hquiet. by destruct (q env (tx_db st)) as [[]|]. Qed.

Lemma commit_quiet st :
  tx_aborted st = false ->
  commit env st = (TxVal tt, ended_txn env false true st).
Proof. intros Hl. unfold commit. by rewrite exec_quiet. Qed.

(** The database of a transaction that was not committed, without new ids. *)
Lemma final_db_unchanged db st : tx_committed st = false -> tx_db st = db -> final_db db st = db.
Proof. intros Hc <-. unfold final_db. rewrite Hc. by destruct (tx_db st). Qed.


Lemma execWritableQuery_quiet {A} (q : Env -> Db -> option (A * Db)) db :
  run_call (execWritableQuery_ q) env db
  = match q env db with
    | Some (a, db') => Answer (Success a) db'
    | None => Answer (Failure PgException) db
    end.
Proof.
  unfold run_call, execWritableQuery_, begin_txn, try_catch, mbind, tx_bind.
  rewrite exec_quiet by done. cbn. rewrite exec_quiet by done. cbn.
  destruct (q env db) as [[a db']|]; cbn; [|by rewrite final_db_unchanged].
  by rewrite commit_quiet.
Qed.

(** What [terminateVms_] makes of the jobs of the VMs it gave up. *)
Definition restarted (vmIds : list VmId) (s : JobStatus) (attempts : Z) (db : Db) : option Db :=
  '(_, db1) ← requeue_query vmIds s attempts env db;
  '(_, db2) ← fail_query vmIds s attempts env db1;
  Some db2.

Lemma terminateVms_quiet c from to n m db :
  run_call (terminateVms_ c from to n m) env db
  = match terminate_query c from to n env db with
    | None => Answer (Failure PgException) db
    | Some (ids, db1) =>
      if decide (ids = []) then Answer (Success tt) db
      else match restarted ids Scheduled m db1 with
           | None => Answer (Failure PgException) db
           | Some db2 => Answer (Success tt) db2
           end
    end.
Proof.
  unfold run_call, terminateVms_, begin_txn, try_catch, mbind, tx_bind.
  rewrite exec_quiet by done. cbn. rewrite exec_quiet by done. cbn.
  destruct (terminate_query _ _ _ _ _ _) as [[ids db1]|] eqn:Ht; cbn; [|by rewrite final_db_unchanged].
  assert (rollback db db1 = db) as Hrb.
  { revert Ht. unfold terminate_query. case_bool; [|done]. intros [= _ <-]. by destruct db. }
  destruct (decide (ids = [])); cbn; [by unfold final_db; cbn; rewrite Hrb|].
  unfold restartJobs, restarted, mbind, tx_bind. rewrite exec_quiet by done. cbn.
  destruct (requeue_query _ _ _ _ _) as [[[] db2]|] eqn:Hr; cbn; [|by unfold final_db; cbn; rewrite Hrb].
  rewrite exec_quiet by done. cbn. by rewrite commit_quiet.
Qed.

Lemma terminateVmsWithInactiveAgents_quiet limit m db :
  terminateVmsWithInactiveAgents limit m env db
  = match inactive_query limit env db with
    | None => Answer (Failure PgException) db
    | Some (ids, db1) =>
      if decide (ids = []) then Answer (Success tt) db
      else match restarted ids Running m db1 with
           | None => Answer (Failure PgException) db
           | Some db2 => Answer (Success tt) db2
           end
    end.
Proof.
  unfold terminateVmsWithInactiveAgents, run_call, terminateVmsWithInactiveAgents_txn, begin_txn, try_catch,
    mbind, tx_bind.
  rewrite exec_quiet by done. cbn. rewrite exec_quiet by done. cbn.
  destruct (inactive_query _ _ _) as [[ids db1]|] eqn:Ht; cbn; [|by rewrite final_db_unchanged].
  assert (rollback db db1 = db) as Hrb.
  { revert Ht. unfold inactive_query. case_bool; [|done]. intros [= _ <-]. by destruct db. }
  destruct (decide (ids = [])); cbn; [by unfold final_db; cbn; rewrite Hrb|].
  unfold restartJobs, restarted, mbind, tx_bind. rewrite exec_quiet by done. cbn.
  destruct (requeue_query _ _ _ _ _) as [[[] db2]|] eqn:Hr; cbn; [|by unfold final_db; cbn; rewrite Hrb].
  rewrite exec_quiet by done. cbn. by rewrite commit_quiet.
Qed.

Lemma cancelJobs_quiet c db :
  run_call (cancelJobs_ c) env db
  = match cancel_query c env db with
    | None => Answer (Failure PgException) db
    | Some (result, db1) =>
      let ids := (filter (fun js => js.2 = Cancelled) result).*1 in
      Answer (Success tt) (if decide (ids = []) then db1 else release (env_now env) ids db1)
    end.
Proof.
  unfold run_call, cancelJobs_, begin_txn, try_catch, mbind, tx_bind.
  rewrite exec_quiet by done. cbn. rewrite exec_quiet by done. cbn.
  destruct (cancel_query c env db) as [[result db1]|]; cbn; [|by rewrite final_db_unchanged].
  destruct (decide (result = [])) as [->|Hne]; cbn.
  { by rewrite commit_quiet. }
  set (ids := (filter _ result).*1). unfold releaseVmResources.
  destruct ids as [|i ids]; cbn; [by rewrite commit_quiet|].
  rewrite exec_quiet by done. cbn. by rewrite commit_quiet.
Qed.

Lemma updateJobState_quiet v j s db :
  run_call (updateJobState_txn v j s) env db
  = match job_on v j db with
    | None => Answer (Failure JobNotFoundException) db
    | Some r =>
      if bool_decide (j_status r = Cancelling) && negb (bool_decide (js_status s = Cancelled))
      then Answer (Success tt) db
      else
        let db1 := update_jobs
          (fun i r => bool_decide (j_vm_id r = Some v) && bool_decide (i = j) && negb (job_final (j_status r)))
          (fun _ => report_row (env_now env) s) db in
        Answer (Success tt) (if job_final (js_status s) then release (env_now env) [j] db1 else db1)
    end.
Proof.
  unfold run_call, updateJobState_txn, begin_txn, try_catch, mbind, tx_bind, query.
  rewrite exec_quiet by done. cbn. rewrite exec_quiet by done. cbn.
  destruct (job_on v j db) as [r|]; cbn; [|by rewrite final_db_unchanged].
  destruct (_ && _)%bool; cbn; [by rewrite final_db_unchanged|].
  rewrite exec_quiet by done. cbn. destruct (job_final (js_status s)); cbn.
  - rewrite exec_quiet by done. cbn. by rewrite commit_quiet.
  - by rewrite commit_quiet.
Qed.

Lemma getAssignedJobs_quiet v db :
  let db1 := update_vms (env_now env)
    (fun i r => bool_decide (i = v) && bool_decide (v_status r = Allocated))
    (fun _ => set_v_status AgentStarted) db in
  let db2 := update_vms (env_now env) (fun i _ => bool_decide (i = v))
    (fun _ => set_v_agent_activity (env_now env)) db1 in
  run_call (getAssignedJobs_txn v) env db
  = Answer (Success (pgResultToAssignedJobs (sql_rows (fun _ r => assigned_to v r) (db_jobs db)))) db2.
Proof.
  unfold run_call, getAssignedJobs_txn, begin_txn, try_catch, mbind, tx_bind, query.
  do 4 (rewrite exec_quiet by done; cbn). by rewrite commit_quiet.
Qed.

Lemma getJobToLaunch_quiet v j r t db :
  job_on v j db = Some r -> db_tasks db !! j_task_id r = Some t -> slot_wf (job_req r) ->
  getJobToLaunch v j env db
  = Answer (Success (mkJobToLaunch j (job_req r) (t_settings t) (t_image_version t) (j_options r))) db.
Proof.
  intros Hr Ht [Hc Hm]. unfold getJobToLaunch, run_call, getJobToLaunch_txn, begin_txn, try_catch, mbind, tx_bind, query.
  do 2 (rewrite exec_quiet by done; cbn). rewrite Hr. cbn. rewrite Ht. cbn.
  unfold pgResultToJobToLaunch, as_size_t. cbn in Hc, Hm.
  rewrite (proj2 (Z.leb_le 0 (j_cpu r))), (proj2 (Z.leb_le 0 (j_ram r))) by lia. cbn. by rewrite final_db_unchanged.
Qed.

Lemma getJobStates_quiet t db :
  getJobStates t env db
  = Answer (Success (read_job_state <$> sql_rows (fun _ r => bool_decide (j_task_id r = t)) (db_jobs db))) db.
Proof.
  unfold getJobStates, run_call, getJobStates_txn, begin_txn, try_catch, mbind, tx_bind, query.
  do 2 (rewrite exec_quiet by done; cbn). by rewrite final_db_unchanged.
Qed.

Lemma getAllocatedVms_quiet db :
  getAllocatedVms env db
  = match mapM read_allocated (sql_rows (fun _ r => vm_active r) (db_vms db)) with
    | Some l => Answer (Success l) db
    | None => Answer (Failure PgException) db
    end.
Proof.
  unfold getAllocatedVms, run_call, getAllocatedVms_txn, begin_txn, try_catch, mbind, tx_bind, query.
  do 2 (rewrite exec_quiet by done; cbn).
  destruct (mapM _ _); cbn; by rewrite final_db_unchanged.
Qed.

(** Reading after the commit: a row that cannot be read ends the process, and the
    statuses stay changed. *)
Lemma getVmsToAllocate_quiet n db :
  getVmsToAllocate n env db
  = match move_vms PendingAllocation Allocating n env db with
    | None => Answer (Failure PgException) db
    | Some (rows, db') =>
      match mapM read_pending rows with
      | Some l => Answer (Success l) db'
      | None => Crash db'
      end
    end.
Proof.
  unfold getVmsToAllocate, run_call, getVmsToAllocate_txn, and_then, execWritableQuery_, begin_txn, try_catch, mbind, tx_bind.
  do 2 (rewrite exec_quiet by done; cbn).
  destruct (move_vms _ _ _ _ _) as [[rows db']|]; cbn; [|by rewrite final_db_unchanged].
  rewrite commit_quiet by done. cbn. by destruct (mapM read_pending rows).
Qed.

Lemma getVmsToTerminate_quiet n db :
  getVmsToTerminate n env db
  = match move_vms PendingTermination Terminating n env db with
    | None => Answer (Failure PgException) db
    | Some (rows, db') =>
      match mapM read_terminating rows with
      | Some l => Answer (Success l) db'
      | None => Crash db'
      end
    end.
Proof.
  unfold getVmsToTerminate, run_call, getVmsToTerminate_txn, and_then, execWritableQuery_, begin_txn, try_catch, mbind, tx_bind.
  do 2 (rewrite exec_quiet by done; cbn).
  destruct (move_vms _ _ _ _ _) as [[rows db']|]; cbn; [|by rewrite final_db_unchanged].
  rewrite commit_quiet by done. cbn. by destruct (mapM read_terminating rows).
Qed.

Lemma addTask_quiet p db :
  addTask p env db
  = match insert_task p db with
    | None => Answer (Failure PgException) db
    | Some (t, db1) =>
      match insert_jobs_query t p env db1 with
      | None => Answer (Failure PgException) (rollback db db1)
      | Some (ids, db2) => Answer (Success (mkCreatedJobs t ids)) db2
      end
    end.
Proof.
  unfold addTask, run_call, addTask_txn, begin_txn, try_catch, mbind, tx_bind.
  do 2 (rewrite exec_quiet by done; cbn).
  destruct (insert_task p db) as [[t db1]|]; cbn; [|by rewrite final_db_unchanged].
  rewrite exec_quiet by done. cbn.
  destruct (insert_jobs_query t p env db1) as [[ids db2]|]; cbn; [|done].
  by rewrite commit_quiet.
Qed.
End quiet_calls.
