(* ===== verification/StorageProgress.v ===== *)
(** * When a plan is committed

    Without faults, the checks of [commitPlanChange] are the only reasons for it to
    fail: a plan that is the latest, fits the database and meets no conflict is
    committed. *)

From S2P Require Import Prelude Std Slot State Db TxLogic Storage StorageFacts Lifecycle StorageRefines.

Section progress.
Context `{StdLib} `{Postgres} (env : Env) (Hquiet : quiet env).

(** A live transaction goes on with a success. *)
Definition succeeds {A} (m : Tx (Result A)) (st : TxState) : Prop :=
  wp env m (fun o st' => live st' /\ exists a, o = TxVal (Success a)) st.

Lemma acquireLock_succeeds st : live st -> succeeds acquireLock_ st.
Proof.
  intros Hl. unfold succeeds, acquireLock_. do 3 wp_step. eapply wp_exec_quiet; [done..|].
  cbn [chain caught]. wp_step. eapply wp_exec_quiet; [done..|]. cbn [chain caught].
  apply wp_ret. split; [done|by eauto].
Qed.

Lemma isSchedulingRelevant_succeeds planId st :
  live st -> latest_plans (tx_db st) = [planId] ->
  wp env (isSchedulingRelevant_ planId) (fun o st' => live st' /\ o = TxVal (Success true)) st.
Proof.
  intros Hl Hp. unfold isSchedulingRelevant_. do 2 wp_step. apply wp_query_quiet; [done..|].
  cbn [chain]. rewrite Hp. apply wp_ret. rewrite bool_decide_eq_true_2 by done. done.
Qed.

Lemma some_status_none {S} (p : S -> bool) (m : gmap Z S) :
  (forall i s, m !! i = Some s -> p s = false) -> some_status p m = false.
Proof.
  intros Hp. apply not_true_iff_false. intros He. apply existsb_exists in He as ([i s] & Hin & Hs).
  apply list_elem_of_In, elem_of_map_to_list in Hin. cbn in Hs. by rewrite (Hp i s) in Hs.
Qed.

Lemma statuses_inv {X R S} (m : gmap Z X) (f : R -> S) (t : gmap Z R) i s :
  (f <$> filter (fun ir => is_Some (m !! ir.1)) t) !! i = Some s ->
  is_Some (m !! i) /\ exists r, t !! i = Some r /\ s = f r.
Proof.
  rewrite lookup_fmap. intros (r & Hr & ->)%fmap_Some.
  apply map_lookup_filter_Some in Hr as [Hr Hm]. eauto.
Qed.

Lemma checkConflicts_succeeds c st :
  live st ->
  (forall i r, is_Some (jobToVm c !! i) -> db_jobs (tx_db st) !! i = Some r -> job_open r) ->
  (forall v r, is_Some (updatedIdleCapacities c !! v) -> db_vms (tx_db st) !! v = Some r ->
     vm_active r = true) ->
  succeeds (checkConflicts_ c) st.
Proof.
  intros Hl Hj Hv. unfold succeeds, checkConflicts_. do 2 wp_step.
  apply wp_mono with (Q := fun o st' => live st' /\ tx_db st' = tx_db st
    /\ exists js, o = TxVal js /\ some_status job_final js = false).
  { unfold getJobStatusesWithLock. wp_step; [by apply wp_ret; eauto|].
    apply wp_query_quiet; [done..|]. split; [done|]. split; [done|]. eexists. split; [done|].
    apply some_status_none. intros i s (Hm & r & Hr & ->)%statuses_inv. by eapply Hj. }
  intros o st1 (Hl1 & Hdb & js & -> & Hjs). cbn [chain caught]. wp_step.
  apply wp_mono with (Q := fun o st' => live st' /\ exists vs, o = TxVal vs
    /\ some_status (fun s => negb (bool_decide (s ∈ getActiveVmStatuses))) vs = false).
  { unfold getVmStatusesWithLock. wp_step; [by apply wp_ret; eauto|].
    apply wp_query_quiet; [done..|]. split; [done|]. eexists. split; [done|].
    apply some_status_none. rewrite Hdb. intros i s (Hm & r & Hr & ->)%statuses_inv.
    apply negb_false_iff. by eapply Hv. }
  intros o st2 (Hl2 & vs & -> & Hvs). cbn [chain caught]. apply wp_ret. rewrite Hjs, Hvs. split; [done|by eauto].
Qed.

Lemma terminatePlannedVms_succeeds l st : live st -> succeeds (terminatePlannedVms_ l) st.
Proof.
  intros Hl. unfold succeeds, terminatePlannedVms_. destruct l; [by apply wp_ret; eauto|].
  do 2 wp_step. eapply wp_exec_quiet; [done..|]. cbn [chain caught]. apply wp_ret. split; [done|by eauto].
Qed.

Lemma updateVmCapacities_succeeds m st :
  live st ->
  (forall v s r, m !! v = Some s -> db_vms (tx_db st) !! v = Some r -> slot_wf s) ->
  succeeds (updateVmCapacities_ m) st.
Proof.
  intros Hl Hm. unfold succeeds, updateVmCapacities_. wp_step; [by apply wp_ret; eauto|].
  do 2 wp_step. eapply wp_exec_quiet; [done|done| |].
  - assert (idle_storable m (db_vms (tx_db st)) = true) as ->; [|done].
    apply forallb_forall. intros [v s] Hin. apply list_elem_of_In, elem_of_map_to_list in Hin. cbn.
    destruct (db_vms (tx_db st) !! v) eqn:Hr; [|done]. destruct (Hm _ _ _ Hin Hr).
    rewrite orb_true_iff, andb_true_iff, !int4_spec. auto.
  - cbn [chain caught]. apply wp_ret. split; [done|by eauto].
Qed.

Lemma allocate_loop_succeeds todo acc st :
  live st -> below (db_vms (tx_db st)) (seq_vms (tx_db st)) -> 0 <= seq_vms (tx_db st) ->
  Forall (fun ds => slot_wf (total ds.2) /\ slot_wf (idle ds.2)) todo ->
  seq_vms (tx_db st) + Z.of_nat (length todo) <= 2 ^ 31 ->
  succeeds (allocate_loop todo acc) st.
Proof.
  intros Hl Hb H0' Hall. revert acc st Hl Hb H0'.
  induction Hall as [|[d s] todo [Ht Hi] _ IH]; intros acc st Hl Hb H0' Hlen; cbn [allocate_loop].
  { apply wp_ret. eauto. }
  cbn [length] in Hlen. unfold succeeds. do 3 wp_step. eapply wp_exec_quiet; [done|done| |].
  - unfold insert_vm.
    assert (new_key (seq_vms (tx_db st)) (db_vms (tx_db st)) = true) as ->.
    { apply new_key_spec. split; [lia|]. apply eq_None_not_Some. intros Hs. apply Hb in Hs. lia. }
    destruct Ht as [Htc Htr], Hi as [Hic Hir]. apply int4_spec in Htc, Htr, Hic, Hir. cbn [snd] in *.
    rewrite Htc, Htr, Hic, Hir. done.
  - cbn [chain caught]. apply wp_ret. cbn [caught chain]. apply IH; cbn; [done|by apply below_insert|lia|lia].
Qed.

Lemma applyJobVmAssignments_succeeds a slots st :
  live st ->
  (forall i t, a !! i = Some t -> exists v, resolve slots t = Some v /\ is_Some (db_vms (tx_db st) !! v)) ->
  succeeds (applyJobVmAssignments_ a slots) st.
Proof.
  intros Hl Ha. unfold succeeds, applyJobVmAssignments_. wp_step; [by apply wp_ret; eauto|].
  assert (unresolved slots a = false) as ->.
  { apply not_true_iff_false. intros He. apply existsb_exists in He as ([i t] & Hin & Ht).
    apply list_elem_of_In, elem_of_map_to_list in Hin. apply bool_decide_eq_true in Ht. cbn in Ht.
    destruct (Ha _ _ Hin) as (v & Hv & _). congruence. }
  do 2 wp_step. eapply wp_exec_quiet; [done|done| |].
  - assert (fk_ok (omap (resolve slots) a) (tx_db st) = true) as ->; [|done].
    apply forallb_forall. intros [i v] Hin. apply list_elem_of_In, elem_of_map_to_list in Hin. cbn.
    rewrite lookup_omap in Hin. destruct (a !! i) as [t|] eqn:Ht; [|done]. cbn in Hin.
    destruct (Ha _ _ Ht) as (v' & Hv' & Hs). rewrite Hin in Hv'. injection Hv' as <-.
    by rewrite bool_decide_eq_true_2.
  - cbn [chain caught]. apply wp_ret. split; [done|by eauto].
Qed.

Lemma refreshPlanActivityTs_succeeds p st : live st -> succeeds (refreshPlanActivityTs_ p) st.
Proof.
  intros Hl. unfold succeeds, refreshPlanActivityTs_. do 2 wp_step.
  eapply wp_exec_quiet; [done..|]. cbn [chain caught]. apply wp_ret. split; [done|by eauto].
Qed.

(** The database a plan can be committed to. *)
Record plan_committable (c : StateChange) (planId : PlanId) (db : Db) : Prop := {
  pcm_wf : db_wf db;
  pcm_fits : change_fits c db;
  pcm_admitted : plan_admitted c planId db;
  pcm_existing : forall i v, jobToVm c !! i = Some (ExistingVm v) -> is_Some (db_vms db !! v);
  pcm_desired : forall i d, jobToVm c !! i = Some (DesiredVm d) -> is_Some (desiredSlotMap c !! d);
  pcm_room : 0 <= seq_vms db /\ seq_vms db + Z.of_nat (size (desiredSlotMap c)) <= 2 ^ 31;
}.

(** The VM rows just before the new ones are inserted. *)
Lemma seq_vms_update now w f db : seq_vms (update_vms now w f db) = seq_vms db.
Proof. done. Qed.

Lemma terminatePlannedVms_seq l st :
  wp env (terminatePlannedVms_ l) (fun _ st' => seq_vms (tx_db st') = seq_vms (tx_db st)) st.
Proof.
  unfold terminatePlannedVms_. destruct l; [by apply wp_ret|]. do 3 wp_step; cbn [chain caught]; [done|].
  apply wp_ret. by match goal with K : Some _ = Some _ |- _ => injection K as _ <- end.
Qed.

Lemma updateVmCapacities_seq m st :
  wp env (updateVmCapacities_ m) (fun _ st' => seq_vms (tx_db st') = seq_vms (tx_db st)) st.
Proof.
  unfold updateVmCapacities_. wp_step; [by apply wp_ret|]. do 3 wp_step; cbn [chain caught]; [done|].
  apply wp_ret.
  match goal with K : (if _ then _ else _) = _ |- _ => revert K; case_bool; [|done]; by intros [= _ <-] end.
Qed.

Lemma length_unordered {V} (m : gmap Z V) : length (unordered m) = size m.
Proof. rewrite unordered_perm. apply length_map_to_list. Qed.

Lemma commitPlanChange_succeeds c planId db :
  plan_committable c planId db -> succeeds (commitPlanChange_txn c planId) (tx_start db).
Proof.
  intros [Hwf Hfits Hadm Hex Hdes [Hseq Hroom]]. unfold succeeds, commitPlanChange_txn.
  wp_step. eapply wp_mono; [apply wp_conj; [apply acquireLock_spec|by apply acquireLock_succeeds]|].
  intros o st1 [[_ E1] (L1 & [] & ->)]. cbn [chain tx_start tx_db] in *.
  wp_step. eapply wp_mono; [apply wp_conj; [apply isSchedulingRelevant_spec|
    apply isSchedulingRelevant_succeeds; [done|rewrite E1; apply Hadm]]|].
  intros o st2 [[_ E2] (L2 & ->)]. cbn [chain negb] in *. destruct E2 as [E2 _]. rewrite E1 in E2.
  wp_step. eapply wp_mono; [apply wp_conj; [apply checkConflicts_spec|
    apply checkConflicts_succeeds; [done|rewrite E2; apply Hadm..]]|].
  intros o st3 [[_ E3] (L3 & [] & ->)]. cbn [chain] in *. destruct E3 as [E3 _]. rewrite E2 in E3.
  wp_step. eapply wp_mono; [apply wp_conj; [apply wp_conj; [apply terminatePlannedVms_spec|
    apply terminatePlannedVms_seq]|by apply terminatePlannedVms_succeeds]|].
  intros o st4 [[[_ E4] Q4] (L4 & [] & ->)]. cbn [chain] in *. destruct E4 as [_ V4]. rewrite E3 in Q4, V4.
  wp_step. eapply wp_mono; [apply wp_conj; [apply wp_conj; [apply updateVmCapacities_spec|
    apply updateVmCapacities_seq]|apply updateVmCapacities_succeeds]|]; [done| |].
  { intros v s r Hs Hr. by destruct (cf_updated_terminated _ _ _ _ _ Hfits V4 v s r). }
  intros o st5 [[[_ E5] Q5] (L5 & [] & ->)]. cbn [chain] in *. destruct E5 as [_ V5]. rewrite Q4 in Q5.
  assert (Hdom : forall v, is_Some (db_vms (tx_db st5) !! v) <-> is_Some (db_vms db !! v)).
  { intros v. by rewrite V5, fmap_is_Some, V4, fmap_is_Some. }
  wp_step. eapply wp_mono; [apply wp_conj; [apply allocate_loop_spec, unordered_nodup|
    apply allocate_loop_succeeds]|].
  { done. }
  { intros v Hv. rewrite Q5. by apply (wf_seq_vms _ Hwf), Hdom. }
  { by rewrite Q5. }
  { apply Forall_forall. intros [d s] Hin. rewrite unordered_perm in Hin.
    apply elem_of_map_to_list in Hin. by destruct (cf_desired _ _ Hfits d s Hin) as (? & ? & _). }
  { by rewrite length_unordered, Q5. }
  intros o st6 [[_ E6] (L6 & slots & ->)]. cbn [chain] in *.
  wp_step. eapply wp_mono; [apply applyJobVmAssignments_succeeds; [done|]|].
  { intros i [v|d] Ht; cbn [resolve].
    - exists v. split; [done|]. apply Hex in Ht. apply Hdom in Ht as [r Hr].
      exists r. by apply (va_old _ _ _ _ _ _ E6).
    - destruct (Hdes _ _ Ht) as [s Hs]. destruct (va_new _ _ _ _ _ _ E6 d s) as (v & ? & _ & ?);
        [by rewrite unordered_perm, elem_of_map_to_list|]. eauto. }
  intros o st7 (L7 & [] & ->). cbn [chain].
  wp_step. eapply wp_mono; [by apply refreshPlanActivityTs_succeeds|].
  intros o st8 (L8 & [] & ->). cbn [chain].
  do 2 wp_step. apply wp_commit_quiet; [done..|]. cbn [chain caught]. apply wp_ret.
  split; [done|by eauto].
Qed.
End progress.
