(* ===== verification/TaskFacts.v ===== *)
(** * Adding a task and asking for it

    The rows [addTask] inserts and what [getJobStates] makes of them. *)

From S2P Require Import Prelude Std Slot State Db TxLogic Storage StorageFacts Lifecycle StorageRefines StorageSpec.

(** Parameters the database takes. *)
Record task_storable `{Postgres} (p : TaskParameters) (db : Db) : Prop := {
  ts_count : int4 (tp_jobCount p) = true;
  ts_req : slot_wf (tp_requiredCapacity p);
  ts_estimation : interval_ok (tp_estimation p) = true;
  ts_settings : is_Some (jsonb_in (tp_settings p));
  ts_options : Forall (fun o => is_Some (jsonb_in o)) (tp_jobOptions p);
  ts_some : tp_jobOptions p <> [];
  ts_seq_task : 0 <= seq_tasks db < 2 ^ 31;
  ts_seq_jobs : 0 <= seq_jobs db /\ seq_jobs db + Z.of_nat (length (tp_jobOptions p)) <= 2 ^ 31;
}.

Section tasks.
Context `{Postgres}.

(** The new rows: consecutive ids from the sequence, all of task [t], all queued. *)
Record jobs_inserted (now : Z) (t : TaskId) (p : TaskParameters) (n : nat) (ids : list Z) (db db' : Db) : Prop := {
  ji_length : length ids = n;
  ji_nodup : NoDup ids;
  ji_range : forall i, i ∈ ids -> seq_jobs db <= i;
  ji_rows : forall i, i ∈ ids -> exists o, db_jobs db' !! i = Some (new_job now t p o);
  ji_rest : forall i, i ∉ ids -> db_jobs db' !! i = db_jobs db !! i;
}.

Lemma insert_jobs_spec now t p options : forall db,
  below (db_jobs db) (seq_jobs db) -> 0 <= seq_jobs db ->
  seq_jobs db + Z.of_nat (length options) <= 2 ^ 31 ->
  Forall (fun o => is_Some (jsonb_in o)) options ->
  exists ids db', insert_jobs now t p options db = Some (ids, db')
    /\ jobs_inserted now t p (length options) ids db db'.
Proof.
  induction options as [|o options IH]; intros db Hb H0 Hlen Hall; cbn [insert_jobs].
  { exists [], db. split; [done|]. split; try done; try apply NoDup_nil_2; set_solver. }
  apply Forall_cons in Hall as [[o' Ho] Hall]. rewrite Ho. cbn [mbind option_bind]. cbn [length] in Hlen.
  assert (new_key (seq_jobs db) (db_jobs db) = true) as ->.
  { apply new_key_spec. split; [lia|]. apply eq_None_not_Some. intros Hs. apply Hb in Hs. lia. }
  match goal with |- context [insert_jobs now t p options ?d] => destruct (IH d) as (ids & db' & -> & Hi) end;
    cbn [db_jobs seq_jobs]; [by apply below_insert|lia|lia|done|].
  destruct Hi as [Hl Hnd Hr Hrows Hrest]. cbn [db_jobs seq_jobs] in *.
  assert (seq_jobs db ∉ ids) as Hnew by (intros Hin; specialize (Hr _ Hin); lia).
  eexists _, _. split; [done|]. split.
  - cbn. by rewrite Hl.
  - by apply NoDup_cons.
  - intros i [->|Hin]%elem_of_cons; [lia|]. specialize (Hr _ Hin). lia.
  - intros i [->|Hin]%elem_of_cons; [|by apply Hrows]. exists o'. rewrite Hrest by done.
    by rewrite lookup_insert_eq.
  - intros i Hi. apply not_elem_of_cons in Hi as [Hne Hi]. rewrite Hrest by done.
    by rewrite lookup_insert_ne.
Qed.

Lemma addTask_inserts p env db :
  quiet env -> db_wf db -> task_storable p db ->
  exists ids db', addTask p env db = Answer (Success (mkCreatedJobs (seq_tasks db) ids)) db'
    /\ jobs_inserted (env_now env) (seq_tasks db) p (length (tp_jobOptions p)) ids db db'.
Proof.
  intros Hq Hwf [Hc [Hr1 Hr2] He [set Hset] Ho Hne Hst [Hsj Hlen]]. rewrite addTask_quiet by done.
  unfold insert_task. rewrite Hset. cbn [mbind option_bind]. rewrite Hc.
  assert (new_key (seq_tasks db) (db_tasks db) = true) as ->.
  { apply new_key_spec. split; [lia|]. apply eq_None_not_Some. intros Hs. apply (wf_seq_tasks _ Hwf) in Hs. lia. }
  cbn [andb]. unfold insert_jobs_query. apply int4_spec in Hr1, Hr2. rewrite Hr1, Hr2, He.
  destruct (tp_jobOptions p) as [|o options] eqn:Hopts; [done|]. cbn [andb].
  match goal with |- context [insert_jobs ?n ?t p (o :: options) ?d] =>
    destruct (insert_jobs_spec n t p (o :: options) d) as (ids & db' & -> & Hi) end; try done.
  { apply Hwf. }
  eexists _, _. split; [done|]. destruct Hi as [? ? ? ? Hrest]. by split.
Qed.

Lemma all_equal_replicate {A} (x : A) (l : list A) : (forall y, y ∈ l -> y = x) -> l = replicate (length l) x.
Proof.
  induction l as [|y l IH]; intros Hall; [done|]. cbn. rewrite (Hall y) by left. f_equal.
  apply IH. intros z Hz. apply Hall. by right.
Qed.

(** The jobs of a task that was not there before. *)
Lemma inserted_states now t p n ids db db' :
  db_wf db -> db_tasks db !! t = None -> jobs_inserted now t p n ids db db' ->
  read_job_state <$> sql_rows (fun _ r => bool_decide (j_task_id r = t)) (db_jobs db')
  = replicate n (mkJobState Queued (Some EmptyString)).
Proof.
  intros Hwf Ht [Hl Hnd Hr Hrows Hrest].
  set (rows := sql_rows _ _).
  assert (Hrow : forall i r, (i, r) ∈ rows <-> i ∈ ids /\ db_jobs db' !! i = Some r).
  { intros i r. unfold rows. rewrite sql_rows_elem, bool_decide_eq_true. split.
    - intros [Hi Hj]. split; [|done]. destruct (decide (i ∈ ids)) as [?|Hn]; [done|exfalso].
      rewrite Hrest in Hi by done. pose proof (jr_task _ _ _ (wf_jobs _ Hwf _ _ Hi)) as Hs.
      rewrite Hj, Ht in Hs. by destruct Hs.
    - intros [Hin Hi]. split; [done|]. destruct (Hrows i Hin) as [o Ho]. rewrite Ho in Hi.
      by injection Hi as <-. }
  assert (Hperm : rows.*1 ≡ₚ ids).
  { apply NoDup_Permutation; [unfold rows, sql_rows; rewrite row_order_perm; apply NoDup_fst_map_to_list|done|].
    intros i. rewrite list_elem_of_fmap. split.
    - intros ([i' r] & -> & Hin). by apply Hrow in Hin as [].
    - intros Hin. destruct (Hrows i Hin) as [o Ho]. exists (i, new_job now t p o). by rewrite Hrow. }
  assert (length rows = n) as <- by (rewrite <- Hl, <- Hperm; by rewrite length_fmap).
  rewrite <- (length_fmap read_job_state). apply all_equal_replicate.
  intros y Hy. apply list_elem_of_fmap in Hy as ([i r] & -> & Hin). apply Hrow in Hin as [Hin Hi].
  destruct (Hrows i Hin) as [o Ho]. rewrite Ho in Hi. by injection Hi as <-.
Qed.
End tasks.
