(* ===== verification/ReportFacts.v ===== *)
(** * Reports and cancellations

    How the capacity of a VM moves when an agent reports on a job and when jobs are
    cancelled. *)

From S2P Require Import Prelude Std Slot State Db TxLogic Storage StorageFacts Lifecycle.
From S2P Require Import StorageRefines StorageSpec StorageProgress.

(** ** Releasing the capacity of one job *)

Lemma job_on_spec v j db r : job_on v j db = Some r <-> db_jobs db !! j = Some r /\ j_vm_id r = Some v.
Proof.
  unfold job_on. destruct (db_jobs db !! j) as [r'|]; cbn; [|split; [done|by intros [? _]]].
  case_decide as Hd; split; [by intros [= ->]|by intros [[= ->] _]|done|by intros [[= ->] ?]].
Qed.

Lemma jobs_of_single (jobs : gmap Z JobRow) j r v :
  jobs !! j = Some r -> j_vm_id r = Some v ->
  filter (fun ir => ir.1 ∈ [j] /\ j_vm_id ir.2 = Some v) jobs = {[ j := r ]}.
Proof.
  intros Hj Hv. apply map_eq. intros i. destruct (decide (i = j)) as [->|Hne].
  - rewrite lookup_singleton_eq. apply map_lookup_filter_Some. split; [done|]. split; [left|done].
  - rewrite lookup_singleton_ne by done. apply map_lookup_filter_None. right.
    intros r' _ [Hin _]. by apply list_elem_of_singleton in Hin.
Qed.

Lemma jobs_of_other (jobs : gmap Z JobRow) j r v w :
  jobs !! j = Some r -> j_vm_id r = Some v -> w <> v ->
  filter (fun ir => ir.1 ∈ [j] /\ j_vm_id ir.2 = Some w) jobs = ∅.
Proof.
  intros Hj Hv Hne. apply map_empty. intros i. apply map_lookup_filter_None. right.
  intros r' Hi [Hin Hw]. apply list_elem_of_singleton in Hin. cbn in *. subst i. congruence.
Qed.

(** The row of a VM a requirement was returned to. *)
Definition returned (q : SlotCapacity) (r : VmRow) : VmRow :=
  set_v_idle (Z.min (v_cpu_idle r + cpu q) (v_cpu r)) (Z.min (v_ram_idle r + ram q) (v_ram r)) r.

Lemma release_one now j db r v :
  db_jobs db !! j = Some r -> j_vm_id r = Some v ->
  (forall w, db_vms (release now [j] db) !! w
     = (fun x => if decide (w = v) then returned (job_req r) x else x) <$> db_vms db !! w)
  /\ db_jobs (release now [j] db) = db_jobs db.
Proof.
  intros Hj Hv. split; [|done]. intros w. unfold release. rewrite update_vms_lookup.
  destruct (db_vms db !! w) as [x|]; [|done]. cbn [fmap option_fmap option_map]. f_equal.
  unfold has_job_of, freed. destruct (decide (w = v)) as [->|Hne].
  - rewrite (jobs_of_single _ _ _ _ Hj Hv).
    rewrite bool_decide_eq_true_2 by apply map_non_empty_singleton.
    rewrite map_to_list_singleton, !sum_list_Z_one. by rewrite status_trigger_same.
  - rewrite (jobs_of_other _ _ _ _ _ Hj Hv Hne). by rewrite bool_decide_eq_false_2 by (intros Hn; by apply Hn).
Qed.

Section reports.
Context `{Postgres} (env : Env) (Hquiet : quiet env).

(** The first report of an end state, and any later one. *)
Lemma updateJobState_final v j s db r :
  job_on v j db = Some r -> job_final (js_status s) = true ->
  (j_status r = Cancelling -> js_status s = Cancelled) ->
  exists db', updateJobState v j s env db = Answer (Success tt) db'
    /\ (forall w, db_vms db' !! w
          = (fun x => if decide (w = v) then returned (job_req r) x else x) <$> db_vms db !! w)
    /\ (forall i, db_jobs db' !! i = (fun x => if decide (i = j) then
            if job_final (j_status r) then r else report_row (env_now env) s r else x) <$> db_jobs db !! i).
Proof.
  intros Hon Hfin Hcan. pose proof Hon as [Hj Hv]%job_on_spec.
  unfold updateJobState. rewrite updateJobState_quiet by done. rewrite Hon, Hfin.
  assert (bool_decide (j_status r = Cancelling) && negb (bool_decide (js_status s = Cancelled)) = false) as ->.
  { destruct (decide (j_status r = Cancelling)) as [Hc|Hc].
    - rewrite (bool_decide_eq_true_2 _ (Hcan Hc)). apply andb_false_r.
    - by rewrite bool_decide_eq_false_2. }
  set (db1 := update_jobs _ _ db). eexists. split; [done|].
  assert (Hjobs : forall i, db_jobs db1 !! i = (fun x => if decide (i = j) then
            if job_final (j_status r) then r else report_row (env_now env) s r else x) <$> db_jobs db !! i).
  { intros i. unfold db1. rewrite update_jobs_lookup. destruct (decide (i = j)) as [->|Hne].
    - rewrite Hj. cbn. rewrite Hv, !bool_decide_eq_true_2 by done. cbn. by destruct (job_final (j_status r)).
    - destruct (db_jobs db !! i); [|done]. cbn. by rewrite (bool_decide_eq_false_2 (i = j)), andb_false_r by done. }
  pose proof (Hjobs j) as Hj1. rewrite Hj in Hj1. cbn [fmap option_fmap option_map] in Hj1. rewrite decide_True in Hj1 by done.
  set (r1 := if job_final (j_status r) then r else report_row (env_now env) s r) in *.
  assert (j_vm_id r1 = Some v /\ job_req r1 = job_req r) as [Hv1 Hq1].
  { unfold r1. destruct (job_final (j_status r)); [done|]. unfold report_row. by rewrite Hfin. }
  destruct (release_one (env_now env) j db1 r1 v Hj1 Hv1) as [HV HJ]. rewrite <- Hq1.
  split; [exact HV|]. intros i. rewrite HJ. apply Hjobs.
Qed.
End reports.
