(* ===== verification/Interfaces.v ===== *)
(** * The interfaces of the processes

    The scheduler, the allocator and the failure detector hold a [TaskStorage*] and,
    the allocator, a [CloudClient]: abstract classes (src/libs/task_storage/include/task_storage.h,
    src/libs/allocator/include/cloud_client.h).  The calls of these classes are data
    here, and the processes are programs that make such calls; an implementation of
    the classes gives the calls their answers.  [PgTaskStorage] is one implementation;
    [Scripted] has one for examples. *)

From S2P Require Import Prelude Std Slot State Db Storage Lifecycle StorageRefines.

(** ** Calls and their answers *)

(** The methods of [CloudClient]. *)
Inductive CloudCall : Type :=
  | CloudAllocate (vmId : VmId) (slot : SlotCapacity)
  | CloudTerminate (cloudVmId : string)
  | CloudGetAllAllocatedVms
  | CloudGetPossibleSlots.

(** The value a method of [TaskStorage] returns when it succeeds. *)
Definition op_value (op : StorageOp) : Type :=
  match op with
  | OpAddTask _ => CreatedJobs
  | OpStartScheduling _ _ _ => PlanId
  | OpGetCurrentState => State
  | OpGetVmsToAllocate _ => list AllocationPendingVmInfo
  | OpGetVmsToTerminate _ => list TerminationPendingVmInfo
  | OpGetJobStates _ => list JobState
  | OpGetAssignedJobs _ => list AssignedJob
  | OpGetJobToLaunch _ _ => JobToLaunch
  | OpGetAllocatedVms => list AllocatedVmInfo
  | _ => unit
  end.

Definition cloud_answer (c : CloudCall) : Type :=
  match c with
  | CloudAllocate _ _ => Result AllocatedVmInfo
  | CloudTerminate _ => Result unit
  | CloudGetAllAllocatedVms => Result (list AllocatedVmInfo)
  | CloudGetPossibleSlots => list SlotCapacity
  end.

Inductive Request : Type := OnStorage (op : StorageOp) | OnCloud (c : CloudCall).

Definition answer (r : Request) : Type :=
  match r with
  | OnStorage op => Result (op_value op)
  | OnCloud c => cloud_answer c
  end.

(** ** Programs *)

Inductive Prog (A : Type) : Type :=
  | Done (a : A)
  | Ask (r : Request) (k : answer r -> Prog A).
Arguments Done {A} _.
Arguments Ask {A} _ _.

Fixpoint prog_then {A B} (f : A -> Prog B) (m : Prog A) : Prog B :=
  match m with
  | Done a => f a
  | Ask r k => Ask r (fun x => prog_then f (k x))
  end.

#[export] Instance prog_ret : MRet Prog := fun A a => Done a.
#[export] Instance prog_bind : MBind Prog := fun A B f m => prog_then f m.

(** [taskStorage_->op(...)] and [cloudClient_->c(...)]. *)
Definition on_storage (op : StorageOp) : Prog (Result (op_value op)) := Ask (OnStorage op) Done.
Definition on_cloud (c : CloudCall) : Prog (cloud_answer c) := Ask (OnCloud c) Done.

(** ** Implementations *)

(** An implementation has a state.  A storage call that does not come back, [None],
    ends the process. *)
Class TaskStorage (S : Type) : Type := storage_serve (op : StorageOp) : S -> option (Result (op_value op)) * S.
Class Cloud (S : Type) : Type := cloud_serve (c : CloudCall) : S -> cloud_answer c * S.

Record Event : Type := mkEvent { ev_request : Request; ev_answer : answer ev_request }.

Section implementation.
Context {S : Type} `{!TaskStorage S} `{!Cloud S}.

Definition serve (r : Request) : S -> option (answer r) * S :=
  match r with
  | OnStorage op => storage_serve op
  | OnCloud c => fun s => let '(a, s') := cloud_serve c s in (Some a, s')
  end.

Fixpoint run {A} (m : Prog A) (s : S) : option A * S :=
  match m with
  | Done a => (Some a, s)
  | Ask r k =>
    match serve r s with
    | (Some x, s') => run (k x) s'
    | (None, s') => (None, s')
    end
  end.

(** The calls that were answered, in order. *)
Fixpoint trace {A} (m : Prog A) (s : S) : list Event :=
  match m with
  | Done _ => []
  | Ask r k =>
    match serve r s with
    | (Some x, s') => mkEvent r x :: trace (k x) s'
    | (None, _) => []
    end
  end.

Lemma run_bind {A B} (m : Prog A) (f : A -> Prog B) s :
  run (m ≫= f) s = match run m s with
                   | (Some a, s') => run (f a) s'
                   | (None, s') => (None, s')
                   end.
Proof.
  unfold mbind, prog_bind. revert s. induction m as [a|r k IH]; intros s; [done|].
  cbn. destruct (serve r s) as [[x|] s']; [apply IH|done].
Qed.

Lemma trace_bind {A B} (m : Prog A) (f : A -> Prog B) s :
  trace (m ≫= f) s = trace m s ++ match run m s with
                                  | (Some a, s') => trace (f a) s'
                                  | (None, _) => []
                                  end.
Proof.
  unfold mbind, prog_bind. revert s. induction m as [a|r k IH]; intros s; [done|].
  cbn. destruct (serve r s) as [[x|] s']; [|done]. by rewrite IH.
Qed.
End implementation.

(** ** What a program may ask *)

Inductive asks_only (P : Request -> Prop) {A} : Prog A -> Prop :=
  | asks_done a : asks_only P (Done a)
  | asks_ask r k : P r -> (forall x, asks_only P (k x)) -> asks_only P (Ask r k).

Section asks.
Context (P : Request -> Prop).

Lemma asks_ret {A} (a : A) : asks_only P (mret a : Prog A).
Proof. constructor. Qed.

Lemma asks_bind {A B} (m : Prog A) (f : A -> Prog B) :
  asks_only P m -> (forall a, asks_only P (f a)) -> asks_only P (m ≫= f).
Proof. intros Hm Hf. unfold mbind, prog_bind. induction Hm; cbn; [done|]. by constructor. Qed.

Lemma asks_storage op : P (OnStorage op) -> asks_only P (on_storage op).
Proof. intros HP. constructor; [done|]. intros x. constructor. Qed.

Lemma asks_cloud c : P (OnCloud c) -> asks_only P (on_cloud c).
Proof. intros HP. constructor; [done|]. intros x. constructor. Qed.
End asks.

(** A trace holds nothing but what the program may ask. *)
Lemma asks_trace {S} `{!TaskStorage S} `{!Cloud S} {A} (P : Request -> Prop) (m : Prog A) (s : S) :
  asks_only P m -> Forall (fun e => P (ev_request e)) (trace m s).
Proof.
  intros Hm. revert s. induction Hm as [a|r k HP _ IH]; intros s; cbn; [constructor|].
  destruct (serve r s) as [[x|] s']; by constructor.
Qed.
