(* ===== verification/Process.v ===== *)
(** * Processes on the database and the cloud

    [PgTaskStorage] behind the interface [TaskStorage], and a cloud behind
    [CloudClient]: the world a process runs in holds the database and the cloud;
    before each of its storage calls the other processes have had their turn. *)

From S2P Require Import Prelude Std Slot State Db Storage Lifecycle StorageRefines Interfaces.

(** [CloudClient] (src/libs/allocator/include/cloud_client.h): the cloud is code
    outside of this program; its state is abstract. *)
Class CloudClient (W : Type) : Type := {
  cloud_allocate : VmId -> SlotCapacity -> W -> Result AllocatedVmInfo * W;
  cloud_terminate : string -> W -> Result unit * W;
  cloud_getAllAllocatedVms : W -> Result (list AllocatedVmInfo) * W;
  cloud_getPossibleSlots : list SlotCapacity;
}.

Record World (W : Type) : Type := mkWorld { w_db : Db; w_cloud : W; w_calls : nat }.
Arguments mkWorld {W} _ _ _.
Arguments w_db {W} _.
Arguments w_cloud {W} _.
Arguments w_calls {W} _.

(** What a process does to the world; [None] is the end of the process. *)
Definition Proc (W A : Type) : Type := World W -> option A * World W.

(** The environments of a process's storage calls and what happens before each. *)
Record Schedule : Type := mkSchedule { envs : nat -> Env; others : nat -> Db -> Db }.

(** [PgTaskStorage]: the method for each call. *)
Definition op_call `{StdLib} `{Postgres} (op : StorageOp) (env env2 : Env) (db : Db) : Call (op_value op) :=
  match op with
  | OpAddTask p => addTask p env db
  | OpStartScheduling b i l => startScheduling b i l env db
  | OpGetCurrentState => getCurrentState env db
  | OpCommitPlanChange c p => commitPlanChange c p env db
  | OpGetVmsToAllocate n => getVmsToAllocate n env db
  | OpGetVmsToTerminate n => getVmsToTerminate n env db
  | OpReturnUnterminatedVms l => returnUnterminatedVms l env db
  | OpSaveVmTerminationResult v => saveVmTerminationResult v env db
  | OpSaveVmAllocationResult v i => saveVmAllocationResult v i env db
  | OpCancelTask t => cancelTask t env db
  | OpCancelTimedOutJobs => cancelTimedOutJobs env db
  | OpGetJobStates t => getJobStates t env db
  | OpRestartStaleAllocatingVms l n => restartStaleAllocatingVms l n env db
  | OpTerminateStaleAllocatingVms l n m => terminateStaleAllocatingVms l n m env db
  | OpRollbackUnallocatedVmsState l n m => rollbackUnallocatedVmsState l n m env env2 db
  | OpTerminateVmsWithInactiveAgents l n => terminateVmsWithInactiveAgents l n env db
  | OpTerminateVmsWithoutAgents l n => terminateVmsWithoutAgents l n env db
  | OpGetAssignedJobs v => getAssignedJobs v env db
  | OpGetJobToLaunch v j => getJobToLaunch v j env db
  | OpUpdateJobState v j s => updateJobState v j s env db
  | OpGetAllocatedVms => getAllocatedVms env db
  end.

(** [rollbackUnallocatedVmsState] is two transactions. *)
Definition op_transactions (op : StorageOp) : nat :=
  match op with OpRollbackUnallocatedVmsState _ _ _ => 2 | _ => 1 end.

Section process.
Context `{StdLib} `{Postgres} {W : Type} `{CloudClient W} (sch : Schedule).

Definition finish {A} (c : Call A) (w : World W) (n : nat) : option (Result A) * World W :=
  match c with
  | Answer r db => (Some r, mkWorld db (w_cloud w) n)
  | Crash db => (None, mkWorld db (w_cloud w) n)
  end.

Definition pg_storage : TaskStorage (World W) := fun op w =>
  let n := w_calls w in
  finish (op_call op (envs sch n) (envs sch (S n)) (others sch n (w_db w))) w (op_transactions op + n).

Definition call_cloud (c : CloudCall) : W -> cloud_answer c * W :=
  match c with
  | CloudAllocate v s => cloud_allocate v s
  | CloudTerminate i => cloud_terminate i
  | CloudGetAllAllocatedVms => cloud_getAllAllocatedVms
  | CloudGetPossibleSlots => fun w => (cloud_getPossibleSlots, w)
  end.

Definition world_cloud : Cloud (World W) := fun c w =>
  let '(a, cl) := call_cloud c (w_cloud w) in (a, mkWorld (w_db w) cl (w_calls w)).

Definition process {A} (m : Prog A) : Proc W A :=
  run (TaskStorage0 := pg_storage) (Cloud0 := world_cloud) m.

(** The calls of the process that were answered, with their answers. *)
Definition process_trace {A} (m : Prog A) : World W -> list Event :=
  trace (TaskStorage0 := pg_storage) (Cloud0 := world_cloud) m.

Lemma process_trace_storage {A} op (f : Result (op_value op) -> Prog A) w :
  process_trace (on_storage op ≫= f) w
  = match op_call op (envs sch (w_calls w)) (envs sch (S (w_calls w))) (others sch (w_calls w) (w_db w)) with
    | Answer r db => mkEvent (OnStorage op) r :: process_trace (f r) (mkWorld db (w_cloud w) (op_transactions op + w_calls w))
    | Crash db => []
    end.
Proof. unfold process_trace. cbn. unfold storage_serve, pg_storage. by destruct (op_call op _ _ _). Qed.

Lemma process_trace_cloud {A} c (f : cloud_answer c -> Prog A) w :
  process_trace (on_cloud c ≫= f) w
  = let '(a, cl) := call_cloud c (w_cloud w) in
    mkEvent (OnCloud c) a :: process_trace (f a) (mkWorld (w_db w) cl (w_calls w)).
Proof. unfold process_trace. cbn. unfold cloud_serve, world_cloud. by destruct (call_cloud c _). Qed.

(** Running a program call by call. *)
Lemma process_bind {A B} (m : Prog A) (f : A -> Prog B) w :
  process (m ≫= f) w = match process m w with
                       | (Some a, w') => process (f a) w'
                       | (None, w') => (None, w')
                       end.
Proof. apply run_bind. Qed.

Lemma process_storage {A} op (f : Result (op_value op) -> Prog A) w :
  process (on_storage op ≫= f) w
  = match op_call op (envs sch (w_calls w)) (envs sch (S (w_calls w))) (others sch (w_calls w) (w_db w)) with
    | Answer r db => process (f r) (mkWorld db (w_cloud w) (op_transactions op + w_calls w))
    | Crash db => (None, mkWorld db (w_cloud w) (op_transactions op + w_calls w))
    end.
Proof. unfold process. cbn. unfold storage_serve, pg_storage. by destruct (op_call op _ _ _). Qed.

Lemma process_cloud {A} c (f : cloud_answer c -> Prog A) w :
  process (on_cloud c ≫= f) w
  = let '(a, cl) := call_cloud c (w_cloud w) in process (f a) (mkWorld (w_db w) cl (w_calls w)).
Proof. unfold process. cbn. unfold cloud_serve, world_cloud. by destruct (call_cloud c _). Qed.
End process.

(** The next call of the process in the goal, or in a hypothesis. *)
Ltac process_step :=
  match goal with
  | |- context [@process ?L ?P ?W ?C ?s ?A (@mbind ?M ?i ?X ?Y ?f (on_storage ?op)) ?w] =>
    rewrite (process_storage s op f w : @process L P W C s A (@mbind M i X Y f (on_storage op)) w = _)
  | |- context [@process ?L ?P ?W ?C ?s ?A (@mbind ?M ?i ?X ?Y ?f (on_cloud ?c)) ?w] =>
    rewrite (process_cloud s c f w : @process L P W C s A (@mbind M i X Y f (on_cloud c)) w = _)
  | |- context [@process ?L ?P ?W ?C ?s ?A (@mbind ?M ?i ?X ?Y ?f ?m) ?w] =>
    rewrite (process_bind s m f w : @process L P W C s A (@mbind M i X Y f m) w = _)
  end; cbn [op_call op_transactions call_cloud Nat.add w_db w_cloud w_calls].
Ltac trace_step :=
  match goal with
  | |- context [@process_trace ?L ?P ?W ?C ?s ?A (@mbind ?M ?i ?X ?Y ?f (on_storage ?op)) ?w] =>
    rewrite (process_trace_storage s op f w : @process_trace L P W C s A (@mbind M i X Y f (on_storage op)) w = _)
  | |- context [@process_trace ?L ?P ?W ?C ?s ?A (@mbind ?M ?i ?X ?Y ?f (on_cloud ?c)) ?w] =>
    rewrite (process_trace_cloud s c f w : @process_trace L P W C s A (@mbind M i X Y f (on_cloud c)) w = _)
  end; cbn [op_call op_transactions call_cloud Nat.add w_db w_cloud w_calls].
Ltac process_step_in H :=
  match type of H with
  | context [@process ?L ?P ?W ?C ?s ?A (@mbind ?M ?i ?X ?Y ?f (on_storage ?op)) ?w] =>
    rewrite (process_storage s op f w : @process L P W C s A (@mbind M i X Y f (on_storage op)) w = _) in H
  | context [@process ?L ?P ?W ?C ?s ?A (@mbind ?M ?i ?X ?Y ?f (on_cloud ?c)) ?w] =>
    rewrite (process_cloud s c f w : @process L P W C s A (@mbind M i X Y f (on_cloud c)) w = _) in H
  | context [@process ?L ?P ?W ?C ?s ?A (@mbind ?M ?i ?X ?Y ?f ?m) ?w] =>
    rewrite (process_bind s m f w : @process L P W C s A (@mbind M i X Y f m) w = _) in H
  end; cbn [op_call op_transactions call_cloud Nat.add w_db w_cloud w_calls] in H.

(** ** Processes only step *)

Lemma op_call_db `{StdLib} `{Postgres} op env env2 db : call_db (op_call op env env2 db) = op_db op env env2 db.
Proof. by destruct op. Qed.

(** Calls that need nothing of the database. *)
Definition unconditional (r : Request) : Prop :=
  match r with OnStorage op => forall db, op_admissible op db | OnCloud _ => True end.

Section stepping.
Context `{StdLib} `{Postgres} {W : Type} `{CloudClient W} (sch : Schedule).
Context (Hothers : forall n d, db_wf d -> rtc step d (others sch n d)).

(** Whatever a process does, the database moves by storage calls. *)
Definition steps_only {A} (p : Proc W A) : Prop :=
  forall w, db_wf (w_db w) -> rtc step (w_db w) (w_db (p w).2).

Lemma serve_steps r w : unconditional r -> db_wf (w_db w) ->
  rtc step (w_db w) (w_db (serve (TaskStorage0 := pg_storage sch) (Cloud0 := world_cloud) r w).2).
Proof.
  intros Hr Hw. destruct r as [op|c]; cbn.
  - unfold storage_serve, pg_storage. set (d := others sch (w_calls w) (w_db w)).
    etrans; [by apply (Hothers (w_calls w))|]. fold d. apply rtc_once.
    pose proof (step_call op (envs sch (w_calls w)) (envs sch (S (w_calls w))) d (Hr d)) as Hs.
    rewrite <- op_call_db in Hs. by destruct (op_call op _ _ d).
  - unfold cloud_serve, world_cloud. destruct (call_cloud c (w_cloud w)). apply rtc_refl.
Qed.

Lemma process_steps {A} (m : Prog A) : asks_only unconditional m -> steps_only (process sch m).
Proof.
  unfold process. intros Hm w Hw. revert w Hw. induction Hm as [a|r k Hr _ IH]; intros w Hw; cbn; [apply rtc_refl|].
  pose proof (serve_steps r w Hr Hw) as Hs. destruct (serve r w) as [[x|] w']; cbn in *; [|done].
  etrans; [exact Hs|]. apply IH. eapply changes_wf; [by apply steps_refine|done].
Qed.
End stepping.
