(* ===== verification/Scheduler.v ===== *)
(** * The scheduler (src/libs/scheduler/impl/scheduler.cpp)

    One iteration: take a plan id, read the state, compute a plan, commit it.  The
    three storage calls are separate transactions; in an [iteration] on the database,
    what other processes do in between is given as two functions on it. *)

From S2P Require Import Prelude Std Slot State OrderedJobs JobAllocator SlotSelector Assigner Db Storage.
From S2P Require Import Lifecycle StorageRefines Interfaces Process.

Record SchedulerConfig : Type := mkSchedulerConfig {
  schedulingInterval : Z;
  vmAssignerType : VmAssignerType;
  complexVmAssignerConfig : option ComplexVmAssignerConfig;
}.

(** [std::is_sorted] with the default comparison. *)
Fixpoint is_sorted (l : list SlotCapacity) : bool :=
  match l with
  | [] => true
  | x :: l' =>
    match l' with
    | [] => true
    | y :: _ => negb (slot_lt y x) && is_sorted l'
    end
  end.

(** The checks of the constructor; it throws when they fail. *)
Definition Scheduler_accepts (possibleSlots : list SlotCapacity) : bool :=
  negb (bool_decide (possibleSlots = [])) && is_sorted possibleSlots.

(** How an iteration ends. *)
Inductive Iteration : Type :=
  | NotLeader
  | NotStarted (e : Exn)
  | NoState (e : Exn)
  | NotCommitted (p : PlanId) (e : Exn)
  | Committed (p : PlanId)
  | Died
  | NoPlan.

Section scheduler.
Context `{StdLib} `{Postgres}.

(** [distLock]: no distributed lock, or the lock number it currently holds, if any. *)
Definition lock_number (distLock : option (option Z)) : option (option Z) :=
  match distLock with
  | None => Some None
  | Some None => None
  | Some (Some n) => Some (Some n)
  end.

(** [Scheduler::schedule], on any storage. *)
Definition schedule (id : string) (config : SchedulerConfig) (possibleSlots : list SlotCapacity)
    (distLock : option (option Z)) : Prog Iteration :=
  match lock_number distLock with
  | None => mret NotLeader
  | Some lockNumber =>
    planIdResult ← on_storage (OpStartScheduling id (schedulingInterval config) lockNumber);
    match planIdResult with
    | Failure e => mret (NotStarted e)
    | Success planId =>
      currentStateResult ← on_storage OpGetCurrentState;
      match currentStateResult with
      | Failure e => mret (NoState e)
      | Success state =>
        match createVmAssigner_assign (vmAssignerType config) state
                (complexVmAssignerConfig config) possibleSlots with
        | Undefined | NoFuel => mret NoPlan
        | Ret stateChange =>
          commitResult ← on_storage (OpCommitPlanChange stateChange planId);
          match commitResult with
          | Failure e => mret (NotCommitted planId e)
          | Success _ => mret (Committed planId)
          end
        end
      end
    end
  end.

(** ** An iteration on the database *)

(** The scheduler has no cloud. *)
Definition no_cloud : CloudClient unit := {|
  cloud_allocate _ _ w := (Failure AllocationException, w);
  cloud_terminate _ w := (Success tt, w);
  cloud_getAllAllocatedVms w := (Success [], w);
  cloud_getPossibleSlots := [];
|}.

(** Its three calls, and what other processes do in between. *)
Definition three_calls (env1 env2 env3 : Env) (others1 others2 : Db -> Db) : Schedule :=
  mkSchedule (fun n => match n with 0%nat => env1 | 1%nat => env2 | _ => env3 end)
             (fun n => match n with 0%nat => fun d => d | 1%nat => others1 | _ => others2 end).

Definition iteration (id : string) (config : SchedulerConfig) (possibleSlots : list SlotCapacity)
    (distLock : option (option Z)) (env1 env2 env3 : Env) (others1 others2 : Db -> Db) (db : Db)
  : Iteration * Db :=
  match process (H1 := no_cloud) (three_calls env1 env2 env3 others1 others2)
          (schedule id config possibleSlots distLock) (mkWorld db tt 0) with
  | (Some it, w) => (it, w_db w)
  | (None, w) => (Died, w_db w)
  end.

Lemma iteration_eq id config possibleSlots distLock env1 env2 env3 others1 others2 db :
  iteration id config possibleSlots distLock env1 env2 env3 others1 others2 db =
  match lock_number distLock with
  | None => (NotLeader, db)
  | Some lockNumber =>
    match startScheduling id (schedulingInterval config) lockNumber env1 db with
    | Crash db1 => (Died, db1)
    | Answer (Failure e) db1 => (NotStarted e, db1)
    | Answer (Success planId) db1 =>
      match getCurrentState env2 (others1 db1) with
      | Crash db2 => (Died, db2)
      | Answer (Failure e) db2 => (NoState e, db2)
      | Answer (Success state) db2 =>
        match createVmAssigner_assign (vmAssignerType config) state
                (complexVmAssignerConfig config) possibleSlots with
        | Undefined | NoFuel => (NoPlan, db2)
        | Ret stateChange =>
          match commitPlanChange stateChange planId env3 (others2 db2) with
          | Crash db3 => (Died, db3)
          | Answer (Failure e) db3 => (NotCommitted planId e, db3)
          | Answer (Success _) db3 => (Committed planId, db3)
          end
        end
      end
    end
  end.
Proof.
  unfold iteration, schedule. destruct (lock_number distLock) as [ln|]; [|done].
  process_step. cbn [envs others three_calls]. destruct (startScheduling _ _ _ _ _) as [[p|e] db1|db1]; [|done..].
  process_step. cbn [envs others three_calls]. destruct (getCurrentState _ _) as [[st|e] db2|db2]; [|done..].
  destruct (createVmAssigner_assign _ _ _ _) as [c| |]; [|done..].
  process_step. cbn [envs others three_calls]. by destruct (commitPlanChange _ _ _ _) as [[[]|e] db3|db3].
Qed.
End scheduler.
