(* ===== verification/SchedulerFacts.v ===== *)
(** * What a scheduling iteration achieves

    The snapshot the plan is computed from, that the plan stays admissible
    whatever happens before it is committed, and the effect of an undisturbed
    iteration on the queued jobs. *)

From S2P Require Import Prelude Std Slot State OrderedJobs JobAllocator AllocatorContract.
From S2P Require Import SlotSelector SelectorFacts Assigner AssignerFacts PlanFacts.
From S2P Require Import Db TxLogic Storage StorageFacts Lifecycle StorageRefines StorageProgress Scheduler.

(** ** Snapshots *)

Record snapshot (db : Db) (st : State) : Prop := {
  snap_jobs : forall j, j ∈ queuedJobs st <-> exists r, db_jobs db !! job_id j = Some r
    /\ j_status r = Queued /\ requiredCapacity j = job_req r;
  snap_vms : forall vm, vm ∈ vms st <-> exists r, db_vms db !! vm_id vm = Some r
    /\ vm_active r = true /\ totalCapacity vm = vm_total r /\ idleCapacity vm = vm_idle r;
  snap_jobs_nodup : NoDup (job_id <$> queuedJobs st);
  snap_vms_nodup : NoDup (vm_id <$> vms st);
}.

Section reading.
Context `{Postgres}.

Lemma sql_rows_nodup {R} (w : Z -> R -> bool) (t : gmap Z R) : NoDup (sql_rows w t).*1.
Proof. unfold sql_rows. rewrite row_order_perm. apply NoDup_fst_map_to_list. Qed.

(** Reading rows one by one into structs that carry the key. *)
Lemma read_rows {R S} (read : Z * R -> option S) (key : S -> Z) (w : Z -> R -> bool) (t : gmap Z R) l :
  (forall i r s, read (i, r) = Some s -> key s = i) ->
  mapM read (sql_rows w t) = Some l ->
  (forall s, s ∈ l <-> exists r, t !! key s = Some r /\ w (key s) r = true /\ read (key s, r) = Some s)
  /\ NoDup (key <$> l).
Proof.
  intros Hkey Hl. apply mapM_Some in Hl.
  assert (Hel : forall s, s ∈ l <-> exists ir, ir ∈ sql_rows w t /\ read ir = Some s).
  { intros s. rewrite list_elem_of_lookup. setoid_rewrite list_elem_of_lookup. split.
    - intros [k Hk]. destruct (Forall2_lookup_r _ _ _ _ _ Hl Hk) as (ir & ? & ?). eauto.
    - intros (ir & [k Hk] & Hs). destruct (Forall2_lookup_l _ _ _ _ _ Hl Hk) as (s' & ? & ?).
      exists k. congruence. }
  split.
  - intros s. rewrite Hel. split.
    + intros ([i r] & Hin & Hs). pose proof (Hkey _ _ _ Hs) as <-.
      apply sql_rows_elem in Hin as [? ?]. eauto.
    + intros (r & Ht & Hw & Hs). exists (key s, r). by rewrite sql_rows_elem.
  - assert (key <$> l = (sql_rows w t).*1) as ->; [|apply sql_rows_nodup].
    clear Hel. induction Hl as [|[i r] s rows l Hs _ IH]; [done|]. cbn. by rewrite IH, (Hkey _ _ _ Hs).
Qed.

Lemma read_job_spec i r j :
  read_job (i, r) = Some j <-> 0 <= j_cpu r /\ 0 <= j_ram r /\ j = mkJob i (job_req r).
Proof.
  unfold read_job, as_size_t. cbn.
  destruct (Z.leb_spec 0 (j_cpu r)); cbn; [|split; [done|lia]].
  destruct (Z.leb_spec 0 (j_ram r)); cbn; [|split; [done|lia]].
  split; [intros [= <-]; auto|]. by intros (_ & _ & ->).
Qed.

Lemma read_vm_spec i r v :
  read_vm (i, r) = Some v <-> (0 <= v_cpu r /\ 0 <= v_ram r /\ 0 <= v_cpu_idle r /\ 0 <= v_ram_idle r)
    /\ v = mkVm i (vm_total r) (vm_idle r).
Proof.
  unfold read_vm, as_size_t. cbn.
  destruct (Z.leb_spec 0 (v_cpu r)); cbn; [|split; [done|lia]].
  destruct (Z.leb_spec 0 (v_ram r)); cbn; [|split; [done|lia]].
  destruct (Z.leb_spec 0 (v_cpu_idle r)); cbn; [|split; [done|lia]].
  destruct (Z.leb_spec 0 (v_ram_idle r)); cbn; [|split; [done|lia]].
  split; [intros [= <-]; auto|]. by intros (_ & ->).
Qed.

Lemma snapshot_from_reads db jobs vms :
  db_wf db ->
  mapM read_job (sql_rows (fun _ r => bool_decide (j_status r = Queued)) (db_jobs db)) = Some jobs ->
  mapM read_vm (sql_rows (fun _ r => vm_active r) (db_vms db)) = Some vms ->
  snapshot db (mkState jobs vms).
Proof.
  intros Hwf Hj Hv.
  apply (read_rows _ job_id) in Hj as [Hj Hjn]; [|by intros ??? (_ & _ & ->)%read_job_spec].
  apply (read_rows _ vm_id) in Hv as [Hv Hvn]; [|by intros ??? (_ & ->)%read_vm_spec].
  split; cbn; [| |done|done].
  - intros j. rewrite Hj. split; intros (r & Hr & Hs & He); exists r; split; try done.
    + apply bool_decide_eq_true in Hs. apply read_job_spec in He as (_ & _ & He). by rewrite He.
    + rewrite bool_decide_eq_true. split; [done|]. apply read_job_spec.
      destruct (jr_req _ _ _ (wf_jobs _ Hwf _ _ Hr)) as [[? _] [? _]].
      split; [done|]. split; [done|]. rewrite <- He. by destruct j.
  - intros v. rewrite Hv. split; intros (r & Hr & Hs & He); exists r; split; try done; (split; [done|]).
    + apply read_vm_spec in He as (_ & He). by rewrite He.
    + apply read_vm_spec. destruct (wf_vms _ Hwf _ _ Hr) as [[[? _] [? _]] [[? _] [? _]] _ _ _].
      split; [done|]. destruct He as [<- <-]. by destruct v.
Qed.

(** The two reads. *)
Definition read_post {A B} (rows : Db -> option A) (st : TxState) (Q : A -> B -> Prop)
    (o : TxOut (Result B)) (st' : TxState) : Prop :=
  tx_committed st' = tx_committed st /\ tx_db st' = tx_db st /\
  match o with
  | TxVal (Success b) => exists a, rows (tx_db st) = Some a /\ Q a b
  | TxVal (Failure _) => True
  | _ => False
  end.

Lemma getQueuedJobs_spec env st :
  wp env getQueuedJobs_ (read_post (fun db => mapM read_job
    (sql_rows (fun _ r => bool_decide (j_status r = Queued)) (db_jobs db))) st eq) st.
Proof.
  unfold getQueuedJobs_, read_post. do 3 wp_step; cbn [chain caught]; [done|].
  wp_step. wp_step; cbn [chain caught]; [|done]. apply wp_ret. cbn. eauto.
Qed.

Lemma getActiveVms_spec env st :
  wp env getActiveVms_ (read_post (fun db => mapM read_vm
    (sql_rows (fun _ r => vm_active r) (db_vms db))) st eq) st.
Proof.
  unfold getActiveVms_, read_post. do 3 wp_step; cbn [chain caught]; [done|].
  wp_step. wp_step; cbn [chain caught]; [|done]. apply wp_ret. cbn. eauto.
Qed.

Lemma readOnlyTransaction_spec env st :
  wp env readOnlyTransaction_ (read_post Some st (fun _ _ => True)) st.
Proof.
  unfold readOnlyTransaction_, read_post. do 4 wp_step; cbn [chain caught]; [done|].
  match goal with K : Some _ = Some _ |- _ => injection K as _ <- end. apply wp_ret. cbn. eauto.
Qed.

(** Reading changes nothing; a success is a snapshot. *)
Lemma getCurrentState_wp env db :
  db_wf db ->
  wp env getCurrentState_txn (read_post (fun db => Some db) (tx_start db) snapshot) (tx_start db).
Proof.
  intros Hwf. unfold getCurrentState_txn.
  wp_step. eapply wp_mono; [apply readOnlyTransaction_spec|].
  intros [[[]|e]|e|] st1 (C1 & D1 & O1); cbn [chain]; [|by apply wp_ret|done..].
  wp_step. eapply wp_mono; [apply getQueuedJobs_spec|].
  intros [[jobs|e]|e|] st2 (C2 & D2 & O2); cbn [chain];
    [|apply wp_ret; split; [congruence|split; [congruence|done]]|done..].
  wp_step. eapply wp_mono; [apply getActiveVms_spec|].
  intros [[vms|e]|e|] st3 (C3 & D3 & O3); cbn [chain];
    [|apply wp_ret; split; [congruence|split; [congruence|done]]|done..].
  apply wp_ret. split; [congruence|]. split; [congruence|]. exists db. split; [done|].
  destruct O2 as (? & Hj & <-), O3 as (? & Hv & <-). rewrite D2, D1 in Hv. rewrite D1 in Hj.
  by apply snapshot_from_reads.
Qed.

Lemma getCurrentState_spec env db :
  db_wf db ->
  exists r, getCurrentState env db = Answer r (rollback db db)
    /\ forall st, r = Success st -> snapshot db st.
Proof.
  intros Hwf. unfold getCurrentState. apply run_call_wp. eapply wp_mono; [by apply getCurrentState_wp|].
  intros [[st|e]|e|] st' (C & D & O); try done; unfold final_db; rewrite C, D; cbn.
  - destruct O as (? & [= <-] & Hs). eexists. split; [done|]. by intros ? [= <-].
  - by eexists.
Qed.

Lemma rollback_self db : rollback db db = db.
Proof. by destruct db. Qed.
End reading.

(** Without faults the state can be read. *)
Section reading_succeeds.
Context `{Postgres} (env : Env) (Hquiet : quiet env).

Lemma mapM_total {A B} (f : A -> option B) l :
  Forall (fun x => is_Some (f x)) l -> is_Some (mapM f l).
Proof. apply mapM_is_Some_2. Qed.

Lemma read_rows_total {R S} (read : Z * R -> option S) (w : Z -> R -> bool) (t : gmap Z R) :
  (forall i r, t !! i = Some r -> is_Some (read (i, r))) -> is_Some (mapM read (sql_rows w t)).
Proof.
  intros Hread. apply mapM_total, Forall_forall. intros [i r] Hin.
  apply sql_rows_elem in Hin as [Hr _]. auto.
Qed.

Lemma getCurrentState_succeeds db :
  db_wf db -> exists st, getCurrentState env db = Answer (Success st) db /\ snapshot db st.
Proof.
  intros Hwf.
  assert (succeeds env getCurrentState_txn (tx_start db)) as Hs.
  { unfold succeeds, getCurrentState_txn, readOnlyTransaction_, getQueuedJobs_, getActiveVms_.
    do 4 wp_step. eapply wp_exec_quiet; [done..|]. cbn [chain caught]. apply wp_ret. cbn [chain caught].
    do 3 wp_step. apply wp_query_quiet; [done..|]. cbn [chain caught tx_db executed tx_start].
    destruct (read_rows_total read_job (fun _ r => bool_decide (j_status r = Queued)) (db_jobs db))
      as [jobs ->].
    { intros i r Hr. destruct (jr_req _ _ _ (wf_jobs _ Hwf _ _ Hr)) as [[? _] [? _]].
      eexists. by apply read_job_spec. }
    cbn [or_throw]. wp_step. apply wp_ret. cbn [chain]. apply wp_ret. cbn [chain caught].
    do 3 wp_step. apply wp_query_quiet; [done..|]. cbn [chain caught tx_db executed tx_start].
    destruct (read_rows_total read_vm (fun _ r => vm_active r) (db_vms db)) as [vms ->].
    { intros i r Hr. destruct (wf_vms _ Hwf _ _ Hr) as [[[? _] [? _]] [[? _] [? _]] _ _ _].
      eexists. by apply read_vm_spec. }
    cbn [or_throw]. wp_step. apply wp_ret. cbn [chain]. apply wp_ret. cbn [chain caught].
    apply wp_ret. split; [done|by eauto]. }
  destruct (getCurrentState_spec env db Hwf) as (r & Hr & Hsnap).
  unfold getCurrentState, run_call in *. unfold succeeds, wp in Hs.
  destruct (getCurrentState_txn env (tx_start db)) as [o st']; cbn in Hs.
  destruct Hs as (_ & st & ->). injection Hr as <- Hr. exists st. rewrite Hr, rollback_self. auto.
Qed.
End reading_succeeds.

(** ** From a snapshot to a plan that can be committed *)

Lemma snapshot_wf db st : db_wf db -> snapshot db st -> state_wf st.
Proof.
  intros Hwf [Hj Hv Hjn Hvn]. split; try done.
  - apply Forall_forall. intros j Hin. apply Hj in Hin as (r & Hr & _ & He).
    unfold job_wf. rewrite He. apply (jr_req _ _ _ (wf_jobs _ Hwf _ _ Hr)).
  - apply Forall_forall. intros v Hin. apply Hv in Hin as (r & Hr & _ & Et & Ei).
    destruct (wf_vms _ Hwf _ _ Hr). unfold vm_wf. by rewrite Et, Ei.
Qed.

(** Sizes of VMs do not change, so a plan fits whatever happened since. *)
Lemma plan_fits_later db0 db st c :
  db_wf db0 -> snapshot db0 st -> plan_sound st c -> rtc change db0 db -> change_fits c db.
Proof.
  intros Hwf Hs Hp Hch. split; [|by apply Hp].
  intros v s r Hu Hr. destruct (ps_updated _ _ Hp v s Hu) as (vm & Hvm & <- & Hw & Hf).
  apply Hs in Hvm as (r0 & Hr0 & _ & Et & Ei).
  destruct (changes_vms_persist _ _ Hch _ _ Hr0) as (r' & Hr' & E).
  rewrite Hr in Hr'. injection Hr' as <-.
  split; [done|]. rewrite E. eapply fits_trans; [exact Hf|]. rewrite Ei. by apply (wf_vms _ Hwf _ _ Hr0).
Qed.

(** ** Plans and their age *)

Lemma last_updated_max db :
  match last_updated db with
  | None => db_plans db = ∅
  | Some m => (forall p r, db_plans db !! p = Some r -> p_updated r <= m)
      /\ exists p r, db_plans db !! p = Some r /\ p_updated r = m
  end.
Proof.
  unfold last_updated.
  assert (Hmem : forall p r, db_plans db !! p = Some r <-> (p, r) ∈ map_to_list (db_plans db)).
  { intros. by rewrite elem_of_map_to_list. }
  destruct (map_to_list (db_plans db)) as [|[p0 r0] l] eqn:Hl.
  { cbn. by apply map_to_list_empty_iff. }
  cbn [foldr]. setoid_rewrite Hmem. clear Hmem Hl db.
  revert p0 r0. induction l as [|[p1 r1] l IH]; intros p0 r0; cbn [foldr].
  { split; [|set_solver]. intros p r Hin. apply list_elem_of_singleton in Hin. by simplify_eq. }
  specialize (IH p1 r1). cbn [foldr snd] in *.
  destruct (foldr _ None l) as [x|]; destruct IH as [Hle (p & r & Hin & He)].
  - split.
    + intros p' r' [[= -> ->]|Hin']%elem_of_cons; [lia|]. specialize (Hle _ _ Hin'). lia.
    + destruct (Z.max_spec (p_updated r0) (Z.max (p_updated r1) x)) as [[_ ->]|[_ ->]].
      * exists p, r. split; [by right|done].
      * exists p0, r0. split; [left|done].
  - split.
    + intros p' r' [[= -> ->]|Hin']%elem_of_cons; [lia|]. specialize (Hle _ _ Hin'). lia.
    + destruct (Z.max_spec (p_updated r0) (p_updated r1)) as [[_ ->]|[_ ->]].
      * exists p, r. split; [by right|done].
      * exists p0, r0. split; [left|done].
Qed.

(** A plan newer than all others is the relevant one. *)
Lemma latest_plans_unique `{Postgres} db p r :
  db_plans db !! p = Some r ->
  (forall p' r', db_plans db !! p' = Some r' -> p' <> p -> p_updated r' < p_updated r) ->
  latest_plans db = [p].
Proof.
  intros Hp Hlt. pose proof (last_updated_max db) as Hmax. unfold latest_plans.
  destruct (last_updated db) as [m|] eqn:Hm; [|by rewrite Hmax, lookup_empty in Hp].
  destruct Hmax as [Hle (q & s & Hq & Hs)].
  assert (q = p) as ->.
  { destruct (decide (q = p)); [done|]. specialize (Hlt _ _ Hq n). specialize (Hle _ _ Hp). lia. }
  rewrite Hp in Hq. injection Hq as <-. subst m.
  assert (Hrows : forall i x, (i, x) ∈ sql_rows (fun _ x => bool_decide (Some (p_updated x) = Some (p_updated r)))
     (db_plans db) <-> (i, x) = (p, r)).
  { intros i x. rewrite sql_rows_elem, bool_decide_eq_true. split.
    - intros [Hi Hx]. destruct (decide (i = p)) as [->|Hne]; [by simplify_eq|].
      specialize (Hlt _ _ Hi Hne). injection Hx. lia.
    - by intros [= -> ->]. }
  pose proof (sql_rows_nodup (fun _ x => bool_decide (Some (p_updated x) = Some (p_updated r))) (db_plans db)) as Hnd.
  destruct (sql_rows _ (db_plans db)) as [|[i1 x1] [|[i2 x2] l]].
  - exfalso. apply (not_elem_of_nil (p, r)). by apply Hrows.
  - assert ((i1, x1) = (p, r)) as [= -> ->] by (apply Hrows; left). done.
  - exfalso. assert ((i1, x1) = (p, r)) as [= -> ->] by (apply Hrows; left).
    assert ((i2, x2) = (p, r)) as [= -> ->] by (apply Hrows; right; left). cbn in Hnd.
    apply NoDup_cons in Hnd as [Hnd _]. apply Hnd. left.
Qed.

(** ** Starting an iteration *)

Section start.
Context `{Postgres}.

(** A new plan row, and perhaps a lock number. *)
Record started (now : Z) (b : string) (db db' : Db) : Prop := {
  st_vms : db_vms db' = db_vms db;
  st_jobs : db_jobs db' = db_jobs db;
  st_tasks : db_tasks db' = db_tasks db;
  st_plans : db_plans db' = <[seq_plans db := mkPlanRow now now b]> (db_plans db);
  st_seq : seq_vms db' = seq_vms db;
}.

Definition lock_ok (lockNumber : option Z) : Prop :=
  match lockNumber with
  | Some n => n < 2 ^ 63
  | None => True
  end.

Lemma startScheduling_succeeds env b interval lockNumber db :
  quiet env -> lock_ok lockNumber ->
  default 0 (last_updated db) + seconds interval <= env_now env ->
  new_key (seq_plans db) (db_plans db) = true ->
  exists db', startScheduling b interval lockNumber env db = Answer (Success (seq_plans db)) db'
    /\ started (env_now env) b db db'.
Proof.
  intros Hq Hlock Hold Hkey. unfold startScheduling. apply run_call_wp.
  unfold startScheduling_txn, acquireLock_, planWasRecentlyUpdated_, insertNewPlanRecord_, checkLeader_.
  do 4 wp_step. eapply wp_exec_quiet; [done..|]. cbn [chain caught]. wp_step.
  eapply wp_exec_quiet; [done..|]. cbn [chain caught]. apply wp_ret. cbn [chain caught]. wp_step.
  apply wp_mono with (Q := fun o st => live st /\ o = TxVal tt /\ db_plans (tx_db st) = db_plans db
    /\ last_updated (tx_db st) = last_updated db /\ seq_plans (tx_db st) = seq_plans db
    /\ db_vms (tx_db st) = db_vms db /\ db_jobs (tx_db st) = db_jobs db
    /\ db_tasks (tx_db st) = db_tasks db /\ seq_vms (tx_db st) = seq_vms db).
  { destruct lockNumber as [n|]; [|by apply wp_ret]. do 3 wp_step. apply wp_query_quiet; [done..|].
    cbn [chain caught]. wp_step; [|by do 2 apply wp_ret]. wp_step. eapply wp_exec_quiet; [done|done| |].
    - cbn in Hlock. by rewrite (proj2 (Z.ltb_lt _ _) Hlock).
    - cbn [chain caught]. by do 2 apply wp_ret. }
  intros o st (Hl & -> & Ep & Eu & Es & Ev & Ej & Et & Eq). cbn [chain]. do 3 wp_step.
  apply wp_query_quiet; [done..|]. cbn [chain caught]. apply wp_ret. cbn [chain caught].
  rewrite Eu. destruct (Z.gtb_spec (default 0 (last_updated db) + seconds interval) (env_now env)); [lia|].
  do 2 wp_step. eapply wp_exec_quiet; [done|done| |].
  { unfold insert_plan. cbn [executed tx_db]. rewrite Es, Ep, Hkey. done. }
  cbn [chain caught]. wp_step. apply wp_commit_quiet; [done..|]. cbn [chain caught]. apply wp_ret.
  cbn. eexists. split; [done|]. by split.
Qed.
End start.

(** Committed only by the plan's own transaction. *)
Lemma commitPlanChange_answer `{StdLib} `{Postgres} c planId env db db' :
  commitPlanChange c planId env db = Answer (Success tt) db' ->
  plan_admitted c planId db /\ exists slots, plan_effect (env_now env) c planId slots db db'.
Proof.
  unfold commitPlanChange, run_call, final_db. pose proof (commitPlanChange_wp env c planId db) as Hw.
  unfold wp in Hw. destruct (commitPlanChange_txn _ _ _ _) as [[[[]|e]|e|] st]; cbn in Hw; intros Hc; try done.
  destruct Hw as [Hcm Hw]. rewrite Hcm in Hc. injection Hc as <-. auto.
Qed.

Lemma commitPlanChange_commits `{StdLib} `{Postgres} c planId env db :
  quiet env -> plan_committable c planId db ->
  exists db' slots, commitPlanChange c planId env db = Answer (Success tt) db'
    /\ plan_effect (env_now env) c planId slots db db'.
Proof.
  intros Hq Hc. pose proof (commitPlanChange_succeeds env Hq c planId db Hc) as Hs.
  pose proof (commitPlanChange_answer c planId env db) as Ha.
  unfold commitPlanChange, run_call in *. unfold succeeds, wp in Hs.
  destruct (commitPlanChange_txn _ _ _ _) as [o st]; cbn in Hs. destruct Hs as (_ & [] & ->).
  destruct (Ha _ eq_refl) as [_ [slots He]]. eauto.
Qed.

(** ** Iterations *)

Section iterations.
Context `{StdLib} `{Postgres}.
Context (config : SchedulerConfig) (possibleSlots : list SlotCapacity).
Context (Hconfig : config_usable (vmAssignerType config) (complexVmAssignerConfig config)).
Context (Hslots : Scheduler_accepts possibleSlots = true) (Hwf_slots : Forall slot_wf possibleSlots).

Lemma accepted_nonempty : possibleSlots <> [].
Proof. unfold Scheduler_accepts in Hslots. split_bools. by apply bool_decide_eq_false in H1. Qed.

(** What other processes do: calls of the storage. *)
Definition other_processes (others : Db -> Db) : Prop := forall d, db_wf d -> rtc step d (others d).

Lemma steps_wf a b : rtc step a b -> db_wf a -> db_wf b.
Proof. intros Hs Ha. eapply changes_wf; [by apply steps_refine|done]. Qed.

(** An iteration is a sequence of storage calls, each within its precondition,
    and never computes a plan without result. *)
Lemma schedule_steps id distLock env1 env2 env3 others1 others2 db :
  db_wf db -> other_processes others1 -> other_processes others2 ->
  rtc step db (iteration id config possibleSlots distLock env1 env2 env3 others1 others2 db).2
  /\ (iteration id config possibleSlots distLock env1 env2 env3 others1 others2 db).1 <> NoPlan.
Proof.
  intros Hwf Ho1 Ho2. rewrite iteration_eq. destruct (lock_number distLock) as [ln|]; [|by split].
  assert (S1 : rtc step db (call_db (startScheduling id (schedulingInterval config) ln env1 db))).
  { apply rtc_once. by apply (step_call (OpStartScheduling id (schedulingInterval config) ln) env1 env1). }
  destruct (startScheduling _ _ _ _ _) as [[planId|e] db1|db1]; cbn in S1; [|by split..].
  pose proof (steps_wf _ _ S1 Hwf) as W1. pose proof (Ho1 _ W1) as S2.
  pose proof (steps_wf _ _ S2 W1) as W2.
  destruct (getCurrentState_spec env2 (others1 db1) W2) as (r & -> & Hsnap). rewrite rollback_self.
  assert (S12 : rtc step db (others1 db1)) by by etrans.
  destruct r as [st|e]; [|by split]. specialize (Hsnap st eq_refl).
  destruct (assign_sound (vmAssignerType config) (complexVmAssignerConfig config) st possibleSlots)
    as (c & -> & Hp); [done|by eapply snapshot_wf|apply accepted_nonempty|done|].
  pose proof (Ho2 _ W2) as S3.
  assert (Hadm : op_admissible (OpCommitPlanChange c planId) (others2 (others1 db1))).
  { cbn. eapply plan_fits_later; [exact W2|exact Hsnap|exact Hp|]. by apply steps_refine. }
  pose proof (step_call _ env3 env3 _ Hadm) as S4. cbn [op_db] in S4.
  assert (S : rtc step db (call_db (commitPlanChange c planId env3 (others2 (others1 db1))))).
  { etrans; [exact S12|]. etrans; [exact S3|]. by apply rtc_once. }
  destruct (commitPlanChange _ _ _ _) as [[[]|e] db3|db3]; by split.
Qed.

(** The jobs of a snapshot are no more than those of the table. *)
Lemma snapshot_size db st : snapshot db st -> (length (queuedJobs st) <= size (db_jobs db))%nat.
Proof.
  intros Hs. rewrite <- (length_fmap job_id). rewrite <- (size_dom (D := gset Z)).
  rewrite <- (size_list_to_set (C := gset Z)) by apply Hs. apply subseteq_size.
  intros i Hi. apply elem_of_list_to_set, list_elem_of_fmap in Hi as (j & -> & Hj).
  apply Hs in Hj as (r & Hr & _). apply elem_of_dom. by eexists.
Qed.

Lemma snapshot_job db st i r : snapshot db st -> db_jobs db !! i = Some r -> j_status r = Queued ->
  mkJob i (job_req r) ∈ queuedJobs st.
Proof. intros Hs Hr Hq. apply Hs. eauto. Qed.

(** A plan on an undisturbed snapshot, under the newest plan id. *)
Lemma snapshot_plan_committable db st c planId :
  db_wf db -> snapshot db st -> plan_sound st c -> latest_plans db = [planId] ->
  0 <= seq_vms db -> seq_vms db + Z.of_nat (size (db_jobs db)) <= 2 ^ 31 ->
  plan_committable c planId db.
Proof.
  intros Hwf Hs Hp Hl H0' Hroom. split; try done.
  - by eapply plan_fits_later; eauto using rtc_refl.
  - split; [done| |].
    + intros i r Hi Hr. apply (ps_assigns _ _ Hp), list_elem_of_fmap in Hi as (j & -> & Hj).
      apply Hs in Hj as (r' & Hr' & Hq & _). simplify_eq. by rewrite Hq.
    + intros v r [x Hx] Hr. destruct (ps_updated _ _ Hp _ _ Hx) as (vm & Hvm & <- & _).
      apply Hs in Hvm as (r' & Hr' & Ha & _). by simplify_eq.
  - intros i v Hi. apply (ps_existing _ _ Hp), list_elem_of_fmap in Hi as (vm & -> & Hvm).
    apply Hs in Hvm as (r' & Hr' & _). by eexists.
  - apply Hp.
  - split; [done|]. pose proof (plan_sound_size _ _ Hp). pose proof (snapshot_size _ _ Hs). lia.
Qed.

(** Where a job of the snapshot ends up. *)
Definition placed_on (db' : Db) (i : Z) (r : JobRow) : Prop :=
  exists v vr, db_jobs db' !! i = Some (set_j_vm_id v (set_j_status Scheduled r))
    /\ db_vms db' !! v = Some vr /\ (slot_positive (job_req r) -> vm_active vr = true).

Lemma plan_vm_row_active now c v r :
  v ∉ vmsToTerminate c -> vm_active (plan_vm_row now c v r) = vm_active r.
Proof.
  intros Hv. unfold plan_vm_row. rewrite decide_False by done. by destruct (_ !! v).
Qed.

Lemma effect_places now c planId slots db db' st i r :
  snapshot db st -> plan_sound st c -> plan_effect now c planId slots db db' ->
  db_jobs db !! i = Some r -> j_status r = Queued -> placed_on db' i r.
Proof.
  intros Hs Hp He Hr Hq. pose proof (snapshot_job _ _ _ _ Hs Hr Hq) as Hj.
  assert (is_Some (jobToVm c !! i)) as [t Ht].
  { apply (ps_assigns _ _ Hp). by apply (list_elem_of_fmap_2 job_id _ _ Hj). }
  destruct (pe_targets _ _ _ _ _ _ He _ _ Ht) as [v Hv].
  assert (db_jobs db' !! i = Some (set_j_vm_id v (set_j_status Scheduled r))) as Hrow.
  { rewrite (pe_jobs _ _ _ _ _ _ He), Hr. cbn. unfold assign_row. by rewrite lookup_omap, Ht; cbn; rewrite Hv. }
  destruct t as [w|d]; cbn in Hv.
  - injection Hv as ->. pose proof (ps_existing _ _ Hp _ _ Ht) as Hin.
    apply list_elem_of_fmap in Hin as (vm & -> & Hvm). apply Hs in Hvm as (vr & Hvr & Ha & _).
    exists (vm_id vm), (plan_vm_row now c (vm_id vm) vr). split; [done|].
    split; [by apply (pe_old _ _ _ _ _ _ He)|]. intros Hpos. rewrite plan_vm_row_active; [done|].
    by apply (ps_spares _ _ Hp _ _ Hj).
  - destruct (ps_desired _ _ Hp _ _ Ht) as [s Hsl].
    destruct (pe_new _ _ _ _ _ _ He _ _ Hsl) as (v' & Hv' & _ & Hvr). simplify_eq.
    exists v, (new_vm now s). auto.
Qed.

Lemma effect_keeps_others now c planId slots db db' st i r :
  snapshot db st -> plan_sound st c -> plan_effect now c planId slots db db' ->
  db_jobs db !! i = Some r -> j_status r <> Queued -> db_jobs db' !! i = Some r.
Proof.
  intros Hs Hp He Hr Hq. rewrite (pe_jobs _ _ _ _ _ _ He), Hr. cbn. f_equal. unfold assign_row.
  rewrite lookup_omap. destruct (jobToVm c !! i) as [t|] eqn:Ht; [|done]. exfalso.
  assert (i ∈ job_id <$> queuedJobs st) as Hin by (apply (ps_assigns _ _ Hp); eauto).
  apply list_elem_of_fmap in Hin as (j & -> & Hj). apply Hs in Hj as (r' & Hr' & Hq' & _). by simplify_eq.
Qed.

Lemma started_latest now b db db1 :
  started now b db db1 -> (forall p r, db_plans db !! p = Some r -> p_updated r < now) ->
  latest_plans db1 = [seq_plans db].
Proof.
  intros Hst Hold. apply (latest_plans_unique _ _ (mkPlanRow now now b)).
  - by rewrite (st_plans _ _ _ _ Hst), lookup_insert_eq.
  - intros p' r' Hr' Hne. rewrite (st_plans _ _ _ _ Hst), lookup_insert_ne in Hr' by done. by eapply Hold.
Qed.

Lemma not_recent_older db interval now :
  0 < interval -> default 0 (last_updated db) + seconds interval <= now ->
  forall p r, db_plans db !! p = Some r -> p_updated r < now.
Proof.
  intros Hi Hold p r Hr. pose proof (last_updated_max db) as Hm. unfold seconds in Hold.
  destruct (last_updated db) as [m|]; [|by rewrite Hm, lookup_empty in Hr].
  destruct Hm as [Hm _]. specialize (Hm _ _ Hr). cbn in Hold. lia.
Qed.

(** A plan makes no VM allocating. *)
Lemma effect_allocating now c planId slots db db' v vr :
  plan_effect now c planId slots db db' -> db_vms db' !! v = Some vr -> v_status vr = Allocating ->
  exists r, db_vms db !! v = Some r /\ v_status r = Allocating.
Proof.
  intros He Hvr Hs. destruct (pe_only _ _ _ _ _ _ He v) as [[r Hr]|[d Hd]]; [by eauto| |].
  - exists r. split; [done|]. rewrite (pe_old _ _ _ _ _ _ He v r Hr) in Hvr. injection Hvr as <-. revert Hs.
    unfold plan_vm_row, status_trigger.
    destruct (updatedIdleCapacities c !! v), (decide (v ∈ vmsToTerminate c)); try done; by case_decide.
  - destruct (pe_slots _ _ _ _ _ _ He d v Hd) as [s Hsl].
    destruct (pe_new _ _ _ _ _ _ He d s Hsl) as (v' & Hv' & _ & Hn). by simplify_eq.
Qed.

(** An undisturbed iteration empties the queue. *)
Lemma schedule_places id distLock ln env1 env2 env3 db :
  quiet env1 -> quiet env2 -> quiet env3 -> db_wf db ->
  lock_number distLock = Some ln -> lock_ok ln -> 0 < schedulingInterval config ->
  default 0 (last_updated db) + seconds (schedulingInterval config) <= env_now env1 ->
  0 <= seq_plans db < 2 ^ 31 -> 0 <= seq_vms db ->
  seq_vms db + Z.of_nat (size (db_jobs db)) <= 2 ^ 31 ->
  exists db', iteration id config possibleSlots distLock env1 env2 env3 (fun d => d) (fun d => d) db
      = (Committed (seq_plans db), db')
    /\ (forall i r, db_jobs db !! i = Some r -> j_status r = Queued -> placed_on db' i r)
    /\ (forall i r, db_jobs db !! i = Some r -> j_status r <> Queued -> db_jobs db' !! i = Some r)
    /\ (forall v vr, db_vms db' !! v = Some vr -> v_status vr = Allocating ->
          exists r, db_vms db !! v = Some r /\ v_status r = Allocating).
Proof.
  intros Hq1 Hq2 Hq3 Hwf Hln Hlock Hi Hold Hp0 Hv0 Hroom. rewrite iteration_eq. rewrite Hln.
  assert (Hkey : new_key (seq_plans db) (db_plans db) = true).
  { apply new_key_spec. split; [done|]. apply eq_None_not_Some. intros Hs. apply (wf_seq_plans _ Hwf) in Hs. lia. }
  pose proof (op_refines (OpStartScheduling id (schedulingInterval config) ln) env1 env1 db I Hwf) as Hr1.
  cbn [op_db] in Hr1.
  destruct (startScheduling_succeeds env1 id (schedulingInterval config) ln db) as (db1 & Heq & Hst);
    [done..|]. rewrite Heq in *. cbn [call_db] in Hr1. pose proof (changes_wf _ _ Hr1 Hwf) as W1.
  destruct (getCurrentState_succeeds env2 Hq2 db1 W1) as (st & -> & Hs).
  destruct (assign_sound (vmAssignerType config) (complexVmAssignerConfig config) st possibleSlots)
    as (c & -> & Hp); [done|by eapply snapshot_wf|apply accepted_nonempty|done|].
  destruct (commitPlanChange_commits c (seq_plans db) env3 db1 Hq3) as (db' & slots & -> & He).
  { eapply snapshot_plan_committable; [done..| | |].
    - eapply started_latest; [done|]. by eapply not_recent_older.
    - by rewrite (st_seq _ _ _ _ Hst).
    - by rewrite (st_seq _ _ _ _ Hst), (st_jobs _ _ _ _ Hst). }
  exists db'. split; [done|]. rewrite <- (st_jobs _ _ _ _ Hst), <- (st_vms _ _ _ _ Hst). split; [|split].
  - intros i r Hr Hq. by eapply effect_places.
  - intros i r Hr Hq. by eapply effect_keeps_others.
  - intros v vr. by eapply effect_allocating.
Qed.
End iterations.
