(* ===== verification/VmFacts.v ===== *)
(** * VMs on their way in and out

    Which VMs are handed to an allocator, and what becomes of VMs that could not be
    allocated and of the jobs that were waiting for them. *)

From S2P Require Import Prelude Std Slot State Db TxLogic Storage StorageFacts Lifecycle.
From S2P Require Import StorageRefines StorageSpec StorageProgress Scheduler SchedulerFacts.

(** ** Handing out *)

Record handed_out (from to : VmStatus) (n : Z) (env : Env) (ids : list VmId) (db db' : Db) : Prop := {
  ho_length : Z.of_nat (length ids) <= Z.max n 0;
  ho_nodup : NoDup ids;
  ho_was : forall v, v ∈ ids -> exists r, db_vms db !! v = Some r /\ v_status r = from
    /\ (v ∉ env_locked env)
    /\ db_vms db' !! v = Some (status_trigger (env_now env) r (set_v_status to r));
  ho_rest : forall v, v ∉ ids -> db_vms db' !! v = db_vms db !! v;
  ho_all : Z.of_nat (length ids) < n -> forall v r, db_vms db !! v = Some r -> v_status r = from ->
    v ∉ env_locked env -> v ∈ ids;
  ho_other : only_vms db db';
}.

Lemma handed_out_perm from to n env ids ids' db db' :
  ids' ≡ₚ ids -> handed_out from to n env ids db db' -> handed_out from to n env ids' db db'.
Proof.
  intros Hp [Hl Hn Hw Hr Ha Ho]. split; [by rewrite Hp|by rewrite Hp| | | |done].
  - intros v Hv. apply Hw. by rewrite <- Hp.
  - intros v Hv. apply Hr. by rewrite <- Hp.
  - intros Hlt v r. rewrite Hp. apply Ha. by rewrite <- Hp.
Qed.

Section handing_out.
Context `{Postgres}.

Lemma pick_vms_elem from n env db v :
  v ∈ pick_vms from n env db -> exists r, db_vms db !! v = Some r /\ v_status r = from /\ v ∉ env_locked env.
Proof.
  unfold pick_vms. intros (k & Hk & _)%elem_of_take.
  apply list_elem_of_lookup_2, list_elem_of_fmap in Hk as ([i r] & -> & Hin).
  apply sql_rows_elem in Hin as [Hr Hw]. split_bools. apply bool_decide_eq_false in H1. eauto.
Qed.

Lemma pick_vms_all from n env db v r :
  (length (pick_vms from n env db) < Z.to_nat n)%nat ->
  db_vms db !! v = Some r -> v_status r = from -> v ∉ env_locked env -> v ∈ pick_vms from n env db.
Proof.
  unfold pick_vms. set (l := (sql_rows _ _).*1). intros Hlen Hr Hs Hl.
  rewrite length_take in Hlen. rewrite take_ge by lia.
  apply list_elem_of_fmap. exists (v, r). split; [done|]. apply sql_rows_elem. split; [done|].
  rewrite andb_true_iff, negb_true_iff, bool_decide_eq_true, bool_decide_eq_false. done.
Qed.

Lemma move_vms_spec from to n env db :
  n < 2 ^ 63 ->
  exists db', move_vms from to n env db
      = Some (sql_rows (fun i _ => bool_decide (i ∈ pick_vms from n env db)) (db_vms db'), db')
    /\ handed_out from to n env (pick_vms from n env db) db db'.
Proof.
  intros Hn. unfold move_vms. rewrite (proj2 (Z.ltb_lt _ _) Hn). set (ids := pick_vms from n env db).
  eexists. split; [done|]. split.
  - unfold ids, pick_vms. rewrite length_take. lia.
  - unfold ids, pick_vms. eapply sublist_NoDup; [|apply sublist_take]. apply sql_rows_nodup.
  - intros v Hv. destruct (pick_vms_elem _ _ _ _ _ Hv) as (r & Hr & Hs & Hl). exists r.
    repeat (split; [done|]). rewrite update_vms_lookup, Hr. cbn. by rewrite bool_decide_eq_true_2.
  - intros v Hv. rewrite update_vms_lookup. destruct (db_vms db !! v); [|done]. cbn.
    by rewrite bool_decide_eq_false_2.
  - intros Hlen v r. apply pick_vms_all. fold ids. lia.
  - done.
Qed.

Lemma read_pending_spec i r a :
  read_pending (i, r) = Some a <-> (0 <= v_cpu r /\ 0 <= v_ram r) /\ a = mkAllocationPending i (vm_total r).
Proof.
  unfold read_pending, as_size_t. cbn.
  destruct (Z.leb_spec 0 (v_cpu r)); cbn; [|split; [done|lia]].
  destruct (Z.leb_spec 0 (v_ram r)); cbn; [|split; [done|lia]].
  split; [intros [= <-]; auto|]. by intros (_ & ->).
Qed.

Lemma getVmsToAllocate_hands_out n env db :
  quiet env -> db_wf db -> n < 2 ^ 63 ->
  exists l db', getVmsToAllocate n env db = Answer (Success l) db'
    /\ handed_out PendingAllocation Allocating n env (apv_id <$> l) db db'
    /\ forall a, a ∈ l -> exists r, db_vms db !! apv_id a = Some r /\ apv_capacity a = vm_total r.
Proof.
  intros Hq Hwf Hn. rewrite getVmsToAllocate_quiet by done.
  destruct (move_vms_spec PendingAllocation Allocating n env db Hn) as (db' & Hm & Hho).
  pose proof (changes_wf _ _ (move_vms_refines _ _ _ (fun r => ve_allocating r) _ _ _ _ Hm Hwf) Hwf) as Hwf'.
  rewrite Hm. set (ids := pick_vms _ _ _ _) in *.
  destruct (read_rows_total read_pending (fun i _ => bool_decide (i ∈ ids)) (db_vms db')) as [l Hl].
  { intros i r Hr. destruct (wf_vms _ Hwf' _ _ Hr) as [[[? _] [? _]] _ _ _ _]. eexists.
    by apply read_pending_spec. }
  rewrite Hl. exists l, db'. split; [done|].
  apply (read_rows _ apv_id) in Hl as [Hel Hnd]; [|by intros ??? (_ & ->)%read_pending_spec].
  assert (Hids : apv_id <$> l ≡ₚ ids).
  { apply NoDup_Permutation; [done|apply Hho|]. intros v. rewrite list_elem_of_fmap. split.
    - intros (a & -> & Ha). apply Hel in Ha as (r & _ & Hb & _). by apply bool_decide_eq_true in Hb.
    - intros Hv. destruct (ho_was _ _ _ _ _ _ _ Hho v Hv) as (r & Hr & _ & _ & Hr').
      set (r1 := status_trigger _ _ _) in Hr'.
      exists (mkAllocationPending v (vm_total r1)). split; [done|]. apply Hel. exists r1. cbn.
      split; [done|]. split; [by apply bool_decide_eq_true|]. apply read_pending_spec.
      destruct (wf_vms _ Hwf' _ _ Hr') as [[[? _] [? _]] _ _ _ _]. done. }
  split.
  - by eapply handed_out_perm.
  - intros a Ha. pose proof (list_elem_of_fmap_2 apv_id _ _ Ha) as Hin. rewrite Hids in Hin.
    destruct (ho_was _ _ _ _ _ _ _ Hho _ Hin) as (r & Hr & _ & _ & Hr'). exists r. split; [done|].
    apply Hel in Ha as (r' & Hr'' & _ & He). apply read_pending_spec in He as (_ & He).
    rewrite Hr' in Hr''. injection Hr'' as <-. rewrite He. cbn. unfold status_trigger. by case_decide.
Qed.
End handing_out.

(** ** Restarting or giving up *)

(** The VMs tried again, and the VMs given up, at time [now]. *)
Definition retried (c : VmCondition) (n now : Z) (v : VmId) (r : VmRow) : bool :=
  bool_decide (v_status r = Allocating) && (v_restart_count r <? n) && vm_condition c now v r.

Definition given_up (c : VmCondition) (from : VmStatus) (n now : Z) (v : VmId) (r : VmRow) : bool :=
  bool_decide (v_status r = from) && (v_restart_count r >=? n) && vm_condition c now v r.

Definition retry_row (now : Z) (r : VmRow) : VmRow :=
  status_trigger now r (set_v_restart_count (v_restart_count r + 1) (set_v_status PendingAllocation r)).

Definition dead_vm (c : VmCondition) (from : VmStatus) (n now : Z) (db : Db) (v : VmId) : bool :=
  match db_vms db !! v with
  | Some r => given_up c from n now v r
  | None => false
  end.

(** What becomes of a job of the given status when the VM it is on is dead. *)
Definition job_fate (dead : VmId -> bool) (s : JobStatus) (m : Z) (r : JobRow) : JobRow :=
  match j_vm_id r with
  | Some v =>
    if bool_decide (j_status r = s) && dead v then
      if j_restart_count r <? m
      then set_j_restart_count (j_restart_count r + 1) (set_j_status Queued r)
      else set_j_status InternalError r
    else r
  | None => r
  end.

Section giving_up.
Context `{Postgres} (env : Env) (Hquiet : quiet env).

Lemma restarted_spec vmIds s m db :
  db_wf db -> s <> Queued -> m < 2 ^ 31 ->
  exists db', restarted env vmIds s m db = Some db'
    /\ (forall i, db_jobs db' !! i = job_fate (fun v => bool_decide (v ∈ vmIds)) s m <$> db_jobs db !! i)
    /\ db_vms db' = db_vms db.
Proof.
  intros Hwf Hs Hm. unfold restarted, requeue_query.
  match goal with |- context [forallb ?p ?l] => assert (forallb p l = true) as -> end.
  { apply forallb_forall. intros [i r] Hin. apply list_elem_of_In, sql_rows_elem in Hin as [Hr Hw].
    split_bools. cbn. apply int4_spec. destruct (jr_restarts _ _ _ (wf_jobs _ Hwf _ _ Hr)). lia. }
  cbn [mbind option_bind fail_query]. eexists. split; [done|]. split; [|done].
  intros i. rewrite !update_jobs_lookup. destruct (db_jobs db !! i) as [r|]; [|done].
  cbn [fmap option_fmap option_map]. f_equal. unfold job_fate, on_vms.
  destruct (j_vm_id r) as [v|] eqn:Hv; [|rewrite !andb_false_r; cbn; rewrite Hv, andb_false_r; done].
  destruct (bool_decide (j_status r = s)) eqn:Es; cbn [andb]; [|by rewrite Es].
  destruct (Z.ltb_spec (j_restart_count r) m); cbn [andb].
  - destruct (bool_decide (v ∈ vmIds)) eqn:Ev; cbn.
    + rewrite bool_decide_eq_false_2 by congruence. done.
    + rewrite Es, Hv, Ev, andb_false_r. done.
  - rewrite Es, Hv. destruct (Z.geb_spec (j_restart_count r) m); [|lia].
    by destruct (bool_decide (v ∈ vmIds)).
Qed.

(** [terminateVms_] on a database on which its condition has a value. *)
Lemma terminateVms_effect c from to n m db :
  db_wf db -> vm_condition_ok c from db = true -> m < 2 ^ 31 ->
  (forall r, vm_edit r (set_v_status to r)) ->
  exists db', run_call (terminateVms_ c from to n m) env db = Answer (Success tt) db'
    /\ (forall v, db_vms db' !! v = (fun r => if given_up c from n (env_now env) v r
          then status_trigger (env_now env) r (set_v_status to r) else r) <$> db_vms db !! v)
    /\ (forall i, db_jobs db' !! i
          = job_fate (dead_vm c from n (env_now env) db) Scheduled m <$> db_jobs db !! i).
Proof.
  intros Hwf Hok Hm Hed. rewrite terminateVms_quiet by done. unfold terminate_query. rewrite Hok.
  set (hit := fun i r => given_up c from n (env_now env) i r).
  change (fun i r => bool_decide (v_status r = from) && (v_restart_count r >=? n)
    && vm_condition c (env_now env) i r) with hit.
  set (ids := (sql_rows hit (db_vms db)).*1).
  assert (Hids : forall v, bool_decide (v ∈ ids) = dead_vm c from n (env_now env) db v).
  { intros v. unfold dead_vm, ids. apply eq_true_iff_eq. rewrite bool_decide_eq_true, list_elem_of_fmap. split.
    - intros ([i r] & -> & Hin). apply sql_rows_elem in Hin as [Hr Hh]. cbn. by rewrite Hr.
    - destruct (db_vms db !! v) as [r|] eqn:Hr; [|done]. intros Hh. exists (v, r).
      split; [done|]. by apply sql_rows_elem. }
  set (db1 := update_vms (env_now env) hit (fun _ => set_v_status to) db).
  assert (Hv : forall v, db_vms db1 !! v = (fun r => if given_up c from n (env_now env) v r
     then status_trigger (env_now env) r (set_v_status to r) else r) <$> db_vms db !! v).
  { intros v. apply update_vms_lookup. }
  destruct (decide (ids = [])) as [Hnil|Hne].
  - exists db. split; [done|]. rewrite Hnil in Hids.
    assert (Hdead : forall v, dead_vm c from n (env_now env) db v = false).
    { intros v. rewrite <- Hids. apply bool_decide_eq_false_2, not_elem_of_nil. }
    split.
    + intros v. specialize (Hdead v). unfold dead_vm in Hdead. destruct (db_vms db !! v) as [r|]; [|done].
      cbn [fmap option_fmap option_map]. unfold hit. by rewrite Hdead.
    + intros i. destruct (db_jobs db !! i) as [r|]; [|done]. cbn. f_equal. unfold job_fate.
      destruct (j_vm_id r); [|done]. by rewrite Hdead, andb_false_r.
  - assert (db_wf db1) as Hwf1.
    { eapply change_wf; [|exact Hwf]. apply update_vms_refines. auto. }
    destruct (restarted_spec ids Scheduled m db1) as (db' & -> & Hj & Hvm); [done|done|done|].
    exists db'. split; [done|]. split; [by intros v; rewrite Hvm, Hv|].
    intros i. rewrite Hj. cbn. destruct (db_jobs db !! i) as [r|]; [|done]. cbn. f_equal.
    unfold job_fate. destruct (j_vm_id r); [|done]. by rewrite Hids.
Qed.
End giving_up.

Section retry_or_give_up.
Context `{Postgres}.

Lemma retry_row_status now r : v_status (retry_row now r) = PendingAllocation.
Proof. unfold retry_row, status_trigger. by case_decide. Qed.

Lemma restartAllocatingVms_effect c n env db :
  quiet env -> db_wf db -> vm_condition_ok c Allocating db = true -> n < 2 ^ 31 ->
  exists db1, run_call (restartAllocatingVms_ c n) env db = Answer (Success tt) db1
    /\ db_wf db1 /\ db_jobs db1 = db_jobs db
    /\ forall v, db_vms db1 !! v = (fun r => if retried c n (env_now env) v r
         then retry_row (env_now env) r else r) <$> db_vms db !! v.
Proof.
  intros Hq Hwf Hok Hn. unfold restartAllocatingVms_. rewrite execWritableQuery_quiet by done.
  destruct (restart_vms_query c n env db) as [[[] db1]|] eqn:He.
  - exists db1. split; [done|]. split.
    { eapply changes_wf; [by eapply restart_vms_refines|done]. }
    revert He. unfold restart_vms_query. case_bool; [|done]. intros [= <-]. split; [done|].
    intros v. apply update_vms_lookup.
  - exfalso. revert He. unfold restart_vms_query. rewrite Hok.
    match goal with |- context [forallb ?p ?l] => assert (forallb p l = true) as -> end; [|done].
    apply forallb_forall. intros [i r] Hin. apply list_elem_of_In, sql_rows_elem in Hin as [Hr Hw].
    split_bools. cbn. apply int4_spec. destruct (vr_restarts _ (wf_vms _ Hwf _ _ Hr)). lia.
Qed.

(** The condition still has a value: a VM that is still allocating was not touched. *)
Lemma vm_condition_ok_retried c n now db db1 :
  vm_condition_ok c Allocating db = true ->
  (forall v, db_vms db1 !! v = (fun r => if retried c n now v r then retry_row now r else r) <$> db_vms db !! v) ->
  vm_condition_ok c Allocating db1 = true.
Proof.
  intros Hok Hv. destruct c as [limit|vmIds]; [|done]. cbn in *. apply andb_true_iff in Hok as [-> Hok].
  cbn. apply forallb_forall. intros [v r1] Hin. apply list_elem_of_In, elem_of_map_to_list in Hin.
  rewrite Hv in Hin. apply fmap_Some in Hin as (r & Hr & ->).
  pose proof (proj1 (forallb_forall _ _) Hok (v, r)) as Hr'. cbn in Hr'.
  destruct (retried _ _ _ _ _); cbn [snd].
  - rewrite retry_row_status. by rewrite bool_decide_eq_false_2.
  - apply Hr'. by apply list_elem_of_In, elem_of_map_to_list.
Qed.

Lemma given_up_retried c n now1 now2 v r :
  given_up c Allocating n now2 v (if retried c n now1 v r then retry_row now1 r else r)
  = given_up c Allocating n now2 v r.
Proof.
  destruct (retried c n now1 v r) eqn:Hr; [|done]. unfold retried in Hr. split_bools.
  unfold given_up. rewrite retry_row_status, bool_decide_eq_false_2 by done.
  assert ((v_restart_count r >=? n) = false) as -> by lia. by rewrite andb_false_r.
Qed.

(** Tried again within the limit of attempts, given up with its jobs beyond it. *)
Lemma retry_or_give_up c n m env1 env2 db :
  quiet env1 -> quiet env2 -> db_wf db -> vm_condition_ok c Allocating db = true ->
  n < 2 ^ 31 -> m < 2 ^ 31 ->
  exists db1 db', run_call (restartAllocatingVms_ c n) env1 db = Answer (Success tt) db1
    /\ run_call (terminateVms_ c Allocating Terminated n m) env2 db1 = Answer (Success tt) db'
    /\ (forall v, db_vms db' !! v = (fun r =>
          if retried c n (env_now env1) v r then retry_row (env_now env1) r
          else if given_up c Allocating n (env_now env2) v r
          then status_trigger (env_now env2) r (set_v_status Terminated r)
          else r) <$> db_vms db !! v)
    /\ (forall i, db_jobs db' !! i
          = job_fate (dead_vm c Allocating n (env_now env2) db) Scheduled m <$> db_jobs db !! i).
Proof.
  intros Hq1 Hq2 Hwf Hok Hn Hm.
  destruct (restartAllocatingVms_effect c n env1 db) as (db1 & H1 & Hwf1 & Hj1 & Hv1); [done..|].
  destruct (terminateVms_effect env2 Hq2 c Allocating Terminated n m db1) as (db' & H2 & Hv2 & Hj2);
    [done|by eapply vm_condition_ok_retried|done|constructor|].
  exists db1, db'. split; [done|]. split; [done|]. split.
  - intros v. rewrite Hv2, Hv1. destruct (db_vms db !! v) as [r|]; [|done]. cbn. f_equal.
    rewrite given_up_retried. destruct (retried c n (env_now env1) v r) eqn:Hr; [|done].
    unfold retried in Hr. split_bools. unfold given_up.
    assert ((v_restart_count r >=? n) = false) as -> by lia. by rewrite andb_false_r.
  - intros i. rewrite Hj2, Hj1. destruct (db_jobs db !! i) as [r|]; [|done]. cbn. f_equal.
    unfold job_fate. destruct (j_vm_id r) as [v|]; [|done].
    assert (dead_vm c Allocating n (env_now env2) db1 v = dead_vm c Allocating n (env_now env2) db v) as ->;
      [|done].
    unfold dead_vm. rewrite Hv1. destruct (db_vms db !! v); [|done]. cbn. apply given_up_retried.
Qed.
End retry_or_give_up.
