(* ===== verification/Allocator.v ===== *)
(** * The allocator (src/libs/allocator/impl/allocator.cpp) *)

From S2P Require Import Prelude Std Slot State Db Storage Lifecycle StorageRefines Interfaces.

(** [CommonConfig] and [AllocatorConfig]. *)
Record CommonConfig : Type := mkCommonConfig { jobRestartAttemptCount : Z; vmRestartAttemptCount : Z }.
Record AllocatorConfig : Type := mkAllocatorConfig {
  maxVmAllocationCount : Z; maxVmTerminationCount : Z; alloc_common : CommonConfig }.

Module Allocator.
Section allocator.
Context (config : AllocatorConfig).

(** The loop of [allocate]: the ids the cloud refused, in order.  A failure to
    save a result is only logged. *)
Fixpoint allocate_vms (vms : list AllocationPendingVmInfo) : Prog (list VmId) :=
  match vms with
  | [] => mret []
  | vm :: vms' =>
    allocationResult ← on_cloud (CloudAllocate (apv_id vm) (apv_capacity vm));
    match allocationResult with
    | Success cloudVmInfo =>
      _ ← on_storage (OpSaveVmAllocationResult (apv_id vm) cloudVmInfo);
      allocate_vms vms'
    | Failure _ => unallocated ← allocate_vms vms'; mret (apv_id vm :: unallocated)
    end
  end.

Definition allocate : Prog unit :=
  vmsToAllocate ← on_storage (OpGetVmsToAllocate (maxVmAllocationCount config));
  match vmsToAllocate with
  | Failure _ => mret tt
  | Success vms =>
    unallocatedVms ← allocate_vms vms;
    match unallocatedVms with
    | [] => mret tt
    | _ =>
      _ ← on_storage (OpRollbackUnallocatedVmsState unallocatedVms
            (vmRestartAttemptCount (alloc_common config)) (jobRestartAttemptCount (alloc_common config)));
      mret tt
    end
  end.

(** The loop of [terminate]. *)
Fixpoint terminate_vms (vms : list TerminationPendingVmInfo) : Prog (list VmId) :=
  match vms with
  | [] => mret []
  | vm :: vms' =>
    terminationResult ← on_cloud (CloudTerminate (tpv_cloudVmId vm));
    match terminationResult with
    | Success _ => _ ← on_storage (OpSaveVmTerminationResult (tpv_id vm)); terminate_vms vms'
    | Failure _ => unterminated ← terminate_vms vms'; mret (tpv_id vm :: unterminated)
    end
  end.

Definition terminate : Prog unit :=
  vmsToTerminate ← on_storage (OpGetVmsToTerminate (maxVmTerminationCount config));
  match vmsToTerminate with
  | Failure _ => mret tt
  | Success vms =>
    unterminatedVms ← terminate_vms vms;
    match unterminatedVms with
    | [] => mret tt
    | _ => _ ← on_storage (OpReturnUnterminatedVms unterminatedVms); mret tt
    end
  end.

Definition untracked (tracked all : list AllocatedVmInfo) : list AllocatedVmInfo :=
  filter (fun vm => vm ∉ tracked) all.

Fixpoint terminate_all (vms : list AllocatedVmInfo) : Prog unit :=
  match vms with
  | [] => mret tt
  | vm :: vms' => _ ← on_cloud (CloudTerminate (av_id vm)); terminate_all vms'
  end.

Definition terminateUntrackedVms : Prog unit :=
  trackedVmsResult ← on_storage OpGetAllocatedVms;
  match trackedVmsResult with
  | Failure _ => mret tt
  | Success trackedVms =>
    allVmsResult ← on_cloud CloudGetAllAllocatedVms;
    match allVmsResult with
    | Failure _ => mret tt
    | Success [] => mret tt
    | Success allVms => terminate_all (untracked trackedVms allVms)
    end
  end.

(** The early return of [terminateUntrackedVms] changes nothing. *)
Lemma terminate_untracked_eq tracked all :
  match all with [] => mret tt | _ => terminate_all (untracked tracked all) end
  = terminate_all (untracked tracked all).
Proof. by destruct all. Qed.
End allocator.
End Allocator.
