(* ===== verification/FailureDetector.v ===== *)
(** * The failure detector (src/libs/failure_detector/impl/failure_detector.cpp) *)

From S2P Require Import Prelude Std Slot State Db Storage Lifecycle StorageRefines Interfaces Allocator.

Record FailureDetectorConfig : Type := mkFailureDetectorConfig {
  allocationTimeLimit : Z; agentStartupTimeLimit : Z; agentInactivityTimeLimit : Z;
  terminationTimeLimit : Z; fd_common : CommonConfig }.

Module FailureDetector.
Section failure_detector.
Context (config : FailureDetectorConfig).

(** Failures are logged and the next step is taken all the same. *)
Definition handleStaleAllocatingVms_ : Prog unit :=
  _ ← on_storage (OpRestartStaleAllocatingVms (allocationTimeLimit config)
        (vmRestartAttemptCount (fd_common config)));
  _ ← on_storage (OpTerminateStaleAllocatingVms (allocationTimeLimit config)
        (vmRestartAttemptCount (fd_common config)) (jobRestartAttemptCount (fd_common config)));
  mret tt.

Definition handleInactiveAgents_ : Prog unit :=
  _ ← on_storage (OpTerminateVmsWithInactiveAgents (agentInactivityTimeLimit config)
        (jobRestartAttemptCount (fd_common config)));
  mret tt.

Definition handleVmsWithoutAgents_ : Prog unit :=
  _ ← on_storage (OpTerminateVmsWithoutAgents (agentStartupTimeLimit config)
        (jobRestartAttemptCount (fd_common config)));
  mret tt.

Definition handleUntrackedVms_ : Prog unit := Allocator.terminateUntrackedVms.

Definition cancelTimedOutJobs_ : Prog unit := _ ← on_storage OpCancelTimedOutJobs; mret tt.

Definition monitor : Prog unit :=
  handleStaleAllocatingVms_ ;;
  handleInactiveAgents_ ;;
  handleVmsWithoutAgents_ ;;
  handleUntrackedVms_ ;;
  cancelTimedOutJobs_.
End failure_detector.
End FailureDetector.
