(* ===== verification/Protocol.v ===== *)
(** * What the processes ask of any storage and any cloud

    Theorems about the scheduler, the allocator and the failure detector that use
    nothing of the storage and the cloud but their interfaces. *)

From S2P Require Import Prelude Std Slot State OrderedJobs Assigner PlanFacts Db Storage Lifecycle StorageRefines.
From S2P Require Import Interfaces Process Scheduler SchedulerFacts Allocator FailureDetector.

Definition told (op : StorageOp) (r : Result (op_value op)) : Event := mkEvent (OnStorage op) r.
Definition replied (c : CloudCall) (a : cloud_answer c) : Event := mkEvent (OnCloud c) a.

(** ** Programs on storages that answer *)

(** The methods of [TaskStorage] are [noexcept] and return a [Result]. *)
Class Answering (S : Type) `{!TaskStorage S} : Prop :=
  storage_answers : forall op (s : S), exists a s', storage_serve op s = (Some a, s').

Section answering.
Context {S : Type} `{!TaskStorage S} `{!Cloud S} `{!Answering S}.

(** The program returns, and its calls and its result are as [Q] says. *)
Definition does {A} (m : Prog A) (Q : list Event -> A -> Prop) : Prop :=
  forall s : S, exists a s', run m s = (Some a, s') /\ Q (trace m s) a.

Lemma does_ret {A} (a : A) (Q : list Event -> A -> Prop) : Q [] a -> does (mret a) Q.
Proof. intros HQ s. by exists a, s. Qed.

Lemma does_bind {A B} (m : Prog A) (f : A -> Prog B) (Q : list Event -> B -> Prop) :
  does m (fun t a => does (f a) (fun t' b => Q (t ++ t') b)) -> does (m ≫= f) Q.
Proof.
  intros Hm s. destruct (Hm s) as (a & s1 & E1 & Hf). destruct (Hf s1) as (b & s2 & E2 & HQ).
  exists b, s2. rewrite run_bind, trace_bind, E1. by split.
Qed.

Lemma does_mono {A} (m : Prog A) (Q Q' : list Event -> A -> Prop) :
  does m Q -> (forall t a, Q t a -> Q' t a) -> does m Q'.
Proof. intros Hm HQ s. destruct (Hm s) as (a & s' & E & ?). exists a, s'. auto. Qed.

Lemma does_storage {A} op (f : Result (op_value op) -> Prog A) (Q : list Event -> A -> Prop) :
  (forall r, does (f r) (fun t => Q (told op r :: t))) -> does (on_storage op ≫= f) Q.
Proof.
  intros Hf. apply does_bind. intros s. destruct (storage_answers op s) as (r & s' & E).
  exists r, s'. cbn. rewrite E. split; [done|apply Hf].
Qed.

Lemma does_cloud {A} c (f : cloud_answer c -> Prog A) (Q : list Event -> A -> Prop) :
  (forall a, does (f a) (fun t => Q (replied c a :: t))) -> does (on_cloud c ≫= f) Q.
Proof.
  intros Hf. apply does_bind. intros s. cbn. destruct (cloud_serve c s) as [a s'].
  exists a, s'. split; [done|apply Hf].
Qed.
End answering.

(** The next call of the program in the goal. *)
Ltac does_call :=
  lazymatch goal with
  | |- does (mbind ?f (on_storage ?op)) ?Q => apply (does_storage op f Q)
  | |- does (mbind ?f (on_cloud ?c)) ?Q => apply (does_cloud c f Q)
  end.

Section allocator.
Context {S : Type} `{!TaskStorage S} `{!Cloud S} `{!Answering S}.

(** ** The allocator *)

(** One VM of [allocate]: what the cloud said and, when it gave an instance, what
    the storage said to saving it.  One VM of [terminate]: likewise. *)
Definition attempt (vm : AllocationPendingVmInfo) (outcome : Result (AllocatedVmInfo * Result unit)) : list Event :=
  let asked := CloudAllocate (apv_id vm) (apv_capacity vm) in
  match outcome with
  | Success (info, saved) => [replied asked (Success info); told (OpSaveVmAllocationResult (apv_id vm) info) saved]
  | Failure e => [replied asked (Failure e)]
  end.

Definition attempt_end (vm : TerminationPendingVmInfo) (outcome : Result (Result unit)) : list Event :=
  let asked := CloudTerminate (tpv_cloudVmId vm) in
  match outcome with
  | Success saved => [replied asked (Success tt); told (OpSaveVmTerminationResult (tpv_id vm)) saved]
  | Failure e => [replied asked (Failure e)]
  end.

(** The ids whose attempt failed. *)
Fixpoint refused {X} (ids : list VmId) (outcomes : list (Result X)) : list VmId :=
  match ids, outcomes with
  | i :: ids', Failure _ :: outcomes' => i :: refused ids' outcomes'
  | _ :: ids', Success _ :: outcomes' => refused ids' outcomes'
  | _, _ => []
  end.

Lemma allocate_vms_does vms :
  does (Allocator.allocate_vms vms) (fun t un => exists outcomes, length outcomes = length vms
    /\ t = concat (zip_with attempt vms outcomes) /\ un = refused (apv_id <$> vms) outcomes).
Proof.
  induction vms as [|vm vms IH]; cbn [Allocator.allocate_vms]; [apply does_ret; by exists []|].
  does_call. intros [info|e].
  - does_call. intros saved. eapply does_mono; [exact IH|].
    intros t un (os & Hl & -> & ->). exists (Success (info, saved) :: os). cbn. by rewrite Hl.
  - apply does_bind. eapply does_mono; [exact IH|]. intros t un (os & Hl & -> & ->). apply does_ret.
    exists (Failure e :: os). cbn. by rewrite Hl, app_nil_r.
Qed.

Lemma terminate_vms_does vms :
  does (Allocator.terminate_vms vms) (fun t un => exists outcomes, length outcomes = length vms
    /\ t = concat (zip_with attempt_end vms outcomes) /\ un = refused (tpv_id <$> vms) outcomes).
Proof.
  induction vms as [|vm vms IH]; cbn [Allocator.terminate_vms]; [apply does_ret; by exists []|].
  does_call. intros [[]|e].
  - does_call. intros saved. eapply does_mono; [exact IH|].
    intros t un (os & Hl & -> & ->). exists (Success saved :: os). cbn. by rewrite Hl.
  - apply does_bind. eapply does_mono; [exact IH|]. intros t un (os & Hl & -> & ->). apply does_ret.
    exists (Failure e :: os). cbn. by rewrite Hl, app_nil_r.
Qed.

(** What was refused goes back to the storage in one call, the last. *)
Definition handed_back (op : list VmId -> StorageOp) (ids : list VmId) (t : list Event) : Prop :=
  match ids with
  | [] => t = []
  | _ => exists r, t = [told (op ids) r]
  end.

Lemma allocate_does config :
  let limits := alloc_common config in
  does (Allocator.allocate config) (fun t _ => exists r t',
    t = told (OpGetVmsToAllocate (maxVmAllocationCount config)) r :: t'
    /\ match r with
       | Failure _ => t' = []
       | Success vms => exists outcomes back, length outcomes = length vms
         /\ t' = concat (zip_with attempt vms outcomes) ++ back
         /\ handed_back (fun ids => OpRollbackUnallocatedVmsState ids (vmRestartAttemptCount limits)
              (jobRestartAttemptCount limits)) (refused (apv_id <$> vms) outcomes) back
       end).
Proof.
  intros limits. unfold Allocator.allocate. does_call. intros [vms|e]; [|by apply does_ret; eexists _, []].
  apply does_bind. eapply does_mono; [apply allocate_vms_does|]. intros t un (os & Hl & -> & ->).
  destruct (refused (apv_id <$> vms) os) as [|v l] eqn:Hr.
  - apply does_ret. eexists (Success vms), _. split; [done|]. exists os, []. rewrite Hr. by rewrite app_nil_r.
  - does_call. intros r. apply does_ret. eexists (Success vms), _. split; [done|].
    eexists os, _. split; [done|]. split; [done|]. rewrite Hr. by exists r.
Qed.

Lemma terminate_does config :
  does (Allocator.terminate config) (fun t _ => exists r t',
    t = told (OpGetVmsToTerminate (maxVmTerminationCount config)) r :: t'
    /\ match r with
       | Failure _ => t' = []
       | Success vms => exists outcomes back, length outcomes = length vms
         /\ t' = concat (zip_with attempt_end vms outcomes) ++ back
         /\ handed_back OpReturnUnterminatedVms (refused (tpv_id <$> vms) outcomes) back
       end).
Proof.
  unfold Allocator.terminate. does_call. intros [vms|e]; [|by apply does_ret; eexists _, []].
  apply does_bind. eapply does_mono; [apply terminate_vms_does|]. intros t un (os & Hl & -> & ->).
  destruct (refused (tpv_id <$> vms) os) as [|v l] eqn:Hr.
  - apply does_ret. eexists (Success vms), _. split; [done|]. exists os, []. rewrite Hr. by rewrite app_nil_r.
  - does_call. intros r. apply does_ret. eexists (Success vms), _. split; [done|].
    eexists os, _. split; [done|]. split; [done|]. rewrite Hr. by exists r.
Qed.
End allocator.

(** ** The failure detector *)

Section failure_detector.
Context {S : Type} `{!TaskStorage S} `{!Cloud S} `{!Answering S}.

Definition passes (config : FailureDetectorConfig) : list StorageOp :=
  let limits := fd_common config in
  [OpRestartStaleAllocatingVms (allocationTimeLimit config) (vmRestartAttemptCount limits);
   OpTerminateStaleAllocatingVms (allocationTimeLimit config) (vmRestartAttemptCount limits)
     (jobRestartAttemptCount limits);
   OpTerminateVmsWithInactiveAgents (agentInactivityTimeLimit config) (jobRestartAttemptCount limits);
   OpTerminateVmsWithoutAgents (agentStartupTimeLimit config) (jobRestartAttemptCount limits)].

Lemma terminate_all_does vms :
  does (Allocator.terminate_all vms) (fun t _ =>
    ev_request <$> t = (fun vm => OnCloud (CloudTerminate (av_id vm))) <$> vms).
Proof.
  induction vms as [|vm vms IH]; cbn [Allocator.terminate_all]; [by apply does_ret|].
  does_call. intros r. eapply does_mono; [exact IH|]. intros t u Ht. rewrite !fmap_cons. by rewrite Ht.
Qed.

(** What [terminateUntrackedVms] asks of the cloud, by what it was told. *)
Definition hunts (tracked : Result (list AllocatedVmInfo)) (t : list Event) : Prop :=
  match tracked with
  | Failure _ => t = []
  | Success known => exists listed t', t = replied CloudGetAllAllocatedVms listed :: t'
    /\ ev_request <$> t' = match listed with
                           | Failure _ => []
                           | Success all => (fun vm => OnCloud (CloudTerminate (av_id vm))) <$> Allocator.untracked known all
                           end
  end.

Lemma terminateUntrackedVms_does :
  does Allocator.terminateUntrackedVms (fun t _ => exists tracked t',
    t = told OpGetAllocatedVms tracked :: t' /\ hunts tracked t').
Proof.
  unfold Allocator.terminateUntrackedVms. does_call. intros [known|e]; [|by apply does_ret; eexists (Failure e), []].
  does_call. intros [all|e].
  - rewrite Allocator.terminate_untracked_eq. eapply does_mono; [apply terminate_all_does|]. intros t [] Ht.
    eexists (Success known), _. split; [done|]. by eexists (Success all), t.
  - apply does_ret. eexists (Success known), _. split; [done|]. by eexists (Failure e), [].
Qed.

Lemma monitor_does config :
  does (FailureDetector.monitor config) (fun t _ => exists t1 tracked t2 cancelled,
    t = t1 ++ told OpGetAllocatedVms tracked :: t2 ++ [told OpCancelTimedOutJobs cancelled]
    /\ ev_request <$> t1 = OnStorage <$> passes config /\ hunts tracked t2).
Proof.
  unfold FailureDetector.monitor, FailureDetector.handleStaleAllocatingVms_, FailureDetector.handleInactiveAgents_,
    FailureDetector.handleVmsWithoutAgents_, FailureDetector.handleUntrackedVms_, FailureDetector.cancelTimedOutJobs_.
  do 3 (apply does_bind; repeat (does_call; intros ?); apply does_ret).
  apply does_bind. eapply does_mono; [apply terminateUntrackedVms_does|]. intros t [] (tracked & t2 & -> & Ht).
  does_call. intros cancelled. apply does_ret.
  eexists [_; _; _; _], tracked, t2, cancelled. by rewrite <- app_comm_cons.
Qed.
End failure_detector.

(** ** The scheduler *)

(** A storage that starts iterations in states from which it answers well-formed
    states. *)
Class PlanningStorage (S : Type) `{!TaskStorage S} (Inv : S -> Prop) : Prop := {
  planning_start : forall b i l s r s', Inv s -> storage_serve (OpStartScheduling b i l) s = (r, s') -> Inv s';
  planning_state : forall s st s', Inv s -> storage_serve OpGetCurrentState s = (Some (Success st), s') -> state_wf st;
}.

(** The plans a storage was asked to commit, with its answers. *)
Definition commit_of (e : Event) : option (StateChange * PlanId * Result unit) :=
  match e with
  | mkEvent r a =>
    match r return answer r -> option (StateChange * PlanId * Result unit) with
    | OnStorage (OpCommitPlanChange c p) => fun a => Some (c, p, a)
    | _ => fun _ => None
    end a
  end.
Definition commits (t : list Event) : list (StateChange * PlanId * Result unit) := omap commit_of t.

(** An answer that is a failure. *)
Definition ev_failed (e : Event) : bool :=
  match e with
  | mkEvent r a =>
    match r return answer r -> bool with
    | OnStorage _ => fun a => IsFailure a
    | OnCloud (CloudAllocate _ _) => fun a => IsFailure a
    | OnCloud (CloudTerminate _) => fun a => IsFailure a
    | OnCloud CloudGetAllAllocatedVms => fun a => IsFailure a
    | OnCloud CloudGetPossibleSlots => fun _ => false
    end a
  end.

Section scheduler.
Context `{StdLib} {S : Type} `{!TaskStorage S} `{!Cloud S} (Inv : S -> Prop) `{!PlanningStorage S Inv}.
Context (id : string) (config : SchedulerConfig) (possibleSlots : list SlotCapacity) (distLock : option (option Z)).
Context (Hconfig : config_usable (vmAssignerType config) (complexVmAssignerConfig config)).
Context (Hslots : Scheduler_accepts possibleSlots = true) (Hwf_slots : Forall slot_wf possibleSlots).

(** The ways an iteration can go, with the calls that were answered. *)
Inductive went : list Event -> option Iteration -> Prop :=
  | went_no_leader : lock_number distLock = None -> went [] (Some NotLeader)
  | went_dead_start ln : lock_number distLock = Some ln -> went [] None
  | went_not_started ln e : lock_number distLock = Some ln ->
      went [told (OpStartScheduling id (schedulingInterval config) ln) (Failure e)] (Some (NotStarted e))
  | went_dead_state ln p : lock_number distLock = Some ln ->
      went [told (OpStartScheduling id (schedulingInterval config) ln) (Success p)] None
  | went_no_state ln p e : lock_number distLock = Some ln ->
      went [told (OpStartScheduling id (schedulingInterval config) ln) (Success p);
            told OpGetCurrentState (Failure e)] (Some (NoState e))
  | went_dead_commit ln p st : lock_number distLock = Some ln ->
      went [told (OpStartScheduling id (schedulingInterval config) ln) (Success p);
            told OpGetCurrentState (Success st)] None
  | went_committed ln p st c r : lock_number distLock = Some ln -> plan_sound st c ->
      createVmAssigner_assign (vmAssignerType config) st (complexVmAssignerConfig config) possibleSlots = Ret c ->
      went [told (OpStartScheduling id (schedulingInterval config) ln) (Success p);
            told OpGetCurrentState (Success st); told (OpCommitPlanChange c p) r]
        (Some (match r with Success _ => Committed p | Failure e => NotCommitted p e end)).

Lemma schedule_goes s : Inv s ->
  went (trace (schedule id config possibleSlots distLock) s) (run (schedule id config possibleSlots distLock) s).1.
Proof.
  intros Hs. unfold schedule. destruct (lock_number distLock) as [ln|] eqn:Hln; [|by apply went_no_leader].
  cbn. destruct (storage_serve _ s) as [[[p|e]|] s1] eqn:E1; [|by apply went_not_started|by eapply went_dead_start].
  apply planning_start in E1; [|done].
  cbn. destruct (storage_serve _ s1) as [[[st|e]|] s2] eqn:E2; [|by apply went_no_state|by apply went_dead_state].
  apply planning_state in E2; [|done].
  destruct (assign_sound (vmAssignerType config) (complexVmAssignerConfig config) st possibleSlots)
    as (c & Hc & Hp); [done|done|by apply accepted_nonempty|done|]. rewrite Hc.
  cbn. destruct (storage_serve _ s2) as [[r|] s3] eqn:E3; [|by eapply went_dead_commit].
  destruct r as [[]|e]; by apply (went_committed ln p st c).
Qed.
End scheduler.

(** ** The processes over the database *)

Ltac asks_call :=
  lazymatch goal with
  | |- asks_only ?P (on_storage ?op) => apply (asks_storage P op); by cbn
  | |- asks_only ?P (on_cloud ?c) => by apply (asks_cloud P c)
  end.
Ltac asks := repeat first [apply asks_ret | asks_call | done | apply asks_bind; [|intros ?] | case_match].

Lemma allocate_asks config : asks_only unconditional (Allocator.allocate config).
Proof.
  assert (forall vms, asks_only unconditional (Allocator.allocate_vms vms)) as Hvms.
  { induction vms as [|vm vms IH]; cbn [Allocator.allocate_vms]; asks. }
  unfold Allocator.allocate. asks.
Qed.

Lemma terminate_asks config : asks_only unconditional (Allocator.terminate config).
Proof.
  assert (forall vms, asks_only unconditional (Allocator.terminate_vms vms)) as Hvms.
  { induction vms as [|vm vms IH]; cbn [Allocator.terminate_vms]; asks. }
  unfold Allocator.terminate. asks.
Qed.

Lemma monitor_asks config : asks_only unconditional (FailureDetector.monitor config).
Proof.
  assert (forall vms, asks_only unconditional (Allocator.terminate_all vms)) as Hvms.
  { induction vms as [|vm vms IH]; cbn [Allocator.terminate_all]; asks. }
  unfold FailureDetector.monitor, FailureDetector.handleStaleAllocatingVms_, FailureDetector.handleInactiveAgents_,
    FailureDetector.handleVmsWithoutAgents_, FailureDetector.handleUntrackedVms_, FailureDetector.cancelTimedOutJobs_,
    Allocator.terminateUntrackedVms. asks.
Qed.

(** The database is a storage to plan on. *)
Lemma pg_planning `{StdLib} `{Postgres} {W : Type} (sch : Schedule) :
  (forall n, other_processes (others sch n)) ->
  @PlanningStorage (World W) (pg_storage sch) (fun w => db_wf (w_db w)).
Proof.
  intros Ho. split.
  - intros b i l w r w' Hw. unfold storage_serve, pg_storage. cbn.
    pose proof (steps_wf _ _ (Ho (w_calls w) _ Hw) Hw) as Hd.
    pose proof (steps_wf _ _ (rtc_once _ _ (step_call (OpStartScheduling b i l) (envs sch (w_calls w))
      (envs sch (w_calls w)) (others sch (w_calls w) (w_db w)) I)) Hd) as Hd'. cbn in Hd'.
    destruct (startScheduling _ _ _ _ _); cbn in *; by intros [= <- <-].
  - intros w st w' Hw. unfold storage_serve, pg_storage. cbn.
    pose proof (steps_wf _ _ (Ho (w_calls w) _ Hw) Hw) as Hd.
    destruct (getCurrentState_spec (envs sch (w_calls w)) (others sch (w_calls w) (w_db w)) Hd) as (r & -> & Hr).
    cbn. intros [= -> _]. by eapply snapshot_wf, Hr.
Qed.
