(* ===== verification/Scripted.v ===== *)
(** * Implementations that answer from a script

    A storage and a cloud whose answer to a call is given by a function, and which
    record the calls they get: what the examples and witnesses about the processes run
    against.  Nothing of the program is modelled here. *)

From S2P Require Import Prelude Std Slot State Db Storage Lifecycle StorageRefines Interfaces Protocol.

Section scripted.
Context (storage : forall op, Result (op_value op)) (cloud : forall c, cloud_answer c).

Definition scripted_storage : TaskStorage (list Event) := fun op calls =>
  (Some (storage op), calls ++ [told op (storage op)]).

Definition scripted_cloud : Cloud (list Event) := fun c calls =>
  (cloud c, calls ++ [replied c (cloud c)]).

#[export] Instance scripted_answers : @Answering (list Event) scripted_storage.
Proof. intros op calls. by eexists _, _. Qed.
End scripted.
