(* ===== verification/AllocatorFacts.v ===== *)
(** * What the allocator and the failure detector achieve *)

From S2P Require Import Prelude Std Slot State Db TxLogic Storage StorageFacts Lifecycle.
From S2P Require Import StorageRefines StorageSpec StorageProgress Scheduler SchedulerFacts VmFacts.
From S2P Require Import Interfaces Process Allocator FailureDetector.

(** A process whose storage calls meet no faults and that is alone. *)
Record undisturbed (sch : Schedule) : Prop := {
  und_quiet : forall n, quiet (envs sch n);
  und_alone : forall n d, others sch n d = d;
}.

(** The names the cloud gives can be written between quotes. *)
Definition plain_names {W} `{CloudClient W} : Prop := forall v s w info w',
  cloud_allocate v s w = (Success info, w') -> no_quote (av_id info) && no_quote (av_type info) = true.

Section allocating.
Context `{StdLib} `{Postgres} {W : Type} `{CloudClient W} (sch : Schedule) (Hsch : undisturbed sch).

(** The row of a VM whose allocation was saved. *)
Definition allocated_row (now : Z) (info : AllocatedVmInfo) (r : VmRow) : VmRow :=
  status_trigger now r (set_v_cloud (av_id info) (av_type info) (set_v_status Allocated r)).

Lemma saveVmAllocationResult_effect v info env db :
  quiet env -> db_wf db -> no_quote (av_id info) && no_quote (av_type info) = true ->
  exists db', saveVmAllocationResult v info env db = Answer (Success tt) db'
    /\ db_wf db' /\ db_jobs db' = db_jobs db
    /\ forall w, db_vms db' !! w = (fun r => if decide (w = v) then allocated_row (env_now env) info r else r)
                                   <$> db_vms db !! w.
Proof.
  intros Hq Hwf Hn. unfold saveVmAllocationResult. rewrite execWritableQuery_quiet by done.
  unfold save_allocation_query. rewrite Hn. eexists. split; [done|]. split.
  { eapply change_wf; [|exact Hwf]. apply update_vms_refines. constructor. }
  split; [done|]. intros w. rewrite update_vms_lookup. destruct (db_vms db !! w); [|done]. cbn. f_equal.
  by case_decide; [rewrite bool_decide_eq_true_2|rewrite bool_decide_eq_false_2].
Qed.

Definition row_allocated (r : VmRow) : Prop :=
  v_status r = Allocated /\ is_Some (v_cloud_vm_id r) /\ is_Some (v_cloud_vm_type r).

Lemma allocated_row_ok now info r : row_allocated (allocated_row now info r).
Proof. unfold allocated_row, status_trigger, row_allocated. case_decide; cbn; eauto. Qed.

(** What the loop over the handed-out VMs leaves. *)
Record allocation_done (ids unallocated : list VmId) (db db' : Db) : Prop := {
  ad_wf : db_wf db';
  ad_jobs : db_jobs db' = db_jobs db;
  ad_sub : forall v, v ∈ unallocated -> v ∈ ids;
  ad_done : forall v r, v ∈ ids -> v ∉ unallocated -> db_vms db !! v = Some r ->
    exists r', db_vms db' !! v = Some r' /\ row_allocated r';
  ad_rest : forall v, v ∉ ids \/ v ∈ unallocated -> db_vms db' !! v = db_vms db !! v;
}.

Lemma allocate_vms_spec vms : plain_names -> forall w,
  db_wf (w_db w) -> NoDup (apv_id <$> vms) ->
  exists unallocated w', process sch (Allocator.allocate_vms vms) w = (Some unallocated, w')
    /\ allocation_done (apv_id <$> vms) unallocated (w_db w) (w_db w').
Proof.
  intros Hplain. induction vms as [|vm vms IH]; intros w Hwf Hnd.
  { exists [], w. split; [done|]. split; try done; set_solver. }
  rewrite fmap_cons in Hnd. apply NoDup_cons in Hnd as [Hvm Hnd]. cbn [Allocator.allocate_vms].
  process_step.
  destruct (cloud_allocate (apv_id vm) (apv_capacity vm) (w_cloud w)) as [[info|e] c] eqn:Hc.
  - process_step. rewrite (und_alone _ Hsch).
    destruct (saveVmAllocationResult_effect (apv_id vm) info (envs sch (w_calls w)) (w_db w))
      as (db1 & -> & Hwf1 & Hj1 & Hv1); [apply Hsch|done|by eapply Hplain|].
    match goal with |- context [process sch (Allocator.allocate_vms vms) ?w1] =>
      destruct (IH w1) as (un & w' & -> & Had) end; [done|done|].
    exists un, w'. split; [done|]. destruct Had as [Hwf' Hj Hsub Hdone Hrest]. cbn [w_db] in *.
    rewrite fmap_cons. split; [done|congruence|set_solver| |].
    + intros v r [->|Hin]%elem_of_cons Hun Hr.
      * rewrite Hrest by (by left). rewrite Hv1, Hr. cbn. rewrite decide_True by done.
        eexists. split; [done|]. apply allocated_row_ok.
      * apply (Hdone v r); [done|done|]. rewrite Hv1, Hr. cbn.
        rewrite decide_False; [done|]. intros ->. done.
    + intros v Hv. assert (v <> apv_id vm) as Hne.
      { intros ->. destruct Hv as [Hv|Hv]; [|by apply Hvm, Hsub]. apply Hv. left. }
      rewrite Hrest by set_solver. rewrite Hv1. destruct (db_vms (w_db w) !! v); [|done]. cbn.
      by rewrite decide_False.
  - process_step. match goal with |- context [process sch (Allocator.allocate_vms vms) ?w1] =>
      destruct (IH w1) as (un & w' & -> & Had) end; [done|done|].
    eexists _, w'. split; [done|]. destruct Had as [Hwf' Hj Hsub Hdone Hrest]. cbn [w_db] in *.
    rewrite fmap_cons. split; [done|done|set_solver| |].
    + intros v r [->|Hin]%elem_of_cons Hun Hr; [set_solver|]. apply (Hdone v r); set_solver.
    + intros v Hv. destruct (decide (v = apv_id vm)) as [->|Hne]; [by apply Hrest; left|].
      apply Hrest. set_solver.
Qed.

(** Where a VM that was handed out may be afterwards. *)
Definition settled (r : VmRow) : Prop :=
  row_allocated r \/ v_status r = PendingAllocation \/ v_status r = Terminated.

(** What the two transactions of [rollbackUnallocatedVmsState] do to a row. *)
Definition rolled_back (l : list VmId) (n now1 now2 : Z) (v : VmId) (r : VmRow) : VmRow :=
  if retried (VmIdIn l) n now1 v r then retry_row now1 r
  else if given_up (VmIdIn l) Allocating n now2 v r
  then status_trigger now2 r (set_v_status Terminated r)
  else r.

Lemma rolled_back_settled l n now1 now2 v r :
  v ∈ l -> v_status r = Allocating -> settled (rolled_back l n now1 now2 v r).
Proof.
  intros Hv Hs. unfold rolled_back, retried, given_up, vm_condition.
  rewrite Hs, !bool_decide_eq_true_2 by done. cbn [andb].
  destruct (Z.ltb_spec (v_restart_count r) n); cbn [andb].
  - right; left. apply retry_row_status.
  - rewrite (proj2 (Z.geb_le _ _)) by lia. right; right. unfold status_trigger. by case_decide.
Qed.

Lemma rolled_back_other l n now1 now2 v r : v ∉ l -> rolled_back l n now1 now2 v r = r.
Proof.
  intros Hv. unfold rolled_back, retried, given_up, vm_condition.
  by rewrite (bool_decide_eq_false_2 (v ∈ l)), !andb_false_r.
Qed.

(** A run of [allocate]: the VMs [l] it was handed, those the cloud refused, and
    what became of every row. *)
Record allocate_run (config : AllocatorConfig) (w w' : World W) (l : list AllocationPendingVmInfo)
    (unallocated : list VmId) (db1 : Db) (w1 w2 : World W) (now1 now2 : Z) : Prop := {
  ar_handed : handed_out PendingAllocation Allocating (maxVmAllocationCount config)
    (envs sch (w_calls w)) (apv_id <$> l) (w_db w) db1;
  ar_capacity : forall a, a ∈ l -> exists r, db_vms (w_db w) !! apv_id a = Some r /\ apv_capacity a = vm_total r;
  ar_before : w_db w1 = db1 /\ w_cloud w1 = w_cloud w /\ db_wf db1;
  ar_loop : process sch (Allocator.allocate_vms l) w1 = (Some unallocated, w2);
  ar_done : allocation_done (apv_id <$> l) unallocated db1 (w_db w2);
  ar_cloud : w_cloud w' = w_cloud w2;
  ar_rows : forall v, db_vms (w_db w') !! v
    = rolled_back unallocated (vmRestartAttemptCount (alloc_common config)) now1 now2 v <$> db_vms (w_db w2) !! v;
  ar_none : unallocated = [] -> w' = w2;
}.

Lemma allocate_runs config w :
  plain_names -> db_wf (w_db w) -> maxVmAllocationCount config < 2 ^ 63 ->
  vmRestartAttemptCount (alloc_common config) < 2 ^ 31 -> jobRestartAttemptCount (alloc_common config) < 2 ^ 31 ->
  exists w' l un db1 w1 w2 now1 now2, process sch (Allocator.allocate config) w = (Some tt, w')
    /\ allocate_run config w w' l un db1 w1 w2 now1 now2.
Proof.
  intros Hplain Hwf Hmax Hn Hm. unfold Allocator.allocate. process_step.
  rewrite (und_alone _ Hsch).
  destruct (getVmsToAllocate_hands_out (maxVmAllocationCount config) (envs sch (w_calls w)) (w_db w))
    as (l & db1 & E1 & Hho & Hcap); [apply Hsch|done|done|]. rewrite E1. process_step.
  assert (db_wf db1) as Hwf1.
  { pose proof (op_refines (OpGetVmsToAllocate (maxVmAllocationCount config))
      (envs sch (w_calls w)) (envs sch (w_calls w)) (w_db w) I Hwf) as Hr. cbn [op_db] in Hr.
    rewrite E1 in Hr. by eapply changes_wf. }
  match goal with |- context [process sch (Allocator.allocate_vms l) ?w1] =>
    set (wa := w1); destruct (allocate_vms_spec l Hplain wa) as (un & w2 & Hloop & Had); [done|by apply Hho|] end.
  rewrite Hloop. cbn [w_db wa] in Had. destruct un as [|u0 un].
  - exists w2, l, [], db1, wa, w2, 0, 0. split; [done|]. split; try done. intros v.
    rewrite <- (option_fmap_id (db_vms (w_db w2) !! v)) at 1.
    apply option_fmap_ext. intros r. by rewrite rolled_back_other by set_solver.
  - process_step. rewrite (und_alone _ Hsch). unfold rollbackUnallocatedVmsState.
    destruct (retry_or_give_up (VmIdIn (u0 :: un)) (vmRestartAttemptCount (alloc_common config))
      (jobRestartAttemptCount (alloc_common config)) (envs sch (w_calls w2)) (envs sch (S (w_calls w2))) (w_db w2))
      as (db3 & db4 & -> & E4 & HV & _); [apply Hsch|apply Hsch|apply Had|done|done|done|].
    cbn [then_call]. rewrite E4. eexists _, l, (u0 :: un), db1, wa, w2, _, _.
    split; [done|]. split; [done|done|done|done|done|done| |done]. apply HV.
Qed.

Lemma allocate_settles config w :
  plain_names -> db_wf (w_db w) -> maxVmAllocationCount config < 2 ^ 63 ->
  vmRestartAttemptCount (alloc_common config) < 2 ^ 31 -> jobRestartAttemptCount (alloc_common config) < 2 ^ 31 ->
  exists ids w', process sch (Allocator.allocate config) w = (Some tt, w')
    /\ Z.of_nat (length ids) <= Z.max (maxVmAllocationCount config) 0
    /\ (forall v r, v ∈ ids -> db_vms (w_db w) !! v = Some r -> v_status r = PendingAllocation
          /\ exists r', db_vms (w_db w') !! v = Some r' /\ settled r')
    /\ (forall v, v ∉ ids -> db_vms (w_db w') !! v = db_vms (w_db w) !! v)
    /\ (Z.of_nat (length ids) < maxVmAllocationCount config ->
          forall v r, db_vms (w_db w) !! v = Some r -> v_status r = PendingAllocation ->
            v ∉ env_locked (envs sch (w_calls w)) -> v ∈ ids).
Proof.
  intros Hplain Hwf Hmax Hn Hm.
  destruct (allocate_runs config w) as (w' & l & un & db1 & w1 & w2 & now1 & now2 & E & Hrun); [done..|].
  destruct Hrun as [Hho _ _ _ [_ _ Hsub Hdone Hrest] _ Hrows _]. exists (apv_id <$> l), w'.
  split; [done|]. split; [apply Hho|]. split; [|split; [|apply Hho]].
  - intros v r Hv Hr. destruct (ho_was _ _ _ _ _ _ _ Hho v Hv) as (r0 & Hr0 & Hs0 & _ & Hr1).
    split; [congruence|]. rewrite Hrows. destruct (decide (v ∈ un)) as [Hun|Hun].
    + rewrite Hrest, Hr1 by (by right). eexists. split; [done|]. apply rolled_back_settled; [done|].
      unfold status_trigger. by case_decide.
    + destruct (Hdone v _ Hv Hun Hr1) as (r' & -> & Hal). eexists. split; [done|].
      rewrite rolled_back_other by done. by left.
  - intros v Hv. rewrite Hrows, Hrest, (ho_rest _ _ _ _ _ _ _ Hho) by (done || by left).
    destruct (db_vms (w_db w) !! v) as [r|]; [|done]. apply (f_equal Some), rolled_back_other.
    intros Hin. by apply Hv, Hsub.
Qed.
End allocating.
