(* ===== verification/Api.v ===== *)
(** * The gRPC services (src/libs/server/impl/{public_api_service,agent_api_service,helpers}.cpp)

    A handler makes at most one storage call and turns its result into a gRPC
    status and a response.  The messages are those of the .proto files; the texts
    of error statuses are left out. *)

From S2P Require Import Prelude Std Slot State Db Storage.

(** ** Messages *)

Inductive ProtoJobStatus : Type :=
  | JOB_QUEUED | JOB_RUNNING | JOB_COMPLETED | JOB_CANCELLED | JOB_FAILED.

Inductive ProtoTaskStatus : Type := TASK_QUEUED | TASK_RUNNING | TASK_COMPLETED.

#[export] Instance ProtoJobStatus_eq_dec : EqDecision ProtoJobStatus.
Proof. solve_decision. Defined.
#[export] Instance ProtoTaskStatus_eq_dec : EqDecision ProtoTaskStatus.
Proof. solve_decision. Defined.

Record ProtoTask : Type := mkProtoTask {
  pt_cpu_cores : Z; pt_memory_mb : Z; pt_execution_s : Z; pt_settings : string; pt_job_count : Z;
  pt_image_version : string; pt_client_id : string; pt_job_options : list string }.

Record ProtoTaskState : Type := mkProtoTaskState {
  pts_status : ProtoTaskStatus; pts_job_states : list ProtoJobStatus }.

(** A job result carries its URL when one is set. *)
Record ProtoTaskExecutionResult : Type := mkProtoTaskExecutionResult {
  ptr_status : ProtoTaskStatus; ptr_job_results : list (ProtoJobStatus * option string) }.

Record ProtoJobToLaunch : Type := mkProtoJobToLaunch {
  pj_id : Z; pj_image_version : string; pj_memory_mb : Z; pj_cpu_cores : Z;
  pj_task_settings : string; pj_job_options : string }.

(** [ExecutionJobState]; [result_url()] is empty when the field is absent. *)
Record ProtoExecutionJobState : Type := mkProtoExecutionJobState {
  pe_vm_id : Z; pe_job_id : Z; pe_status : ProtoJobStatus; pe_result_url : option string }.

(** ** Replies *)

Inductive GrpcCode : Type := INVALID_ARGUMENT | NOT_FOUND | CANCELLED | INTERNAL.

(** What the caller sees: OK with a response, an error status, an exception that
    left the handler, or the end of the server. *)
Inductive Reply (A : Type) : Type :=
  | ReplyOk (a : A)
  | ReplyStatus (code : GrpcCode)
  | ReplyThrow
  | ReplyDead.
Arguments ReplyOk {A} _.
Arguments ReplyStatus {A} _.
Arguments ReplyThrow {A}.
Arguments ReplyDead {A}.

Definition reply_to {A B} (c : Call A) (on_error : Exn -> Reply B) (on_value : A -> Reply B) : Reply B * Db :=
  match c with
  | Answer (Success a) db => (on_value a, db)
  | Answer (Failure e) db => (on_error e, db)
  | Crash db => (ReplyDead, db)
  end.

Definition jobStatusToProto (s : JobStatus) : ProtoJobStatus :=
  match s with
  | Queued | Scheduled => JOB_QUEUED
  | Running => JOB_RUNNING
  | Completed => JOB_COMPLETED
  | Cancelling | Cancelled => JOB_CANCELLED
  | Error | InternalError => JOB_FAILED
  end.

Definition protoJobStatusToJobStatus (s : ProtoJobStatus) : JobStatus :=
  match s with
  | JOB_QUEUED => Queued
  | JOB_RUNNING => Running
  | JOB_COMPLETED => Completed
  | JOB_CANCELLED => Cancelled
  | JOB_FAILED => Error
  end.

(** ** Public API *)

(** The JSON parser the service validates with (rapidjson). *)
Class JsonParser : Type := { json_valid : string -> bool }.

Section public_api.
Context `{Postgres} `{JsonParser}.

Definition validateJson (s : string) : Result unit :=
  if json_valid s then Success tt else Failure InputValidationException.

Fixpoint validate_options (options : list string) : Result unit :=
  match options with
  | [] => Success tt
  | o :: options' =>
    match validateJson o with
    | Failure e => Failure e
    | Success _ => validate_options options'
    end
  end.

Definition validateProtoTaskParameters (task : ProtoTask) : Result unit :=
  if negb (Z.of_nat (length (pt_job_options task)) =? pt_job_count task)
  then Failure InputValidationException
  else
    match validateJson (pt_settings task) with
    | Failure e => Failure e
    | Success _ => validate_options (pt_job_options task)
    end.

Definition taskParametersFromProto (task : ProtoTask) : Result TaskParameters :=
  match validateProtoTaskParameters task with
  | Failure e => Failure e
  | Success _ =>
    Success (mkTask (mkSlot (pt_cpu_cores task) (pt_memory_mb task)) (pt_execution_s task)
               (pt_job_count task) (pt_settings task) (pt_image_version task) (pt_client_id task)
               (pt_job_options task))
  end.

Definition jobStatesToTaskStatus (protoJobStates : list ProtoJobStatus) : ProtoTaskStatus :=
  if existsb (fun s => bool_decide (s = JOB_RUNNING)) protoJobStates then TASK_RUNNING
  else if existsb (fun s => bool_decide (s = JOB_QUEUED)) protoJobStates then TASK_QUEUED
  else TASK_COMPLETED.

Definition protoTaskStateFromJobStates (jobStates : list JobState) : ProtoTaskState :=
  let protoJobStates := (fun j => jobStatusToProto (js_status j)) <$> jobStates in
  mkProtoTaskState (jobStatesToTaskStatus protoJobStates) protoJobStates.

Definition protoTaskExecutionResultFromJobStates (jobStates : list JobState) : ProtoTaskExecutionResult :=
  let protoJobResults := (fun j => (jobStatusToProto (js_status j), js_resultUrl j)) <$> jobStates in
  mkProtoTaskExecutionResult (jobStatesToTaskStatus protoJobResults.*1) protoJobResults.

(** A refused insertion is reported through [taskParameters.ErrorRefOrThrow()],
    which holds a value: it throws. *)
Definition api_addTask (protoTask : ProtoTask) (env : Env) (db : Db) : Reply TaskId * Db :=
  match taskParametersFromProto protoTask with
  | Failure _ => (ReplyStatus INVALID_ARGUMENT, db)
  | Success taskParameters =>
    reply_to (addTask taskParameters env db)
      (fun _ => match ErrorRefOrThrow (Success taskParameters) with
                | None => ReplyThrow
                | Some _ => ReplyStatus INTERNAL
                end)
      (fun created => ReplyOk (cj_taskId created))
  end.

Definition api_getTaskState (taskId : TaskId) (env : Env) (db : Db) : Reply ProtoTaskState * Db :=
  reply_to (getJobStates taskId env db) (fun _ => ReplyStatus INTERNAL)
    (fun jobStates => match jobStates with
                      | [] => ReplyStatus NOT_FOUND
                      | _ => ReplyOk (protoTaskStateFromJobStates jobStates)
                      end).

Definition api_getTaskResult (taskId : TaskId) (env : Env) (db : Db) : Reply ProtoTaskExecutionResult * Db :=
  reply_to (getJobStates taskId env db) (fun _ => ReplyStatus INTERNAL)
    (fun jobStates => match jobStates with
                      | [] => ReplyStatus NOT_FOUND
                      | _ => ReplyOk (protoTaskExecutionResultFromJobStates jobStates)
                      end).

Definition api_cancelRunningJobs (taskId : TaskId) (env : Env) (db : Db) : Reply unit * Db :=
  reply_to (cancelTask taskId env db) (fun _ => ReplyStatus INTERNAL) ReplyOk.

Definition api_healthCheck (db : Db) : Reply unit * Db := (ReplyOk tt, db).
End public_api.

(** ** Agent API *)

Section agent_api.
Context `{Postgres}.

Definition setAssignedJobs (assignedJobs : list AssignedJob) : list (Z * ProtoJobStatus) :=
  (fun j => (aj_id j, jobStatusToProto (aj_status j))) <$> assignedJobs.

Definition setJobToLaunch (job : JobToLaunch) : ProtoJobToLaunch :=
  mkProtoJobToLaunch (jl_id job) (jl_imageVersion job) (ram (jl_capacityLimits job))
    (cpu (jl_capacityLimits job)) (jl_taskSettings job) (jl_jobOptions job).

Definition protoExecutionJobStateToJobState (p : ProtoExecutionJobState) : JobState :=
  mkJobState (protoJobStatusToJobStatus (pe_status p)) (Some (default EmptyString (pe_result_url p))).

Definition getAllowedAgentUpdateJobStatuses : list JobStatus := [Running; Completed; Cancelled; Error].

Definition api_getAssignedJobs (vmId : VmId) (env : Env) (db : Db)
  : Reply (list (Z * ProtoJobStatus)) * Db :=
  reply_to (getAssignedJobs vmId env db) (fun _ => ReplyStatus INTERNAL)
    (fun jobs => ReplyOk (setAssignedJobs jobs)).

Definition api_getJobToLaunch (vmId : VmId) (jobId : JobId) (env : Env) (db : Db)
  : Reply ProtoJobToLaunch * Db :=
  reply_to (getJobToLaunch vmId jobId env db)
    (fun e => if holdsErrorType (Failure (A := unit) e) JobNotFoundException then ReplyStatus NOT_FOUND else ReplyStatus INTERNAL)
    (fun job => ReplyOk (setJobToLaunch job)).

Definition api_updateJobState (p : ProtoExecutionJobState) (env : Env) (db : Db) : Reply unit * Db :=
  let jobState := protoExecutionJobStateToJobState p in
  if bool_decide (js_status jobState ∈ getAllowedAgentUpdateJobStatuses) then
    reply_to (updateJobState (pe_vm_id p) (pe_job_id p) jobState env db)
      (fun e => if holdsErrorType (Failure (A := unit) e) JobNotFoundException then ReplyStatus NOT_FOUND
                else if holdsErrorType (Failure (A := unit) e) JobCancelledException then ReplyStatus CANCELLED
                else ReplyStatus INTERNAL)
      ReplyOk
  else (ReplyStatus INVALID_ARGUMENT, db).
End agent_api.
