(* ===== verification/Client.v ===== *)
(** * A client of the public API (src/libs/server/impl/test_utils.cpp)

    A client that adds a task and waits for its end by polling, and what it is told: the
    state of the task's jobs, which stays what it is once none of them can run. *)

From S2P Require Import Prelude Std Slot State Db TxLogic Storage StorageFacts Lifecycle StorageRefines StorageSpec.
From S2P Require Import Interfaces Process Scheduler SchedulerFacts Api.

(** ** The client *)

Definition generateProtoTask : ProtoTask :=
  mkProtoTask 2 1000 60 "{}" 2 "version" "client id" ["{}"%string; "{}"%string].

(** The assertions on the status: [None] is the end of the client. *)
Definition assert_ok {A} (reply : Reply A * Db) : option A * Db :=
  match reply with
  | (ReplyOk a, db) => (Some a, db)
  | (_, db) => (None, db)
  end.

(** One turn of the client: what happens on the database before it, and its environment. *)
Definition Turn : Type := (Db -> Db) * Env.

Section client.
Context `{Postgres} `{JsonParser}.

Definition client_addTask (task : ProtoTask) (turn : Turn) (db : Db) : option TaskId * Db :=
  assert_ok (api_addTask task turn.2 (turn.1 db)).

(** [polls]: the turns for which the time does not run out. *)
Fixpoint waitTaskForComplete (taskId : TaskId) (polls : list Turn) (last : Turn) (db : Db)
  : option ProtoTaskExecutionResult * Db :=
  match polls with
  | [] => assert_ok (api_getTaskResult taskId last.2 (last.1 db))
  | turn :: polls' =>
    match assert_ok (api_getTaskState taskId turn.2 (turn.1 db)) with
    | (None, db1) => (None, db1)
    | (Some taskState, db1) =>
      if bool_decide (pts_status taskState = TASK_COMPLETED)
      then assert_ok (api_getTaskResult taskId last.2 (last.1 db1))
      else waitTaskForComplete taskId polls' last db1
    end
  end.
End client.

(** ** Statuses *)

Lemma proto_queued s : jobStatusToProto s = JOB_QUEUED <-> s = Queued \/ s = Scheduled.
Proof. destruct s; cbn; naive_solver. Qed.

Lemma proto_running s : jobStatusToProto s = JOB_RUNNING <-> s = Running.
Proof. destruct s; cbn; naive_solver. Qed.

Lemma existsb_status (x : ProtoJobStatus) l : existsb (fun s => bool_decide (s = x)) l = true <-> x ∈ l.
Proof.
  rewrite existsb_exists. setoid_rewrite bool_decide_eq_true. setoid_rewrite <- list_elem_of_In.
  split; [by intros (y & ? & ->)|eauto].
Qed.

Lemma task_status_running l : jobStatesToTaskStatus l = TASK_RUNNING <-> JOB_RUNNING ∈ l.
Proof.
  rewrite <- existsb_status. unfold jobStatesToTaskStatus. case_bool; [done|]. by case_bool.
Qed.

Lemma task_status_completed l :
  jobStatesToTaskStatus l = TASK_COMPLETED <-> (JOB_RUNNING ∉ l) /\ (JOB_QUEUED ∉ l).
Proof.
  rewrite <- !existsb_status. unfold jobStatesToTaskStatus. case_bool; [naive_solver|].
  case_bool; naive_solver.
Qed.

(** The statuses a task's query reports. *)
Lemma reported_status `{Postgres} t (jobs : gmap Z JobRow) s :
  s ∈ (fun j => jobStatusToProto (js_status j)) <$>
      (read_job_state <$> sql_rows (fun _ r => bool_decide (j_task_id r = t)) jobs)
  <-> exists i r, jobs !! i = Some r /\ j_task_id r = t /\ jobStatusToProto (j_status r) = s.
Proof.
  rewrite <- list_fmap_compose, list_elem_of_fmap. split.
  - intros ([i r] & -> & Hin). apply sql_rows_elem in Hin as [Hr Ht]. apply bool_decide_eq_true in Ht. eauto.
  - intros (i & r & Hr & Ht & <-). exists (i, r). split; [done|]. apply sql_rows_elem.
    by rewrite bool_decide_eq_true.
Qed.

Section task.
Context `{Postgres} (t : TaskId).

(** No job of the task can run any more. *)
Definition all_final (jobs : gmap Z JobRow) : Prop :=
  forall i r, jobs !! i = Some r -> j_task_id r = t -> job_final (j_status r) = true.

Definition task_rows (jobs : gmap Z JobRow) : list (Z * JobRow) :=
  sql_rows (fun _ r => bool_decide (j_task_id r = t)) jobs.

Lemma reported_completed jobs :
  jobStatesToTaskStatus ((fun j => jobStatusToProto (js_status j)) <$> (read_job_state <$> task_rows jobs))
    = TASK_COMPLETED <-> all_final jobs.
Proof.
  unfold task_rows. rewrite task_status_completed, !reported_status.
  setoid_rewrite proto_running. setoid_rewrite proto_queued. split.
  - intros [Hrun Hqueue] i r Hr Ht. destruct (j_status r) eqn:Hs; try done; exfalso;
      [apply Hqueue|apply Hqueue|apply Hrun]; exists i, r; auto.
  - intros Hall. split; intros (i & r & Hr & Ht & Hs); specialize (Hall i r Hr Ht);
      [by rewrite Hs in Hall|by destruct Hs as [Hs|Hs]; rewrite Hs in Hall].
Qed.

Definition has_jobs (db : Db) : Prop := exists i r, db_jobs db !! i = Some r /\ j_task_id r = t.

Lemma task_rows_some db : has_jobs db -> task_rows (db_jobs db) <> [].
Proof.
  intros (i & r & Hr & Ht) He. apply (not_elem_of_nil (i, r)). rewrite <- He. apply sql_rows_elem.
  by rewrite bool_decide_eq_true.
Qed.

Definition state_of (db : Db) : ProtoTaskState := protoTaskStateFromJobStates (read_job_state <$> task_rows (db_jobs db)).
Definition result_of (db : Db) : ProtoTaskExecutionResult :=
  protoTaskExecutionResultFromJobStates (read_job_state <$> task_rows (db_jobs db)).

Lemma asks_state env db : quiet env -> has_jobs db -> api_getTaskState t env db = (ReplyOk (state_of db), db).
Proof.
  intros Hq Hj%task_rows_some. unfold api_getTaskState. rewrite getJobStates_quiet by done. cbn [reply_to].
  unfold state_of. fold (task_rows (db_jobs db)). by destruct (task_rows (db_jobs db)).
Qed.

Lemma asks_result env db : quiet env -> has_jobs db -> api_getTaskResult t env db = (ReplyOk (result_of db), db).
Proof.
  intros Hq Hj%task_rows_some. unfold api_getTaskResult. rewrite getJobStates_quiet by done. cbn [reply_to].
  unfold result_of. fold (task_rows (db_jobs db)). by destruct (task_rows (db_jobs db)).
Qed.

Lemma result_status db : ptr_status (result_of db) = TASK_COMPLETED <-> all_final (db_jobs db).
Proof.
  rewrite <- reported_completed. unfold result_of, protoTaskExecutionResultFromJobStates. cbn [ptr_status].
  by rewrite <- list_fmap_compose.
Qed.

(** ** What later calls leave of it *)

Context `{StdLib}.

Lemma has_jobs_later a b : db_wf a -> rtc step a b -> has_jobs a -> has_jobs b.
Proof.
  intros Hwf Hs (i & r & Hr & Ht). destruct (changes_jobs_evolve a b (steps_refine a b Hs Hwf) i r Hr) as (r' & Hr' & He).
  exists i, r'. split; [done|]. by rewrite (ev_task _ _ He).
Qed.

(** A task without open jobs keeps its rows. *)
Lemma final_rows_kept a b : db_wf a -> rtc step a b -> has_jobs a -> all_final (db_jobs a) ->
  task_rows (db_jobs b) = task_rows (db_jobs a).
Proof.
  intros Hwf Hs (i0 & r0 & Hr0 & Ht0) Hfin. pose proof (steps_refine a b Hs Hwf) as Hch.
  assert (is_Some (db_tasks a !! t)) as Hex by (rewrite <- Ht0; by apply (jr_task _ _ _ (wf_jobs _ Hwf _ _ Hr0))).
  unfold task_rows, sql_rows. f_equal. apply map_eq. intros i. apply option_eq. intros r.
  rewrite !map_lookup_filter_Some, !bool_decide_eq_true. cbn. split.
  - intros [Hr Ht]. destruct (tc_jobs _ _ (changes_tasks_closed a b Hch) i r Hr) as (r' & Hr' & Et); [by rewrite Ht|].
    destruct (changes_jobs_evolve a b Hch i r' Hr') as (r'' & Hr'' & He). rewrite Hr in Hr''. injection Hr'' as <-.
    rewrite (ev_frozen _ _ He); [split; [done|congruence]|]. apply (Hfin i r' Hr'). congruence.
  - intros [Hr Ht]. destruct (changes_jobs_evolve a b Hch i r Hr) as (r' & Hr' & He).
    rewrite (ev_frozen _ _ He) in Hr' by (by apply (Hfin i r Hr)). done.
Qed.

(** The client is told what the database holds at its last turn. *)
Lemma wait_tells polls last db :
  db_wf db -> has_jobs db -> Forall (fun turn => other_processes turn.1 /\ quiet turn.2) (last :: polls) ->
  exists db', waitTaskForComplete t polls last db = (Some (result_of db'), db') /\ rtc step db db' /\ has_jobs db'.
Proof.
  intros Hwf Hj [[Hlo Hlq] Hp]%Forall_cons.
  assert (forall d, db_wf d -> has_jobs d ->
    exists db', assert_ok (api_getTaskResult t last.2 (last.1 d)) = (Some (result_of db'), db')
      /\ rtc step d db' /\ has_jobs db') as Hend.
  { intros d Hd Hdj. exists (last.1 d). pose proof (has_jobs_later d _ Hd (Hlo d Hd) Hdj) as Hj'.
    rewrite asks_result by done. auto. }
  revert db Hwf Hj. induction Hp as [|[o env] polls [Ho Hq] _ IH]; intros db Hwf Hj; cbn [waitTaskForComplete]; [by auto|].
  cbn in Ho, Hq |- *. pose proof (Ho db Hwf) as Hs. pose proof (steps_wf _ _ Hs Hwf) as Hwf1.
  pose proof (has_jobs_later db _ Hwf Hs Hj) as Hj1. rewrite asks_state by done. cbn [assert_ok].
  assert (exists db', (if bool_decide (pts_status (state_of (o db)) = TASK_COMPLETED)
      then assert_ok (api_getTaskResult t last.2 (last.1 (o db))) else waitTaskForComplete t polls last (o db))
      = (Some (result_of db'), db') /\ rtc step (o db) db' /\ has_jobs db') as (db' & E & Hs' & Hj').
  { case_bool_decide; auto. }
  exists db'. split; [done|]. split; [by etrans|done].
Qed.
End task.
