(* ===== verification/Agent.v ===== *)
(** * The agent (src/client, Go)

    The program on every VM: a goroutine that polls the server for the jobs assigned
    to the VM, one that launches containers, and one per container that waits for its
    end and reports it.  They share [State], a struct of maps behind a mutex.  Every
    critical section and every call to the server is one event; the scheduling of the
    goroutines, the answers of the Docker daemon and of S3, lost messages and the
    order in which a map is ranged over are part of the events.

    A Go map is nil until it is made; reading a nil map finds nothing, deleting from
    it does nothing, and writing to it panics, which ends the process. *)

From Stdlib Require Import Ascii.
From stdpp Require Import pretty.
From S2P Require Import Prelude Std Slot State Db Storage Api.

(** ** Go maps *)

Definition GoMap (V : Type) : Type := option (gmap Z V).

Definition map_get {V} (k : Z) (m : GoMap V) : option V :=
  match m with Some t => t !! k | None => None end.

(** [m[k] = v]; [None] is the panic. *)
Definition map_set {V} (k : Z) (v : V) (m : GoMap V) : option (GoMap V) :=
  match m with Some t => Some (Some (<[k := v]> t)) | None => None end.

Definition map_delete {V} (k : Z) (m : GoMap V) : GoMap V :=
  match m with Some t => Some (delete k t) | None => None end.

Definition map_keys {V} (m : GoMap V) : list Z := (map_to_list (default ∅ m)).*1.

(** An order in which [range] may visit the keys of a map. *)
Definition ranges {V} (m : GoMap V) (keys : list Z) : bool := bool_decide (keys ≡ₚ map_keys m).

(** [int64] arithmetic. *)
Definition int64 (z : Z) : Z := let r := z mod 2 ^ 64 in if r <? 2 ^ 63 then r else r - 2 ^ 64.

(** ** registry/state.go *)

Record JobInfo : Type := mkJobInfo {
  ImageVersion : string; Limits_Cpu : Z; Limits_Ram : Z; TaskSettings : string; JobOptions : string }.

Record AgentState : Type := mkAgentState {
  assignedJobs : GoMap unit; readyToRunJobs : GoMap unit; cancelledJobs : GoMap unit;
  runningJobs : GoMap unit; jobIdToInfo : GoMap JobInfo }.

(** [State{}] and, for comparison, a state whose maps are made. *)
Definition zero_state : AgentState := mkAgentState None None None None None.
Definition made_state : AgentState := mkAgentState (Some ∅) (Some ∅) (Some ∅) (Some ∅) (Some ∅).

Definition with_assigned (m : GoMap unit) (s : AgentState) : AgentState :=
  mkAgentState m (readyToRunJobs s) (cancelledJobs s) (runningJobs s) (jobIdToInfo s).
Definition with_cancelled (m : GoMap unit) (s : AgentState) : AgentState :=
  mkAgentState (assignedJobs s) (readyToRunJobs s) m (runningJobs s) (jobIdToInfo s).

Fixpoint AddAssignedJobs (jobIds : list JobId) (s : AgentState) : option AgentState :=
  match jobIds with
  | [] => Some s
  | jobId :: jobIds' =>
    match map_get jobId (readyToRunJobs s) with
    | Some _ => AddAssignedJobs jobIds' s
    | None => m ← map_set jobId tt (assignedJobs s); AddAssignedJobs jobIds' (with_assigned m s)
    end
  end.

(** The keys are written one after the other into a slice of the size of the map;
    an index beyond it panics. *)
Fixpoint fill_keys (keys : list JobId) (i : nat) (range : list JobId) : option (list JobId) :=
  match range with
  | [] => Some keys
  | k :: range' =>
    if decide (i < length keys)%nat then fill_keys (<[i := k]> keys) (S i) range' else None
  end.

Definition GetJobsForInfo (range : list JobId) (s : AgentState) : option (list JobId) :=
  fill_keys (replicate (length (map_keys (assignedJobs s))) 0) 0 range.

Definition UpdateJobInfos (id : JobId) (info : JobInfo) (s : AgentState) : option AgentState :=
  infos ← map_set id info (jobIdToInfo s);
  ready ← map_set id tt (readyToRunJobs s);
  Some (mkAgentState (map_delete id (assignedJobs s)) ready (cancelledJobs s) (runningJobs s) infos).

Fixpoint AddCancelledJobs (jobIds : list JobId) (s : AgentState) : option AgentState :=
  match jobIds with
  | [] => Some s
  | jobId :: jobIds' =>
    m ← map_set jobId tt (cancelledJobs s); AddCancelledJobs jobIds' (with_cancelled m s)
  end.

(** [cancelJobs]; nothing calls it. *)
Definition cancelJobs (jobIds : list JobId) (s : AgentState) : AgentState :=
  foldl (fun s j => mkAgentState (assignedJobs s) (readyToRunJobs s) (map_delete j (cancelledJobs s))
    (runningJobs s) (map_delete j (jobIdToInfo s))) s jobIds.

(** The first job the range visits; its info is nil when the map has none. *)
Definition GetReadyToRunJob (range : list JobId) (s : AgentState)
  : option (option (JobId * option JobInfo) * AgentState) :=
  match range with
  | [] => Some (None, s)
  | jobId :: _ =>
    running ← map_set jobId tt (runningJobs s);
    Some (Some (jobId, map_get jobId (jobIdToInfo s)),
          mkAgentState (assignedJobs s) (map_delete jobId (readyToRunJobs s)) (cancelledJobs s) running
            (jobIdToInfo s))
  end.

Definition ReturnFailedToLaunchJob (jobId : JobId) (s : AgentState) : option AgentState :=
  ready ← map_set jobId tt (readyToRunJobs s);
  Some (mkAgentState (assignedJobs s) ready (cancelledJobs s) (map_delete jobId (runningJobs s)) (jobIdToInfo s)).

Definition CompleteJob (jobId : JobId) (s : AgentState) : AgentState :=
  mkAgentState (assignedJobs s) (readyToRunJobs s) (cancelledJobs s) (map_delete jobId (runningJobs s))
    (map_delete jobId (jobIdToInfo s)).

(** ** poller/server_api.go *)

Record JobAssignments : Type := mkAssignments {
  assignedJobIds : list JobId; cancelledJobIds : list JobId }.

(** [None] is an error of the call. *)
Definition getAssignments (response : option (list (Z * ProtoJobStatus))) : JobAssignments :=
  match response with
  | None => mkAssignments [] []
  | Some jobs =>
    mkAssignments (filter (fun j => j.2 <> JOB_CANCELLED) jobs).*1 (filter (fun j => j.2 = JOB_CANCELLED) jobs).*1
  end.

Definition getAssignedJobInfo (response : option ProtoJobToLaunch) : option JobInfo :=
  (fun r => mkJobInfo (pj_image_version r) (pj_cpu_cores r) (pj_memory_mb r) (pj_task_settings r)
     (pj_job_options r)) <$> response.

(** ** docker_utils/helpers.go *)

Definition job_name (jobId : JobId) : string := "job-" +:+ pretty jobId.

Record ContainerConfig : Type := mkContainer {
  cc_name : string; cc_image : string; cc_cmd : list string; cc_source : string; cc_target : string;
  cc_memory : Z; cc_nano_cpus : Z }.

Definition CreateContainer (jobName : string) (jobInfo : JobInfo) : ContainerConfig :=
  mkContainer jobName (ImageVersion jobInfo)
    ["--setting"; "/task/settings.json"; "--job-options"; "/task/job_options.json"; "--output"; "/task/result.json"]
    ("/" +:+ jobName) "/task"
    (int64 (int64 (int64 (Limits_Ram jobInfo) * 1024) * 1024)) (int64 (int64 (Limits_Cpu jobInfo) * 10000000000)).

(** ** s3_utils/helpers.go *)

(** Opening the file, creating a session, and uploading: the location, or an error. *)
Definition UploadFileToS3 (opened session : bool) (location : option string) : option string :=
  if opened && session then location else None.

(** ** runner/run_job.go *)

(** What the Docker daemon answers to pulling, creating and starting. *)
Record DockerAnswers : Type := mkDocker { d_pulled : bool; d_created : bool; d_started : bool }.

(** [Some true] when the container runs, [Some false] on an error; reading the image
    through a nil info panics. *)
Definition runJobContainer (d : DockerAnswers) (jobInfo : option JobInfo) : option bool :=
  _ ← jobInfo; Some (d_pulled d && d_created d && d_started d).

(** A container was created under the name of the job. *)
Definition takes_name (d : DockerAnswers) (jobInfo : option JobInfo) : bool :=
  bool_decide (is_Some jobInfo) && d_pulled d && d_created d.

(** How waiting for a container ends: an error, which may be nil, or a status,
    whose exit code is not looked at, followed by the upload of the result. *)
Inductive WaitOutcome : Type :=
  | WaitError (err : bool)
  | WaitStatus (exitCode : Z) (opened session : bool) (location : option string).

(** The report that is sent, if any, and whether [CompleteJob] is reached. *)
Definition handleContainerCompletion (w : WaitOutcome) (jobId : JobId) (vmId : VmId)
  : option ProtoExecutionJobState * bool :=
  match w with
  | WaitError true => (Some (mkProtoExecutionJobState vmId jobId JOB_FAILED None), true)
  | WaitError false => (None, true)
  | WaitStatus _ opened session location =>
    match UploadFileToS3 opened session location with
    | None => (None, false)
    | Some resultUrl => (Some (mkProtoExecutionJobState vmId jobId JOB_COMPLETED (Some resultUrl)), true)
    end
  end.

(** ** The goroutines *)

(** Where [PollSchedulerForAssignments] is: waiting for a tick; with an answer; with
    the cancelled jobs added; with the assigned jobs added; asking for infos. *)
Inductive Poller : Type :=
  | PollIdle
  | PollGot (a : JobAssignments)
  | PollCancelledAdded (assigned : list JobId)
  | PollAssignedAdded
  | PollInfos (jobIds : list JobId).

(** Where [RunJobs] is: waiting for a tick; at the head of the inner loop; with a job
    to launch; with a job that could not be launched. *)
Inductive JobRunner : Type :=
  | RunIdle
  | RunLoop
  | RunLaunch (jobId : JobId) (jobInfo : option JobInfo)
  | RunFailed (jobId : JobId).

(** Where the goroutine of a container is. *)
Inductive Waiter : Type :=
  | Waits (jobId : JobId)
  | Completes (jobId : JobId).

(** The process, and the names of the containers that exist on its VM. *)
Record Agent : Type := mkAgent {
  ag_vm : VmId; ag_state : AgentState; ag_poller : Poller; ag_runner : JobRunner; ag_waiters : list Waiter;
  ag_names : gset string }.

(** A process that starts with the given state, on a VM with the given containers. *)
Definition start_agent (init : AgentState) (vm : VmId) (names : gset string) : Agent :=
  mkAgent vm init PollIdle RunIdle [] names.

(** [CreateRegistry]: [State: State{}]. *)
Definition CreateRegistry : VmId -> gset string -> Agent := start_agent zero_state.

Definition in_poller (p : Poller) (s : AgentState) (a : Agent) : Agent :=
  mkAgent (ag_vm a) s p (ag_runner a) (ag_waiters a) (ag_names a).
Definition in_runner (r : JobRunner) (s : AgentState) (a : Agent) : Agent :=
  mkAgent (ag_vm a) s (ag_poller a) r (ag_waiters a) (ag_names a).
Definition in_waiters (l : list Waiter) (s : AgentState) (a : Agent) : Agent :=
  mkAgent (ag_vm a) s (ag_poller a) (ag_runner a) l (ag_names a).

(** ** Calls to the server *)

Inductive Delivery : Type := Delivered | RequestLost | ReplyLost.

(** What the caller gets; an error status is an error. *)
Definition rpc {A} (d : Delivery) (handler : Db -> Reply A * Db) (db : Db) : option A * Db :=
  match d with
  | RequestLost => (None, db)
  | ReplyLost => (None, (handler db).2)
  | Delivered =>
    match handler db with
    | (ReplyOk a, db') => (Some a, db')
    | (_, db') => (None, db')
    end
  end.

(** ** Events *)

(** Of the poller, of the runner, and of the [n]-th goroutine that waits for a container. *)
Inductive PollEvent : Type :=
  | EvPoll (d : Delivery) (env : Env)
  | EvAddCancelled
  | EvAddAssigned
  | EvList (range : list JobId)
  | EvInfo (d : Delivery) (env : Env)
  | EvPolled.

Inductive RunEvent : Type :=
  | EvTick
  | EvPick (range : list JobId)
  | EvRun (d : DockerAnswers)
  | EvReturn.

Inductive WaitEvent : Type :=
  | EvEnd (w : WaitOutcome) (d : Delivery) (env : Env)
  | EvComplete.

Inductive AgentEvent : Type :=
  | OfPoller (e : PollEvent)
  | OfRunner (e : RunEvent)
  | OfWaiter (n : nat) (e : WaitEvent).

(** The process goes on, or a panic ends it. *)
Inductive Next : Type := Goes (a : Agent) | Panics.

Definition goes (f : AgentState -> Agent) (o : option AgentState) : Next :=
  match o with Some s => Goes (f s) | None => Panics end.

(** [PollSchedulerForAssignments]; [None] when the goroutine is elsewhere. *)
Definition poller_exec `{Postgres} (e : PollEvent) (a : Agent) (db : Db) : option (Next * Db) :=
  let s := ag_state a in
  match e, ag_poller a with
  | EvPoll d env, PollIdle =>
    let '(response, db') := rpc d (api_getAssignedJobs (ag_vm a) env) db in
    Some (Goes (in_poller (PollGot (getAssignments response)) s a), db')
  | EvAddCancelled, PollGot asg =>
    Some (goes (fun s' => in_poller (PollCancelledAdded (assignedJobIds asg)) s' a)
            (AddCancelledJobs (cancelledJobIds asg) s), db)
  | EvAddAssigned, PollCancelledAdded assigned =>
    Some (goes (fun s' => in_poller PollAssignedAdded s' a) (AddAssignedJobs assigned s), db)
  | EvList range, PollAssignedAdded =>
    if ranges (assignedJobs s) range
    then Some (match GetJobsForInfo range s with
               | Some jobIds => Goes (in_poller (PollInfos jobIds) s a)
               | None => Panics
               end, db)
    else None
  | EvInfo d env, PollInfos (jobId :: jobIds) =>
    let '(response, db') := rpc d (api_getJobToLaunch (ag_vm a) jobId env) db in
    Some (goes (fun s' => in_poller (PollInfos jobIds) s' a)
            (match getAssignedJobInfo response with
             | Some info => UpdateJobInfos jobId info s
             | None => Some s
             end), db')
  | EvPolled, PollInfos [] => Some (Goes (in_poller PollIdle s a), db)
  | _, _ => None
  end.

(** [RunJobs].  The Docker daemon gives a name only once. *)
Definition runner_exec (e : RunEvent) (a : Agent) : option Next :=
  let s := ag_state a in
  match e, ag_runner a with
  | EvTick, RunIdle => Some (Goes (in_runner RunLoop s a))
  | EvPick range, RunLoop =>
    if ranges (readyToRunJobs s) range
    then Some (match GetReadyToRunJob range s with
               | Some (Some (jobId, jobInfo), s') => Goes (in_runner (RunLaunch jobId jobInfo) s' a)
               | Some (None, s') => Goes (in_runner RunIdle s' a)
               | None => Panics
               end)
    else None
  | EvRun d, RunLaunch jobId jobInfo =>
    let names' := if takes_name d jobInfo then {[job_name jobId]} ∪ ag_names a else ag_names a in
    if takes_name d jobInfo && bool_decide (job_name jobId ∈ ag_names a) then None
    else
      Some (match runJobContainer d jobInfo with
            | Some true => Goes (mkAgent (ag_vm a) s (ag_poller a) RunLoop (ag_waiters a ++ [Waits jobId]) names')
            | Some false => Goes (mkAgent (ag_vm a) s (ag_poller a) (RunFailed jobId) (ag_waiters a) names')
            | None => Panics
            end)
  | EvReturn, RunFailed jobId =>
    Some (goes (fun s' => in_runner RunLoop s' a) (ReturnFailedToLaunchJob jobId s))
  | _, _ => None
  end.

(** [handleContainerCompletion], with the report it sends. *)
Definition waiter_exec `{Postgres} (n : nat) (e : WaitEvent) (a : Agent) (db : Db)
  : option (Next * option ProtoExecutionJobState * Db) :=
  let s := ag_state a in
  match e, ag_waiters a !! n with
  | EvEnd w d env, Some (Waits jobId) =>
    let '(report, completes) := handleContainerCompletion w jobId (ag_vm a) in
    let db' := match report with
               | Some p => (rpc d (api_updateJobState p env) db).2
               | None => db
               end in
    let l := if completes : bool then <[n := Completes jobId]> (ag_waiters a) else delete n (ag_waiters a) in
    Some (Goes (in_waiters l s a), report, db')
  | EvComplete, Some (Completes jobId) =>
    Some (Goes (in_waiters (delete n (ag_waiters a)) (CompleteJob jobId s) a), None, db)
  | _, _ => None
  end.

(** A step of the agent: what becomes of it, the report it sends, and the database.
    [None] when the event cannot happen. *)
Definition agent_exec `{Postgres} (e : AgentEvent) (a : Agent) (db : Db)
  : option (Next * option ProtoExecutionJobState * Db) :=
  match e with
  | OfPoller e => '(next, db') ← poller_exec e a db; Some (next, None, db')
  | OfRunner e => next ← runner_exec e a; Some (next, None, db)
  | OfWaiter n e => waiter_exec n e a db
  end.
