(* ===== verification/Base64.v ===== *)
(** * Base64 (src/libs/common/impl/base64.cpp)

    [base64Encode] as it is written, on bytes read through a signed [char], with
    the [size_t] arithmetic of its loop bound, reads through [operator[]] and
    writes into a buffer of computed length; the encoding of RFC 4648 as a
    function on groups of three bytes, and its decoder. *)

From S2P Require Import Prelude.
From Stdlib Require Import Ascii.

(** ** The code *)

Definition sEncodingTable : list ascii :=
  String.list_ascii_of_string "ABCDEFGHIJKLMNOPQRSTUVWXYZabcdefghijklmnopqrstuvwxyz0123456789+/".

(** The value of the [char] that holds a byte: plain [char] is signed here. *)
Definition char_value (b : Z) : Z := if b <? 128 then b else b - 256.

(** [data[i]]: the position after the last character holds a zero. *)
Definition char_at (data : list Z) (i : Z) : Outcome Z :=
  if (0 <=? i) && (i <? Z.of_nat (length data)) then
    deref (char_value <$> data !! Z.to_nat i)
  else if i =? Z.of_nat (length data) then Ret 0 else Undefined.

(** [*p++ = sEncodingTable[v]], and the same for a character; [p] starts at a
    buffer of [out_len] characters and must not leave it. *)
Definition put (out_len : Z) (c : ascii) (out : list ascii) : Outcome (list ascii) :=
  if Z.of_nat (length out) <? out_len then Ret (out ++ [c]) else Undefined.

Definition put_code (out_len v : Z) (out : list ascii) : Outcome (list ascii) :=
  if 0 <=? v then c ← deref (sEncodingTable !! Z.to_nat v); put out_len c out else Undefined.

Definition first_code (c : Z) : Z := Z.land (Z.shiftr c 2) 63.
Definition second_code (c d : Z) : Z :=
  Z.lor (Z.shiftl (Z.land c 3) 4) (Z.shiftr (Z.land d 240) 4).
Definition third_code (d e : Z) : Z :=
  Z.lor (Z.shiftl (Z.land d 15) 2) (Z.shiftr (Z.land e 192) 6).
Definition fourth_code (e : Z) : Z := Z.land e 63.

(** The body of the loop, statement by statement. *)
Definition encode_group (data : list Z) (out_len i : Z) (out : list ascii) : Outcome (list ascii) :=
  c ← char_at data i;
  out ← put_code out_len (first_code c) out;
  d ← char_at data (i + 1);
  out ← put_code out_len (second_code c d) out;
  e ← char_at data (i + 2);
  out ← put_code out_len (third_code d e) out;
  put_code out_len (fourth_code e) out.

Fixpoint encode_loop (fuel : nat) (data : list Z) (out_len i : Z) (out : list ascii)
  : Outcome (Z * list ascii) :=
  if i <? size_t_wrap (Z.of_nat (length data) - 2) then
    match fuel with
    | O => NoFuel
    | S fuel' =>
      out ← encode_group data out_len i out;
      encode_loop fuel' data out_len (size_t_wrap (i + 3)) out
    end
  else Ret (i, out).

Definition encode_rest (data : list Z) (out_len i : Z) (out : list ascii) : Outcome (list ascii) :=
  let in_len := Z.of_nat (length data) in
  if i <? in_len then
    c ← char_at data i;
    out ← put_code out_len (first_code c) out;
    out ← (if i =? in_len - 1 then
             out ← put_code out_len (Z.shiftl (Z.land c 3) 4) out;
             put out_len "="%char out
           else
             d ← char_at data (i + 1);
             out ← put_code out_len (second_code c d) out;
             put_code out_len (Z.shiftl (Z.land d 15) 2) out);
    put out_len "="%char out
  else Ret out.

(** What was not written stays zero. *)
Definition base64Encode (data : list Z) : Outcome (list ascii) :=
  let out_len := 4 * ((Z.of_nat (length data) + 2) / 3) in
  '(i, out) ← encode_loop (S (length data)) data out_len 0 [];
  out ← encode_rest data out_len i out;
  Ret (out ++ replicate (Z.to_nat out_len - length out) zero).

(** ** The encoding *)

Definition code_char (v : Z) : ascii := default zero (sEncodingTable !! Z.to_nat v).

Fixpoint base64 (data : list Z) : list ascii :=
  match data with
  | [] => []
  | [a] => [code_char (a / 4); code_char (a mod 4 * 16); "="%char; "="%char]
  | [a; b] => [code_char (a / 4); code_char (a mod 4 * 16 + b / 16); code_char (b mod 16 * 4); "="%char]
  | a :: b :: c :: rest =>
    code_char (a / 4) :: code_char (a mod 4 * 16 + b / 16)
    :: code_char (b mod 16 * 4 + c / 64) :: code_char (c mod 64) :: base64 rest
  end.

Definition char_code (c : ascii) : option Z :=
  Z.of_nat ∘ fst <$> list_find (eq c) sEncodingTable.

Fixpoint base64_decode (text : list ascii) : option (list Z) :=
  match text with
  | [] => Some []
  | [a; b; c; d] =>
    x ← char_code a; y ← char_code b;
    if decide (c = "="%char) then
      if decide (d = "="%char) then Some [x * 4 + y / 16] else None
    else
      z ← char_code c;
      if decide (d = "="%char) then Some [x * 4 + y / 16; y mod 16 * 16 + z / 4]
      else w ← char_code d; Some [x * 4 + y / 16; y mod 16 * 16 + z / 4; z mod 4 * 64 + w]
  | a :: b :: c :: d :: rest =>
    x ← char_code a; y ← char_code b; z ← char_code c; w ← char_code d;
    bytes ← base64_decode rest;
    Some (x * 4 + y / 16 :: y mod 16 * 16 + z / 4 :: z mod 4 * 64 + w :: bytes)
  | _ => None
  end.

Abbreviation bytes data := (Forall (fun b => 0 <= b < 256) data).

(** ** Codes *)

(** Quotients and remainders by constants are for [lia]. *)
Local Ltac Zify.zify_post_hook ::= Z.to_euclidean_division_equations.

(** A property of small numbers by evaluation. *)
Lemma below_by_evaluation (n : Z) (p : Z -> bool) :
  forallb p (seqZ 0 n) = true -> forall x, 0 <= x < n -> p x = true.
Proof.
  intros Hall x Hx. apply (proj1 (forallb_forall _ _) Hall).
  apply list_elem_of_In, elem_of_seqZ. lia.
Qed.

Section codes.
Context (b : Z) (Hb : 0 <= b < 256).

Lemma first_code_byte : first_code (char_value b) = b / 4.
Proof.
  apply Z.eqb_eq. revert b Hb. apply (below_by_evaluation 256 (fun b => first_code (char_value b) =? b / 4)).
  vm_compute. reflexivity.
Qed.

Lemma low_bits_byte k m : (k, m) = (3, 4) \/ (k, m) = (15, 16) \/ (k, m) = (63, 64) ->
  Z.land (char_value b) k = b mod m.
Proof.
  assert (forallb (fun b => forallb (fun km => Z.land (char_value b) km.1 =? b mod km.2)
    [(3, 4); (15, 16); (63, 64)]) (seqZ 0 256) = true) as Hall by (vm_compute; reflexivity).
  pose proof (below_by_evaluation 256 _ Hall b Hb) as H. cbn in H.
  intros [[= -> ->]|[[= -> ->]|[= -> ->]]]; lia.
Qed.

Lemma high_bits_byte k s m : (k, s, m) = (240, 4, 16) \/ (k, s, m) = (192, 6, 64) ->
  Z.shiftr (Z.land (char_value b) k) s = b / m.
Proof.
  assert (forallb (fun b => forallb (fun ksm => Z.shiftr (Z.land (char_value b) ksm.1.1) ksm.1.2 =? b / ksm.2)
    [(240, 4, 16); (192, 6, 64)]) (seqZ 0 256) = true) as Hall by (vm_compute; reflexivity).
  pose proof (below_by_evaluation 256 _ Hall b Hb) as H. cbn in H.
  intros [[= -> -> ->]|[= -> -> ->]]; lia.
Qed.
End codes.

(** The two halves of a code do not overlap. *)
Lemma lor_halves x y k m : (k, m) = (4, 16) \/ (k, m) = (2, 4) -> 0 <= x < 64 -> 0 <= y < m ->
  Z.lor (Z.shiftl x k) y = x * m + y.
Proof.
  intros Hkm Hx Hy.
  assert (forallb (fun x => forallb (fun y => Z.lor (Z.shiftl x 4) y =? x * 16 + y) (seqZ 0 16)
      && forallb (fun y => Z.lor (Z.shiftl x 2) y =? x * 4 + y) (seqZ 0 4)) (seqZ 0 64) = true) as Hall
    by (vm_compute; reflexivity).
  pose proof (below_by_evaluation 64 _ Hall x Hx) as H. cbv beta in H. apply andb_true_iff in H as [H1 H2].
  destruct Hkm as [[= -> ->]|[= -> ->]]; apply Z.eqb_eq.
  - exact (below_by_evaluation 16 _ H1 y Hy).
  - exact (below_by_evaluation 4 _ H2 y Hy).
Qed.

Lemma second_code_bytes a b (Ha : 0 <= a < 256) (Hb : 0 <= b < 256) :
  second_code (char_value a) (char_value b) = a mod 4 * 16 + b / 16.
Proof.
  unfold second_code. rewrite (low_bits_byte a Ha 3 4), (high_bits_byte b Hb 240 4 16) by auto.
  apply lor_halves; [auto|lia..].
Qed.

Lemma third_code_bytes b c (Hb : 0 <= b < 256) (Hc : 0 <= c < 256) :
  third_code (char_value b) (char_value c) = b mod 16 * 4 + c / 64.
Proof.
  unfold third_code. rewrite (low_bits_byte b Hb 15 16), (high_bits_byte c Hc 192 6 64) by auto.
  apply lor_halves; [auto|lia..].
Qed.

Lemma fourth_code_byte c (Hc : 0 <= c < 256) : fourth_code (char_value c) = c mod 64.
Proof. apply low_bits_byte; auto. Qed.
Lemma put_code_ok out_len v out :
  0 <= v < 64 -> Z.of_nat (length out) < out_len -> put_code out_len v out = Ret (out ++ [code_char v]).
Proof.
  intros Hv Hlen. unfold put_code, put, code_char. rewrite (proj2 (Z.leb_le 0 v)) by lia.
  destruct (lookup_lt_is_Some_2 sEncodingTable (Z.to_nat v)) as [c Hc]; [change (length sEncodingTable) with 64%nat; lia|].
  rewrite Hc. cbn. by rewrite (proj2 (Z.ltb_lt _ _) Hlen).
Qed.

Lemma char_at_ok data i b : data !! i = Some b -> char_at data (Z.of_nat i) = Ret (char_value b).
Proof.
  intros Hb. pose proof (lookup_lt_Some _ _ _ Hb). unfold char_at.
  rewrite (proj2 (Z.leb_le 0 _)), (proj2 (Z.ltb_lt (Z.of_nat i) _)), Nat2Z.id, Hb by lia. done.
Qed.

(** ** The loop *)

Lemma base64_length data : Z.of_nat (length (base64 data)) = 4 * ((Z.of_nat (length data) + 2) / 3).
Proof.
  induction data as [data IH] using (induction_ltof1 _ length). unfold ltof in IH.
  destruct data as [|a [|b [|c rest]]]; [done..|].
  cbn [base64 length]. rewrite !Nat2Z.inj_succ, IH by (cbn; lia).
  replace (Z.succ (Z.succ (Z.succ (Z.of_nat (length rest)))) + 2)
    with (Z.of_nat (length rest) + 2 + 1 * 3) by lia.
  rewrite Z.div_add by lia. lia.
Qed.

Section encoding.
Context (data : list Z) (Hbytes : bytes data).
Context (Hlen : 2 <= Z.of_nat (length data) < 2 ^ 63).
Local Abbreviation out_len := (4 * ((Z.of_nat (length data) + 2) / 3)).

(** A position that exists, as the code counts. *)
Lemma char_at_after pre l j b :
  data = pre ++ l -> l !! j = Some b -> char_at data (Z.of_nat (length pre) + Z.of_nat j) = Ret (char_value b).
Proof.
  intros -> Hj. rewrite <- Nat2Z.inj_add. apply char_at_ok.
  rewrite lookup_app_r by lia. by rewrite Nat.add_comm, Nat.add_sub.
Qed.

Lemma char_at_first pre b l : data = pre ++ b :: l -> char_at data (Z.of_nat (length pre)) = Ret (char_value b).
Proof. intros Hd. rewrite <- (Z.add_0_r (Z.of_nat _)). by apply (char_at_after pre (b :: l) 0). Qed.

Lemma encode_group_ok pre a b c rest out :
  data = pre ++ a :: b :: c :: rest -> 3 * Z.of_nat (length out) = 4 * Z.of_nat (length pre) ->
  encode_group data out_len (Z.of_nat (length pre)) out = Ret (out ++ base64 [a; b; c]).
Proof.
  intros Hd Hl. assert (bytes (a :: b :: c :: rest)) as Hb.
  { pose proof Hbytes as H. rewrite Hd in H. by apply Forall_app in H as [_ H]. }
  apply Forall_cons in Hb as [Ha Hb]. apply Forall_cons in Hb as [Hb Hc]. apply Forall_cons in Hc as [Hc _].
  assert (Z.of_nat (length data) = Z.of_nat (length pre) + 3 + Z.of_nat (length rest)) as Hsize
    by (rewrite Hd, length_app; cbn; lia).
  unfold encode_group.
  rewrite (char_at_first pre a _ Hd).
  rewrite (char_at_after pre _ 1 b Hd eq_refl : char_at data (Z.of_nat (length pre) + 1) = _). rewrite (char_at_after pre _ 2 c Hd eq_refl : char_at data (Z.of_nat (length pre) + 2) = _).
  cbn [mbind outcome_bind].
  rewrite first_code_byte, second_code_bytes, third_code_bytes, fourth_code_byte by done.
  repeat (rewrite put_code_ok by (rewrite ?length_app; cbn [length]; lia); cbn [mbind outcome_bind]).
  by rewrite <- !app_assoc.
Qed.

Lemma encode_rest_ok pre rest out :
  data = pre ++ rest -> (length rest < 3)%nat -> 3 * Z.of_nat (length out) = 4 * Z.of_nat (length pre) ->
  encode_rest data out_len (Z.of_nat (length pre)) out = Ret (out ++ base64 rest).
Proof.
  intros Hd Hr Hl. assert (bytes rest) as Hb.
  { pose proof Hbytes as H. rewrite Hd in H. by apply Forall_app in H as [_ H]. }
  assert (Z.of_nat (length data) = Z.of_nat (length pre) + Z.of_nat (length rest)) as Hsize
    by (rewrite Hd, length_app; lia).
  unfold encode_rest. destruct rest as [|a [|b [|]]]; cbn [length] in *; [| | |lia].
  - rewrite (proj2 (Z.ltb_ge _ _)) by lia. by rewrite app_nil_r.
  - apply Forall_cons in Hb as [Ha _]. rewrite (proj2 (Z.ltb_lt _ _)) by lia.
    rewrite (char_at_first pre a _ Hd).
    cbn [mbind outcome_bind]. rewrite first_code_byte by done.
    rewrite put_code_ok by lia. cbn [mbind outcome_bind]. rewrite (proj2 (Z.eqb_eq _ _)) by lia.
    rewrite (low_bits_byte a Ha 3 4), Z.shiftl_mul_pow2 by (auto; lia).
    rewrite put_code_ok by (rewrite ?length_app; cbn [length]; lia). cbn [mbind outcome_bind].
    unfold put. repeat (rewrite (proj2 (Z.ltb_lt _ _)) by (rewrite ?length_app; cbn [length]; lia); cbn [mbind outcome_bind]).
    by rewrite <- !app_assoc.
  - apply Forall_cons in Hb as [Ha Hb]. apply Forall_cons in Hb as [Hb _]. rewrite (proj2 (Z.ltb_lt _ _)) by lia.
    rewrite (char_at_first pre a _ Hd).
    cbn [mbind outcome_bind]. rewrite first_code_byte by done.
    rewrite put_code_ok by lia. cbn [mbind outcome_bind]. rewrite (proj2 (Z.eqb_neq _ _)) by lia.
    rewrite (char_at_after pre _ 1 b Hd eq_refl : char_at data (Z.of_nat (length pre) + 1) = _). cbn [mbind outcome_bind].
    rewrite second_code_bytes, (low_bits_byte b Hb 15 16), (Z.shiftl_mul_pow2 _ 2) by (auto; lia).
    repeat (rewrite put_code_ok by (rewrite ?length_app; cbn [length]; lia); cbn [mbind outcome_bind]).
    unfold put. rewrite (proj2 (Z.ltb_lt _ _)) by (rewrite ?length_app; cbn [length]; lia).
    by rewrite <- !app_assoc.
Qed.

Lemma encode_from fuel pre rest out :
  data = pre ++ rest -> (length rest <= fuel)%nat -> 3 * Z.of_nat (length out) = 4 * Z.of_nat (length pre) ->
  ('(i, out) ← encode_loop fuel data out_len (Z.of_nat (length pre)) out; encode_rest data out_len i out)
  = Ret (out ++ base64 rest).
Proof.
  revert pre rest out. induction fuel as [|fuel IH]; intros pre rest out Hd Hf Hl.
  - destruct rest; [|cbn in Hf; lia]. rewrite app_nil_r in Hd. subst pre. cbn [encode_loop].
    rewrite size_t_wrap_small, (proj2 (Z.ltb_ge _ _)) by lia. cbn [mbind outcome_bind].
    apply encode_rest_ok; [by rewrite app_nil_r|cbn; lia|done].
  - assert (Z.of_nat (length data) = Z.of_nat (length pre) + Z.of_nat (length rest)) as Hsize
      by (rewrite Hd, length_app; lia).
    cbn [encode_loop]. rewrite size_t_wrap_small by lia.
    destruct rest as [|a [|b [|c rest]]]; cbn [length] in *;
      try (rewrite (proj2 (Z.ltb_ge _ _)) by lia; cbn [mbind outcome_bind];
           by apply encode_rest_ok; [done|cbn; lia|done]).
    rewrite (proj2 (Z.ltb_lt _ _)) by lia. rewrite (encode_group_ok pre a b c rest) by done.
    cbn [mbind outcome_bind]. rewrite size_t_wrap_small by lia.
    replace (Z.of_nat (length pre) + 3) with (Z.of_nat (length (pre ++ [a; b; c]))) by (rewrite length_app; cbn; lia).
    rewrite (IH (pre ++ [a; b; c]) rest); [by rewrite <- app_assoc|by rewrite <- app_assoc|lia|].
    rewrite !length_app. cbn [length base64]. lia.
Qed.

Lemma base64Encode_ok : base64Encode data = Ret (base64 data).
Proof.
  unfold base64Encode. pose proof (encode_from (S (length data)) [] data []) as H.
  change (Z.of_nat (length [])) with 0 in H. specialize (H eq_refl (Nat.le_succ_diag_r _) eq_refl). cbn [app] in H.
  destruct (encode_loop _ _ _ _ _) as [[i out]| |]; cbn [mbind outcome_bind] in *; [|done..].
  rewrite H. cbn. f_equal. rewrite <- base64_length, Nat2Z.id, Nat.sub_diag. apply app_nil_r.
Qed.
End encoding.

(** ** Decoding *)

Lemma char_code_code_char v : 0 <= v < 64 -> char_code (code_char v) = Some v.
Proof.
  intros Hv. assert (forallb (fun v => bool_decide (char_code (code_char v) = Some v)) (seqZ 0 64) = true) as Hall
    by (vm_compute; reflexivity).
  pose proof (below_by_evaluation 64 _ Hall v Hv) as H. by apply bool_decide_eq_true in H.
Qed.

Lemma code_char_not_pad v : 0 <= v < 64 -> code_char v <> "="%char.
Proof. intros Hv He. pose proof (char_code_code_char v Hv) as H. rewrite He in H. done. Qed.

Lemma base64_decode_cons4 a b c d rest : rest <> [] ->
  base64_decode (a :: b :: c :: d :: rest) =
    (x ← char_code a; y ← char_code b; z ← char_code c; w ← char_code d; bytes ← base64_decode rest;
     Some (x * 4 + y / 16 :: y mod 16 * 16 + z / 4 :: z mod 4 * 64 + w :: bytes)).
Proof. by destruct rest. Qed.

Lemma base64_decode_base64 data : bytes data -> base64_decode (base64 data) = Some data.
Proof.
  induction data as [data IH] using (induction_ltof1 _ length). unfold ltof in IH. intros Hb.
  destruct data as [|a [|b [|c rest]]]; [done| | |]; apply Forall_cons in Hb as [Ha Hb].
  - cbn [base64 base64_decode]. rewrite !char_code_code_char by lia. cbn. do 2 f_equal. lia.
  - apply Forall_cons in Hb as [Hb _]. cbn [base64 base64_decode].
    rewrite !char_code_code_char by lia. cbn [mbind option_bind].
    rewrite decide_False by (apply code_char_not_pad; lia).
    cbn. do 2 f_equal; [lia|]. f_equal. lia.
  - apply Forall_cons in Hb as [Hb Hc]. apply Forall_cons in Hc as [Hc Hr]. cbn [base64].
    destruct (decide (rest = [])) as [->|Hne].
    + cbn [base64 base64_decode]. rewrite !char_code_code_char by lia. cbn [mbind option_bind].
      rewrite !decide_False by (apply code_char_not_pad; lia). cbn. f_equal. repeat (f_equal; try lia).
    + rewrite base64_decode_cons4.
      * rewrite !char_code_code_char by lia. cbn [mbind option_bind]. rewrite IH by (done || cbn; lia).
        cbn. f_equal. repeat (f_equal; try lia).
      * by destruct rest as [|? [|? [|]]].
Qed.
