(* ===== verification/Text.v ===== *)
(** * Text (src/libs/common/include/stringify.h, src/libs/postgres/include/helpers.h)

    How the program writes numbers and lists into statements, and how it reads
    numbers back: [std::atoi] and the string operations of the standard library,
    and computations that may throw. *)

From S2P Require Import Prelude State.
From Stdlib Require Import Ascii.
From stdpp Require Export strings pretty.

#[global] Open Scope Z_scope.

(** ** Computations that may throw *)

(** A value, an exception with its message, undefined behaviour, or no fuel. *)
Inductive Exec (A : Type) : Type :=
  | Returns (a : A)
  | Throws (what : string)
  | Misbehaves
  | Exhausted.
Arguments Returns {A} _.
Arguments Throws {A} _.
Arguments Misbehaves {A}.
Arguments Exhausted {A}.

#[export] Instance exec_ret : MRet Exec := fun A a => Returns a.
#[export] Instance exec_bind : MBind Exec := fun A B f m =>
  match m with
  | Returns a => f a
  | Throws what => Throws what
  | Misbehaves => Misbehaves
  | Exhausted => Exhausted
  end.

(** Code without exceptions inside code with them. *)
Definition of_outcome {A} (o : Outcome A) : Exec A :=
  match o with
  | Ret a => Returns a
  | Undefined => Misbehaves
  | NoFuel => Exhausted
  end.

(** [map.at(key)] of the tables of names. *)
Definition at_or_throw {A} (o : option A) : Exec A :=
  match o with
  | Some a => Returns a
  | None => Throws "out_of_range"
  end.

Lemma exec_bind_returns {A B} (m : Exec A) (f : A -> Exec B) b :
  m ≫= f = Returns b -> exists a, m = Returns a /\ f a = Returns b.
Proof. destruct m; cbn; naive_solver. Qed.

Lemma exec_ret_returns {A} (a b : A) : (mret a : Exec A) = Returns b -> a = b.
Proof. intros H. by injection H. Qed.

(** Takes a run that returned apart. *)
Ltac exec_inv H :=
  lazymatch type of H with
  | mbind _ _ = Returns _ =>
    let x := fresh "v" in let Hx := fresh "Hv" in
    apply exec_bind_returns in H; destruct H as (x & Hx & H); exec_inv H
  | mret _ = Returns _ => apply exec_ret_returns in H
  | _ => idtac
  end.

(** ** The standard library on strings *)

Fixpoint skip_spaces (s : string) : string :=
  match s with
  | String c s' => if Ascii.is_space c then skip_spaces s' else s
  | EmptyString => s
  end.

(** The digits at the beginning of [s], after those that gave [acc]. *)
Fixpoint read_digits (s : string) (acc : Z) : Z :=
  match s with
  | String c s' =>
    match Ascii.is_nat c with
    | Some d => read_digits s' (acc * 10 + Z.of_nat d)
    | None => acc
    end
  | EmptyString => acc
  end.

Definition in_int (z : Z) : bool := (- 2 ^ 31 <=? z) && (z <? 2 ^ 31).

Definition signed_value (s : string) : Z :=
  match s with
  | String "-"%char s' => - read_digits s' 0
  | String "+"%char s' => read_digits s' 0
  | _ => read_digits s 0
  end.

(** [std::atoi]: a number that is no [int] is undefined behaviour. *)
Definition atoi (s : string) : Outcome Z :=
  let v := signed_value (skip_spaces s) in if in_int v then Ret v else Undefined.

(** [s.substr(pos)], with the wrapped position the callers compute. *)
Definition substr (s : string) (pos : Z) : Exec string :=
  if pos <=? Z.of_nat (String.length s)
  then Returns (String.substring (Z.to_nat pos) (String.length s - Z.to_nat pos) s)
  else Throws "out_of_range".

(** [s.starts_with(p)]. *)
Definition starts_with (s p : string) : bool := String.prefix p s.

(** ** Lists in text *)

(** [asFormattedList]: [format] is what [formatValue] writes for an item. *)
Definition asFormattedList {A} (format : A -> string) (start finish : string) (items : list A) : string :=
  start +:+ String.concat ", " (format <$> items) +:+ finish.

(** [joinSeq] of a range of integers. *)
Definition joinSeq (items : list Z) : string := asFormattedList pretty "" "" items.

(** [pg::asFormattedList] of integers and of the statuses. *)
Definition ids_list (ids : list Z) : string := asFormattedList pretty "(" ")" ids.
Definition jobStatuses_list (l : list JobStatus) : string :=
  asFormattedList (fun st => "'" +:+ jobStatus_toString st +:+ "'") "(" ")" l.
Definition vmStatuses_list (l : list VmStatus) : string :=
  asFormattedList (fun st => "'" +:+ vmStatus_toString st +:+ "'") "(" ")" l.

(** ** Reading lists back *)

(** A reader of what [joinSeq] writes: numbers separated by a comma and a space.
    [acc] is the number being read, with its sign. *)
Fixpoint read_numbers (s : string) (sign acc : Z) : option (list Z) :=
  match s with
  | EmptyString => Some [sign * acc]
  | String ","%char (String " "%char (String "-"%char s')) => cons (sign * acc) <$> read_numbers s' (-1) 0
  | String ","%char (String " "%char s') => cons (sign * acc) <$> read_numbers s' 1 0
  | String c s' => d ← Ascii.is_nat c; read_numbers s' sign (acc * 10 + Z.of_nat d)
  end.

Definition read_seq (s : string) : option (list Z) :=
  match s with
  | EmptyString => Some []
  | String "-"%char s' => read_numbers s' (-1) 0
  | _ => read_numbers s 1 0
  end.

(** ** Strings *)

Lemma string_app_cons c s t : String c s +:+ t = String c (s +:+ t).
Proof. done. Qed.

Lemma string_app_nil_r s : s +:+ "" = s.
Proof. induction s as [|c s IH]; [done|]. rewrite string_app_cons. by f_equal. Qed.

Lemma string_app_assoc s t u : (s +:+ t) +:+ u = s +:+ t +:+ u.
Proof. induction s as [|c s IH]; [done|]. rewrite !string_app_cons. by f_equal. Qed.

Lemma string_app_length s t : String.length (s +:+ t) = (String.length s + String.length t)%nat.
Proof. induction s as [|c s IH]; [done|]. rewrite string_app_cons. cbn. by f_equal. Qed.

Lemma substring_all s : String.substring 0 (String.length s) s = s.
Proof. induction s as [|c s IH]; [done|]. cbn. f_equal. exact IH. Qed.

Lemma substring_app s t : String.substring (String.length s) (String.length t) (s +:+ t) = t.
Proof. induction s as [|c s IH]; [apply substring_all|]. rewrite string_app_cons. cbn. done. Qed.

Lemma prefix_app p s : String.prefix p (p +:+ s) = true.
Proof.
  induction p as [|c p IH]; [by destruct s|]. rewrite string_app_cons. cbn. by destruct (Ascii.ascii_dec c c).
Qed.

(** ** Digits *)

Lemma is_nat_pretty_char x : (x < 10)%N -> Ascii.is_nat (pretty_N_char x) = Some (N.to_nat x).
Proof.
  intros Hx. assert (x = 0 \/ x = 1 \/ x = 2 \/ x = 3 \/ x = 4 \/ x = 5 \/ x = 6 \/ x = 7 \/ x = 8 \/ x = 9)%N
    as Hc by lia. by repeat destruct Hc as [->|Hc]; [..|subst].
Qed.

Lemma is_nat_not_space c d : Ascii.is_nat c = Some d ->
  Ascii.is_space c = false /\ c <> "-"%char /\ c <> "+"%char /\ c <> ","%char.
Proof. destruct c as [[][][][][][][][]]; vm_compute; naive_solver. Qed.

Lemma last_digit x : Z.of_N (x `div` 10) * 10 + Z.of_nat (N.to_nat (x `mod` 10)) = Z.of_N x.
Proof.
  rewrite N_nat_Z, N2Z.inj_div, N2Z.inj_mod. pose proof (Z.div_mod (Z.of_N x) 10 ltac:(lia)). lia.
Qed.

Lemma read_digits_pretty x : forall s, read_digits (pretty_N_go x s) 0 = read_digits s (Z.of_N x).
Proof.
  induction (N.lt_wf_0 x) as [x _ IH]; intros s.
  destruct (decide (x = 0)%N) as [->|Hne]; [by rewrite pretty_N_go_0|].
  rewrite pretty_N_go_step by lia. rewrite IH by (apply N.div_lt; lia). cbn [read_digits].
  rewrite is_nat_pretty_char by (apply N.mod_lt; lia). f_equal. apply last_digit.
Qed.

Lemma skip_spaces_pretty x : forall s, skip_spaces s = s -> skip_spaces (pretty_N_go x s) = pretty_N_go x s.
Proof.
  induction (N.lt_wf_0 x) as [x _ IH]; intros s Hs.
  destruct (decide (x = 0)%N) as [->|Hne]; [by rewrite pretty_N_go_0|].
  rewrite pretty_N_go_step by lia. apply IH; [apply N.div_lt; lia|]. cbn [skip_spaces].
  destruct (is_nat_not_space (pretty_N_char (x `mod` 10)) _ (is_nat_pretty_char _ (N.mod_lt x 10 ltac:(lia)))) as [-> _].
  done.
Qed.

(** The text of a positive number starts with a digit. *)
Lemma pretty_N_go_digit x : forall s, (0 < x)%N ->
  exists c d s', pretty_N_go x s = String c s' /\ Ascii.is_nat c = Some d.
Proof.
  induction (N.lt_wf_0 x) as [x _ IH]; intros s Hx. rewrite pretty_N_go_step by lia.
  destruct (decide (x `div` 10 = 0)%N) as [->|Hne].
  - rewrite pretty_N_go_0. do 3 eexists. split; [done|]. apply is_nat_pretty_char, N.mod_lt. lia.
  - apply IH; [apply N.div_lt; lia|]. by apply N.neq_0_lt_0.
Qed.

Lemma signed_value_digit c d s :
  Ascii.is_nat c = Some d -> signed_value (String c s) = read_digits (String c s) 0.
Proof. destruct c as [[][][][][][][][]]; intros Hc; (discriminate Hc || reflexivity). Qed.

(** [atoi] reads what a stream writes for a number. *)
Lemma atoi_pretty z : - 2 ^ 31 <= z < 2 ^ 31 -> atoi (pretty z) = Ret z.
Proof.
  intros Hz. unfold atoi.
  assert (signed_value (skip_spaces (pretty z)) = z) as ->.
  { destruct z as [|p|p]; [done| |].
    - change (pretty (Zpos p)) with (pretty_N_go (Npos p) ""). rewrite skip_spaces_pretty by done.
      pose proof (read_digits_pretty (Npos p) "") as Hread.
      destruct (pretty_N_go_digit (Npos p) "") as (c & d & s' & Hs & Hc); [lia|].
      rewrite Hs in *. by rewrite (signed_value_digit c d).
    - change (- read_digits (pretty_N_go (Npos p) "") 0 = Zneg p). by rewrite read_digits_pretty. }
  cbn zeta. assert (in_int z = true) as -> by (unfold in_int; apply andb_true_iff; lia). done.
Qed.

(** ** Lists *)

Lemma read_numbers_digit c d s sign acc : Ascii.is_nat c = Some d ->
  read_numbers (String c s) sign acc = read_numbers s sign (acc * 10 + Z.of_nat d).
Proof.
  destruct c as [[][][][][][][][]]; intros Hc; (discriminate Hc || (injection Hc as <-; reflexivity)).
Qed.

Lemma read_numbers_pretty x sign : forall s,
  read_numbers (pretty_N_go x s) sign 0 = read_numbers s sign (Z.of_N x).
Proof.
  induction (N.lt_wf_0 x) as [x _ IH]; intros s.
  destruct (decide (x = 0)%N) as [->|Hne]; [by rewrite pretty_N_go_0|].
  rewrite pretty_N_go_step by lia. rewrite IH by (apply N.div_lt; lia).
  rewrite (read_numbers_digit _ _ _ _ _ (is_nat_pretty_char _ (N.mod_lt x 10 ltac:(lia)))).
  f_equal. apply last_digit.
Qed.

Lemma pretty_N_go_app x : forall s t, pretty_N_go x s +:+ t = pretty_N_go x (s +:+ t).
Proof.
  induction (N.lt_wf_0 x) as [x _ IH]; intros s t.
  destruct (decide (x = 0)%N) as [->|Hne]; [by rewrite !pretty_N_go_0|].
  rewrite (pretty_N_go_step x s), (pretty_N_go_step x (s +:+ t)) by lia.
  by rewrite IH by (apply N.div_lt; lia).
Qed.

Lemma pretty_N_go_nil_app x t : pretty_N_go x "" +:+ t = pretty_N_go x t.
Proof. apply pretty_N_go_app. Qed.

Lemma read_seq_cons z s : read_seq (pretty z +:+ s) =
  read_numbers s (if z <? 0 then -1 else 1) (Z.abs z).
Proof.
  destruct z as [|p|p].
  - cbn. done.
  - change (pretty (Zpos p)) with (pretty_N_go (Npos p) ""). rewrite pretty_N_go_nil_app.
    pose proof (read_numbers_pretty (Npos p) 1 s) as Hread.
    destruct (pretty_N_go_digit (Npos p) s) as (c & d & s' & Hs & Hc); [lia|]. rewrite Hs in *.
    transitivity (read_numbers (String c s') 1 0); [|exact Hread].
    destruct c as [[][][][][][][][]]; (discriminate Hc || reflexivity).
  - change (read_numbers (pretty_N_go (Npos p) "" +:+ s) (-1) 0 = read_numbers s (-1) (Zpos p)).
    by rewrite pretty_N_go_nil_app, read_numbers_pretty.
Qed.

Lemma read_numbers_comma z s sign acc :
  read_numbers (", " +:+ pretty z +:+ s) sign acc =
  cons (sign * acc) <$> read_numbers s (if z <? 0 then -1 else 1) (Z.abs z).
Proof.
  rewrite <- read_seq_cons. destruct z as [|p|p]; [done| |].
  - change (pretty (Zpos p)) with (pretty_N_go (Npos p) ""). rewrite pretty_N_go_nil_app.
    destruct (pretty_N_go_digit (Npos p) s) as (c & d & s' & Hs & Hc); [lia|]. rewrite Hs in *.
    destruct c as [[][][][][][][][]]; (discriminate Hc || reflexivity).
  - change (pretty (Zneg p)) with ("-" +:+ pretty_N_go (Npos p) ""). done.
Qed.

Lemma signed_abs z : (if z <? 0 then -1 else 1) * Z.abs z = z.
Proof. destruct (Z.ltb_spec z 0); lia. Qed.

Lemma read_numbers_concat l : forall z,
  read_numbers (foldr (fun z s => ", " +:+ pretty z +:+ s) "" l) (if z <? 0 then -1 else 1) (Z.abs z) = Some (z :: l).
Proof.
  induction l as [|y l IH]; intros z; cbn [foldr].
  - cbn. by rewrite signed_abs.
  - by rewrite read_numbers_comma, IH, signed_abs.
Qed.

Lemma concat_foldr (z : Z) (l : list Z) : String.concat ", " (pretty <$> z :: l) =
  pretty z +:+ foldr (fun z s => ", " +:+ pretty z +:+ s) "" l.
Proof.
  revert z. induction l as [|y l IH]; intros z; [cbn; by rewrite string_app_nil_r|].
  change (String.concat ", " (pretty <$> z :: y :: l))
    with (pretty z +:+ ", " +:+ String.concat ", " (pretty <$> y :: l)). by rewrite IH.
Qed.

Lemma read_joinSeq l : read_seq (joinSeq l) = Some l.
Proof.
  unfold joinSeq, asFormattedList. destruct l as [|z l]; [done|].
  rewrite string_app_nil_r, concat_foldr.
  transitivity (read_seq (pretty z +:+ foldr (fun z s => ", " +:+ pretty z +:+ s) "" l)); [done|].
  rewrite read_seq_cons. apply read_numbers_concat.
Qed.
