(* ===== verification/Config.v ===== *)
(** * Configuration (src/libs/common/impl/env.cpp and the config.cpp of every library)

    What the program takes from its environment.  The environment is a parameter,
    [getenv]; a number is read by [std::atoi] and becomes a [size_t], so that text
    that is no number reads as zero and a negative number wraps. *)

From S2P Require Import Prelude Std Slot State OrderedJobs JobAllocator SlotSelector Assigner.
From S2P Require Import AllocatorContract SelectorFacts AssignerFacts PlanFacts Db Storage.
From S2P Require Import Scheduler Lifecycle StorageRefines Process Allocator FailureDetector Text.

(** Conversion to the 64-bit [rep] of [std::chrono::seconds]. *)
Definition long_cast (z : Z) : Z :=
  let r := z mod 2 ^ 64 in if r <? 2 ^ 63 then r else r - 2 ^ 64.

(** ** Structs *)

Record ServerConfig : Type := mkServerConfig { server_address : string }.
Record ZkConfig : Type := mkZkConfig { zk_address : string; lockPath : string; lockName : string }.

Inductive SchedulerMode : Type := SchedulerService | CoreScheduler | FullScheduler.

#[export] Instance SchedulerMode_eq_dec : EqDecision SchedulerMode.
Proof. solve_decision. Defined.

(** [Config] of the task registry. *)
Record RegistryConfig : Type := mkRegistryConfig {
  allocationInterval : Z; scheduleInterval : Z; detectFailuresInterval : Z;
  mode : SchedulerMode; useZkDistLock : bool }.

(** ** Reading *)

Section config.
Context (getenv : string -> option string).

Definition getFromEnvOrDefault (envVarName defaultValue : string) : string :=
  match getenv envVarName with
  | Some value => value
  | None => defaultValue
  end.

(** The overload for numbers. *)
Definition getFromEnvOrDefault_size (envVarName : string) (defaultValue : Z) : Exec Z :=
  match getenv envVarName with
  | Some value => v ← of_outcome (atoi value); mret (size_t_wrap v)
  | None => mret defaultValue
  end.

Definition getFromEnvOrThrow (envVarName : string) : Exec string :=
  match getenv envVarName with
  | Some value => mret value
  | None => Throws ("Env var `" +:+ envVarName +:+ "` must be specified.")
  end.

(** A number of seconds. *)
Definition seconds_from_env (envVarName : string) (defaultValue : Z) : Exec Z :=
  v ← getFromEnvOrDefault_size envVarName defaultValue; mret (long_cast v).

Definition createCommonConfig : Exec CommonConfig :=
  jobs ← getFromEnvOrDefault_size "VMS_JOB_RESTART_ATTEMPT_COUNT" 3;
  vms ← getFromEnvOrDefault_size "VMS_VM_RESTART_ATTEMPT_COUNT" 3;
  mret (mkCommonConfig jobs vms).

Definition createAllocatorConfig : Exec AllocatorConfig :=
  allocation ← getFromEnvOrDefault_size "VMS_MAX_VM_ALLOCATION_COUNT" 1;
  termination ← getFromEnvOrDefault_size "VMS_MAX_VM_TERMINATION_COUNT" 1;
  common ← createCommonConfig;
  mret (mkAllocatorConfig allocation termination common).

Definition createFailureDetectorConfig : Exec FailureDetectorConfig :=
  allocation ← seconds_from_env "VMS_ALLOCATION_TIME_LIMIT_S" 30;
  startup ← seconds_from_env "VMS_AGENT_STARTUP_TIME_LIMIT_S" 300;
  inactivity ← seconds_from_env "VMS_AGENT_INACTIVITY_TIME_LIMIT_S" 120;
  termination ← seconds_from_env "VMS_TERMINATION_TIME_LIMIT" 120;
  common ← createCommonConfig;
  mret (mkFailureDetectorConfig allocation startup inactivity termination common).

Definition createComplexVmAssignerConfig : Exec ComplexVmAssignerConfig :=
  ordering ← at_or_throw (jobOrderingFromString (getFromEnvOrDefault "VMS_JOB_ORDERING" "fifo"));
  strategy ← at_or_throw (allocationStrategyFromString (getFromEnvOrDefault "VMS_ALLOCATION_STRATEGY" "bestfit"));
  mret (mkComplexConfig ordering strategy).

Definition createSchedulerConfig : Exec SchedulerConfig :=
  type ← at_or_throw (vmAssignerTypeFromString
           (getFromEnvOrDefault "VMS_ASSIGNER_TYPE" (vmAssignerType_toString Complex)));
  interval ← seconds_from_env "VMS_SCHEDULING_INTERVAL_S" 40;
  complex ← match type with
            | Complex => c ← createComplexVmAssignerConfig; mret (Some c)
            | Simple => mret None
            end;
  mret (mkSchedulerConfig interval type complex).

Definition createServerConfig : ServerConfig :=
  mkServerConfig (getFromEnvOrDefault "VMS_GRPC_SERVER_ADDRESS" "0.0.0.0:50001").

Definition schedulerModeFromString (value : string) : option SchedulerMode :=
  map_at [("service", SchedulerService); ("core", CoreScheduler); ("full", FullScheduler)]%string value.

Definition createConfig : Exec RegistryConfig :=
  allocation ← seconds_from_env "VMS_ALLOCATION_INTERVAL_S" 60;
  schedule ← seconds_from_env "VMS_SCHEDULE_INTERVAL_S" 60;
  failures ← seconds_from_env "VMS_DETECT_FAILURES_INTERVAL_S" 300;
  mode ← at_or_throw (schedulerModeFromString (getFromEnvOrDefault "VMS_MODE" "full"));
  zk ← getFromEnvOrDefault_size "VMS_USE_ZK_DIST_LOCK" 0;
  mret (mkRegistryConfig allocation schedule failures mode (negb (zk =? 0))).

Definition createZkConfig : Exec ZkConfig :=
  let lockNameStr := getFromEnvOrDefault "VMS_ZK_LOCK_NAME" "" in
  address ← getFromEnvOrThrow "VMS_ZK_ADDRESS";
  mret (mkZkConfig address (getFromEnvOrDefault "VMS_ZK_LOCK_PATH" "/vms-prod-") lockNameStr).

(** [getConnectionString] and [getPoolSize] of src/libs/postgres/impl/helpers.cpp. *)
Definition getConnectionString (connectionString : option string) : Exec string :=
  match connectionString with
  | Some s => mret s
  | None =>
    user ← getFromEnvOrThrow "PG_USER";
    dbName ← getFromEnvOrThrow "PG_DB_NAME";
    hosts ← getFromEnvOrThrow "PG_HOSTS";
    password ← getFromEnvOrThrow "PG_PASSWORD";
    port ← getFromEnvOrDefault_size "PG_PORT" 5432;
    mret ("user=" +:+ user +:+ " " +:+ "dbname=" +:+ dbName +:+ " " +:+ "host=" +:+ hosts +:+ " "
          +:+ "password=" +:+ password +:+ " " +:+ "port=" +:+ pretty port)
  end.

Definition getPoolSize (poolSize : option Z) : Exec Z :=
  match poolSize with
  | Some n => mret n
  | None => s ← getFromEnvOrThrow "PG_POOL_SIZE"; v ← of_outcome (atoi s); mret (size_t_wrap v)
  end.

(** ** What is read *)

(** The operator wrote [n] for a variable, or left it to its default [d]. *)
Definition configured (envVarName : string) (d n : Z) : Prop :=
  (getenv envVarName = Some (pretty n) /\ 0 <= n < 2 ^ 31) \/ (getenv envVarName = None /\ n = d).

Lemma size_from_env_ok x d n : configured x d n -> getFromEnvOrDefault_size x d = Returns n.
Proof.
  unfold getFromEnvOrDefault_size. intros [[-> Hn]|[-> ->]]; [|done].
  rewrite atoi_pretty by lia. cbn. by rewrite size_t_wrap_small by lia.
Qed.

Lemma seconds_from_env_ok x d n :
  0 <= d < 2 ^ 63 -> configured x d n -> seconds_from_env x d = Returns n.
Proof.
  intros Hd Hn. unfold seconds_from_env. rewrite (size_from_env_ok x d n Hn). cbn. f_equal.
  assert (0 <= n < 2 ^ 63) by (destruct Hn; lia). unfold long_cast. rewrite Z.mod_small by lia.
  destruct (Z.ltb_spec n (2 ^ 63)); lia.
Qed.

Lemma allocationStrategy_nextfit s : allocationStrategyFromString s = Some NextFit -> s = "nextfit"%string.
Proof.
  unfold allocationStrategyFromString, map_at. cbn. repeat case_bool_decide; cbn; intros; by simplify_eq.
Qed.

(** A configuration that is returned is one the assigner can use, unless NextFit was asked for. *)
Lemma createSchedulerConfig_usable c :
  createSchedulerConfig = Returns c ->
  config_usable (vmAssignerType c) (complexVmAssignerConfig c) \/ getenv "VMS_ALLOCATION_STRATEGY" = Some "nextfit"%string.
Proof.
  unfold createSchedulerConfig. intros Hc. exec_inv Hc. subst c. cbn [vmAssignerType complexVmAssignerConfig].
  destruct v; [by left|]. exec_inv Hv1. subst v1. unfold createComplexVmAssignerConfig in Hv2. exec_inv Hv2.
  subst v. destruct (decide (v2 = NextFit)) as [->|Hne]; [right|left; by eexists].
  unfold at_or_throw, getFromEnvOrDefault in Hv3.
  destruct (getenv "VMS_ALLOCATION_STRATEGY") as [s|]; [|done].
  destruct (allocationStrategyFromString s) eqn:Hs; simplify_eq. by rewrite (allocationStrategy_nextfit s).
Qed.
End config.
