(* ===== verification/Aws.v ===== *)
(** * The AWS client (src/libs/aws/allocator/impl)

    [AwsCloudClient] against an abstract EC2: requests as records, the calls of
    the SDK as operations of a class, the choice of an instance type, the
    allocation protocol with its clean-up, and the paged listings. *)

From S2P Require Import Prelude Std Slot State OrderedJobs JobAllocator SlotSelector Assigner.
From S2P Require Import AllocatorContract SelectorFacts AssignerFacts PlanFacts Db Storage.
From S2P Require Import Scheduler Lifecycle StorageRefines Process Allocator FailureDetector Base64.
From S2P Require Import Text Config.

(** ** Requests and replies of the SDK *)

(** [T] stands for [Aws::EC2::Model::InstanceType]. *)
Record RunInstancesRequest (T : Type) : Type := mkRunInstances {
  rq_InstanceType : T;
  rq_AvailabilityZone : string;
  rq_ImageId : string;
  rq_Tags : list (string * string);
  rq_ClientToken : string;
  rq_UserData : list Ascii.ascii;
  rq_IamInstanceProfile : string;
  rq_KeyName : string;
  rq_MinCount : Z;
  rq_MaxCount : Z;
  rq_spot : bool;
}.
Arguments mkRunInstances {T} _ _ _ _ _ _ _ _ _ _ _.
Arguments rq_InstanceType {T} _.
Arguments rq_AvailabilityZone {T} _.
Arguments rq_ImageId {T} _.
Arguments rq_Tags {T} _.
Arguments rq_ClientToken {T} _.
Arguments rq_UserData {T} _.
Arguments rq_IamInstanceProfile {T} _.
Arguments rq_KeyName {T} _.
Arguments rq_MinCount {T} _.
Arguments rq_MaxCount {T} _.
Arguments rq_spot {T} _.

(** A paged query: filters, each a name with the values it accepts, and the token
    of the page, empty for the first. *)
Record DescribeRequest : Type := mkDescribe {
  rq_Filters : list (string * list string); rq_NextToken : string }.

Definition SetNextToken (token : string) (rq : DescribeRequest) : DescribeRequest :=
  mkDescribe (rq_Filters rq) token.

(** The calls of [EC2Client] the program makes.  [None] is an outcome that is not
    a success; the messages are left out.  A page of [DescribeInstances] is a list
    of reservations, one of [DescribeInstanceTypes] gives default cores and MiB. *)
Class EC2 (T W : Type) : Type := {
  GetNameForInstanceType : T -> string;
  RunInstances : RunInstancesRequest T -> W -> option (list string) * W;
  StartInstances : list string -> W -> option unit * W;
  TerminateInstances : list string -> W -> option unit * W;
  DescribeInstances : DescribeRequest -> W -> option (list (list (T * string)) * string) * W;
  DescribeInstanceTypes : DescribeRequest -> W -> option (list (T * Z * Z) * string) * W;
}.

(** ** Structs *)

Record AwsClientConfig : Type := mkAwsClientConfig { acc_accessKeyId : string; acc_secretKey : string }.
Record AgentEcrCredentials : Type := mkAgentEcrCredentials { accessKeyId : string; secretKey : string }.
Record InstanceTypeInfo (T : Type) : Type := mkInstanceTypeInfo { it_type : T; it_capacity : SlotCapacity }.
Arguments mkInstanceTypeInfo {T} _ _.
Arguments it_type {T} _.
Arguments it_capacity {T} _.

(** [Tags] in the order they are iterated in. *)
Record AwsInstancesConfig (T : Type) : Type := mkAwsInstancesConfig {
  amiId : string;
  vmTypes : list (InstanceTypeInfo T);
  vmTags : list (string * string);
  tokenPrefix : string;
  agentDockerImageVersion : string;
  vmsAddress : string;
  creds : AgentEcrCredentials;
  useSpot : bool;
}.
Arguments mkAwsInstancesConfig {T} _ _ _ _ _ _ _ _.
Arguments amiId {T} _.
Arguments vmTypes {T} _.
Arguments vmTags {T} _.
Arguments tokenPrefix {T} _.
Arguments agentDockerImageVersion {T} _.
Arguments vmsAddress {T} _.
Arguments creds {T} _.
Arguments useSpot {T} _.

Record AwsVmInfo (T : Type) : Type := mkAwsVmInfo { aws_type : T; aws_id : string }.
Arguments mkAwsVmInfo {T} _ _.
Arguments aws_type {T} _.
Arguments aws_id {T} _.

(** The characters of a string as bytes. *)
Definition string_bytes (s : string) : list Z :=
  (fun c => Z.of_N (Ascii.N_of_ascii c)) <$> String.list_ascii_of_string s.

(** ** The client *)

Section client.
Context {T W : Type} `{!EC2 T W}.

Definition convertAwsVmInfoToVmInfo (awsVmInfo : AwsVmInfo T) : AllocatedVmInfo :=
  mkAllocatedVm (aws_id awsVmInfo) (GetNameForInstanceType (aws_type awsVmInfo)).

(** Past the end the last type is taken; of an empty vector there is none. *)
Definition getInstanceTypeForSlot (vmTypeInfos : list (InstanceTypeInfo T)) (slot : SlotCapacity)
  : Outcome T :=
  let it := lower_bound (fun vmTypeInfo => slot_lt (it_capacity vmTypeInfo) slot) vmTypeInfos in
  match vmTypeInfos !! it with
  | Some info => Ret (it_type info)
  | None => deref (it_type <$> last vmTypeInfos)
  end.

(** The script an instance runs at boot. *)
Definition userDataScript (version address : string) (creds : AgentEcrCredentials) (vmId : VmId) : string :=
  let newline := String (Ascii.ascii_of_nat 10) "" in
  "#!/bin/bash" +:+ newline
  +:+ "set -e -x" +:+ newline
  +:+ "aws configure set aws_access_key_id " +:+ accessKeyId creds +:+ newline
  +:+ "aws configure set aws_secret_access_key {" +:+ secretKey creds +:+ newline
  +:+ "aws configure set default.region us-east-2" +:+ newline
  +:+ "aws configure set default.output json" +:+ newline
  +:+ "sudo aws ecr get-login-password --region us-east-2 | "
  +:+ "sudo docker login --username AWS --password-stdin 545868914688.dkr.ecr.us-east-2.amazonaws.com" +:+ newline
  +:+ "sudo docker run -e VMS_AGENT_SERVER_ADDRESS=" +:+ address
  +:+ "-e VMS_AGENT_VM_ID=" +:+ pretty vmId
  +:+ "-e VMS_AGENT_AWS_ACCESS_KEY_ID=" +:+ accessKeyId creds
  +:+ "-e VMS_AGENT_AWS_SECRET_ACCESS_KEY=" +:+ secretKey creds
  +:+ "-e VMS_AGENT_AWS_REGION=us-east-2"
  +:+ "-e VMS_AGENT_AWS_BUCKET=vms-job-results"
  +:+ " --network host 545868914688.dkr.ecr.us-east-2.amazonaws.com/vm-agent:"
  +:+ version +:+ newline.

Definition getUserData (version address : string) (creds : AgentEcrCredentials) (vmId : VmId)
  : Outcome (list Ascii.ascii) :=
  base64Encode (string_bytes (userDataScript version address creds vmId)).

Definition getPlacement : string := "us-east-2a".

Definition createRunRequest (vmToken : string) (config : AwsInstancesConfig T) (vmType : T)
    (vmId : VmId) (spot : bool) : Outcome (RunInstancesRequest T) :=
  userData ← getUserData (agentDockerImageVersion config) (vmsAddress config) (creds config) vmId;
  Ret (mkRunInstances vmType getPlacement (amiId config) (vmTags config) vmToken userData
         "vmsAgentExecutorRole" "vms_instance" 1 1 spot).

Section configured.
Context (vmConfig : AwsInstancesConfig T).

Definition instanceTypeForSlot (slot : SlotCapacity) : Outcome T :=
  getInstanceTypeForSlot (vmTypes vmConfig) slot.

Definition createInstance (vmToken : string) (vmType : T) (vmId : VmId) (w : W)
  : Outcome (Result (AwsVmInfo T) * W) :=
  runRequest ← createRunRequest vmToken vmConfig vmType vmId (useSpot vmConfig);
  let '(result, w) := RunInstances runRequest w in
  match result with
  | None => Ret (Failure AllocationException, w)
  | Some [] => Ret (Failure AllocationException, w)
  | Some (awsVmId :: _) => Ret (Success (mkAwsVmInfo vmType awsVmId), w)
  end.

Definition startInstance (vmInfo : AwsVmInfo T) (w : W) : Result unit * W :=
  let '(result, w) := StartInstances [aws_id vmInfo] w in
  (match result with Some _ => Success tt | None => Failure AllocationException end, w).

Definition aws_terminate (cloudVmId : string) (w : W) : Result unit * W :=
  let '(result, w) := TerminateInstances [cloudVmId] w in
  (match result with Some _ => Success tt | None => Failure AllocationException end, w).

Definition vm_token (vmId : VmId) : string := tokenPrefix vmConfig +:+ "-" +:+ pretty vmId.

(** The private [allocate] for an instance type: create, start, and terminate
    what could not be started. *)
Definition allocate_type (vmId : VmId) (vmType : T) (w : W) : Outcome (Result (AwsVmInfo T) * W) :=
  '(vmInfo, w) ← createInstance (vm_token vmId) vmType vmId w;
  match vmInfo with
  | Failure e => Ret (Failure e, w)
  | Success info =>
    let '(startInstanceResult, w) := startInstance info w in
    match startInstanceResult with
    | Success _ => Ret (Success info, w)
    | Failure _ =>
      let '(terminateResult, w) := aws_terminate (aws_id info) w in
      Ret (Failure AllocationException, w)
    end
  end.

Definition aws_allocate (vmId : VmId) (slot : SlotCapacity) (w : W) : Outcome (Result AllocatedVmInfo * W) :=
  vmType ← instanceTypeForSlot slot;
  '(result, w) ← allocate_type vmId vmType w;
  match result with
  | Success info => Ret (Success (convertAwsVmInfoToVmInfo info), w)
  | Failure e => Ret (Failure e, w)
  end.

Definition getPossibleSlots : list SlotCapacity := it_capacity <$> vmTypes vmConfig.
End configured.

(** ** Listings *)

(** [inserter] into an [unordered_set]; the order of iteration is not specified. *)
Definition set_insert (x : AllocatedVmInfo) (l : list AllocatedVmInfo) : list AllocatedVmInfo :=
  if decide (x ∈ l) then l else x :: l.

Definition createRequest (tags : list (string * string)) : DescribeRequest :=
  mkDescribe (((fun kv => ("tag:" +:+ kv.1, [kv.2])) <$> tags)
              ++ [("instance-state-name"%string, ["pending"; "running"]%string)]) "".

Definition insert_reservations (reservations : list (list (T * string))) (vmInfos : list AllocatedVmInfo)
  : list AllocatedVmInfo :=
  foldl (fun infos instances =>
           foldl (fun infos i => set_insert (convertAwsVmInfoToVmInfo (mkAwsVmInfo i.1 i.2)) infos) infos instances)
    vmInfos reservations.

Fixpoint describe_instances_loop (fuel : nat) (request : DescribeRequest) (vmInfos : list AllocatedVmInfo) (w : W)
  : Outcome (Result (list AllocatedVmInfo) * W) :=
  match fuel with
  | O => NoFuel
  | S fuel' =>
    let '(result, w) := DescribeInstances request w in
    match result with
    | None => Ret (Failure RuntimeException, w)
    | Some (reservations, token) =>
      let vmInfos := insert_reservations reservations vmInfos in
      if bool_decide (token = ""%string) then Ret (Success vmInfos, w)
      else describe_instances_loop fuel' (SetNextToken token request) vmInfos w
    end
  end.

Definition describeInstances (fuel : nat) (tags : list (string * string)) (w : W)
  : Outcome (Result (list AllocatedVmInfo) * W) :=
  describe_instances_loop fuel (createRequest tags) [] w.

Definition aws_getAllAllocatedVms (vmConfig : AwsInstancesConfig T) (fuel : nat) (w : W) :=
  describeInstances fuel (vmTags vmConfig) w.

(** [int] and [long long] counts become [size_t]. *)
Definition convert_type_info (info : T * Z * Z) : InstanceTypeInfo T :=
  mkInstanceTypeInfo info.1.1 (mkSlot (size_t_wrap info.1.2) (size_t_wrap info.2)).

Fixpoint describe_types_loop (fuel : nat) (request : DescribeRequest) (infos : list (InstanceTypeInfo T)) (w : W)
  : Outcome (Result (list (InstanceTypeInfo T)) * W) :=
  match fuel with
  | O => NoFuel
  | S fuel' =>
    let '(result, w) := DescribeInstanceTypes request w in
    match result with
    | None => Ret (Failure RuntimeException, w)
    | Some (page, token) =>
      let infos := infos ++ (convert_type_info <$> page) in
      if bool_decide (token = ""%string) then Ret (Success infos, w)
      else describe_types_loop fuel' (SetNextToken token request) infos w
    end
  end.

Definition describeInstanceTypes (fuel : nat) (instanceClass : string) (w : W)
  : Outcome (Result (list (InstanceTypeInfo T)) * W) :=
  describe_types_loop fuel (mkDescribe [("instance-type", [instanceClass +:+ "*"])]%string "") [] w.

(** ** Configuration *)

Definition getVmTags : list (string * string) := [("owner", "vms-prod")]%string.

Definition createAwsClientConfig (getenv : string -> option string) : Exec AwsClientConfig :=
  accessKeyId ← getFromEnvOrThrow getenv "AWS_EC2_ACCESS_KEY_ID";
  secretKey ← getFromEnvOrThrow getenv "AWS_EC2_SECRET_KEY";
  mret (mkAwsClientConfig accessKeyId secretKey).

Definition type_info_lt (a b : InstanceTypeInfo T) : bool := slot_lt (it_capacity a) (it_capacity b).

(** [ValueOrThrow] on the listing. *)
Definition value_or_throw {A} (r : Result A) : Exec A :=
  match r with
  | Success a => mret a
  | Failure _ => Throws "Failed to describe instance types"
  end.

Definition createAwsInstancesConfig `{StdLib} (getenv : string -> option string) (fuel : nat) (w : W)
  : Exec (AwsInstancesConfig T * W) :=
  let instanceClass := getFromEnvOrDefault getenv "VMS_AWS_INSTANCE_CLASS" "c6g." in
  '(infos, w) ← of_outcome (describeInstanceTypes fuel instanceClass w);
  instanceTypeInfos ← value_or_throw infos;
  let sorted := std_sort type_info_lt instanceTypeInfos in
  address ← getFromEnvOrThrow getenv "VMS_ADDRESS";
  keyId ← getFromEnvOrThrow getenv "VMS_AGENT_ECR_ACCESS_KEY_ID";
  secret ← getFromEnvOrThrow getenv "VMS_AGENT_ECR_SECRET_KEY";
  spot ← getFromEnvOrDefault_size getenv "VMS_USE_SPOT" 0;
  mret (mkAwsInstancesConfig
          (getFromEnvOrDefault getenv "AWS_EC2_AMI_ID" "ami-0aaa7d236c8b7d9b9")
          sorted getVmTags
          (getFromEnvOrDefault getenv "VMS_AWS_VM_TOKEN_PREFIX" "vms-prod")
          (getFromEnvOrDefault getenv "VMS_AGENT_DOCKER_IMAGE_VERSION" "latest")
          address (mkAgentEcrCredentials keyId secret) (negb (spot =? 0)), w).
End client.
