(* ===== verification/AwsFacts.v ===== *)
(** * Facts about the AWS client

    What is relied on of EC2 ([EC2Laws]), what an allocation does to the
    instances, which type a slot gets, and that the listings collect every page. *)

From S2P Require Import Prelude Std Slot State OrderedJobs JobAllocator SlotSelector Assigner.
From S2P Require Import AllocatorContract SelectorFacts AssignerFacts PlanFacts Db Storage.
From S2P Require Import Scheduler Lifecycle StorageRefines Process Allocator FailureDetector Base64.
From S2P Require Import Text Config Aws.

(** ** What EC2 documents *)

(** Pending or running; stopping or stopped; shutting down or terminated. *)
Inductive InstanceState : Type := Up | Down | Gone.

Record Ec2Instance (T : Type) : Type := mkEc2Instance {
  ei_type : T; ei_tags : list (string * string); ei_token : string; ei_state : InstanceState }.
Arguments mkEc2Instance {T} _ _ _ _.
Arguments ei_type {T} _.
Arguments ei_tags {T} _.
Arguments ei_token {T} _.
Arguments ei_state {T} _.

Definition with_state {T} (st : InstanceState) (i : Ec2Instance T) : Ec2Instance T :=
  mkEc2Instance (ei_type i) (ei_tags i) (ei_token i) st.

Section effects.
Context {T : Type}.
Implicit Types m : gmap string (Ec2Instance T).

(** The effect of a request for one instance: it launches one as it was asked to, or,
    when its client token was used before, it stands for the instance of that request. *)
Definition launches (rq : RunInstancesRequest T) (id : string) m m' : Prop :=
  exists i, ei_type i = rq_InstanceType rq /\ ei_tags i = rq_Tags rq /\ ei_token i = rq_ClientToken rq
    /\ m' = <[id := i]> m
    /\ (m !! id = Some i
        \/ (m !! id = None /\ ei_state i = Up
            /\ forall id' j, m !! id' = Some j -> ei_token j <> rq_ClientToken rq)).

(** What is terminated cannot be started. *)
Definition changes_state (id : string) (st : InstanceState) m m' : Prop :=
  exists i, m !! id = Some i /\ ei_state i <> Gone /\ m' = <[id := with_state st i]> m.

Definition terminates (id : string) m m' : Prop :=
  exists i, m !! id = Some i /\ m' = <[id := with_state Gone i]> m.
End effects.

(** A call that failed may have had its effect all the same: an error or a timeout
    does not tell.  It touches nothing but the instance it is about; a failed start
    may leave that in any state. *)
Class EC2Laws (T W : Type) `{!EC2 T W} : Type := {
  instances : W -> gmap string (Ec2Instance T);
  token_unique : forall w id i id' j, instances w !! id = Some i -> instances w !! id' = Some j ->
    ei_token i = ei_token j -> id = id';
  run_succeeds : forall rq w ids w', RunInstances rq w = (Some ids, w') ->
    rq_MinCount rq = 1 -> rq_MaxCount rq = 1 ->
    exists id, ids = [id] /\ launches rq id (instances w) (instances w');
  run_fails : forall rq w w', RunInstances rq w = (None, w') ->
    rq_MinCount rq = 1 -> rq_MaxCount rq = 1 ->
    instances w' = instances w \/ exists id, launches rq id (instances w) (instances w');
  start_succeeds : forall id w w' u, StartInstances [id] w = (Some u, w') ->
    changes_state id Up (instances w) (instances w');
  start_fails : forall id w w', StartInstances [id] w = (None, w') ->
    instances w' = instances w \/ exists st, changes_state id st (instances w) (instances w');
  terminate_succeeds : forall id w w' u, TerminateInstances [id] w = (Some u, w') ->
    terminates id (instances w) (instances w');
  terminate_fails : forall id w w', TerminateInstances [id] w = (None, w') ->
    instances w' = instances w \/ terminates id (instances w) (instances w');
}.

(** ** User data *)

(** A [VmId] is a [size_t]. *)
Definition vm_id_ok (vmId : VmId) : Prop := 0 <= vmId < 2 ^ 64.

Lemma string_bytes_bytes s : bytes (string_bytes s).
Proof.
  unfold string_bytes. apply Forall_fmap, Forall_true. intros c. cbn.
  pose proof (Ascii.N_ascii_bounded c). lia.
Qed.

Lemma string_bytes_length s : length (string_bytes s) = String.length s.
Proof.
  unfold string_bytes. rewrite length_fmap. induction s as [|c s IH]; cbn; [done|]. by rewrite IH.
Qed.

Section client.
Context {T W : Type} `{!EC2 T W} (vmConfig : AwsInstancesConfig T).

(** The scripts the client makes are within the length of a [std::string]. *)
Definition scripts_fit : Prop := forall vmId, vm_id_ok vmId ->
  Z.of_nat (String.length (userDataScript (agentDockerImageVersion vmConfig) (vmsAddress vmConfig)
                             (creds vmConfig) vmId)) < 2 ^ 63.

Lemma getUserData_ok vmId : scripts_fit -> vm_id_ok vmId ->
  getUserData (agentDockerImageVersion vmConfig) (vmsAddress vmConfig) (creds vmConfig) vmId
  = Ret (base64 (string_bytes (userDataScript (agentDockerImageVersion vmConfig) (vmsAddress vmConfig)
                                 (creds vmConfig) vmId))).
Proof.
  intros Hfit Hid. unfold getUserData. apply base64Encode_ok.
  - apply string_bytes_bytes.
  - rewrite string_bytes_length. split; [|by apply Hfit].
    unfold userDataScript. rewrite string_app_length. change (String.length "#!/bin/bash") with 11%nat. lia.
Qed.

(** ** Instance types *)

Lemma type_info_lt_swo : StrictWeakOrder (type_info_lt (T := T)).
Proof. apply (swo_on it_capacity slot_lt). Qed.

Lemma StronglySorted_lookup {A} (R : A -> A -> Prop) l : StronglySorted R l ->
  forall i j x y, l !! i = Some x -> l !! j = Some y -> (i < j)%nat -> R x y.
Proof.
  induction 1 as [|z l Hl IH Hz]; intros [|i] [|j] x y Hi Hj Hlt; try (done || lia); cbn in *.
  - simplify_eq. rewrite Forall_forall in Hz. apply Hz. by eapply list_elem_of_lookup_2.
  - eapply (IH i j); eauto. lia.
Qed.

Lemma instance_types_partitioned types (slot : SlotCapacity) :
  StronglySorted (not_greater (type_info_lt (T := T))) types ->
  partitioned (fun info => slot_lt (it_capacity info) slot) types.
Proof.
  intros Hs i j x y Hi Hj Hle Hy. destruct (decide (i = j)) as [->|Hne]; [congruence|].
  assert (slot_lt (it_capacity y) (it_capacity x) = false) as Hxy.
  { apply (StronglySorted_lookup _ types Hs i j x y); [done|done|lia]. }
  apply slot_lt_spec in Hy. apply slot_lt_false in Hxy. apply slot_lt_spec. lia.
Qed.
Lemma instance_type_exact types (info : InstanceTypeInfo T) :
  StronglySorted (not_greater type_info_lt) types -> info ∈ types ->
  exists info', getInstanceTypeForSlot types (it_capacity info) = Ret (it_type info')
    /\ info' ∈ types /\ it_capacity info' = it_capacity info.
Proof.
  intros Hs Hin. apply list_elem_of_lookup in Hin as [k Hk]. pose proof (lookup_lt_Some _ _ _ Hk) as Hlen.
  set (before := fun i : InstanceTypeInfo T => slot_lt (it_capacity i) (it_capacity info)).
  assert (before info = false) as Hself by (unfold before; rewrite slot_lt_false; lia).
  assert (lower_bound before types <= k)%nat as Hle.
  { destruct (decide (lower_bound before types <= k)%nat) as [|Hgt]; [done|].
    rewrite (lower_bound_partitioned before types k info) in Hself; [done| |lia|done].
    by apply instance_types_partitioned. }
  destruct (lower_bound_spec before types) as [_ [?|(x & Hx & Hbx)]]; [lia|].
  exists x. unfold getInstanceTypeForSlot. fold before. rewrite Hx. split; [done|].
  split; [by eapply list_elem_of_lookup_2|].
  destruct (decide (lower_bound before types = k)) as [Heq|Hne]; [congruence|].
  pose proof (StronglySorted_lookup _ _ Hs _ _ _ _ Hx Hk ltac:(lia)) as Hord.
  unfold not_greater, type_info_lt in Hord. unfold before in Hbx.
  apply slot_lt_false in Hord, Hbx. apply slot_eq; lia.
Qed.

(** Whatever is asked for, a type of the list is given, unless it is empty. *)
Lemma instance_type_some (types : list (InstanceTypeInfo T)) slot : types <> [] ->
  exists info, getInstanceTypeForSlot types slot = Ret (it_type info) /\ info ∈ types.
Proof.
  intros Hne. unfold getInstanceTypeForSlot.
  destruct (types !! _) as [info|] eqn:Hl; [exists info; by eauto using list_elem_of_lookup_2|].
  destruct (last types) as [info|] eqn:Hlast; [|by apply last_None in Hlast].
  exists info. split; [done|]. by apply last_Some_elem_of.
Qed.

(** The sizes on offer are in the order the scheduler insists on. *)
Lemma is_sorted_spec l : StronglySorted (not_greater slot_lt) l -> is_sorted l = true.
Proof.
  induction 1 as [|x l Hl IH Hx]; [done|]. cbn. destruct l as [|y l]; [done|].
  inversion Hx; subst. rewrite IH. unfold not_greater in *. by rewrite H1.
Qed.

Lemma getPossibleSlots_accepted :
  StronglySorted (not_greater type_info_lt) (vmTypes vmConfig) -> vmTypes vmConfig <> [] ->
  Scheduler_accepts (getPossibleSlots vmConfig) = true.
Proof.
  intros Hs Hne. unfold Scheduler_accepts, getPossibleSlots. apply andb_true_iff. split.
  - apply negb_true_iff, bool_decide_eq_false. by intros ?%fmap_nil_inv.
  - apply is_sorted_spec. eapply StronglySorted_fmap; [|exact Hs]. done.
Qed.

(** Different VMs have different client tokens. *)
Lemma vm_token_inj vmId vmId' : vm_token vmConfig vmId = vm_token vmConfig vmId' -> vmId = vmId'.
Proof.
  unfold vm_token. intros H%(inj (String.app _))%(inj (String.app _)). by apply (inj pretty).
Qed.
End client.

(** ** Allocation *)

Section allocation.
Context {T W : Type} `{!EC2 T W, !EC2Laws T W} (vmConfig : AwsInstancesConfig T).
Context (Hfit : scripts_fit vmConfig).

(** An instance launched for a VM, as it was asked for. *)
Record launched (vmId : VmId) (vmType : T) (i : Ec2Instance T) : Prop := {
  launched_type : ei_type i = vmType;
  launched_tags : ei_tags i = vmTags vmConfig;
  launched_token : ei_token i = vm_token vmConfig vmId;
}.

(** The instance an earlier request with the same token made, or a new one. *)
Definition reused_or_new (vmId : VmId) (m : gmap string (Ec2Instance T)) (id : string) (i : Ec2Instance T) : Prop :=
  m !! id = Some i
  \/ (m !! id = None /\ ei_state i = Up
      /\ forall id' j, m !! id' = Some j -> ei_token j <> vm_token vmConfig vmId).

(** The request [createInstance] makes. *)
Lemma createRunRequest_ok vmId vmType spot : vm_id_ok vmId ->
  exists rq, createRunRequest (vm_token vmConfig vmId) vmConfig vmType vmId spot = Ret rq
    /\ rq_MinCount rq = 1 /\ rq_MaxCount rq = 1 /\ rq_InstanceType rq = vmType
    /\ rq_Tags rq = vmTags vmConfig /\ rq_ClientToken rq = vm_token vmConfig vmId.
Proof.
  intros Hid. unfold createRunRequest. rewrite getUserData_ok by done. cbn [mbind outcome_bind].
  eexists. split; [done|]. done.
Qed.

(** The instance [id] is now [i], launched for the VM by this or an earlier request. *)
Definition has_instance (vmId : VmId) (vmType : T) (id : string) (i : Ec2Instance T)
    (m m' : gmap string (Ec2Instance T)) : Prop :=
  launched vmId vmType i /\ m' = <[id := i]> m /\ reused_or_new vmId m id i.

Lemma launches_has vmId vmType rq id m m' :
  rq_InstanceType rq = vmType -> rq_Tags rq = vmTags vmConfig -> rq_ClientToken rq = vm_token vmConfig vmId ->
  launches rq id m m' -> exists i, has_instance vmId vmType id i m m'.
Proof.
  intros Ht Hg Hk (i & Hit & Hig & Hik & Hm & Hor). rewrite Hk in Hik, Hor. exists i.
  split; [by constructor; congruence|]. split; [done|exact Hor].
Qed.

(** Every way an allocation can end, with the calls that led there.  A request that
    failed may have launched the instance; one that could not be started was
    terminated, unless that failed too. *)
Inductive allocation_ends (vmId : VmId) (vmType : T) (w w' : W) : Result (AwsVmInfo T) -> Prop :=
  | allocation_done id i :
    reused_or_new vmId (instances w) id i -> ei_state i <> Gone -> launched vmId vmType i ->
    instances w' = <[id := with_state Up i]> (instances w) ->
    allocation_ends vmId vmType w w' (Success (mkAwsVmInfo vmType id))
  | allocation_refused rq :
    createRunRequest (vm_token vmConfig vmId) vmConfig vmType vmId (useSpot vmConfig) = Ret rq ->
    RunInstances rq w = (None, w') ->
    instances w' = instances w \/ (exists id i, has_instance vmId vmType id i (instances w) (instances w')) ->
    allocation_ends vmId vmType w w' (Failure AllocationException)
  | allocation_undone rq id i st o w1 w2 :
    createRunRequest (vm_token vmConfig vmId) vmConfig vmType vmId (useSpot vmConfig) = Ret rq ->
    RunInstances rq w = (Some [id], w1) -> StartInstances [id] w1 = (None, w2) ->
    TerminateInstances [id] w2 = (o, w') ->
    reused_or_new vmId (instances w) id i -> launched vmId vmType i ->
    instances w' = <[id := with_state st i]> (instances w) -> (is_Some o -> st = Gone) ->
    allocation_ends vmId vmType w w' (Failure AllocationException).

Lemma with_state_id (i : Ec2Instance T) : with_state (ei_state i) i = i.
Proof. by destruct i. Qed.

(** A failed start leaves the instance in some state. *)
Lemma start_fails_state id w w' i m : instances w = <[id := i]> m -> StartInstances [id] w = (None, w') ->
  exists st, instances w' = <[id := with_state st i]> m.
Proof.
  intros Hw Hs. apply start_fails in Hs as [Hs|(st & j & Hj & _ & Hs)].
  - exists (ei_state i). by rewrite with_state_id, Hs.
  - rewrite Hw, lookup_insert_eq in Hj. injection Hj as <-. exists st. by rewrite Hs, Hw, insert_insert_eq.
Qed.

(** A termination leaves it in some state, and terminated when it succeeded. *)
Lemma terminate_state id w o w' st i m : instances w = <[id := with_state st i]> m ->
  TerminateInstances [id] w = (o, w') ->
  exists st', instances w' = <[id := with_state st' i]> m /\ (is_Some o -> st' = Gone).
Proof.
  intros Hw Ht. assert (terminates id (instances w) (instances w') -> instances w' = <[id := with_state Gone i]> m) as Hgone.
  { intros (j & Hj & ->). rewrite Hw, lookup_insert_eq in Hj. injection Hj as <-. by rewrite Hw, insert_insert_eq. }
  destruct o as [u|]; [exists Gone; apply terminate_succeeds in Ht; by auto|].
  apply terminate_fails in Ht as [Ht|Ht]; [|by exists Gone; auto].
  exists st. rewrite Ht. split; [done|]. by intros [? ?].
Qed.

Lemma allocate_type_spec vmId vmType w : vm_id_ok vmId ->
  exists r w', allocate_type vmConfig vmId vmType w = Ret (r, w') /\ allocation_ends vmId vmType w w' r.
Proof.
  intros Hid. unfold allocate_type, createInstance.
  destruct (createRunRequest_ok vmId vmType (useSpot vmConfig) Hid) as (rq & Hrq & Hmin & Hmax & Ht & Hg & Hk).
  rewrite Hrq. cbn [mbind outcome_bind]. destruct (RunInstances rq w) as [[ids|] w1] eqn:Hrun.
  2: { do 2 eexists. split; [done|]. eapply allocation_refused; [done|done|].
       destruct (run_fails _ _ _ Hrun Hmin Hmax) as [?|[id Hl]]; [by left|right].
       exists id. by eapply launches_has. }
  destruct (run_succeeds _ _ _ _ Hrun Hmin Hmax) as (id & -> & Hl).
  destruct (launches_has vmId vmType rq id _ _ Ht Hg Hk Hl) as (i & Hla & Hw & Hor). cbn [mbind outcome_bind].
  unfold startInstance. cbn [aws_id]. destruct (StartInstances [id] w1) as [[u|] w2] eqn:Hstart.
  - do 2 eexists. split; [done|]. destruct (start_succeeds _ _ _ _ Hstart) as (j & Hj & Hgone & Hw2).
    rewrite Hw, lookup_insert_eq in Hj. injection Hj as <-. rewrite Hw, insert_insert_eq in Hw2. by econstructor.
  - destruct (start_fails_state _ _ _ _ _ Hw Hstart) as (st & Hw2). unfold aws_terminate.
    destruct (TerminateInstances [id] w2) as [o w3] eqn:Hterm.
    destruct (terminate_state _ _ _ _ _ _ _ Hw2 Hterm) as (st' & Hw3 & Hst').
    do 2 eexists. split; [done|]. by eapply allocation_undone.
Qed.

(** The instance known under the token of a VM is the one a request returns. *)
Lemma reused_or_new_known vmId w id i id' j :
  instances w !! id = Some i -> ei_token i = vm_token vmConfig vmId ->
  ei_token j = vm_token vmConfig vmId ->
  reused_or_new vmId (instances w) id' j -> id' = id /\ j = i.
Proof.
  intros Hi Ht Hj [Hj'|(_ & _ & Hfresh)]; [|by destruct (Hfresh id i)].
  assert (id' = id) as -> by (eapply token_unique; eauto; congruence). by simplify_eq.
Qed.

(** An instance that was terminated stands in the way of its VM for good. *)
Lemma allocate_type_gone vmId vmType w id i : vm_id_ok vmId ->
  instances w !! id = Some i -> ei_token i = vm_token vmConfig vmId -> ei_state i = Gone ->
  exists w', allocate_type vmConfig vmId vmType w = Ret (Failure AllocationException, w').
Proof.
  intros Hid Hi Ht Hg. destruct (allocate_type_spec vmId vmType w Hid) as (r & w' & -> & Hends).
  destruct Hends as [id' j Hor Hst Hl Hw| |]; eauto.
  destruct (reused_or_new_known vmId w id i id' j) as [-> ->]; [done|done|by apply Hl|done|done].
Qed.

(** An allocation touches no instance with another token. *)
Lemma allocation_ends_frame vmId vmType w w' r id i :
  allocation_ends vmId vmType w w' r -> ei_token i <> vm_token vmConfig vmId ->
  instances w' !! id = Some i <-> instances w !! id = Some i.
Proof.
  intros Hends Hne.
  assert (forall id' j st, reused_or_new vmId (instances w) id' j -> launched vmId vmType j ->
    instances w' = <[id' := with_state st j]> (instances w) ->
    instances w' !! id = Some i <-> instances w !! id = Some i) as Hother.
  { intros id' j st Hor Hl ->. pose proof (launched_token _ _ _ Hl) as Hj. rewrite lookup_insert_Some. split.
    - intros [[-> <-]|[_ ?]]; [by destruct Hne|done].
    - intros Hi. right. split; [|done]. intros ->. destruct Hor as [Hor|(Hor & _)]; congruence. }
  destruct Hends as [id' j Hor _ Hl Hw|rq _ _ [Hw|(id' & j & Hl & Hw & Hor)]|rq id' j st o w1 w2 _ _ _ _ Hor Hl Hw _];
    [by eapply Hother| |eapply (Hother _ _ (ei_state j)); eauto; by rewrite with_state_id|by eapply Hother].
  by rewrite Hw.
Qed.

(** What a failing allocation left running it either never knew of, or failed to
    terminate. *)
Lemma allocation_ends_no_orphan vmId vmType w w' e id i :
  allocation_ends vmId vmType w w' (Failure e) -> instances w' !! id = Some i -> ei_state i = Up ->
  instances w !! id = Some i
  \/ (launched vmId vmType i /\ exists rq,
       createRunRequest (vm_token vmConfig vmId) vmConfig vmType vmId (useSpot vmConfig) = Ret rq
       /\ (RunInstances rq w = (None, w')
           \/ exists w1 w2, RunInstances rq w = (Some [id], w1) /\ StartInstances [id] w1 = (None, w2)
                /\ TerminateInstances [id] w2 = (None, w'))).
Proof.
  intros Hends Hi Hup. inversion Hends as [|rq Hrq Hrun [Hw|(id' & j & Hl & Hw & Hor)]|rq id' j st o w1 w2 Hrq Hrun Hst Ht Hor Hl Hw Hgone];
    subst; rewrite Hw in Hi; [by left| |]; apply lookup_insert_Some in Hi as [[<- <-]|[Hne Hi]]; (by left) || right.
  - split; [done|]. exists rq. auto.
  - split; [by destruct Hl|]. exists rq. split; [done|]. right. exists w1, w2. split; [done|]. split; [done|].
    destruct o as [u|]; [|done]. cbn in Hup. rewrite Hgone in Hup by eauto. done.
Qed.
End allocation.

(** ** Listings *)

(** [n] pages, followed from token to token until one comes without; [items] is
    everything on them. *)
Inductive listed {A W : Type} (query : DescribeRequest -> W -> option (list A * string) * W)
  : DescribeRequest -> W -> list A -> W -> nat -> Prop :=
  | listed_last rq w items w' :
    query rq w = (Some (items, ""%string), w') -> listed query rq w items w' 1
  | listed_more rq w items token w1 rest w' n :
    query rq w = (Some (items, token), w1) -> token <> ""%string ->
    listed query (SetNextToken token rq) w1 rest w' n ->
    listed query rq w (items ++ rest) w' (S n).

Section listings.
Context {T W : Type} `{!EC2 T W}.

Lemma insert_reservations_app l1 l2 (acc : list AllocatedVmInfo) :
  insert_reservations (l1 ++ l2) acc = insert_reservations l2 (insert_reservations l1 acc).
Proof. apply foldl_app. Qed.

Lemma describe_instances_loop_listed fuel : forall rq w reservations w' n acc,
  listed DescribeInstances rq w reservations w' n -> (n <= fuel)%nat ->
  describe_instances_loop fuel rq acc w = Ret (Success (insert_reservations reservations acc), w').
Proof.
  induction fuel as [|fuel IH]; intros rq w res w' n acc Hl Hn; destruct Hl as [? ? ? ? Hq|? ? items token w1 ? ? ? Hq Ht Hl];
    try lia; cbn; rewrite Hq.
  - done.
  - rewrite bool_decide_eq_false_2 by done. rewrite insert_reservations_app. eapply IH; [done|lia].
Qed.

Lemma describe_instances_loop_inv fuel : forall rq w acc infos w',
  describe_instances_loop fuel rq acc w = Ret (Success infos, w') ->
  exists reservations n, listed DescribeInstances rq w reservations w' n
    /\ infos = insert_reservations reservations acc.
Proof.
  induction fuel as [|fuel IH]; intros rq w acc infos w' H; [done|]. cbn in H.
  destruct (DescribeInstances rq w) as [[[res token]|] w1] eqn:Hq; [|done]. case_bool_decide as Ht.
  - simplify_eq. do 2 eexists. split; [by constructor|done].
  - apply IH in H as (rest & n & Hl & ->). do 2 eexists. split; [by eapply listed_more|].
    by rewrite insert_reservations_app.
Qed.

Lemma set_insert_elem x y l : y ∈ set_insert x l <-> y = x \/ y ∈ l.
Proof. unfold set_insert. case_decide; set_solver. Qed.

Lemma insert_instances_elem (instances : list (T * string)) : forall acc info,
  info ∈ foldl (fun infos i => set_insert (convertAwsVmInfoToVmInfo (mkAwsVmInfo i.1 i.2)) infos) acc instances
  <-> info ∈ acc \/ exists t id, (t, id) ∈ instances /\ info = convertAwsVmInfoToVmInfo (mkAwsVmInfo t id).
Proof.
  induction instances as [|[t id] instances IH]; intros acc info; cbn [foldl]; [set_solver|].
  rewrite IH, set_insert_elem. set_solver.
Qed.

Lemma insert_reservations_elem reservations : forall acc info,
  info ∈ insert_reservations reservations acc
  <-> info ∈ acc \/ exists instances t id, instances ∈ reservations /\ (t, id) ∈ instances
        /\ info = convertAwsVmInfoToVmInfo (mkAwsVmInfo t id).
Proof.
  induction reservations as [|r reservations IH]; intros acc info; [unfold insert_reservations; set_solver|].
  change (insert_reservations (r :: reservations) acc) with
    (insert_reservations reservations (insert_reservations [r] acc)).
  rewrite IH. cbn. rewrite insert_instances_elem. set_solver.
Qed.

Lemma describe_types_loop_listed fuel : forall rq w items w' n acc,
  listed DescribeInstanceTypes rq w items w' n -> (n <= fuel)%nat ->
  describe_types_loop fuel rq acc w = Ret (Success (acc ++ (convert_type_info <$> items)), w').
Proof.
  induction fuel as [|fuel IH]; intros rq w items w' n acc Hl Hn;
    destruct Hl as [? ? ? ? Hq|? ? items token w1 ? ? ? Hq Ht Hl]; try lia; cbn; rewrite Hq.
  - done.
  - rewrite bool_decide_eq_false_2 by done. rewrite fmap_app, app_assoc. eapply IH; [done|lia].
Qed.

Lemma describe_types_loop_inv fuel : forall rq w acc infos w',
  describe_types_loop fuel rq acc w = Ret (Success infos, w') ->
  exists items n, listed DescribeInstanceTypes rq w items w' n /\ infos = acc ++ (convert_type_info <$> items).
Proof.
  induction fuel as [|fuel IH]; intros rq w acc infos w' H; [done|]. cbn in H.
  destruct (DescribeInstanceTypes rq w) as [[[res token]|] w1] eqn:Hq; [|done]. case_bool_decide as Ht.
  - simplify_eq. do 2 eexists. split; [by constructor|done].
  - apply IH in H as (rest & n & Hl & ->). do 2 eexists. split; [by eapply listed_more|].
    by rewrite fmap_app, app_assoc.
Qed.

(** The sizes on offer are those EC2 lists for the instance class, in order. *)
Lemma createAwsInstancesConfig_types `{StdLib} getenv fuel w config w' :
  createAwsInstancesConfig getenv fuel w = Returns (config, w') ->
  StronglySorted (not_greater type_info_lt) (vmTypes config)
  /\ exists items n,
       listed DescribeInstanceTypes
         (mkDescribe [("instance-type", [getFromEnvOrDefault getenv "VMS_AWS_INSTANCE_CLASS" "c6g." +:+ "*"])]%string "")
         w items w' n
       /\ vmTypes config ≡ₚ (convert_type_info <$> items).
Proof.
  unfold createAwsInstancesConfig. intros Hc. apply exec_bind_returns in Hc as ([r w1] & Hd & Hc).
  exec_inv Hc. injection Hc as <- ->. cbn [vmTypes]. split; [apply std_sort_sorted, type_info_lt_swo|].
  destruct r as [infos|]; [|done]. apply exec_ret_returns in Hv. subst v.
  destruct (describeInstanceTypes fuel _ w) as [[r w2]| |] eqn:Hl; cbn in Hd; simplify_eq.
  apply describe_types_loop_inv in Hl as (items & n & Hl & ->). exists items, n. split; [done|].
  apply std_sort_perm, type_info_lt_swo.
Qed.
End listings.
