(* ===== verification/AwsSample.v ===== *)
(** * A small EC2 on which the AWS client is evaluated

    Instances are kept by client token; starting can be refused, which is how
    EC2 answers when it has no capacity. *)

From Stdlib Require Import Ascii.
From S2P Require Import Prelude Std Slot State Db Text Config Aws AwsFacts.

Record Sim : Type := mkSim {
  sim_map : gmap string (string * list (string * string) * InstanceState); sim_refuse : bool }.

Definition sim_id (token : string) : string := "i-" +:+ token.

Definition sim_token (id : string) : option string :=
  match id with
  | String "i"%char (String "-"%char token) => Some token
  | _ => None
  end.

Definition sim_instance (token : string) (x : string * list (string * string) * InstanceState)
  : Ec2Instance string := mkEc2Instance x.1.1 x.1.2 token x.2.

Definition sim_instances (w : Sim) : gmap string (Ec2Instance string) :=
  kmap sim_id (map_imap (fun token x => Some (sim_instance token x)) (sim_map w)).

Definition sim_set (token : string) (x : string * list (string * string) * InstanceState) (w : Sim) : Sim :=
  mkSim (<[token := x]> (sim_map w)) (sim_refuse w).

(** Applies [f] to the one instance of [ids], if it is there. *)
Definition sim_on (ids : list string) (w : Sim)
    (f : string -> string * list (string * string) * InstanceState -> option unit * Sim) : option unit * Sim :=
  match ids with
  | [id] =>
    match sim_token id with
    | Some token => match sim_map w !! token with Some x => f token x | None => (None, w) end
    | None => (None, w)
    end
  | _ => (None, w)
  end.

#[export] Instance InstanceState_eq_dec : EqDecision InstanceState.
Proof. solve_decision. Defined.

(** Whether tags pass the filters of a query that start with "tag:". *)
Definition sim_matches (filters : list (string * list string)) (tags : list (string * string)) : bool :=
  forallb (fun f => bool_decide (f.1 = "instance-state-name"%string)
    || existsb (fun kv => bool_decide ("tag:" +:+ kv.1 = f.1) && bool_decide (kv.2 ∈ f.2)) tags) filters.

(** Two pages of types, not in order. *)
Definition sim_types : list (string * Z * Z) * list (string * Z * Z) :=
  ([("c6g.xlarge", 4, 8192); ("c6g.medium", 1, 2048)], [("c6g.large", 2, 4096)])%string.

#[export] Instance sim_ec2 : EC2 string Sim := {|
  GetNameForInstanceType := id;
  RunInstances rq w :=
    match sim_map w !! rq_ClientToken rq with
    | Some x =>
      if decide (x.1 = (rq_InstanceType rq, rq_Tags rq)) then (Some [sim_id (rq_ClientToken rq)], w) else (None, w)
    | None => (Some [sim_id (rq_ClientToken rq)],
               sim_set (rq_ClientToken rq) (rq_InstanceType rq, rq_Tags rq, Up) w)
    end;
  StartInstances ids w := sim_on ids w (fun token x =>
    if decide (x.2 = Gone) then (None, w)
    else if sim_refuse w then (None, w) else (Some tt, sim_set token (x.1, Up) w));
  TerminateInstances ids w := sim_on ids w (fun token x => (Some tt, sim_set token (x.1, Gone) w));
  DescribeInstances rq w :=
    (Some ((fun tx => [(tx.2.1.1, sim_id tx.1)])
             <$> filter (fun tx => tx.2.2 = Up /\ sim_matches (rq_Filters rq) tx.2.1.2 = true)
                   (map_to_list (sim_map w)), ""%string), w);
  DescribeInstanceTypes rq w :=
    (if decide (rq_NextToken rq = "")%string then Some (sim_types.1, "more"%string)
     else Some (sim_types.2, ""%string), w);
|}.

#[export] Instance sim_id_inj : Inj (=) (=) sim_id.
Proof. intros a b H. by apply (inj (String.app "i-")) in H. Qed.

Lemma sim_token_id id token : sim_token id = Some token -> id = sim_id token.
Proof.
  destruct id as [|c [|d s]]; [done|by destruct c as [[][][][][][][][]]|].
  destruct c as [[][][][][][][][]]; try done; destruct d as [[][][][][][][][]]; try done. intros H. by injection H as <-.
Qed.

Lemma sim_instances_lookup w token :
  sim_instances w !! sim_id token = sim_instance token <$> sim_map w !! token.
Proof. unfold sim_instances. rewrite lookup_kmap by apply _. rewrite map_lookup_imap. by destruct (sim_map w !! token). Qed.

Lemma sim_instances_set token x w :
  sim_instances (sim_set token x w) = <[sim_id token := sim_instance token x]> (sim_instances w).
Proof.
  unfold sim_instances. cbn. rewrite map_imap_insert, kmap_insert by apply _. done.
Qed.

Lemma sim_instances_Some w id i : sim_instances w !! id = Some i ->
  exists token x, id = sim_id token /\ i = sim_instance token x /\ sim_map w !! token = Some x.
Proof.
  unfold sim_instances. rewrite lookup_kmap_Some by apply _. intros (token & -> & Hi).
  rewrite map_lookup_imap in Hi. destruct (sim_map w !! token) as [x|] eqn:Hx; [|done].
  cbn in Hi. injection Hi as <-. eauto.
Qed.

(** It never answers with an error after doing what it was asked. *)
Lemma sim_on_fails ids w w' f : (forall token x, f token x = (None, w') -> w' = w) ->
  sim_on ids w f = (None, w') -> w' = w.
Proof. intros Hf. unfold sim_on. repeat case_match; naive_solver. Qed.

Lemma sim_on_succeeds id w w' u f : sim_on [id] w f = (Some u, w') ->
  exists token x, id = sim_id token /\ sim_instances w !! id = Some (sim_instance token x) /\ f token x = (Some u, w').
Proof.
  cbn. destruct (sim_token id) as [token|] eqn:Hid; [|done]. apply sim_token_id in Hid as ->.
  destruct (sim_map w !! token) as [x|] eqn:Hx; [|done]. intros Hf. exists token, x.
  by rewrite sim_instances_lookup, Hx.
Qed.

#[export] Program Instance sim_laws : EC2Laws string Sim := {| instances := sim_instances |}.
Next Obligation.
  intros w id i id' j Hi Hj Ht. apply sim_instances_Some in Hi as (token & x & -> & -> & _).
  apply sim_instances_Some in Hj as (token' & y & -> & -> & _). cbn in Ht. congruence.
Qed.
Next Obligation.
  intros rq w ids w' Hrun _ _. cbn in Hrun. destruct (sim_map w !! rq_ClientToken rq) as [x|] eqn:Hx.
  - case_decide as Heq; [|done]. injection Hrun as <- <-. destruct x as [tt' st]. cbn in Heq. subst tt'.
    exists (sim_id (rq_ClientToken rq)). split; [done|].
    exists (sim_instance (rq_ClientToken rq) (rq_InstanceType rq, rq_Tags rq, st)).
    split; [done|]. split; [done|]. split; [done|].
    assert (sim_instances w !! sim_id (rq_ClientToken rq)
      = Some (sim_instance (rq_ClientToken rq) (rq_InstanceType rq, rq_Tags rq, st))) as Hl
      by (rewrite sim_instances_lookup, Hx; done).
    split; [by rewrite insert_id|by left].
  - injection Hrun as <- <-. exists (sim_id (rq_ClientToken rq)). split; [done|].
    eexists. split; [|split; [|split; [|split; [apply sim_instances_set|right]]]]; [done..|].
    split; [by rewrite sim_instances_lookup, Hx|]. split; [done|].
    intros id j Hj Ht. apply sim_instances_Some in Hj as (token & x & _ & -> & Hm). cbn in Ht. congruence.
Qed.
Next Obligation.
  intros rq w w' Hrun _ _. left. revert Hrun. cbn. destruct (sim_map w !! _); [case_decide|]; by intros [= <-].
Qed.
Next Obligation.
  intros id w w' u Hs. apply sim_on_succeeds in Hs as (token & x & -> & Hi & Hf).
  case_decide as Hg; [done|]. destruct (sim_refuse w); [done|]. injection Hf as _ <-.
  exists (sim_instance token x). split; [done|]. split; [done|]. apply sim_instances_set.
Qed.
Next Obligation.
  intros id w w' Hs. left. f_equal. refine (sim_on_fails [id] w w' _ _ Hs). intros token x.
  case_decide; [by intros [= <-]|]. destruct (sim_refuse w); by intros [= <-].
Qed.
Next Obligation.
  intros id w w' u Hs. apply sim_on_succeeds in Hs as (token & x & -> & Hi & Hf). injection Hf as _ <-.
  exists (sim_instance token x). split; [done|]. apply sim_instances_set.
Qed.
Next Obligation.
  intros id w w' Hs. left. f_equal. refine (sim_on_fails [id] w w' _ _ Hs). discriminate.
Qed.

(** An environment and the client it makes. *)
Definition sample_env (name : string) : option string :=
  map_at [("VMS_ADDRESS", "10.0.0.1:50001"); ("VMS_AGENT_ECR_ACCESS_KEY_ID", "key");
    ("VMS_AGENT_ECR_SECRET_KEY", "secret")]%string name.

Definition sample_types : list (InstanceTypeInfo string) :=
  [mkInstanceTypeInfo "c6g.medium" (mkSlot 1 2048); mkInstanceTypeInfo "c6g.large" (mkSlot 2 4096);
   mkInstanceTypeInfo "c6g.xlarge" (mkSlot 4 8192)]%string.

Definition sample_aws : AwsInstancesConfig string :=
  mkAwsInstancesConfig "ami-0aaa7d236c8b7d9b9" sample_types getVmTags "vms-prod" "latest" "10.0.0.1:50001"
    (mkAgentEcrCredentials "key" "secret") false.

Definition empty_ec2 : Sim := mkSim ∅ false.
Definition full_ec2 : Sim := mkSim ∅ true.
