(* ===== verification/CloudContract.v ===== *)
(** * What the allocator needs of a cloud

    [CloudPromise] is the interface between the allocator and a cloud client: what
    a successful allocation promises about the VM, which the allocation of other
    VMs must not break.  Against it, the rows the allocator leaves in status
    allocated are shown to name what was promised; the AWS client implements it. *)

From S2P Require Import Prelude Std Slot State OrderedJobs JobAllocator SlotSelector Assigner.
From S2P Require Import AllocatorContract SelectorFacts AssignerFacts PlanFacts Db TxLogic Storage.
From S2P Require Import StorageFacts Lifecycle StorageRefines StorageSpec StorageProgress Scheduler.
From S2P Require Import SchedulerFacts VmFacts Interfaces Process Allocator FailureDetector AllocatorFacts.
From S2P Require Import Base64 Text Config Aws AwsFacts.

Class CloudPromise (W : Type) `{!CloudClient W} : Type := {
  promised : VmId -> SlotCapacity -> AllocatedVmInfo -> W -> Prop;
  promise_made : forall v s c info c', vm_id_ok v -> cloud_allocate v s c = (Success info, c') -> promised v s info c';
  promise_kept : forall v s info c v' s' r c', promised v s info c -> vm_id_ok v' ->
    cloud_allocate v' s' c = (r, c') -> v' <> v -> promised v s info c';
}.

Section contract.
Context `{StdLib} `{Postgres} {W : Type} `{!CloudClient W} `{!CloudPromise W} (sch : Schedule) (Hsch : undisturbed sch).

Lemma allocated_row_cloud now info r :
  v_status (allocated_row now info r) = Allocated
  /\ v_cloud_vm_id (allocated_row now info r) = Some (av_id info)
  /\ v_cloud_vm_type (allocated_row now info r) = Some (av_type info).
Proof. unfold allocated_row, status_trigger. by case_decide. Qed.

(** The row [r] of VM [v] names what the cloud promised for the capacity [s]. *)
Definition row_promised (v : VmId) (s : SlotCapacity) (r : VmRow) (c : W) : Prop :=
  exists info, v_cloud_vm_id r = Some (av_id info) /\ v_cloud_vm_type r = Some (av_type info)
    /\ promised v s info c.

Lemma allocate_vms_promised vms : plain_names -> forall w un w',
  db_wf (w_db w) -> NoDup (apv_id <$> vms) -> Forall vm_id_ok (apv_id <$> vms) ->
  process sch (Allocator.allocate_vms vms) w = (Some un, w') ->
  (forall v s info, v ∉ apv_id <$> vms -> promised v s info (w_cloud w) -> promised v s info (w_cloud w'))
  /\ (forall a r, a ∈ vms -> apv_id a ∉ un -> db_vms (w_db w') !! apv_id a = Some r ->
        row_promised (apv_id a) (apv_capacity a) r (w_cloud w')).
Proof.
  intros Hplain. induction vms as [|vm vms IH]; intros w un w' Hwf Hnd Hids Hrun.
  { injection Hrun as <- <-. split; [done|]. set_solver. }
  rewrite fmap_cons in *. apply NoDup_cons in Hnd as [Hvm Hnd]. apply Forall_cons in Hids as [Hid Hids]. cbn [Allocator.allocate_vms] in Hrun.
  process_step_in Hrun.
  destruct (cloud_allocate (apv_id vm) (apv_capacity vm) (w_cloud w)) as [[info|e] c] eqn:Hc.
  - process_step_in Hrun. rewrite (und_alone _ Hsch) in Hrun.
    destruct (saveVmAllocationResult_effect (apv_id vm) info (envs sch (w_calls w)) (w_db w))
      as (db1 & E1 & Hwf1 & Hj1 & Hv1); [apply Hsch|done|by eapply Hplain|]. rewrite E1 in Hrun.
    destruct (IH (mkWorld db1 c (S (w_calls w))) _ _ Hwf1 Hnd Hids Hrun) as [Hkeep Hnew]. cbn [w_db w_cloud] in *.
    destruct (allocate_vms_spec sch Hsch vms Hplain (mkWorld db1 c (S (w_calls w))) Hwf1 Hnd) as (un2 & w2 & E2 & Had).
    rewrite Hrun in E2. injection E2 as <- <-. split.
    + intros v s i Hv Hp. apply Hkeep; [set_solver|]. eapply promise_kept; eauto. set_solver.
    + intros a r [->|Ha]%elem_of_cons Hun Hr; [|by apply Hnew].
      rewrite (ad_rest _ _ _ _ Had) in Hr by (by left). cbn [w_db] in Hr. rewrite Hv1 in Hr.
      destruct (db_vms (w_db w) !! apv_id vm) as [r0|]; [|done]. cbn in Hr.
      rewrite decide_True in Hr by done. injection Hr as <-.
      destruct (allocated_row_cloud (env_now (envs sch (w_calls w))) info r0) as (_ & ? & ?).
      exists info. split; [done|]. split; [done|]. apply Hkeep; [done|]. by eapply promise_made.
  - process_step_in Hrun. match type of Hrun with context [process sch (Allocator.allocate_vms vms) ?w1] =>
      destruct (process sch (Allocator.allocate_vms vms) w1) as [[un1|] w2] eqn:E1; [|done] end.
    cbn in Hrun. injection Hrun as <- <-. destruct (IH (mkWorld (w_db w) c (w_calls w)) _ _ Hwf Hnd Hids E1) as [Hkeep Hnew]. split.
    + intros v s i Hv Hp. apply Hkeep; [set_solver|]. eapply promise_kept; eauto. set_solver.
    + intros a r [->|Ha]%elem_of_cons Hun Hr; [set_solver|]. apply Hnew; set_solver.
Qed.

(** The VMs an undisturbed run of [allocate] allocated. *)
Lemma allocate_promised config w :
  plain_names -> db_wf (w_db w) -> (forall v r, db_vms (w_db w) !! v = Some r -> vm_id_ok v) -> maxVmAllocationCount config < 2 ^ 63 ->
  vmRestartAttemptCount (alloc_common config) < 2 ^ 31 -> jobRestartAttemptCount (alloc_common config) < 2 ^ 31 ->
  exists w', process sch (Allocator.allocate config) w = (Some tt, w')
    /\ forall v r r', db_vms (w_db w) !! v = Some r -> v_status r = PendingAllocation ->
         db_vms (w_db w') !! v = Some r' -> v_status r' = Allocated ->
         row_promised v (vm_total r) r' (w_cloud w').
Proof.
  intros Hplain Hwf Hids Hmax Hn Hm.
  destruct (allocate_runs sch Hsch config w) as (w' & l & un & db1 & w1 & w2 & now1 & now2 & E & Hrun); [done..|].
  exists w'. split; [done|]. intros v r r' Hr Hs Hr' Hs'.
  destruct Hrun as [Hho Hcap (Hw1 & Hc1 & Hwf1) Hloop [_ _ Hsub _ Hrest] Hcloud Hrows].
  rewrite Hrows in Hr'. destruct (decide (v ∈ apv_id <$> l)) as [Hv|Hv].
  - destruct (decide (v ∈ un)) as [Hun|Hun].
    + rewrite Hrest in Hr' by (by right). destruct (ho_was _ _ _ _ _ _ _ Hho v Hv) as (r0 & _ & _ & _ & Hr1).
      rewrite Hr1 in Hr'. injection Hr' as <-. exfalso.
      destruct (rolled_back_settled un (vmRestartAttemptCount (alloc_common config)) now1 now2 v
        (status_trigger (env_now (envs sch (w_calls w))) r0 (set_v_status Allocating r0)) Hun) as [Hbad|[Hbad|Hbad]];
        [unfold status_trigger; by case_decide| |congruence|congruence].
      revert Hs'. unfold rolled_back. repeat case_match; try discriminate; rewrite ?retry_row_status; try discriminate;
        unfold status_trigger; repeat case_decide; discriminate.
    + destruct (db_vms (w_db w2) !! v) as [r2|] eqn:Hr2; [|done]. cbn in Hr'. rewrite rolled_back_other in Hr' by done.
      injection Hr' as <-. apply list_elem_of_fmap in Hv as (a & -> & Ha).
      destruct (Hcap a Ha) as (r3 & Hr3 & Hcap'). rewrite Hr in Hr3. injection Hr3 as <-.
      rewrite <- Hcap', Hcloud. rewrite <- Hw1 in Hwf1.
      eapply (allocate_vms_promised l Hplain w1 un w2); eauto; [apply Hho|].
      apply Forall_forall. intros v (b & -> & Hb)%list_elem_of_fmap. destruct (Hcap b Hb) as (? & ? & _). eauto.
  - rewrite Hrest, (ho_rest _ _ _ _ _ _ _ Hho), Hr in Hr' by (done || by left). cbn in Hr'.
    rewrite rolled_back_other in Hr' by (intros Hin; by apply Hv, Hsub). congruence.
Qed.
End contract.

(** ** AWS keeps the contract *)

Section aws.
Context {T W : Type} `{!EC2 T W, !EC2Laws T W} (vmConfig : AwsInstancesConfig T) (fuel : nat).
Context (Hfit : scripts_fit vmConfig) (Htypes : vmTypes vmConfig <> []).

(** [AwsCloudClient] as a [CloudClient].  The cases in which [aws_allocate] has no
    result do not arise ([aws_client_allocate]). *)
Definition aws_client : CloudClient W := {|
  cloud_allocate v s w :=
    match aws_allocate vmConfig v s w with
    | Ret r => r
    | _ => (Failure RuntimeException, w)
    end;
  cloud_terminate := aws_terminate;
  cloud_getAllAllocatedVms w :=
    match aws_getAllAllocatedVms vmConfig fuel w with
    | Ret r => r
    | _ => (Failure RuntimeException, w)
    end;
  cloud_getPossibleSlots := getPossibleSlots vmConfig;
|}.
#[local] Existing Instance aws_client.

(** Every way an allocation for a slot can end. *)
Lemma aws_allocate_spec v s w : vm_id_ok v -> exists t r w',
  instanceTypeForSlot vmConfig s = Ret t /\ allocation_ends vmConfig v t w w' r
  /\ aws_allocate vmConfig v s w
     = Ret (match r with Success info => Success (convertAwsVmInfoToVmInfo info) | Failure e => Failure e end, w').
Proof.
  intros Hid. destruct (instance_type_some (vmTypes vmConfig) s Htypes) as (info & Ht & _).
  destruct (allocate_type_spec vmConfig Hfit v (it_type info) w Hid) as (r & w' & E & Hends).
  exists (it_type info), r, w'. split; [done|]. split; [done|].
  unfold aws_allocate, instanceTypeForSlot. rewrite Ht. cbn [mbind outcome_bind]. rewrite E. by destruct r.
Qed.

Lemma aws_client_allocate v s w : vm_id_ok v -> aws_allocate vmConfig v s w = Ret (cloud_allocate v s w).
Proof. intros Hid. destruct (aws_allocate_spec v s w Hid) as (t & r & w' & _ & _ & E). cbn. by rewrite E. Qed.

(** A running instance, launched for the VM, of the type that serves the slot. *)
Definition aws_promised (v : VmId) (s : SlotCapacity) (info : AllocatedVmInfo) (w : W) : Prop :=
  exists i t, instances w !! av_id info = Some i /\ ei_state i = Up /\ launched vmConfig v t i
    /\ av_type info = GetNameForInstanceType t /\ instanceTypeForSlot vmConfig s = Ret t.

(** An allocation leaves the instances of other VMs alone. *)
Lemma allocation_ends_other v t w w' r id i v' t' :
  allocation_ends vmConfig v' t' w w' r -> v' <> v ->
  instances w !! id = Some i -> launched vmConfig v t i -> instances w' !! id = Some i.
Proof.
  intros Hends Hne Hi Hl. apply (allocation_ends_frame _ _ _ _ _ _ _ _ Hends); [|done].
  rewrite (launched_token _ _ _ _ Hl). intros E. by apply Hne, (vm_token_inj vmConfig).
Qed.

#[local] Program Instance aws_promise : CloudPromise W := {| promised := aws_promised |}.
Next Obligation.
  intros v s w info w' Hid Hc. destruct (aws_allocate_spec v s w Hid) as (t & r & w1 & Ht & Hends & E).
  cbn in Hc. rewrite E in Hc. destruct r as [info'|]; [|done]. simplify_eq.
  inversion Hends as [id i Hor Hst Hl Hw Heq| |]; subst. exists (with_state Up i), t. cbn.
  rewrite Hw, lookup_insert_eq. split; [done|]. split; [done|]. split; [|done]. by destruct Hl.
Qed.
Next Obligation.
  intros v s info w v' s' r w' (i & t & Hi & Hup & Hl & Hname & Ht) Hid Hc Hne.
  destruct (aws_allocate_spec v' s' w Hid) as (t' & r' & w1 & _ & Hends & E).
  cbn in Hc. rewrite E in Hc. simplify_eq. exists i, t. split; [|done].
  by eapply allocation_ends_other.
Qed.
End aws.
