(* ===== verification/Fleet.v ===== *)
(** * The VMs that run in the cloud and those the database knows of

    [CloudFleet] is what the clean-up of untracked VMs needs of a cloud client: a
    listing, however incomplete or late, does not mistake one running VM for another,
    and terminating one affects no other.  Against it, an undisturbed run of
    [terminateUntrackedVms] is shown to ask for the end of what was listed and is not
    tracked, and to stop nothing else; the AWS client implements it. *)

From S2P Require Import Prelude Std Slot State OrderedJobs JobAllocator SlotSelector Assigner.
From S2P Require Import AllocatorContract SelectorFacts AssignerFacts PlanFacts Db TxLogic Storage.
From S2P Require Import StorageFacts Lifecycle StorageRefines StorageSpec StorageProgress Scheduler.
From S2P Require Import SchedulerFacts VmFacts Interfaces Process Allocator FailureDetector AllocatorFacts Protocol.
From S2P Require Import Base64 Text Config Aws AwsFacts AwsSample CloudContract.

Class CloudFleet (W : Type) `{!CloudClient W} : Type := {
  in_fleet : AllocatedVmInfo -> W -> Prop;
  fleet_listed : forall w l w', cloud_getAllAllocatedVms w = (Success l, w') ->
    forall x y, x ∈ l -> in_fleet y w -> av_id x = av_id y -> x = y;
  fleet_listing_keeps : forall w r w' x, cloud_getAllAllocatedVms w = (r, w') -> in_fleet x w' <-> in_fleet x w;
  fleet_terminated : forall i w u w' x, cloud_terminate i w = (Success u, w') ->
    in_fleet x w' <-> in_fleet x w /\ av_id x <> i;
  fleet_unterminated : forall i w e w' x, cloud_terminate i w = (Failure e, w') ->
    (in_fleet x w' -> in_fleet x w) /\ (in_fleet x w -> av_id x <> i -> in_fleet x w');
}.

(** A VM the database tracks: an active row names it. *)
Definition tracked (x : AllocatedVmInfo) (db : Db) : Prop := exists v r,
  db_vms db !! v = Some r /\ vm_active r = true
  /\ v_cloud_vm_id r = Some (av_id x) /\ v_cloud_vm_type r = Some (av_type x).

Section untracked.
Context `{StdLib} `{Postgres} {W : Type} `{!CloudClient W} `{!CloudFleet W} (sch : Schedule) (Hsch : undisturbed sch).

(** The end of [vm] was asked for among [t], and if the cloud agreed it does not run. *)
Definition asked_to_end (t : list Event) (c : W) (vm : AllocatedVmInfo) : Prop :=
  exists r, replied (CloudTerminate (av_id vm)) r ∈ t
    /\ (r = Success tt -> forall x, av_id x = av_id vm -> ~ in_fleet x c).

Lemma terminate_all_spec vms : forall w,
  exists w', process sch (Allocator.terminate_all vms) w = (Some tt, w') /\ w_db w' = w_db w
    /\ (forall x, in_fleet x (w_cloud w') -> in_fleet x (w_cloud w))
    /\ (forall x, in_fleet x (w_cloud w) -> av_id x ∉ av_id <$> vms -> in_fleet x (w_cloud w'))
    /\ Forall (asked_to_end (process_trace sch (Allocator.terminate_all vms) w) (w_cloud w')) vms.
Proof.
  induction vms as [|vm vms IH]; intros w; [by exists w|].
  cbn [Allocator.terminate_all]. process_step. trace_step.
  destruct (cloud_terminate (av_id vm) (w_cloud w)) as [r c] eqn:Hc.
  destruct (IH (mkWorld (w_db w) c (w_calls w))) as (w' & -> & Hdb & Hback & Hkeep & Hasked). cbn [w_cloud w_db] in *.
  exists w'. split; [done|]. split; [done|].
  assert (forall x, in_fleet x c -> in_fleet x (w_cloud w) /\ (r = Success tt -> av_id x <> av_id vm)) as Hstep.
  { intros x Hx. destruct r as [u|e].
    - by apply (fleet_terminated _ _ _ _ _ Hc) in Hx as [? ?].
    - split; [|done]. by apply (fleet_unterminated _ _ _ _ _ Hc). }
  split; [|split].
  - intros x Hx. by apply Hstep, Hback.
  - intros x Hx Hn. apply not_elem_of_cons in Hn as [Hne Hn]. apply Hkeep; [|done]. destruct r as [u|e].
    + by apply (fleet_terminated _ _ _ _ _ Hc).
    + by apply (fleet_unterminated _ _ _ _ _ Hc).
  - constructor.
    + exists r. split; [left|]. intros Hr x Ex Hx. by apply (proj2 (Hstep x (Hback x Hx)) Hr).
    + eapply Forall_impl; [exact Hasked|]. intros v (r' & Hin & Hend). exists r'. split; [by right|done].
Qed.

Lemma tracked_read db l x :
  mapM read_allocated (sql_rows (fun _ r => vm_active r) (db_vms db)) = Some l -> tracked x db -> x ∈ l.
Proof.
  intros Hl (v & r & Hr & Ha & Hi & Ht). apply mapM_Some in Hl.
  assert ((v, r) ∈ sql_rows (fun _ r => vm_active r) (db_vms db)) as Hin by by apply sql_rows_elem.
  apply list_elem_of_lookup in Hin as [k Hk]. destruct (Forall2_lookup_l _ _ _ _ _ Hl Hk) as (y & Hy & Hread).
  unfold read_allocated in Hread. cbn in Hread. rewrite Hi, Ht, !as_string_text in Hread. cbn in Hread.
  injection Hread as <-. destruct x. by eapply list_elem_of_lookup_2.
Qed.

Definition cloud_ids_known (db : Db) : Prop := forall v r, db_vms db !! v = Some r -> vm_active r = true ->
  is_Some (v_cloud_vm_id r) /\ is_Some (v_cloud_vm_type r).

Lemma read_tracked db : cloud_ids_known db ->
  exists l, mapM read_allocated (sql_rows (fun _ r => vm_active r) (db_vms db)) = Some l
    /\ forall x, x ∈ l -> tracked x db.
Proof.
  intros Hids. destruct (mapM read_allocated (sql_rows (fun _ r => vm_active r) (db_vms db))) as [l|] eqn:Hl.
  - exists l. split; [done|]. intros x Hx. apply mapM_Some in Hl. apply list_elem_of_lookup in Hx as [k Hk].
    destruct (Forall2_lookup_r _ _ _ _ _ Hl Hk) as ([v r] & Hvr & Hread).
    apply list_elem_of_lookup_2, sql_rows_elem in Hvr as [Hr Ha].
    destruct (Hids v r Hr Ha) as [[i Hi] [t Ht]]. unfold read_allocated in Hread. cbn in Hread.
    rewrite Hi, Ht, !as_string_text in Hread. cbn in Hread. injection Hread as <-. by exists v, r.
  - exfalso. apply mapM_None, Exists_exists in Hl as ([v r] & Hvr & Hread).
    apply sql_rows_elem in Hvr as [Hr Ha]. destruct (Hids v r Hr Ha) as [[i Hi] [t Ht]].
    unfold read_allocated in Hread. cbn in Hread. by rewrite Hi, Ht, !as_string_text in Hread.
Qed.

Lemma terminateUntrackedVms_spec w :
  exists w', process sch Allocator.terminateUntrackedVms w = (Some tt, w') /\ w_db w' = w_db w
    /\ (forall x, in_fleet x (w_cloud w') -> in_fleet x (w_cloud w))
    /\ (forall x, in_fleet x (w_cloud w) -> tracked x (w_db w) -> in_fleet x (w_cloud w'))
    /\ match (cloud_getAllAllocatedVms (w_cloud w)).1 with
       | Failure _ => forall x, in_fleet x (w_cloud w') <-> in_fleet x (w_cloud w)
       | Success all => (forall x, in_fleet x (w_cloud w) -> x ∉ all -> in_fleet x (w_cloud w'))
         /\ (cloud_ids_known (w_db w) -> forall x, x ∈ all -> ~ tracked x (w_db w) ->
             asked_to_end (process_trace sch Allocator.terminateUntrackedVms w) (w_cloud w') x)
       end.
Proof.
  unfold Allocator.terminateUntrackedVms. process_step. trace_step.
  rewrite (und_alone _ Hsch), getAllocatedVms_quiet by apply Hsch.
  destruct (mapM read_allocated _) as [l|] eqn:Hl.
  2:{ eexists. split; [done|]. cbn. split; [done|]. split; [done|]. split; [done|].
      destruct (cloud_getAllAllocatedVms (w_cloud w)).1; [|done]. split; [done|]. intros Hids.
      destruct (read_tracked _ Hids) as (l & Hl' & _). congruence. }
  process_step. trace_step.
  destruct (cloud_getAllAllocatedVms (w_cloud w)) as [[all|e] c] eqn:Hall; cbn [w_cloud w_db w_calls fst];
    pose proof (fun x => fleet_listing_keeps _ _ _ x Hall) as Hk.
  2:{ eexists. split; [done|]. cbn. split; [done|].
      split; [intros x; apply Hk|]. split; [intros x Hx _; by apply Hk|done]. }
  pose proof (fleet_listed _ _ _ Hall) as Hlist.
  rewrite Allocator.terminate_untracked_eq.
  destruct (terminate_all_spec (Allocator.untracked l all) (mkWorld (w_db w) c (S (w_calls w))))
    as (w' & -> & Hdb & Hback & Hkeep & Hasked). cbn [w_cloud w_db] in *.
  assert (forall x, in_fleet x (w_cloud w) -> (x ∉ all \/ x ∈ l) -> in_fleet x (w_cloud w')) as Hother.
  { intros x Hx Hor. apply Hkeep; [by apply Hk|]. intros (y & E & Hy)%list_elem_of_fmap.
    unfold Allocator.untracked in Hy. apply list_elem_of_filter in Hy as [Hnl Hya].
    pose proof (Hlist y x Hya Hx (eq_sym E)) as ->. by destruct Hor. }
  exists w'. split; [done|]. split; [done|]. split; [intros x Hx; by apply Hk, Hback|]. split; [|split].
  - intros x Hx Ht. apply Hother; [done|]. right. by eapply tracked_read.
  - intros x Hx Hn. apply Hother; [done|]. by left.
  - intros Hids x Hx Ht. rewrite Forall_forall in Hasked. destruct (Hasked x) as (r & Hin & Hend).
    + unfold Allocator.untracked. apply list_elem_of_filter. split; [|done].
      destruct (read_tracked _ Hids) as (l' & Hl' & Htr). rewrite Hl in Hl'. injection Hl' as <-. auto.
    + exists r. split; [|done]. by do 2 right.
Qed.
End untracked.

(** ** AWS keeps the contract *)

(** Describing changes no instance, and says the right type of those it names.
    A page may miss instances, and name some that have ended. *)
Class EC2Lists (T W : Type) `{!EC2 T W, !EC2Laws T W} : Type := {
  describe_keeps : forall rq w o w', DescribeInstances rq w = (o, w') -> instances w' = instances w;
  describe_types : forall rq w reservations token w', DescribeInstances rq w = (Some (reservations, token), w') ->
    forall l t id i, l ∈ reservations -> (t, id) ∈ l -> instances w !! id = Some i -> ei_type i = t;
}.

Section aws.
Context {T W : Type} `{!EC2 T W, !EC2Laws T W, !EC2Lists T W} (vmConfig : AwsInstancesConfig T) (fuel : nat).
#[local] Existing Instance aws_client.

Lemma describe_loop_keeps n : forall rq acc w r w',
  describe_instances_loop n rq acc w = Ret (r, w') -> instances w' = instances w.
Proof.
  induction n as [|n IH]; intros rq acc w r w' Hd; [done|]. cbn in Hd.
  destruct (DescribeInstances rq w) as [[[res token]|] w1] eqn:Hq.
  - apply describe_keeps in Hq. case_bool_decide; [by simplify_eq|]. apply IH in Hd. congruence.
  - apply describe_keeps in Hq. by simplify_eq.
Qed.

Lemma listed_types rq w reservations w' n : listed DescribeInstances rq w reservations w' n ->
  forall l t id i, l ∈ reservations -> (t, id) ∈ l -> instances w !! id = Some i -> ei_type i = t.
Proof.
  induction 1 as [rq w items w' Hq|rq w items token w1 rest w' n Hq _ _ IH]; intros l t id i Hl Ht Hi;
    [by eapply describe_types|].
  apply elem_of_app in Hl as [Hl|Hl]; [by eapply describe_types|].
  eapply IH; eauto. by rewrite (describe_keeps _ _ _ _ Hq).
Qed.

(** An instance that is up. *)
Definition aws_running (x : AllocatedVmInfo) (w : W) : Prop := exists i,
  instances w !! av_id x = Some i /\ ei_state i = Up /\ av_type x = GetNameForInstanceType (ei_type i).

Lemma aws_running_same x w w' : instances w' = instances w -> aws_running x w' <-> aws_running x w.
Proof. intros E. unfold aws_running. by rewrite E. Qed.

Lemma aws_running_terminated id x w w' : terminates id (instances w) (instances w') ->
  aws_running x w' <-> aws_running x w /\ av_id x <> id.
Proof.
  intros (i & Hi & Hw). unfold aws_running. rewrite Hw. destruct (decide (av_id x = id)) as [->|Hne].
  - rewrite lookup_insert_eq. split; [|by intros [_ ?]]. by intros (j & [= <-] & ? & _).
  - rewrite lookup_insert_ne by done. split; [done|by intros [? _]].
Qed.

#[local] Program Instance aws_fleet : CloudFleet W (CloudClient0 := aws_client vmConfig fuel) :=
  {| in_fleet := aws_running |}.
Next Obligation.
  intros w l w' Hl x y Hx (i & Hi & _ & Hy) E. cbn in Hl. unfold aws_getAllAllocatedVms, describeInstances in Hl.
  destruct (describe_instances_loop _ _ _ _) as [[[l'|e] w1]| |] eqn:Hd; try done. simplify_eq.
  apply describe_instances_loop_inv in Hd as (res & n & Hlist & ->).
  apply insert_reservations_elem in Hx as [Hn|(l & t & id & Hl & Ht & ->)]; [by apply not_elem_of_nil in Hn|].
  cbn in E. destruct y as [id' ty]. cbn in *. subst id'. unfold convertAwsVmInfoToVmInfo. cbn.
  by rewrite Hy, (listed_types _ _ _ _ _ Hlist l t id i).
Qed.
Next Obligation.
  intros w r w' x Hl. apply aws_running_same. cbn in Hl. unfold aws_getAllAllocatedVms, describeInstances in Hl.
  destruct (describe_instances_loop _ _ _ _) as [[r' w1]| |] eqn:Hd; simplify_eq; [|done..].
  by eapply describe_loop_keeps.
Qed.
Next Obligation.
  intros id w u w' x Hc. cbn in Hc. unfold aws_terminate in Hc.
  destruct (TerminateInstances [id] w) as [[v|] w1] eqn:Ht; simplify_eq.
  by eapply aws_running_terminated, terminate_succeeds.
Qed.
Next Obligation.
  intros id w e w' x Hc. cbn in Hc. unfold aws_terminate in Hc.
  destruct (TerminateInstances [id] w) as [[v|] w1] eqn:Ht; simplify_eq.
  apply terminate_fails in Ht as [Ht|Ht].
  - rewrite (aws_running_same x _ _ Ht). done.
  - rewrite (aws_running_terminated id x _ _ Ht). tauto.
Qed.
End aws.

(** The sample EC2 lists as documented. *)
#[export] Program Instance sim_lists : EC2Lists string Sim.
Next Obligation. intros rq w o w' [= _ <-]. done. Qed.
Next Obligation.
  intros rq w res token w' Hq l t id i Hl Ht Hi. cbn in Hq. injection Hq as <- _ _.
  apply list_elem_of_fmap in Hl as ([tok [[ty tg] st]] & -> & Hx). apply list_elem_of_filter in Hx as [_ Hx].
  apply elem_of_map_to_list in Hx. apply list_elem_of_singleton in Ht. cbn in Ht. injection Ht as -> ->.
  cbn in Hi. rewrite sim_instances_lookup, Hx in Hi. by injection Hi as <-.
Qed.
