(* ===== verification/Printing.v ===== *)
(** * What the program writes to its log about states and plans
    (operator<< of src/libs/common/impl/slot.cpp, src/libs/state/impl and
    src/libs/aws/allocator/impl/config.cpp)

    The texts, and that those of capacities, jobs, VMs, desired slots and states
    determine what they are the text of. *)

From Stdlib Require Import Ascii.
From S2P Require Import Prelude Std Slot Text Aws State.

(** ** The texts *)

Definition print_slot (capacity : SlotCapacity) : string :=
  "(cpu: " +:+ pretty (cpu capacity) +:+ " cores, " +:+ "ram: " +:+ pretty (ram capacity) +:+ " MB)".

Definition print_desired_slot (desiredSlot : DesiredSlot) : string :=
  "total capacity: " +:+ print_slot (total desiredSlot) +:+ ", "
  +:+ "idle capacity: " +:+ print_slot (idle desiredSlot).

(** The bodies of the loops over containers. *)
Definition print_each {A} (print : A -> string) (l : list A) : string :=
  foldr (fun x s => print x +:+ s) "" l.

Definition print_queued_job (jobInfo : QueuedJobInfo) : string :=
  "[id: " +:+ pretty (job_id jobInfo) +:+ ", "
  +:+ "slot capacity: " +:+ print_slot (requiredCapacity jobInfo) +:+ "], ".

Definition print_queued_jobs (jobInfos : list QueuedJobInfo) : string := print_each print_queued_job jobInfos.

Definition print_active_vm (vm : ActiveVm) : string :=
  "{id: " +:+ pretty (vm_id vm) +:+ ", "
  +:+ "total capacity: " +:+ print_slot (totalCapacity vm) +:+ ", "
  +:+ "idle capacity: " +:+ print_slot (idleCapacity vm) +:+ "}, ".

Definition print_active_vms (activeVms : list ActiveVm) : string :=
  "[" +:+ print_each print_active_vm activeVms +:+ "]".

(** An [unordered_set], in the order of iteration. *)
Definition print_allocated_vms (vms : list AllocatedVmInfo) : string :=
  "[" +:+ print_each (fun vm => "{id: " +:+ av_id vm +:+ ", " +:+ "type: " +:+ av_type vm +:+ "}, ") vms +:+ "]".

Definition print_state (state : State) : string :=
  "queued job infos: " +:+ print_queued_jobs (queuedJobs state)
  +:+ "active vms: " +:+ print_active_vms (vms state).

Definition print_vm_info (vmInfo : VmInfo) : string :=
  match vmInfo with
  | ExistingVm v => "existing VM with id " +:+ pretty v +:+ ", "
  | DesiredVm d => "desired VM id: " +:+ pretty d +:+ ", "
  end.

Definition print_state_change `{StdLib} (stateChange : StateChange) : string :=
  "job assignments: ["
  +:+ print_each (fun ja => "job id: " +:+ pretty ja.1 +:+ " -> " +:+ print_vm_info ja.2)
        (unordered (jobToVm stateChange))
  +:+ "], desired VMs: ["
  +:+ print_each (fun ds => "{ id: " +:+ pretty ds.1 +:+ ", " +:+ "total capacity: " +:+ print_slot (total ds.2)
                            +:+ ", " +:+ "idle capacity: " +:+ print_slot (idle ds.2) +:+ " }, ")
        (unordered (desiredSlotMap stateChange))
  +:+ "], VM capacities updates: ["
  +:+ print_each (fun vc => "{ id: " +:+ pretty vc.1 +:+ ", " +:+ "new idle capacity: " +:+ print_slot vc.2 +:+ " }, ")
        (unordered (updatedIdleCapacities stateChange))
  +:+ "], VMs to terminate: [" +:+ joinSeq (vmsToTerminate stateChange)
  +:+ "]".

Definition print_instance_types {T W} `{!EC2 T W} (vmTypeInfos : list (InstanceTypeInfo T)) : string :=
  print_each (fun i => "[type: " +:+ GetNameForInstanceType (it_type i) +:+ ", "
                       +:+ "capacity: " +:+ print_slot (it_capacity i) +:+ "], ") vmTypeInfos.

(** ** Texts that can be told from what follows them *)

Definition prefix_code {A} (p : A -> string) : Prop :=
  forall a b s t, p a +:+ s = p b +:+ t -> a = b /\ s = t.

(** A number ends where something that is no digit begins. *)
Lemma signed_value_pretty z c s : Ascii.is_nat c = None -> signed_value (pretty z +:+ String c s) = z.
Proof.
  intros Hc. assert (forall n, read_digits (String c s) n = n) as Hstop by (intros n; cbn; by rewrite Hc).
  destruct z as [|p|p].
  - change (pretty 0%Z +:+ String c s) with (String "0" (String c s)).
    rewrite (signed_value_digit _ 0%nat) by done. exact (Hstop 0).
  - change (pretty (Zpos p)) with (pretty_N_go (Npos p) ""). rewrite pretty_N_go_nil_app.
    pose proof (read_digits_pretty (Npos p) (String c s)) as Hread. rewrite Hstop in Hread.
    destruct (pretty_N_go_digit (Npos p) (String c s)) as (c' & d & s' & E & Hd); [lia|].
    rewrite E in *. by rewrite (signed_value_digit _ d).
  - change (- read_digits (pretty_N_go (Npos p) "" +:+ String c s) 0 = Zneg p).
    by rewrite pretty_N_go_nil_app, read_digits_pretty, Hstop.
Qed.

Lemma number_code (a b : Z) c l s t :
  Ascii.is_nat c = None -> pretty a +:+ (String c l +:+ s) = pretty b +:+ (String c l +:+ t) -> a = b /\ s = t.
Proof.
  intros Hc E. assert (a = b) as ->.
  { rewrite <- (signed_value_pretty a c (l +:+ s) Hc), <- (signed_value_pretty b c (l +:+ t) Hc). by f_equal. }
  split; [done|]. by apply (inj (String.app (pretty b))), (inj (String.app (String c l))) in E.
Qed.

(** Takes equal texts apart, from the left. *)
Ltac peel E :=
  rewrite ?string_app_assoc in E;
  repeat first
    [ progress apply (inj (String.app _)) in E
    | let H := fresh "Heq" in apply number_code in E as [H E]; [|reflexivity] ].

Lemma print_slot_code : prefix_code print_slot.
Proof. intros [c m] [c' m'] s t E. unfold print_slot in E. cbn in E. peel E. by subst. Qed.

(** A list whose items start differently from what follows it. *)
Lemma print_each_code {A} (p : A -> string) c d l :
  prefix_code p -> (forall a, exists s, p a = String c s) -> c <> d ->
  forall xs ys s t, print_each p xs +:+ (String d l +:+ s) = print_each p ys +:+ (String d l +:+ t) ->
  xs = ys /\ s = t.
Proof.
  intros Hp Hc Hcd xs. induction xs as [|x xs IH]; intros [|y ys] s t E; cbn in E.
  - split; [done|]. by apply (inj (String.app (String d l))) in E.
  - destruct (Hc y) as [u Hu]. rewrite Hu in E. injection E as ? _. by subst.
  - destruct (Hc x) as [u Hu]. rewrite Hu in E. injection E as ? _. by subst.
  - rewrite !(string_app_assoc (p _)) in E. apply Hp in E as [-> E]. by apply IH in E as [-> ->].
Qed.

Lemma print_queued_job_code : prefix_code print_queued_job.
Proof.
  intros [i q] [i' q'] s t E. unfold print_queued_job in E. cbn [job_id requiredCapacity] in E. peel E.
  apply print_slot_code in E as [-> E]. peel E. by subst.
Qed.

Lemma print_active_vm_code : prefix_code print_active_vm.
Proof.
  intros [i q r] [i' q' r'] s t E. unfold print_active_vm in E. cbn [vm_id totalCapacity idleCapacity] in E. peel E.
  apply print_slot_code in E as [-> E]. peel E. apply print_slot_code in E as [-> E]. peel E. by subst.
Qed.

Lemma print_desired_slot_code : prefix_code print_desired_slot.
Proof.
  intros [q r] [q' r'] s t E. unfold print_desired_slot in E. cbn [total idle] in E. peel E.
  apply print_slot_code in E as [-> E]. peel E. by apply print_slot_code in E as [-> ->].
Qed.

(** The text of a state determines the state. *)
Theorem print_state_code : prefix_code print_state.
Proof.
  intros [jobs vms] [jobs' vms'] s t E. unfold print_state, print_queued_jobs, print_active_vms in E.
  cbn [queuedJobs State.vms] in E. rewrite !string_app_assoc in E. apply (inj (String.app _)) in E.
  apply (print_each_code print_queued_job "["%char "a"%char "ctive vms: " print_queued_job_code) in E as [-> E];
    [|by eexists|done].
  apply (inj (String.app _)) in E.
  by apply (print_each_code print_active_vm "{"%char "]"%char "" print_active_vm_code) in E as [-> E];
    [|by eexists|done].
Qed.
