(* ===== verification/DistLock.v ===== *)
(** * The distributed lock (src/libs/zookeeper/impl/dist_lock.cpp)

    Every backend creates an ephemeral sequential node; the one whose node has the
    least sequence number holds the lock, and that number fences its plans.  The
    critical sections of the class are functions on its state, from which [lock]
    and [checkLockAcquired] are composed the way the code composes them. *)

From S2P Require Import Prelude Std State Text Config.

(** The members of [DistributedLock] that change. *)
Record LockState : Type := mkLockState {
  isStopped_ : bool; createdNodeName_ : string; lockNumber_ : option Z }.

Definition initial_lock : LockState := mkLockState false "" None.

(** A watch the code sets, with the node it is on, and what the thread that
    waits for it calls when it fires. *)
Inductive Watch : Type :=
  | RetryCheckLockAcquired (node : string)
  | RetryLock (node : string).

(** ** Critical sections *)

(** The last nine characters of a node's name; [size() - 9] wraps for shorter ones. *)
Definition getZxid (nodeName : string) : Exec Z :=
  tail ← substr nodeName (size_t_wrap (Z.of_nat (String.length nodeName) - 9));
  n ← of_outcome (atoi tail);
  mret (size_t_wrap n).

(** [operator<] of [std::pair<size_t, std::string>]. *)
Definition pair_lt (a b : Z * string) : bool :=
  (a.1 <? b.1) || ((a.1 =? b.1) && negb (String.leb b.2 a.2)).

(** The children of the lock with their numbers. *)
Fixpoint children_with_seq (lockPath : string) (children : list string) : Exec (list (Z * string)) :=
  match children with
  | [] => mret []
  | child :: rest =>
    p ← substr lockPath 1;
    if starts_with child p then
      n ← getZxid child;
      l ← children_with_seq lockPath rest;
      mret ((n, "/" +:+ child) :: l)
    else children_with_seq lockPath rest
  end.

(** What [checkLockAcquired] does with the children it was given. *)
Inductive Decision : Type :=
  | Acquired (st : LockState) (w : Watch)
  | Relock
  | WaitFor (w : Watch).

Definition lock_begin (st : LockState) : LockState :=
  mkLockState (isStopped_ st) (createdNodeName_ st) None.

Definition lock_store (name : string) (st : LockState) : LockState :=
  mkLockState (isStopped_ st) name (lockNumber_ st).

(** [it == begin()] holds of the first element, and of the end of an empty range,
    which is then dereferenced. *)
Definition check_children `{StdLib} (lockPath : string) (st : LockState) (children : list string)
  : Exec Decision :=
  l ← children_with_seq lockPath children;
  let sorted := std_sort pair_lt l in
  n ← getZxid (createdNodeName_ st);
  match list_find (eq (n, createdNodeName_ st)) sorted with
  | Some (O, found) =>
    mret (Acquired (mkLockState (isStopped_ st) (createdNodeName_ st) (Some n))
            (RetryCheckLockAcquired found.2))
  | Some (S before, _) =>
    match sorted !! before with
    | Some previous => mret (WaitFor (RetryLock previous.2))
    | None => Misbehaves
    end
  | None =>
    match sorted with
    | [] => Misbehaves
    | _ => mret Relock
    end
  end.

(** ** The methods *)

(** The calls of the ZooKeeper client; [None] is an exception. *)
Class ZkClient (W : Type) : Type := {
  zk_create : string -> string -> W -> option string * W;
  zk_get_children : string -> W -> option (list string) * W;
  zk_close : W -> W;
  zk_erase : string -> W -> option unit * W;
}.

Section methods.
Context `{StdLib} {W : Type} `{!ZkClient W} (config : ZkConfig).

(** [lock] and [checkLockAcquired] call each other and themselves, also after an
    exception; [fuel] bounds the calls, and [true] asks for [lock].  The result
    has the watches that were set on the way. *)
Fixpoint run_lock (fuel : nat) (locking : bool) (st : LockState) (w : W)
  : Outcome (LockState * list Watch * W) :=
  match fuel with
  | O => NoFuel
  | S fuel' =>
    if locking then
      if isStopped_ st then Ret (st, [], w)
      else
        let st := lock_begin st in
        let '(created, w) := zk_create (lockPath config) (lockName config) w in
        match created with
        | Some name => run_lock fuel' false (lock_store name st) w
        | None =>
          '(st1, watches1, w1) ← run_lock fuel' true st w;
          '(st2, watches2, w2) ← run_lock fuel' false st1 w1;
          Ret (st2, watches1 ++ watches2, w2)
        end
    else
      let '(children, w) := zk_get_children "/" w in
      match children with
      | None => run_lock fuel' false st w
      | Some children =>
        match check_children (lockPath config) st children with
        | Returns (Acquired st' watch) => Ret (st', [watch], w)
        | Returns Relock => run_lock fuel' true st w
        | Returns (WaitFor watch) => Ret (st, [watch], w)
        | Throws _ => run_lock fuel' false st w
        | Misbehaves => Undefined
        | Exhausted => NoFuel
        end
      end
  end.

Definition lock (fuel : nat) := run_lock fuel true.
Definition checkLockAcquired (fuel : nat) := run_lock fuel false.

(** [start]. *)
Definition lock_start (fuel : nat) := lock fuel.

(** When a watch fires, or waiting for it throws, both threads check again. *)
Definition retryLock (fuel : nat) := checkLockAcquired fuel.
Definition retryCheckLockAcquired (fuel : nat) := checkLockAcquired fuel.

Definition lock_number_of (st : LockState) : option Z := lockNumber_ st.

(** [stop]: the exception of [get] leaves the method. *)
Definition lock_stop (st : LockState) (w : W) : Exec unit * LockState * W :=
  let st := mkLockState true (createdNodeName_ st) (lockNumber_ st) in
  let w := zk_close w in
  let '(r, w) := zk_erase (lockPath config +:+ "/" +:+ createdNodeName_ st) w in
  (match r with Some _ => mret tt | None => Throws "closed" end, st, w).
End methods.

Definition createDistLock (getenv : string -> option string) (create : bool) : Exec (option ZkConfig) :=
  if create then config ← createZkConfig getenv; mret (Some config) else mret None.

(** ** Sequence numbers *)

Definition digit_char (d : Z) : Ascii.ascii := pretty_N_char (Z.to_N d).

(** The last [n] decimal digits of [k]; with ten of them, what ZooKeeper appends
    to the path of a sequential node ("%010d"). *)
Fixpoint digits (n : nat) (k : Z) : string :=
  match n with
  | O => ""
  | S n' => String (digit_char (k / 10 ^ Z.of_nat n' mod 10)) (digits n' k)
  end.

Definition sequence_suffix (k : Z) : string := digits 10 k.

Lemma digits_length n k : String.length (digits n k) = n.
Proof. induction n as [|n IH]; cbn; [done|]. by rewrite IH. Qed.

Lemma is_nat_digit_char d : 0 <= d < 10 -> Ascii.is_nat (digit_char d) = Some (Z.to_nat d).
Proof. intros Hd. unfold digit_char. rewrite is_nat_pretty_char by lia. f_equal. lia. Qed.

Lemma read_digits_digits n : forall k acc, 0 <= k ->
  read_digits (digits n k) acc = acc * 10 ^ Z.of_nat n + k mod 10 ^ Z.of_nat n.
Proof.
  induction n as [|n IH]; intros k acc Hk; [cbn; rewrite Z.mod_1_r; lia|].
  cbn [digits read_digits].
  rewrite is_nat_digit_char by (apply Z.mod_pos_bound; lia). rewrite IH by done.
  rewrite Z2Nat.id by (apply Z.mod_pos_bound; lia).
  rewrite Nat2Z.inj_succ, Z.pow_succ_r by lia.
  set (m := 10 ^ Z.of_nat n). assert (0 < m) by (apply Z.pow_pos_nonneg; lia).
  replace (10 * m) with (m * 10) by lia. rewrite Z.rem_mul_r by lia. lia.
Qed.

Lemma digits_atoi n k : (0 < n <= 9)%nat -> 0 <= k -> atoi (digits n k) = Ret (k mod 10 ^ Z.of_nat n).
Proof.
  intros Hn Hk. destruct n as [|n]; [lia|].
  assert (skip_spaces (digits (S n) k) = digits (S n) k) as Hs.
  { cbn [digits skip_spaces].
    assert (Ascii.is_nat (digit_char (k / 10 ^ Z.of_nat n mod 10)) = Some (Z.to_nat (k / 10 ^ Z.of_nat n mod 10))) as Hc
      by (apply is_nat_digit_char, Z.mod_pos_bound; lia).
    by destruct (is_nat_not_space _ _ Hc) as [-> _]. }
  unfold atoi. rewrite Hs. cbn [digits].
  erewrite signed_value_digit by (apply is_nat_digit_char, Z.mod_pos_bound; lia).
  change (String _ _) with (digits (S n) k). rewrite read_digits_digits by done.
  rewrite Z.mul_0_l, Z.add_0_l.
  assert (10 ^ Z.of_nat (S n) <= 10 ^ 9) as Hm by (apply Z.pow_le_mono_r; lia).
  pose proof (Z.mod_pos_bound k (10 ^ Z.of_nat (S n)) (Z.pow_pos_nonneg 10 (Z.of_nat (S n)) ltac:(lia) ltac:(lia))) as Hv.
  revert Hm Hv. generalize (k mod 10 ^ Z.of_nat (S n)) as v. generalize (10 ^ Z.of_nat (S n)) as m. intros m v Hm Hv.
  assert (in_int v = true) as -> by (unfold in_int; apply andb_true_iff; lia). done.
Qed.

(** Of a node's number, the last nine digits are compared. *)
Lemma getZxid_sequence path k : 0 <= k -> Z.of_nat (String.length path) < 2 ^ 63 ->
  getZxid (path +:+ sequence_suffix k) = Returns (k mod 10 ^ 9).
Proof.
  intros Hk Hlen. unfold getZxid, sequence_suffix.
  change (digits 10 k) with (String (digit_char (k / 10 ^ 9 mod 10)) "" +:+ digits 9 k).
  rewrite <- string_app_assoc. set (p := path +:+ _).
  assert (Z.of_nat (String.length p) < 2 ^ 63 + 1) as Hp by (unfold p; rewrite string_app_length;
    change (String.length (String _ "")) with 1%nat; lia).
  rewrite string_app_length, digits_length.
  replace (Z.of_nat (String.length p + 9) - 9) with (Z.of_nat (String.length p)) by lia.
  rewrite size_t_wrap_small by lia. unfold substr. rewrite string_app_length, digits_length.
  rewrite (proj2 (Z.leb_le _ _)) by lia. rewrite Nat2Z.id.
  replace (String.length p + 9 - String.length p)%nat with (String.length (digits 9 k)) by (rewrite digits_length; lia).
  rewrite substring_app. cbn [mbind exec_bind]. rewrite digits_atoi by lia. cbn.
  assert (0 <= k mod 10 ^ 9 < 10 ^ 9) by (apply Z.mod_pos_bound; lia). by rewrite size_t_wrap_small by lia.
Qed.
