(* ===== verification/LockFacts.v ===== *)
(** * Facts about the distributed lock

    The decision a client makes on the children it read, and a transition system
    of any number of clients, their threads and the ZooKeeper server, in which the
    numbers that were ever acquired stay below those of the nodes that exist. *)

From S2P Require Import Prelude Std State Text Config DistLock.

(** ** Pairs *)

Lemma string_leb_refl s : String.leb s s = true.
Proof. apply Is_true_true. change (String.le s s). reflexivity. Qed.

Lemma string_leb_trans a b c : String.leb a b = true -> String.leb b c = true -> String.leb a c = true.
Proof.
  intros Hab Hbc. apply Is_true_true. change (String.le a c). transitivity b; by apply Is_true_true.
Qed.

#[export] Instance pair_lt_swo : StrictWeakOrder pair_lt.
Proof.
  split.
  - intros [n s] [m t]. unfold pair_lt. cbn. intros H.
    destruct (String.leb_total s t) as [Hle|Hle]; rewrite Hle in *; cbn in *; lia.
  - intros [n s] [m t] [k u]. unfold pair_lt. cbn. intros H1 H2.
    destruct (String.leb t s) eqn:Hts, (String.leb u t) eqn:Hut; cbn in *; try lia.
    rewrite (string_leb_trans u t s) by done. cbn. lia.
Qed.

Section lock_facts.
Context `{StdLib} (prefix : string).
Context (Hprefix : Z.of_nat (String.length prefix) < 2 ^ 62).

(** The name and the path of the node with number [k]. *)
Definition node (k : Z) : string := prefix +:+ sequence_suffix k.
Definition node_path (k : Z) : string := "/" +:+ node k.

(** Numbers below which nodes are told apart. *)
Definition in_range (k : Z) : Prop := 0 <= k < 10 ^ 9.

(** The children of the lock among [children] are the nodes numbered [ks]. *)
Definition lock_view (ks : list Z) (children : list string) : Prop :=
  filter (fun n => starts_with n prefix = true) children = node <$> ks /\ Forall in_range ks.

Lemma getZxid_node k : in_range k -> getZxid (node k) = Returns k.
Proof.
  intros [H0 H1]. unfold node. rewrite getZxid_sequence by lia. by rewrite Z.mod_small by lia.
Qed.

Lemma getZxid_node_path k : in_range k -> getZxid (node_path k) = Returns k.
Proof.
  intros [H0 H1]. unfold node_path, node. rewrite <- string_app_assoc, getZxid_sequence; [|lia|].
  - by rewrite Z.mod_small by lia.
  - rewrite string_app_length. change (String.length "/") with 1%nat. lia.
Qed.

Lemma node_inj j k : in_range j -> in_range k -> node j = node k -> j = k.
Proof.
  intros Hj Hk Heq. pose proof (getZxid_node j Hj) as H1. rewrite Heq, getZxid_node in H1 by done. congruence.
Qed.

Lemma starts_with_node k : starts_with (node k) prefix = true.
Proof. apply prefix_app. Qed.

Lemma lockPath_substr : substr ("/" +:+ prefix) 1 = Returns prefix.
Proof.
  unfold substr. rewrite string_app_length. change (String.length "/") with 1%nat.
  rewrite (proj2 (Z.leb_le _ _)) by lia.
  replace (1 + String.length prefix - Z.to_nat 1)%nat with (String.length prefix) by lia.
  f_equal. apply (substring_app "/").
Qed.

Lemma children_with_seq_view children : forall ks, lock_view ks children ->
  children_with_seq ("/" +:+ prefix) children = Returns ((fun k => (k, node_path k)) <$> ks).
Proof.
  induction children as [|child children IH]; intros ks [Hf Hr]; cbn [children_with_seq].
  - by destruct ks.
  - rewrite lockPath_substr. cbn [mbind exec_bind]. rewrite filter_cons in Hf.
    destruct (starts_with child prefix) eqn:Hs.
    + rewrite decide_True in Hf by done. destruct ks as [|k ks]; [done|]. injection Hf as -> Hf.
      apply Forall_cons in Hr as [Hk Hr]. rewrite getZxid_node by done. cbn [mbind exec_bind].
      by rewrite (IH ks).
    + rewrite decide_False in Hf by done. by apply IH.
Qed.

(** The sorted children are the nodes in the order of their numbers. *)
Lemma sorted_view ks : Forall in_range ks ->
  exists ks', std_sort pair_lt ((fun k => (k, node_path k)) <$> ks) = (fun k => (k, node_path k)) <$> ks'
    /\ ks' ≡ₚ ks /\ StronglySorted Z.le ks'.
Proof.
  intros Hr. set (f := fun k => (k, node_path k)).
  pose proof (std_sort_perm pair_lt (f <$> ks) _) as Hp.
  pose proof (std_sort_sorted pair_lt (f <$> ks) _) as Hs.
  apply Permutation_map_inv in Hp as (ks' & Heq & Hp). rewrite Heq in Hs |- *.
  exists ks'. split; [done|]. split; [done|]. clear Heq Hp Hr.
  induction ks' as [|k ks' IH]; [constructor|]. cbn in Hs. apply StronglySorted_cons in Hs as [Hk Hs].
  apply StronglySorted_cons. split; [|by apply IH]. apply Forall_forall. intros j Hj.
  rewrite Forall_forall in Hk. specialize (Hk (f j) (list_elem_of_fmap_2 f ks' j Hj)).
  unfold not_greater, pair_lt, f in Hk. cbn in Hk. lia.
Qed.

(** ** The decision *)

(** Where the own number is among the sorted ones. *)
Definition position (k : Z) (ks : list Z) : option nat := fst <$> list_find (eq k) ks.

Lemma find_node k ks : in_range k -> Forall in_range ks ->
  fst <$> list_find (eq (k, node_path k)) ((fun k => (k, node_path k)) <$> ks) = position k ks.
Proof.
  intros Hk Hr. unfold position. rewrite list_find_fmap.
  rewrite (list_find_ext _ (eq k)) by (intros j; cbn; naive_solver).
  by destruct (list_find _ _) as [[i x]|].
Qed.

(** What a client whose node has the number [k] makes of the nodes [ks]. *)
Inductive decides (st : LockState) (k : Z) (ks : list Z) : Exec Decision -> Prop :=
  | decides_first : k ∈ ks -> (forall j, j ∈ ks -> k <= j) ->
    decides st k ks (Returns (Acquired (mkLockState (isStopped_ st) (node_path k) (Some k))
                                (RetryCheckLockAcquired (node_path k))))
  | decides_later j : k ∈ ks -> j ∈ ks -> j < k -> (forall i, i ∈ ks -> i < k -> i <= j) ->
    decides st k ks (Returns (WaitFor (RetryLock (node_path j))))
  | decides_lost : k ∉ ks -> ks <> [] -> decides st k ks (Returns Relock)
  | decides_alone : ks = [] -> decides st k ks Misbehaves.

Lemma sorted_position_le ks i j x y : StronglySorted Z.le ks ->
  ks !! i = Some x -> ks !! j = Some y -> (i <= j)%nat -> x <= y.
Proof.
  intros Hs Hi Hj Hle. destruct (decide (i = j)) as [->|Hne]; [simplify_eq; lia|].
  revert i j Hi Hj Hle Hne. induction Hs as [|z ks Hs IH Hz]; intros [|i] [|j] Hi Hj Hle Hne; try (done || lia); cbn in *.
  - simplify_eq. rewrite Forall_forall in Hz. apply Hz. by eapply list_elem_of_lookup_2.
  - eapply IH; eauto; lia.
Qed.

Lemma check_children_decides st k ks children :
  in_range k -> createdNodeName_ st = node_path k -> lock_view ks children ->
  decides st k ks (check_children ("/" +:+ prefix) st children).
Proof.
  intros Hk Hname Hview. unfold check_children. rewrite (children_with_seq_view _ ks) by done.
  cbn [mbind exec_bind]. destruct (sorted_view ks) as (ks' & -> & Hp & Hs); [apply Hview|].
  rewrite Hname, getZxid_node_path by done. cbn [mbind exec_bind].
  pose proof (find_node k ks' Hk ltac:(rewrite Hp; apply Hview)) as Hfind. unfold position in Hfind.
  destruct (list_find (eq k) ks') as [[pos k']|] eqn:Hpos.
  - apply list_find_Some in Hpos as (Hl & <- & Hbefore). cbn in Hfind.
    destruct (list_find _ (_ <$> ks')) as [[pos' found]|] eqn:Hlf; [|done]. cbn in Hfind. injection Hfind as ->.
    apply list_find_Some in Hlf as (Hlook & Hf & _). subst found.
    assert (k ∈ ks) as Hin by (rewrite <- Hp; by eapply list_elem_of_lookup_2).
    destruct pos as [|pos].
    + apply decides_first; [done|]. intros j Hj. rewrite <- Hp in Hj. apply list_elem_of_lookup in Hj as [i Hi].
      eapply sorted_position_le; eauto. lia.
    + destruct (lookup_lt_is_Some_2 ks' pos) as [j Hj]; [apply lookup_lt_Some in Hl; lia|].
      rewrite list_lookup_fmap, Hj. cbn. apply (decides_later _ _ _ j); [done| | |].
      * rewrite <- Hp. by eapply list_elem_of_lookup_2.
      * assert (j <= k) by (eapply sorted_position_le; eauto). assert (k <> j) by (eapply Hbefore; eauto). lia.
      * intros i Hi Hlt. rewrite <- Hp in Hi. apply list_elem_of_lookup in Hi as [q Hq].
        destruct (decide (q <= pos)%nat) as [Hle|Hgt]; [by eapply sorted_position_le|].
        assert (k <= i) by (eapply (sorted_position_le ks' (S pos) q); eauto; lia). lia.
  - destruct (list_find _ (_ <$> ks')) as [|] eqn:Hlf; [done|].
    assert (k ∉ ks) as Hnot.
    { rewrite <- Hp. apply list_find_None in Hpos. rewrite Forall_forall in Hpos. intros Hin. by eapply Hpos. }
    destruct ks' as [|j ks']; cbn.
    + apply decides_alone. by apply Permutation_nil.
    + apply decides_lost; [done|]. intros ->. by apply Permutation_nil_r in Hp.
Qed.
End lock_facts.
