(* ===== verification/LockSystem.v ===== *)
(** * Many backends and one ZooKeeper

    A step relation of all clients' threads and the server.  Calls of the server
    are steps of their own, so that anything may happen between a call and the use
    of its answer; the critical sections of [DistLock] are the other steps. *)

From S2P Require Import Prelude Std State Text Config DistLock LockFacts.

(** A ZooKeeper server: the names of the children of the root, the counter of the
    sequential nodes under it, and the creation of such a node. *)
Class ZkNodes (T : Type) : Type := {
  zk_children : T -> list string;
  zk_counter : T -> Z;
  zk_new : string -> T -> string * T;
  zk_counter_nonneg : forall t, 0 <= zk_counter t;
}.

(** What ZooKeeper documents of the sequential nodes that are made with the path of
    the lock, a name under the root: the new name is the path with the parent's
    counter in ten digits, and the counter is one more then. *)
Class ZkServer (T : Type) (prefix : string) `{!ZkNodes T} : Prop := {
  zk_new_name : forall t, (zk_new ("/" +:+ prefix) t).1 = "/" +:+ prefix +:+ sequence_suffix (zk_counter t);
  zk_new_counter : forall t, zk_counter (zk_new ("/" +:+ prefix) t).2 = zk_counter t + 1;
  zk_new_children : forall t n, n ∈ zk_children (zk_new ("/" +:+ prefix) t).2
    <-> n = prefix +:+ sequence_suffix (zk_counter t) \/ n ∈ zk_children t;
}.

(** A client: the members of its lock, the names of nodes it created and has not
    stored yet, and the lists of children its threads have read. *)
Record Client : Type := mkClient {
  cl_state : LockState; cl_new : list string; cl_reads : list (list string) }.

(** The numbers that were ever acquired, and who created which node, are kept for
    the proofs; no step depends on them. *)
Record System (T : Type) : Type := mkSystem {
  sy_server : T; sy_clients : gmap Z Client; sy_acquired : gset Z; sy_owner : gmap Z Z }.
Arguments mkSystem {T} _ _ _ _.
Arguments sy_server {T} _.
Arguments sy_clients {T} _.
Arguments sy_acquired {T} _.
Arguments sy_owner {T} _.

Section system.
Context `{StdLib} {T : Type} `{!ZkNodes T} (prefix : string) `{!ZkServer T prefix}.
Context (Hprefix : Z.of_nat (String.length prefix) < 2 ^ 62).

Definition put_client (c : Z) (cl : Client) (s : System T) : System T :=
  mkSystem (sy_server s) (<[c := cl]> (sy_clients s)) (sy_acquired s) (sy_owner s).

Inductive zk_step (s : System T) : System T -> Prop :=
  (** [lock] forgets the number, *)
  | step_begin c cl : sy_clients s !! c = Some cl ->
    zk_step s (put_client c (mkClient (lock_begin (cl_state cl)) (cl_new cl) (cl_reads cl)) s)
  (** creates a node *)
  | step_create c cl : sy_clients s !! c = Some cl ->
    zk_step s (mkSystem (zk_new ("/" +:+ prefix) (sy_server s)).2
      (<[c := mkClient (cl_state cl) ((zk_new ("/" +:+ prefix) (sy_server s)).1 :: cl_new cl) (cl_reads cl)]> (sy_clients s))
      (sy_acquired s) (<[zk_counter (sy_server s) := c]> (sy_owner s)))
  (** and stores its name; *)
  | step_store c cl name : sy_clients s !! c = Some cl -> name ∈ cl_new cl ->
    zk_step s (put_client c (mkClient (lock_store name (cl_state cl)) (cl_new cl) (cl_reads cl)) s)
  (** [checkLockAcquired] reads the children *)
  | step_read c cl : sy_clients s !! c = Some cl ->
    zk_step s (put_client c (mkClient (cl_state cl) (cl_new cl) (zk_children (sy_server s) :: cl_reads cl)) s)
  (** and may find that its node is the first. *)
  | step_acquire c cl children st w k : sy_clients s !! c = Some cl -> children ∈ cl_reads cl ->
    check_children ("/" +:+ prefix) (cl_state cl) children = Returns (Acquired st w) -> lockNumber_ st = Some k ->
    zk_step s (mkSystem (sy_server s) (<[c := mkClient st (cl_new cl) (cl_reads cl)]> (sy_clients s))
                 ({[k]} ∪ sy_acquired s) (sy_owner s))
  (** A new backend. *)
  | step_join c : sy_clients s !! c = None ->
    zk_step s (put_client c (mkClient initial_lock [] []) s)
  (** Sessions expire and nodes of other names come and go. *)
  | step_server t : zk_counter (sy_server s) <= zk_counter t ->
    (forall n, n ∈ zk_children t -> starts_with n prefix = true -> n ∈ zk_children (sy_server s)) ->
    zk_step s (mkSystem t (sy_clients s) (sy_acquired s) (sy_owner s)).

(** ** Invariant *)

Definition present (k : Z) (s : System T) : Prop := node prefix k ∈ zk_children (sy_server s).

(** The nodes of the lock in a list are numbered below [bound]. *)
Definition numbered (bound : Z) (children : list string) : Prop :=
  forall n, n ∈ children -> starts_with n prefix = true -> exists k, n = node prefix k /\ 0 <= k < bound.

(** [name] is the path of a node that [c] created. *)
Definition created_by (s : System T) (c : Z) (name : string) : Prop :=
  exists k, name = node_path prefix k /\ 0 <= k < zk_counter (sy_server s) /\ sy_owner s !! k = Some c.

Record client_inv (s : System T) (c : Z) (cl : Client) : Prop := {
  client_new : forall name, name ∈ cl_new cl -> created_by s c name;
  client_name : createdNodeName_ (cl_state cl) = ""%string \/ created_by s c (createdNodeName_ (cl_state cl));
  client_reads : forall children, children ∈ cl_reads cl -> numbered (zk_counter (sy_server s)) children;
  (** what came after a list was read is numbered above all of it *)
  client_fresh : forall children k j, children ∈ cl_reads cl -> present k s -> 0 <= k < zk_counter (sy_server s) ->
    node prefix k ∉ children -> 0 <= j < zk_counter (sy_server s) -> node prefix j ∈ children -> j < k;
  client_number : forall k, lockNumber_ (cl_state cl) = Some k -> k ∈ sy_acquired s /\ sy_owner s !! k = Some c;
}.

Record system_inv (s : System T) : Prop := {
  inv_numbered : numbered (zk_counter (sy_server s)) (zk_children (sy_server s));
  inv_acquired : forall k j, k ∈ sy_acquired s -> present j s -> 0 <= j < zk_counter (sy_server s) -> k <= j;
  inv_acquired_range : forall k, k ∈ sy_acquired s -> 0 <= k < zk_counter (sy_server s);
  inv_owned : forall k c, sy_owner s !! k = Some c -> k < zk_counter (sy_server s);
  inv_clients : forall c cl, sy_clients s !! c = Some cl -> client_inv s c cl;
}.

(** ** Preservation *)

(** From [s] to [s'] nodes of the lock go, or come with new numbers. *)
Record grows (s s' : System T) : Prop := {
  grows_counter : zk_counter (sy_server s) <= zk_counter (sy_server s') <= 10 ^ 9;
  grows_owner : sy_owner s ⊆ sy_owner s';
  grows_acquired : sy_acquired s ⊆ sy_acquired s';
  grows_present : forall k, present k s' -> 0 <= k < zk_counter (sy_server s') ->
    (present k s /\ k < zk_counter (sy_server s)) \/ zk_counter (sy_server s) <= k;
}.

Lemma numbered_mono b b' children : b <= b' -> numbered b children -> numbered b' children.
Proof. intros Hb Hn n Hin Hs. destruct (Hn n Hin Hs) as (k & -> & Hk). exists k. split; [done|lia]. Qed.

Lemma numbered_node b children k :
  b <= 10 ^ 9 -> numbered b children -> node prefix k ∈ children -> 0 <= k < 10 ^ 9 -> k < b.
Proof.
  intros Hb Hn Hin Hk. destruct (Hn _ Hin (starts_with_node prefix k)) as (k' & Heq & Hk').
  apply node_inj in Heq; unfold in_range; lia || (try done).
Qed.

Lemma created_by_grows s s' c name : grows s s' -> created_by s c name -> created_by s' c name.
Proof.
  intros Hg (k & -> & Hk & Ho). exists k. split; [done|]. split; [destruct Hg; lia|].
  by eapply lookup_weaken, grows_owner.
Qed.

Lemma client_inv_grows s s' c cl : grows s s' -> client_inv s c cl -> client_inv s' c cl.
Proof.
  intros Hg [Hnew Hname Hreads Hfresh Hnum]. pose proof (grows_counter _ _ Hg) as Hc. split.
  - intros name Hin. by eapply created_by_grows, Hnew.
  - destruct Hname as [?|Hname]; [by left|right]. by eapply created_by_grows.
  - intros children Hin. eapply numbered_mono; [|by apply Hreads]. lia.
  - intros children k j Hin Hp Hk Hnot Hj Hjin.
    assert (j < zk_counter (sy_server s)) by (eapply numbered_node; [lia|by apply Hreads|done|lia]).
    destruct (grows_present _ _ Hg k Hp Hk) as [[Hp' Hk']|Hk']; [|lia].
    eapply Hfresh; eauto; lia.
  - intros k Hk. destruct (Hnum k Hk) as [Ha Ho].
    split; [by apply (grows_acquired _ _ Hg)|]. by eapply lookup_weaken, grows_owner.
Qed.

(** A step changes at most one client. *)
Lemma system_inv_update s s' c cl :
  grows s s' -> system_inv s -> numbered (zk_counter (sy_server s')) (zk_children (sy_server s')) ->
  (forall k, k ∈ sy_acquired s' -> k ∈ sy_acquired s
     \/ (0 <= k < zk_counter (sy_server s)
         /\ forall j, present j s -> 0 <= j < zk_counter (sy_server s) -> k <= j)) ->
  (forall k o, sy_owner s' !! k = Some o -> sy_owner s !! k = Some o \/ k < zk_counter (sy_server s')) ->
  sy_clients s' = <[c := cl]> (sy_clients s) -> client_inv s' c cl -> system_inv s'.
Proof.
  intros Hg Hinv Hn Hacq Hown Hcl Hc. pose proof (grows_counter _ _ Hg). split; [done| | | |].
  - intros k j Hk Hp Hj. destruct (grows_present _ _ Hg j Hp Hj) as [[Hp' Hj']|Hj'];
      destruct (Hacq k Hk) as [Hk'|[Hr Hk']].
    + eapply inv_acquired; eauto; lia.
    + apply Hk'; [done|lia].
    + apply inv_acquired_range in Hk'; [lia|done].
    + lia.
  - intros k Hk. destruct (Hacq k Hk) as [Hk'|[Hr _]]; [apply inv_acquired_range in Hk'; [lia|done]|lia].
  - intros k o Ho. destruct (Hown k o Ho) as [Ho'|]; [apply inv_owned in Ho'; [lia|done]|done].
  - intros c' cl'. rewrite Hcl. intros [[<- <-]|[Hne Hl]]%lookup_insert_Some; [done|].
    by eapply client_inv_grows, inv_clients.
Qed.

(** Steps that leave the server and the numbers alone. *)
Lemma put_client_grows s c cl : zk_counter (sy_server s) <= 10 ^ 9 -> grows s (put_client c cl s).
Proof. intros Hc. split; cbn; [lia|done|done|]. intros k Hp Hk. left. split; [done|lia]. Qed.

Lemma put_client_inv s c cl :
  zk_counter (sy_server s) <= 10 ^ 9 -> system_inv s -> client_inv s c cl -> system_inv (put_client c cl s).
Proof.
  intros Hc Hinv Hcl. assert (grows s (put_client c cl s)) as Hg by by apply put_client_grows.
  eapply (system_inv_update s _ c cl); eauto using client_inv_grows.
  by apply (inv_numbered s).
Qed.

(** ** Views *)

Lemma numbered_view b children : b <= 10 ^ 9 -> numbered b children ->
  exists ks, lock_view prefix ks children
    /\ forall k, in_range k -> k ∈ ks <-> node prefix k ∈ children.
Proof.
  intros Hb. induction children as [|n children IH]; intros Hn.
  - exists []. split; [split; [done|constructor]|]. intros k _. set_solver.
  - destruct IH as (ks & [Hf Hr] & Hks); [intros m Hm; apply Hn; by right|].
    unfold lock_view. rewrite filter_cons. destruct (starts_with n prefix) eqn:Hs.
    + destruct (Hn n ltac:(left) Hs) as (k & -> & Hk). exists (k :: ks). rewrite decide_True by done.
      split; [split; [by rewrite Hf|constructor; [unfold in_range; lia|done]]|].
      intros j Hj. rewrite !elem_of_cons, Hks by done. split; (intros [Heq|?]; [left|by right]).
      * by subst.
      * apply node_inj in Heq; [done|done|done|unfold in_range; lia].
    + exists ks. rewrite decide_False by done. split; [done|]. intros j Hj. rewrite Hks, elem_of_cons by done.
      split; [by right|]. intros [<-|?]; [|done]. by rewrite starts_with_node in Hs.
Qed.

Lemma check_children_unnamed st children st' w :
  createdNodeName_ st = ""%string ->
  check_children ("/" +:+ prefix) st children = Returns (Acquired st' w) -> False.
Proof.
  intros Hn Hc. unfold check_children in Hc. apply exec_bind_returns in Hc as (l & _ & Hc).
  cbn zeta in Hc. by rewrite Hn in Hc.
Qed.

(** Who acquires the lock has the least number of those that exist now or will. *)
Lemma acquire_inv s c cl children st w k :
  zk_counter (sy_server s) <= 10 ^ 9 -> client_inv s c cl -> children ∈ cl_reads cl ->
  check_children ("/" +:+ prefix) (cl_state cl) children = Returns (Acquired st w) -> lockNumber_ st = Some k ->
  0 <= k < zk_counter (sy_server s) /\ sy_owner s !! k = Some c
  /\ createdNodeName_ st = createdNodeName_ (cl_state cl)
  /\ forall j, present j s -> 0 <= j < zk_counter (sy_server s) -> k <= j.
Proof.
  intros Hb Hcl Hin Hcheck Hnum.
  destruct (client_name _ _ _ Hcl) as [Hnone|(k' & Hname & Hk' & Ho)];
    [by eapply check_children_unnamed in Hcheck|].
  destruct (numbered_view _ children Hb (client_reads _ _ _ Hcl _ Hin)) as (ks & Hview & Hks).
  pose proof (check_children_decides prefix Hprefix (cl_state cl) k' ks children
                ltac:(unfold in_range; lia) Hname Hview) as Hd.
  rewrite Hcheck in Hd. inversion Hd as [Hfirst Hleast Heq| | |]. subst st. cbn in *. injection Hnum as ->.
  split; [done|]. split; [done|]. split; [done|]. intros j Hp Hj.
  assert (in_range j) as Hjr by (unfold in_range; lia).
  destruct (decide (node prefix j ∈ children)) as [Hjin|Hjnot]; [by apply Hleast, Hks|].
  apply Z.lt_le_incl. eapply (client_fresh _ _ _ Hcl); eauto. apply Hks; [unfold in_range; lia|done].
Qed.

(** ** Steps keep the invariant *)

Lemma create_grows s c cl :
  zk_counter (zk_new ("/" +:+ prefix) (sy_server s)).2 <= 10 ^ 9 -> system_inv s ->
  let server := (zk_new ("/" +:+ prefix) (sy_server s)).2 in
  grows s (mkSystem server (<[c := cl]> (sy_clients s)) (sy_acquired s)
             (<[zk_counter (sy_server s) := c]> (sy_owner s))).
Proof.
  intros Hb Hinv server. pose proof (zk_new_counter (sy_server s)) as Hlt.
  pose proof (zk_counter_nonneg (sy_server s)). split; cbn [sy_server sy_owner sy_acquired].
  - unfold server. lia.
  - apply insert_subseteq. destruct (sy_owner s !! _) as [o|] eqn:Ho; [|done].
    apply inv_owned in Ho; [lia|done].
  - done.
  - intros k Hp Hk. unfold present in Hp. cbn in Hp. apply zk_new_children in Hp as [Heq|Hp].
    + right. change (node prefix k = node prefix (zk_counter (sy_server s))) in Heq.
      unfold server in Hk. apply node_inj in Heq; [lia|done|unfold in_range; lia..].
    + left. split; [done|]. eapply numbered_node; [|by apply inv_numbered|done|]; unfold server in *; lia.
Qed.

Lemma create_numbered s : system_inv s ->
  let server := (zk_new ("/" +:+ prefix) (sy_server s)).2 in numbered (zk_counter server) (zk_children server).
Proof.
  intros Hinv server n Hin Hs. pose proof (zk_new_counter (sy_server s)) as Hlt.
  pose proof (zk_counter_nonneg (sy_server s)). unfold server in *.
  apply zk_new_children in Hin as [->|Hin]; [exists (zk_counter (sy_server s)); split; [done|lia]|].
  destruct (inv_numbered _ Hinv n Hin Hs) as (k & -> & Hk). exists k. split; [done|lia].
Qed.

Lemma server_inv s t :
  zk_counter t <= 10 ^ 9 -> system_inv s -> zk_counter (sy_server s) <= zk_counter t ->
  (forall n, n ∈ zk_children t -> starts_with n prefix = true -> n ∈ zk_children (sy_server s)) ->
  system_inv (mkSystem t (sy_clients s) (sy_acquired s) (sy_owner s)).
Proof.
  intros Hb Hinv Hcount Hchildren.
  assert (grows s (mkSystem t (sy_clients s) (sy_acquired s) (sy_owner s))) as Hg.
  { split; cbn; [lia|done|done|]. intros k Hp Hk. left.
    assert (present k s) as Hp' by (by apply Hchildren; [|apply starts_with_node]). split; [done|].
    eapply numbered_node; [|by apply inv_numbered|done|]; lia. }
  split; cbn.
  - intros n Hin Hs. eapply numbered_mono; [done|by apply inv_numbered|by apply Hchildren|done].
  - intros k j Hk Hp Hj. destruct (grows_present _ _ Hg j Hp Hj) as [[Hp' Hj']|Hj'].
    + eapply inv_acquired; eauto; lia.
    + apply inv_acquired_range in Hk; [lia|done].
  - intros k Hk. apply inv_acquired_range in Hk; [lia|done].
  - intros k c Ho. apply inv_owned in Ho; [lia|done].
  - intros c cl Hc. by eapply client_inv_grows, inv_clients.
Qed.

Lemma zk_step_inv s s' : zk_counter (sy_server s') <= 10 ^ 9 -> system_inv s -> zk_step s s' -> system_inv s'.
Proof.
  intros Hb Hinv Hstep.
  destruct Hstep as [c cl Hc|c cl Hc|c cl name Hc Hname|c cl Hc|c cl children st w k Hc Hin Hcheck Hk|c Hc|t Hcount Hchildren];
    try pose proof (inv_clients _ Hinv _ _ Hc) as Hcl; cbn in Hb.
  - apply put_client_inv; [done|done|]. destruct Hcl; split; cbn; auto. done.
  - pose proof (create_grows s c (mkClient (cl_state cl) ((zk_new ("/" +:+ prefix) (sy_server s)).1 :: cl_new cl)
                                    (cl_reads cl)) Hb Hinv) as Hg.
    pose proof (zk_new_counter (sy_server s)). pose proof (zk_counter_nonneg (sy_server s)).
    eapply (system_inv_update s); [exact Hg|done|by apply create_numbered|by left| |done|].
    + cbn. intros k o [[<- <-]|[Hne Ho]]%lookup_insert_Some; [right; lia|by left].
    + destruct (client_inv_grows _ _ c cl Hg Hcl); split; cbn; auto.
      intros name [->|Hn]%elem_of_cons; [|auto]. exists (zk_counter (sy_server s)). cbn.
      split; [apply zk_new_name|]. split; [lia|apply lookup_insert_eq].
  - apply put_client_inv; [done|done|]. destruct Hcl; split; cbn; auto.
  - apply put_client_inv; [done|done|]. destruct Hcl; split; cbn; auto.
    + intros children [->|Hin]%elem_of_cons; [by apply inv_numbered|auto].
    + intros children k j [->|Hin]%elem_of_cons; [done|eauto].
  - destruct (acquire_inv s c cl children st w k) as (Hr & Ho & Hsame & Hleast); [done..|].
    assert (grows s (mkSystem (sy_server s) (<[c := mkClient st (cl_new cl) (cl_reads cl)]> (sy_clients s))
                       ({[k]} ∪ sy_acquired s) (sy_owner s))) as Hg.
    { split; cbn; [lia|done|set_solver|]. intros j Hp Hj. left. split; [done|lia]. }
    eapply (system_inv_update s); [exact Hg|done|exact (inv_numbered s Hinv)| |by left|done|].
    + cbn. intros j [->%elem_of_singleton|Hj]%elem_of_union; [by right|by left].
    + destruct (client_inv_grows _ _ c cl Hg Hcl); split; cbn; auto; [by rewrite Hsame|].
      intros j Hj. rewrite Hk in Hj. injection Hj as <-. split; [set_solver|done].
  - apply put_client_inv; [done|done|]. split; cbn; try set_solver.
  - by apply server_inv.
Qed.

Lemma zk_step_counter s s' : zk_step s s' -> zk_counter (sy_server s) <= zk_counter (sy_server s').
Proof. intros []; cbn; try lia. rewrite zk_new_counter. lia. Qed.

(** No backends yet, and a server whose nodes under the lock's path, if any, are
    sequential ones. *)
Definition system_start (t : T) : System T := mkSystem t ∅ ∅ ∅.

Lemma system_start_inv t : numbered (zk_counter t) (zk_children t) -> system_inv (system_start t).
Proof. intros Hn. split; cbn; [done|set_solver..]. Qed.

Lemma reachable_system_inv t s :
  numbered (zk_counter t) (zk_children t) -> rtc zk_step (system_start t) s ->
  zk_counter (sy_server s) <= 10 ^ 9 -> system_inv s.
Proof.
  intros Hn Hr. revert s Hr. apply (rtc_ind_r (fun s => zk_counter (sy_server s) <= 10 ^ 9 -> system_inv s)).
  - intros _. by apply system_start_inv.
  - intros s s' _ Hs IH Hb. eapply zk_step_inv; [done| |done]. apply IH. apply zk_step_counter in Hs. lia.
Qed.
End system.

(** ** The methods take these steps *)

(** What may happen to a call: it works, it does not reach the server, or its
    reply is lost. *)
Inductive Fault : Type := Fine | LostRequest | LostReply.

Section client.
Context `{StdLib} {T : Type} `{!ZkNodes T} (prefix : string) `{!ZkServer T prefix}.
Context (Hprefix : Z.of_nat (String.length prefix) < 2 ^ 62).

(** The client library on a server nobody else uses meanwhile, with the faults to come. *)
Definition server_client : ZkClient (T * list Fault) := {|
  zk_create path data w :=
    let '(name, t) := zk_new path w.1 in
    match w.2 with
    | LostRequest :: faults => (None, (w.1, faults))
    | LostReply :: faults => (None, (t, faults))
    | _ => (Some name, (t, tail w.2))
    end;
  zk_get_children path w :=
    match w.2 with
    | LostRequest :: faults => (None, (w.1, faults))
    | LostReply :: faults => (None, (w.1, faults))
    | _ => (Some (zk_children w.1), (w.1, tail w.2))
    end;
  zk_close w := w;
  zk_erase path w := (None, w);
|}.
#[local] Existing Instance server_client.

Context (address data : string).
Let config : ZkConfig := mkZkConfig address ("/" +:+ prefix) data.

(** Client [c] has the lock state [st] and the server the state [t]. *)
Definition at_client (s : System T) (c : Z) (st : LockState) (t : T) : Prop :=
  sy_server s = t /\ exists cl, sy_clients s !! c = Some cl /\ cl_state cl = st.

Lemma step_begin_at s c st t : at_client s c st t ->
  exists s', zk_step prefix s s' /\ at_client s' c (lock_begin st) t.
Proof.
  intros (Ht & cl & Hc & <-). eexists. split; [by apply step_begin|]. split; [done|].
  eexists. split; [apply lookup_insert_eq|done].
Qed.

Lemma step_create_at s c st t : at_client s c st t ->
  exists s', zk_step prefix s s' /\ at_client s' c st (zk_new ("/" +:+ prefix) t).2
    /\ exists cl, sy_clients s' !! c = Some cl /\ (zk_new ("/" +:+ prefix) t).1 ∈ cl_new cl.
Proof.
  intros (<- & cl & Hc & <-). eexists. split; [by apply step_create|]. split.
  - split; [done|]. eexists. split; [apply lookup_insert_eq|done].
  - eexists. split; [apply lookup_insert_eq|]. left.
Qed.

Lemma step_store_at s c st t name : at_client s c st t ->
  (exists cl, sy_clients s !! c = Some cl /\ name ∈ cl_new cl) ->
  exists s', zk_step prefix s s' /\ at_client s' c (lock_store name st) t.
Proof.
  intros (Ht & cl & Hc & <-) (cl' & Hc' & Hn). simplify_eq.
  eexists. split; [by eapply step_store|]. split; [done|]. eexists. split; [apply lookup_insert_eq|done].
Qed.

Lemma step_acquire_at s c st t st' w k : at_client s c st t ->
  check_children ("/" +:+ prefix) st (zk_children t) = Returns (Acquired st' w) -> lockNumber_ st' = Some k ->
  exists s', rtc (zk_step prefix) s s' /\ at_client s' c st' t.
Proof.
  intros (<- & cl & Hc & <-) Hcheck Hk. eexists. split.
  - eapply rtc_l; [by eapply step_read|]. eapply rtc_once, step_acquire; [apply lookup_insert_eq|left|done|done].
  - split; [done|]. eexists. split; [apply lookup_insert_eq|done].
Qed.

Lemma acquired_number st children st' w :
  check_children ("/" +:+ prefix) st children = Returns (Acquired st' w) -> is_Some (lockNumber_ st').
Proof.
  unfold check_children. intros Hc. apply exec_bind_returns in Hc as (l & _ & Hc).
  apply exec_bind_returns in Hc as (n & _ & Hc).
  destruct (list_find _ _) as [[[|b] f]|]; [injection Hc as <- _; by eexists| |].
  - by destruct (_ !! b).
  - by destruct (std_sort _ _).
Qed.

(** The creation of a node, whatever becomes of the reply. *)
Lemma create_at s c st t faults created t' faults' : at_client s c st t ->
  zk_create (lockPath config) (lockName config) (t, faults) = (created, (t', faults')) ->
  exists s', rtc (zk_step prefix) s s'
    /\ match created with Some name => at_client s' c (lock_store name st) t' | None => at_client s' c st t' end.
Proof.
  intros Hat. cbn. destruct (zk_new ("/" +:+ prefix) t) as [name t1] eqn:Hnew.
  destruct (step_create_at s c st t Hat) as (s1 & Hs1 & Hat1 & Hn). rewrite Hnew in Hat1, Hn.
  destruct faults as [|[| |] faults]; intros; simplify_eq/=.
  1,2: destruct (step_store_at _ _ _ _ _ Hat1 Hn) as (s2 & Hs2 & Hat2); exists s2;
       (split; [by eapply rtc_l, rtc_once|done]).
  - by exists s.
  - exists s1. split; [by apply rtc_once|done].
Qed.

Lemma run_lock_steps fuel : forall locking st t faults st' watches t' faults' s c,
  at_client s c st t ->
  run_lock config fuel locking st (t, faults) = Ret (st', watches, (t', faults')) ->
  exists s', rtc (zk_step prefix) s s' /\ at_client s' c st' t'.
Proof.
  induction fuel as [|fuel IH]; intros locking st t faults st' watches t' faults' s c Hat Hrun; [done|].
  cbn [run_lock] in Hrun. destruct locking.
  - destruct (isStopped_ st); [simplify_eq; by exists s|].
    destruct (step_begin_at s c st t Hat) as (s1 & Hs1 & Hat1).
    destruct (zk_create _ _ _) as [created [t1 faults1]] eqn:Hcr.
    destruct (create_at s1 c _ t faults _ _ _ Hat1 Hcr) as (s2 & Hs2 & Hat2). destruct created as [name|].
    + destruct (IH _ _ _ _ _ _ _ _ _ _ Hat2 Hrun) as (s3 & Hs3 & Hat3). exists s3.
      split; [|done]. eapply rtc_l; [done|]. by etrans.
    + destruct (run_lock config fuel true _ _) as [[[st1 ws1] [t2 faults2]]| |] eqn:H1; [|done..]. cbn in Hrun.
      destruct (run_lock config fuel false st1 _) as [[[st2 ws2] [t3 faults3]]| |] eqn:H2; [|done..].
      cbn in Hrun. simplify_eq.
      destruct (IH _ _ _ _ _ _ _ _ _ _ Hat2 H1) as (s3 & Hs3 & Hat3).
      destruct (IH _ _ _ _ _ _ _ _ _ _ Hat3 H2) as (s4 & Hs4 & Hat4).
      exists s4. split; [|done]. eapply rtc_l; [done|]. etrans; [done|]. by etrans.
  - assert (forall faults, run_lock config fuel false st (t, faults) = Ret (st', watches, (t', faults')) ->
      exists s', rtc (zk_step prefix) s s' /\ at_client s' c st' t') as Hagain by (intros; by eapply IH).
    destruct (zk_get_children "/" (t, faults)) as [children w] eqn:Hch.
    assert (w.1 = t /\ forall l, children = Some l -> l = zk_children t) as [Hw Hl].
    { destruct faults as [|[| |] faults]; cbn in Hch; simplify_eq; split; naive_solver. }
    destruct w as [t1 faults1]. cbn in Hw. subst t1. destruct children as [children|]; [|by eapply Hagain].
    rewrite (Hl children eq_refl) in Hrun.
    destruct (check_children _ st (zk_children t)) as [[st1 w| |w]| | |] eqn:Hcheck; simplify_eq/=;
      [|by eapply IH|by exists s|by eapply Hagain].
    destruct (acquired_number _ _ _ _ Hcheck) as [k Hk]. by eapply step_acquire_at.
Qed.

(** ** Locking ends *)

Lemma run_lock_mono fuel : forall fuel' locking st w x, (fuel <= fuel')%nat ->
  run_lock config fuel locking st w = Ret x -> run_lock config fuel' locking st w = Ret x.
Proof.
  induction fuel as [|fuel IH]; intros [|fuel'] locking st w x Hle Hrun; [done|done|lia|].
  cbn [run_lock] in *. destruct locking.
  - destruct (isStopped_ st); [done|]. destruct (zk_create _ _ _) as [[name|] w1]; [by eapply (IH fuel'); [lia|]|].
    destruct (run_lock config fuel true _ _) as [[[st1 ws1] w2]| |] eqn:H1; [|done..].
    rewrite (IH fuel' _ _ _ _ ltac:(lia) H1). cbn in *.
    destruct (run_lock config fuel false _ _) as [[[st2 ws2] w3]| |] eqn:H2; [|done..].
    by rewrite (IH fuel' _ _ _ _ ltac:(lia) H2).
  - destruct (zk_get_children _ _) as [[children|] w1]; [|by eapply (IH fuel'); [lia|]].
    by destruct (check_children _ _ _) as [[| |]| | |]; [|eapply (IH fuel'); [lia|]| |eapply (IH fuel'); [lia|]| |].
Qed.

(** The node of the client exists; it holds the lock with the least number, or it
    watches the node just before its own. *)
Definition lock_settled (st : LockState) (watches : list Watch) (t : T) : Prop :=
  exists k, createdNodeName_ st = node_path prefix k /\ 0 <= k < zk_counter t /\ node prefix k ∈ zk_children t
    /\ ((lockNumber_ st = Some k
         /\ forall j, 0 <= j < zk_counter t -> node prefix j ∈ zk_children t -> k <= j)
        \/ exists j, RetryLock (node_path prefix j) ∈ watches /\ 0 <= j < k /\ node prefix j ∈ zk_children t
             /\ forall i, 0 <= i < k -> node prefix i ∈ zk_children t -> i <= j).

Definition has_node (st : LockState) (t : T) : Prop :=
  exists k, createdNodeName_ st = node_path prefix k /\ 0 <= k < zk_counter t /\ node prefix k ∈ zk_children t.

Lemma lock_settled_has_node st watches t : lock_settled st watches t -> has_node st t.
Proof. intros (k & Hn & Hk & Hin & _). by exists k. Qed.

(** With its own node among the children, a check settles the matter. *)
Lemma check_settles st t : has_node st t -> zk_counter t <= 10 ^ 9 -> numbered prefix (zk_counter t) (zk_children t) ->
  (exists st' watch, check_children ("/" +:+ prefix) st (zk_children t) = Returns (Acquired st' watch)
     /\ isStopped_ st' = isStopped_ st /\ lock_settled st' [watch] t)
  \/ (exists watch, check_children ("/" +:+ prefix) st (zk_children t) = Returns (WaitFor watch) /\ lock_settled st [watch] t).
Proof.
  intros (k & Hname & Hk & Hin) Hb Hnum. destruct (numbered_view prefix Hprefix _ _ Hb Hnum) as (ks & Hview & Hks).
  assert (in_range k) as Hkr by (unfold in_range; lia).
  assert (forall j, j ∈ ks -> 0 <= j < zk_counter t /\ node prefix j ∈ zk_children t) as Hback.
  { intros j Hj. destruct Hview as [_ Hr]. rewrite Forall_forall in Hr. pose proof (Hr j Hj) as [? ?].
    assert (node prefix j ∈ zk_children t) by (by apply Hks). split; [|done].
    split; [done|]. by eapply numbered_node. }
  assert (forall j, 0 <= j < zk_counter t -> node prefix j ∈ zk_children t -> j ∈ ks) as Hforth
    by (intros j Hj Hj'; apply Hks; [unfold in_range; lia|done]).
  destruct (check_children_decides prefix Hprefix st k ks (zk_children t) Hkr Hname Hview)
    as [Hfirst Hleast|j Hfirst Hj Hlt Hmax|Hlost _|Hnone].
  - left. do 2 eexists. split; [done|]. split; [done|]. exists k. split; [done|]. split; [done|]. split; [done|].
    left. split; [done|]. eauto.
  - right. eexists. split; [done|]. exists k. split; [done|]. split; [done|]. split; [done|]. right.
    destruct (Hback j Hj). exists j. split; [by left|]. split; [lia|]. split; [done|].
    intros i Hi Hi'. apply Hmax; [apply Hforth; [lia|done]|lia].
  - by destruct Hlost; apply Hforth.
  - subst ks. by destruct (not_elem_of_nil k); apply Hforth.
Qed.

Lemma check_returns faults : forall st t,
  has_node st t -> zk_counter t <= 10 ^ 9 -> numbered prefix (zk_counter t) (zk_children t) ->
  exists fuel st' watches faults',
    run_lock config fuel false st (t, faults) = Ret (st', watches, (t, faults'))
    /\ isStopped_ st' = isStopped_ st /\ lock_settled st' watches t /\ (length faults' <= length faults)%nat.
Proof.
  induction faults as [|f faults IH]; intros st t Hnode Hb Hnum.
  all: destruct (check_settles st t Hnode Hb Hnum) as [(st' & w & Hc & Hst & Hs)|(w & Hc & Hs)].
  1,2: exists 1%nat; do 3 eexists; cbn; rewrite Hc; by repeat split.
  all: destruct (IH st t Hnode Hb Hnum) as (fuel & st1 & ws & faults1 & Hrun & Hst1 & Hs1 & Hlen).
  all: destruct f; [exists 1%nat|exists (S fuel)..]; do 3 eexists; cbn -[check_children].
  all: rewrite ?Hc; (split; [done|]); (split; [done|]); (split; [done|]); cbn; lia.
Qed.

(** The server after a node of the lock was created. *)
Lemma new_node t : zk_counter t + 1 <= 10 ^ 9 -> numbered prefix (zk_counter t) (zk_children t) ->
  let t' := (zk_new ("/" +:+ prefix) t).2 in
  (forall st, has_node (lock_store (zk_new ("/" +:+ prefix) t).1 st) t')
  /\ numbered prefix (zk_counter t') (zk_children t') /\ zk_counter t' = zk_counter t + 1.
Proof.
  intros Hb Hnum t'. pose proof (zk_counter_nonneg t).
  pose proof (zk_new_counter t) as Hc. unfold t'. split; [|split; [|done]].
  - intros st. exists (zk_counter t). split; [apply zk_new_name|]. split; [lia|].
    apply zk_new_children. by left.
  - intros n Hin Hs. apply zk_new_children in Hin as [->|Hin]; [exists (zk_counter t); split; [done|lia]|].
    destruct (Hnum n Hin Hs) as (k & -> & Hk). exists k. split; [done|lia].
Qed.

Lemma lock_settled_app st ws ws' t : lock_settled st ws' t -> lock_settled st (ws ++ ws') t.
Proof.
  intros (k & Hn & Hk & Hin & Hor). exists k. split; [done|]. split; [done|]. split; [done|].
  destruct Hor as [?|(j & Hj & Hrest)]; [by left|right]. exists j. split; [set_solver|done].
Qed.

Lemma lock_returns faults : forall st t,
  isStopped_ st = false -> zk_counter t + Z.of_nat (length faults) + 1 <= 10 ^ 9 ->
  numbered prefix (zk_counter t) (zk_children t) ->
  exists fuel st' watches t' faults',
    run_lock config fuel true st (t, faults) = Ret (st', watches, (t', faults'))
    /\ isStopped_ st' = false /\ lock_settled st' watches t'
    /\ zk_counter t' + Z.of_nat (length faults') <= 10 ^ 9
    /\ numbered prefix (zk_counter t') (zk_children t').
Proof.
  induction faults as [|f faults IH]; intros st t Hst Hb Hnum; cbn [length] in Hb.
  all: destruct (new_node t ltac:(lia) Hnum) as (Hnode & Hnum' & Hcount).
  all: destruct (zk_new ("/" +:+ prefix) t) as [name t'] eqn:Hnew; cbn [fst snd] in *.
  - destruct (check_returns [] (lock_store name (lock_begin st)) t') as (fuel & st' & ws & faults' & Hrun & Hst' & Hs & Hlen);
      [done|lia|done|].
    exists (S fuel), st', ws, t', faults'. cbn -[check_children]. rewrite Hst, Hnew. cbn in *.
    split; [done|]. split; [congruence|]. split; [done|]. split; [lia|done].
  - assert (f = Fine \/ exists t1, zk_create (lockPath config) (lockName config) (t, f :: faults) = (None, (t1, faults))
              /\ zk_counter t <= zk_counter t1 <= zk_counter t + 1 /\ numbered prefix (zk_counter t1) (zk_children t1))
      as [->|(t1 & Hcr & Hc1 & Hn1)].
    { destruct f; [by left|right; exists t|right; exists t']; cbn -[zk_counter]; rewrite Hnew; (split; [done|]);
        (split; [lia|done]). }
    + destruct (check_returns faults (lock_store name (lock_begin st)) t') as (fuel & st' & ws & faults' & Hrun & Hst' & Hs & Hlen);
        [done|lia|done|].
      exists (S fuel), st', ws, t', faults'. cbn -[check_children]. rewrite Hst, Hnew. cbn in *.
      split; [done|]. split; [congruence|]. split; [done|]. split; [lia|done].
    + destruct (IH (lock_begin st) t1 Hst ltac:(lia) Hn1) as (fuel1 & st2 & ws2 & t2 & faults2 & Hrun2 & Hst2 & Hs2 & Hc2 & Hn2).
      destruct (check_returns faults2 st2 t2) as (fuel3 & st3 & ws3 & faults3 & Hrun3 & Hst3 & Hs3 & Hlen3);
        [by eapply lock_settled_has_node|lia|done|].
      exists (S (fuel1 + fuel3)), st3, (ws2 ++ ws3), t2, faults3. cbn [run_lock]. rewrite Hst, Hcr.
      rewrite (run_lock_mono fuel1 (fuel1 + fuel3) _ _ _ _ ltac:(lia) Hrun2). cbn [mbind outcome_bind].
      rewrite (run_lock_mono fuel3 (fuel1 + fuel3) _ _ _ _ ltac:(lia) Hrun3). cbn [mbind outcome_bind].
      split; [done|]. split; [congruence|]. split; [by apply lock_settled_app|]. split; [lia|done].
Qed.
End client.
