(* ===== verification/PgPool.v ===== *)
(** * The connection pool (src/libs/postgres/impl/{pg_pool,connection,txn}.cpp)

    Threads take connections from a queue under a mutex, wait on a condition
    variable while it is empty, and give a connection back when the handle of
    their transaction is destroyed. *)

From S2P Require Import Prelude Text Config.

(** ** The code *)

(** The constructor's loop counts in an [int]. *)
Definition PgPool_new (poolSize : Z) : Outcome (list Z) :=
  if poolSize <? 2 ^ 31 then Ret (seqZ 0 poolSize) else Undefined.

Definition createPool (getenv : string -> option string) (connectionString : option string)
    (poolSize : option Z) : Exec (list Z * string) :=
  n ← getPoolSize getenv poolSize;
  s ← getConnectionString getenv connectionString;
  pool ← of_outcome (PgPool_new n);
  mret (pool, s).

(** One turn of the loop of [connection]: a connection, or [None] to wait. *)
Definition connection (pool : list Z) : option (Z * list Z) :=
  match pool with
  | [] => None
  | conn :: pool' => Some (conn, pool')
  end.

(** The critical section of [freeConnection]. *)
Definition freeConnection (conn : Z) (pool : list Z) : list Z := pool ++ [conn].

(** A [ConnectionHandle] owns a connection or, once it was moved from, none; the move
    constructor gives the new handle and what is left of the old one. *)
Definition ConnectionHandle_move (other : option Z) : option Z * option Z := (other, None).

Definition ConnectionHandle_destroy (handle : option Z) (pool : list Z) : list Z :=
  match handle with
  | Some conn => freeConnection conn pool
  | None => pool
  end.

(** Where a thread is:
    - not using the pool;
    - in [poolNotEmpty_.wait], or woken from it and about to test again;
    - with a [ConnectionHandle], before its transaction is made;
    - with a [TransactionHandle];
    - past [freeConnection]'s critical section and before [notify_one], with a
      transaction that is yet to be destroyed, if there was one;
    - past [~ConnectionHandle] and before the destruction of the transaction: of the
      members of [TransactionHandle], the handle is destroyed first. *)
Inductive PoolThread : Type :=
  | Outside
  | Waiting
  | Woken
  | Connected (conn : Z)
  | InTransaction (conn : Z)
  | Notifying (live : option Z)
  | Closing (conn : Z).

#[export] Instance PoolThread_eq_dec : EqDecision PoolThread.
Proof. solve_decision. Defined.

Record Pool : Type := mkPool { connectionPool_ : list Z; pool_threads : gmap Z PoolThread }.

Definition set_thread (t : Z) (s : PoolThread) (pool : list Z) (p : Pool) : Pool :=
  mkPool pool (<[t := s]> (pool_threads p)).

(** [transaction] covers [readOnlyTransaction] and [writableTransaction], which
    differ in the type of the transaction only. *)
Inductive pool_step (p : Pool) : Pool -> Prop :=
  | pool_take t s conn pool : pool_threads p !! t = Some s -> s = Outside \/ s = Woken ->
    connection (connectionPool_ p) = Some (conn, pool) ->
    pool_step p (set_thread t (Connected conn) pool p)
  | pool_wait t s : pool_threads p !! t = Some s -> s = Outside \/ s = Woken ->
    connection (connectionPool_ p) = None ->
    pool_step p (set_thread t Waiting (connectionPool_ p) p)
  | pool_spurious t : pool_threads p !! t = Some Waiting ->
    pool_step p (set_thread t Woken (connectionPool_ p) p)
  (** the local handle is moved into the [TransactionHandle] and then destroyed *)
  | pool_transaction t conn : pool_threads p !! t = Some (Connected conn) ->
    pool_step p (set_thread t (InTransaction conn)
                   (ConnectionHandle_destroy (ConnectionHandle_move (Some conn)).2 (connectionPool_ p)) p)
  (** the constructor of the transaction throws *)
  | pool_no_transaction t conn : pool_threads p !! t = Some (Connected conn) ->
    pool_step p (set_thread t (Notifying None) (ConnectionHandle_destroy (Some conn) (connectionPool_ p)) p)
  | pool_release t conn : pool_threads p !! t = Some (InTransaction conn) ->
    pool_step p (set_thread t (Notifying (Some conn)) (ConnectionHandle_destroy (Some conn) (connectionPool_ p)) p)
  | pool_notify t live w : pool_threads p !! t = Some (Notifying live) -> pool_threads p !! w = Some Waiting ->
    pool_step p (set_thread t (match live with Some conn => Closing conn | None => Outside end) (connectionPool_ p)
                   (set_thread w Woken (connectionPool_ p) p))
  | pool_notify_none t live : pool_threads p !! t = Some (Notifying live) ->
    (forall w, pool_threads p !! w <> Some Waiting) ->
    pool_step p (set_thread t (match live with Some conn => Closing conn | None => Outside end) (connectionPool_ p) p)
  | pool_closed t conn : pool_threads p !! t = Some (Closing conn) ->
    pool_step p (set_thread t Outside (connectionPool_ p) p).

(** A fresh pool, with threads that have not used it. *)
Definition pool_start (connections : list Z) (threads : list Z) : Pool :=
  mkPool connections (list_to_map ((fun t => (t, Outside)) <$> threads)).

(** ** Conservation *)

Definition held (s : PoolThread) : list Z :=
  match s with
  | Connected conn => [conn]
  | InTransaction conn => [conn]
  | _ => []
  end.

(** The connections threads hold. *)
Definition all_held (m : gmap Z PoolThread) : list Z := map_to_list m ≫= (fun ts => held ts.2).

Definition pool_inv (connections : list Z) (p : Pool) : Prop :=
  connectionPool_ p ++ all_held (pool_threads p) ≡ₚ connections.

Lemma all_held_insert m t s : m !! t = None -> all_held (<[t := s]> m) ≡ₚ held s ++ all_held m.
Proof. intros Hm. unfold all_held. by rewrite map_to_list_insert. Qed.

Lemma all_held_update m t s s' : m !! t = Some s ->
  held s ++ all_held (<[t := s']> m) ≡ₚ held s' ++ all_held m.
Proof.
  intros Hm. rewrite <- (insert_delete_id m t s Hm) at 2.
  rewrite <- insert_delete_eq. rewrite !all_held_insert by apply lookup_delete_eq.
  rewrite !app_assoc. f_equiv. apply Permutation_app_comm.
Qed.

(** A thread that changes what it holds, with the pool making up for it. *)
Lemma pool_inv_update connections p t s s' pool :
  pool_threads p !! t = Some s -> pool ++ held s' ≡ₚ connectionPool_ p ++ held s ->
  pool_inv connections p -> pool_inv connections (set_thread t s' pool p).
Proof.
  intros Ht Hpool Hinv. unfold pool_inv in *. cbn. pose proof (all_held_update _ _ _ s' Ht) as Hh.
  apply (Permutation_app_inv_l (held s)). rewrite <- Hinv.
  rewrite (Permutation_app_comm (held s)), <- app_assoc, (Permutation_app_comm _ (held s)), Hh.
  rewrite !app_assoc, Hpool. f_equiv. apply Permutation_app_comm.
Qed.

Lemma pool_step_inv connections p p' : pool_step p p' -> pool_inv connections p -> pool_inv connections p'.
Proof.
  intros Hstep Hinv. destruct Hstep as [t s conn pool Ht Hs Hc|t s Ht Hs Hc|t Ht|t conn Ht|t conn Ht|t conn Ht|t live w Ht Hw|t live Ht _|t conn Ht].
  - eapply pool_inv_update; eauto. unfold connection in Hc. destruct (connectionPool_ p); simplify_eq.
    destruct Hs as [-> | ->]; cbn; rewrite app_nil_r; symmetry; apply Permutation_cons_append.
  - eapply pool_inv_update; eauto. by destruct Hs as [-> | ->].
  - by eapply pool_inv_update.
  - by eapply pool_inv_update.
  - eapply pool_inv_update; eauto. cbn. by rewrite app_nil_r.
  - eapply pool_inv_update; eauto. cbn. by rewrite app_nil_r.
  - eapply (pool_inv_update _ _ _ (Notifying live)); [|by destruct live|].
    + cbn. rewrite lookup_insert_ne by congruence. done.
    + by eapply pool_inv_update.
  - eapply pool_inv_update; eauto. by destruct live.
  - by eapply pool_inv_update.
Qed.

(** ** No lost wake-ups *)

Definition tally (f : PoolThread -> Z) (m : gmap Z PoolThread) : Z :=
  sum_list_Z (fun ts => f ts.2) (map_to_list m).

Definition waiting (s : PoolThread) : Z :=
  match s with
  | Waiting => 1
  | _ => 0
  end.
Definition waking (s : PoolThread) : Z :=
  match s with
  | Woken => 1
  | Notifying _ => 1
  | _ => 0
  end.

(** While a thread waits, every connection in the queue has a thread on its way. *)
Definition wake_inv (p : Pool) : Prop :=
  0 < tally waiting (pool_threads p) ->
  Z.of_nat (length (connectionPool_ p)) <= tally waking (pool_threads p).

Lemma tally_insert f m t s : m !! t = None -> tally f (<[t := s]> m) = f s + tally f m.
Proof. intros Hm. unfold tally. by rewrite map_to_list_insert. Qed.

Lemma tally_update f m t s s' : m !! t = Some s -> tally f (<[t := s']> m) = tally f m - f s + f s'.
Proof.
  intros Hm. rewrite <- (insert_delete_id m t s Hm) at 2. rewrite <- insert_delete_eq.
  rewrite !tally_insert by apply lookup_delete_eq. lia.
Qed.

Lemma tally_nonneg f m : (forall s, 0 <= f s) -> 0 <= tally f m.
Proof. intros Hf. apply sum_list_Z_nonneg. intros ts _. apply Hf. Qed.

Lemma tally_pos f m t s : (forall s, 0 <= f s) -> m !! t = Some s -> 0 < f s -> 0 < tally f m.
Proof.
  intros Hf Hm Hs. rewrite <- (insert_delete_id m t s Hm). rewrite tally_insert by apply lookup_delete_eq.
  pose proof (tally_nonneg f (delete t m) Hf). lia.
Qed.

Lemma tally_pos_inv f m : 0 < tally f m -> exists t s, m !! t = Some s /\ 0 < f s.
Proof.
  induction m as [|t s m Hm IH] using map_ind; [done|]. rewrite tally_insert by done. intros Hpos.
  destruct (decide (0 < f s)) as [Hs|Hs]; [exists t, s; by rewrite lookup_insert_eq|].
  destruct IH as (t' & s' & Ht' & Hs'); [lia|]. exists t', s'.
  split; [|done]. rewrite lookup_insert_ne; [done|]. intros ->. congruence.
Qed.

Lemma waiting_nonneg s : 0 <= waiting s.
Proof. destruct s; cbn; lia. Qed.

Lemma waking_nonneg s : 0 <= waking s.
Proof. destruct s; cbn; lia. Qed.

Lemma wake_inv_update p t s s' pool : pool_threads p !! t = Some s ->
  (0 < tally waiting (pool_threads p) - waiting s + waiting s' ->
   Z.of_nat (length pool) <= tally waking (pool_threads p) - waking s + waking s') ->
  wake_inv (set_thread t s' pool p).
Proof. intros Ht Hlen. unfold wake_inv. cbn. by rewrite !(tally_update _ _ t s) by done. Qed.

Lemma nobody_waits m : (forall t, m !! t <> Some Waiting) -> ~ 0 < tally waiting m.
Proof.
  intros Hnone Hpos. apply tally_pos_inv in Hpos as (t & s & Ht & Hs).
  destruct s; cbn in Hs; try lia. by destruct (Hnone t).
Qed.

Lemma pool_step_wake_inv p p' : pool_step p p' -> wake_inv p -> wake_inv p'.
Proof.
  intros Hstep Hinv. pose proof (tally_nonneg waking (pool_threads p) waking_nonneg).
  assert (forall t, pool_threads p !! t = Some Woken -> 0 < tally waking (pool_threads p)) as Hwoken
    by (intros t Ht; apply (tally_pos _ _ _ _ waking_nonneg Ht); cbn; lia).
  destruct Hstep as [t s conn pool Ht Hs Hc|t s Ht Hs Hc|t Ht|t conn Ht|t conn Ht|t conn Ht|t live w Ht Hw|t live Ht Hnone|t conn Ht].
  - eapply wake_inv_update; [done|]. unfold wake_inv, connection in *. destruct (connectionPool_ p); simplify_eq.
    destruct Hs as [-> | ->]; cbn in *; lia.
  - eapply wake_inv_update; [done|]. unfold connection in Hc. destruct (connectionPool_ p); [|done].
    destruct Hs as [-> | ->]; [|specialize (Hwoken t Ht)]; cbn in *; lia.
  - eapply wake_inv_update; [done|]. unfold wake_inv in Hinv. cbn. lia.
  - eapply wake_inv_update; [done|]. unfold wake_inv in Hinv. cbn. lia.
  - eapply wake_inv_update; [done|]. unfold wake_inv, ConnectionHandle_destroy, freeConnection in *.
    rewrite length_app. cbn. lia.
  - eapply wake_inv_update; [done|]. unfold wake_inv, ConnectionHandle_destroy, freeConnection in *.
    rewrite length_app. cbn. lia.
  - eapply (wake_inv_update _ _ (Notifying live)); [cbn; rewrite lookup_insert_ne by congruence; done|].
    unfold wake_inv in Hinv. cbn [pool_threads set_thread]. rewrite !(tally_update _ _ w Waiting) by done.
    destruct live; cbn; lia.
  - eapply wake_inv_update; [done|]. apply nobody_waits in Hnone. destruct live; cbn; lia.
  - eapply wake_inv_update; [done|]. unfold wake_inv in Hinv. cbn. lia.
Qed.

(** A waiting thread is never the only one: with connections to share, another
    thread holds one, was woken, or is about to wake one. *)
Lemma pool_progress connections p t :
  connections <> [] -> pool_inv connections p -> wake_inv p -> pool_threads p !! t = Some Waiting ->
  exists t' s, pool_threads p !! t' = Some s /\ (held s <> [] \/ s = Woken \/ exists live, s = Notifying live).
Proof.
  intros Hne Hinv Hwake Ht.
  assert (0 < tally waiting (pool_threads p)) as Hw by (eapply (tally_pos _ _ _ _ waiting_nonneg Ht); cbn; lia).
  destruct (connectionPool_ p) as [|conn pool] eqn:Hp.
  - destruct (all_held (pool_threads p)) as [|conn l] eqn:Hh.
    + unfold pool_inv in Hinv. rewrite Hp, Hh in Hinv. by apply Permutation_nil in Hinv.
    + assert (conn ∈ all_held (pool_threads p)) as Hin by (rewrite Hh; left).
      unfold all_held in Hin. apply list_elem_of_bind in Hin as ([t' s] & Hs & Hm).
      apply elem_of_map_to_list in Hm. exists t', s. split; [done|]. left. cbn in Hs. intros Hnil. rewrite Hnil in Hs. inversion Hs.
  - specialize (Hwake Hw). rewrite Hp in Hwake. cbn in Hwake.
    destruct (tally_pos_inv waking (pool_threads p)) as (t' & s & Ht' & Hs); [lia|].
    exists t', s. split; [done|]. right. destruct s; cbn in Hs; try lia; eauto.
Qed.

(** ** The start *)

Lemma pool_start_outside connections threads t s :
  pool_threads (pool_start connections threads) !! t = Some s -> s = Outside.
Proof.
  intros Ht%elem_of_list_to_map_2. apply list_elem_of_fmap in Ht as (t' & Heq & _). congruence.
Qed.

Lemma pool_start_inv connections threads : pool_inv connections (pool_start connections threads).
Proof.
  unfold pool_inv. assert (all_held (pool_threads (pool_start connections threads)) = []) as ->;
    [|cbn; by rewrite app_nil_r].
  destruct (all_held _) as [|conn l] eqn:Hh; [done|].
  assert (conn ∈ all_held (pool_threads (pool_start connections threads))) as Hin by (rewrite Hh; left).
  unfold all_held in Hin. apply list_elem_of_bind in Hin as ([t s] & Hs & Hm%elem_of_map_to_list).
  apply pool_start_outside in Hm. subst s. inversion Hs.
Qed.

Lemma pool_start_wake_inv connections threads : wake_inv (pool_start connections threads).
Proof.
  intros Hw. apply tally_pos_inv in Hw as (t & s & Ht & Hs). apply pool_start_outside in Ht. by subst s.
Qed.

Lemma pool_reachable_inv connections threads p :
  rtc pool_step (pool_start connections threads) p -> pool_inv connections p /\ wake_inv p.
Proof.
  intros Hr. revert p Hr. apply rtc_ind_r; [split; [apply pool_start_inv|apply pool_start_wake_inv]|].
  intros p p' _ Hs [Hi Hw]. split; [by eapply pool_step_inv|by eapply pool_step_wake_inv].
Qed.

(** Two different threads never hold the same connection. *)
Lemma pool_inv_exclusive connections p t t' s s' conn :
  NoDup connections -> pool_inv connections p ->
  pool_threads p !! t = Some s -> pool_threads p !! t' = Some s' ->
  conn ∈ held s -> conn ∈ held s' -> t = t'.
Proof.
  intros Hnd Hinv Ht Ht' Hs Hs'. destruct (decide (t = t')) as [|Hne]; [done|exfalso].
  unfold pool_inv in Hinv. rewrite <- Hinv in Hnd. apply NoDup_app in Hnd as (_ & _ & Hnd).
  rewrite <- (insert_delete_id _ t s Ht) in Hnd. rewrite all_held_insert in Hnd by apply lookup_delete_eq.
  apply NoDup_app in Hnd as (_ & Hdis & _). apply (Hdis conn Hs). unfold all_held.
  apply list_elem_of_bind. exists (t', s'). split; [done|]. apply elem_of_map_to_list.
  by rewrite lookup_delete_ne.
Qed.
