(* ===== verification/Threads.v ===== *)
(** * Background threads, start and stop
    (src/libs/concurrency/impl/background_thread.cpp, src/libs/task_registry/impl/task_registry.cpp,
     src/libs/server/impl/grpc_server.cpp, src/bin/main.cpp)

    The loop of a background thread as a step relation with a clock and a flag,
    which threads and objects a backend is made of, and how [main] waits for the
    signal to stop. *)

From S2P Require Import Prelude Std Slot State Assigner Db Storage Scheduler Process Allocator.
From S2P Require Import FailureDetector Text Config DistLock.

(** ** The background thread *)

(** Where [runner] is: at the outer test, past it, in [payload_], at the inner
    test, in [wait_until], returned. *)
Inductive RunnerPc : Type :=
  | LoopTest | BeforeStart | InPayload | SleepTest | InWait | Ended.

(** [r_starts] are the times the payload was started at, and [r_seen] how many they
    were when the thread was told to stop; they are kept for the proofs. *)
Record Runner : Type := mkRunner {
  r_pc : RunnerPc; r_start : Z; r_now : Z; isStopped : bool; r_starts : list Z; r_seen : nat }.

Definition runner_new (now : Z) : Runner := mkRunner LoopTest 0 now false [] 0.

Definition goto (pc : RunnerPc) (r : Runner) : Runner :=
  mkRunner pc (r_start r) (r_now r) (isStopped r) (r_starts r) (r_seen r).

(** The next step of [runner] itself; [None] when it has returned.  The inner
    test reads the flag first, then the clock. *)
Definition runner_next (sleepDuration : Z) (r : Runner) : option Runner :=
  match r_pc r with
  | LoopTest => Some (goto (if isStopped r then Ended else BeforeStart) r)
  | BeforeStart =>
    Some (mkRunner InPayload (r_now r) (r_now r) (isStopped r) (r_starts r ++ [r_now r]) (r_seen r))
  | InPayload => Some (goto SleepTest r)
  | SleepTest =>
    Some (goto (if negb (isStopped r) && (r_now r <? r_start r + sleepDuration) then InWait else LoopTest) r)
  | InWait => Some (goto SleepTest r)
  | Ended => None
  end.

(** A step of the thread (a wait may end at any time), the passing of time, and the
    destructor's [isStopped_.store(true)]. *)
Inductive runner_step (sleepDuration : Z) (r : Runner) : Runner -> Prop :=
  | runner_own r' : runner_next sleepDuration r = Some r' -> runner_step sleepDuration r r'
  | runner_tick d : 0 <= d ->
    runner_step sleepDuration r (mkRunner (r_pc r) (r_start r) (r_now r + d) (isStopped r) (r_starts r) (r_seen r))
  | runner_stop : isStopped r = false ->
    runner_step sleepDuration r (mkRunner (r_pc r) (r_start r) (r_now r) true (r_starts r) (length (r_starts r))).

(** ** What the thread guarantees *)

(** Each time is at least [d] after the one before it. *)
Fixpoint spaced (d : Z) (l : list Z) : Prop :=
  match l with
  | x :: (y :: _) as l' => x + d <= y /\ spaced d l'
  | _ => True
  end.

Lemma spaced_snoc d l x : spaced d l -> (forall y, last l = Some y -> y + d <= x) -> spaced d (l ++ [x]).
Proof.
  induction l as [|y [|z l] IH]; intros Hs Hx; [done|cbn; split; [by apply Hx|done]|].
  destruct Hs as [Hyz Hs]. split; [done|]. by apply IH.
Qed.

Record runner_inv (sleepDuration : Z) (r : Runner) : Prop := {
  inv_spaced : spaced sleepDuration (r_starts r);
  inv_start : match r_pc r with
              | InPayload => last (r_starts r) = Some (r_start r)
              | SleepTest => last (r_starts r) = Some (r_start r)
              | InWait => last (r_starts r) = Some (r_start r)
              | LoopTest => isStopped r = true \/ forall y, last (r_starts r) = Some y -> y + sleepDuration <= r_now r
              | BeforeStart => forall y, last (r_starts r) = Some y -> y + sleepDuration <= r_now r
              | Ended => True
              end;
  inv_after_stop : isStopped r = true ->
    length (r_starts r) = r_seen r \/ (length (r_starts r) = S (r_seen r) /\ r_pc r <> BeforeStart);
}.

Lemma runner_next_inv d r r' : runner_next d r = Some r' -> runner_inv d r -> runner_inv d r'.
Proof.
  intros Hnext [Hs Hp Ha]. unfold runner_next in Hnext. destruct r as [pc start now stopped starts seen]; cbn in *.
  destruct pc; cbn in *; simplify_eq; split; cbn; try done.
  - destruct stopped; [done|]. by destruct Hp.
  - intros ->. destruct (Ha eq_refl) as [?|[? ?]]; [by left|by right].
  - by apply spaced_snoc.
  - by rewrite last_snoc.
  - intros ->. rewrite length_app. cbn. destruct (Ha eq_refl) as [?|[? ?]]; [right; split; [lia|done]|done].
  - intros ->. destruct (Ha eq_refl) as [?|[? ?]]; [by left|by right].
  - destruct stopped; cbn; [by left|]. destruct (Z.ltb_spec now (start + d)); [done|]. right.
    intros y Hy. simplify_eq. lia.
  - intros ->. destruct (Ha eq_refl) as [?|[? ?]]; [by left|by right].
  - intros ->. destruct (Ha eq_refl) as [?|[? ?]]; [by left|by right].
Qed.

Lemma runner_step_inv d r r' : runner_step d r r' -> runner_inv d r -> runner_inv d r'.
Proof.
  intros [r1 Hnext|t Ht|Hst] Hinv; [by eapply runner_next_inv| |].
  - destruct Hinv as [Hs Hp Ha]. split; cbn; [done| |done].
    destruct (r_pc r); try done; [destruct Hp as [?|Hp]; [by left|right]|]; intros y Hy; specialize (Hp y Hy); lia.
  - destruct Hinv as [Hs Hp Ha]. split; cbn; [done| |by left].
    destruct (r_pc r); try done. by left.
Qed.

Lemma runner_new_inv d now : runner_inv d (runner_new now).
Proof. split; cbn; [done|by right|done]. Qed.

Lemma runner_reachable_inv d now r : rtc (runner_step d) (runner_new now) r -> runner_inv d r.
Proof.
  intros Hr. revert r Hr. apply rtc_ind_r; [apply runner_new_inv|]. intros r r' _ Hs Hi. by eapply runner_step_inv.
Qed.

(** ** The thread ends when told to *)

Definition rank (pc : RunnerPc) : nat :=
  match pc with
  | BeforeStart => 5 | InPayload => 4 | InWait => 3 | SleepTest => 2 | LoopTest => 1 | Ended => 0
  end.

Fixpoint run_runner (n : nat) (d : Z) (r : Runner) : Runner :=
  match n with
  | O => r
  | S n' => match runner_next d r with Some r' => run_runner n' d r' | None => r end
  end.

(** Once the thread is told to stop, each of its steps brings it closer to its end. *)
Lemma runner_next_rank d r r' :
  isStopped r = true -> runner_next d r = Some r' -> isStopped r' = true /\ (rank (r_pc r') < rank (r_pc r))%nat.
Proof.
  unfold runner_next. destruct r as [pc start now stopped starts seen]; cbn. intros -> Hn.
  destruct pc; cbn in *; simplify_eq; cbn; split; (done || lia).
Qed.

Lemma run_runner_ends d n : forall r, isStopped r = true -> (rank (r_pc r) <= n)%nat -> r_pc (run_runner n d r) = Ended.
Proof.
  induction n as [|n IH]; intros r Hst Hn; [by destruct (r_pc r) eqn:Hpc; cbn in Hn; try lia|].
  cbn. destruct (runner_next d r) as [r'|] eqn:Hnext.
  - apply runner_next_rank in Hnext as [Hst' Hlt]; [|done]. apply IH; [done|lia].
  - unfold runner_next in Hnext. by destruct (r_pc r) eqn:Hpc.
Qed.

(** ** The backend *)

(** What a background thread calls. *)
Inductive Payload : Type := AllocatorAllocate | AllocatorTerminate | DetectorMonitor | SchedulerSchedule.

(** The threads the constructor of [TaskRegistry] starts, with their intervals. *)
Definition registry_threads (config : RegistryConfig) : list (Payload * Z) :=
  (if decide (mode config = FullScheduler \/ mode config = SchedulerService) then
     [(AllocatorAllocate, allocationInterval config); (AllocatorTerminate, allocationInterval config);
      (DetectorMonitor, detectFailuresInterval config)]
   else [])
  ++ (if decide (mode config = FullScheduler \/ mode config = CoreScheduler) then
        [(SchedulerSchedule, scheduleInterval config)]
      else []).

Definition wants_dist_lock (config : RegistryConfig) : bool :=
  useZkDistLock config
  && (bool_decide (mode config = FullScheduler) || bool_decide (mode config = CoreScheduler)).

(** The constructor of [Scheduler]: the configuration, the checks; starting the lock is [lock_start]. *)
Definition Scheduler_new (getenv : string -> option string) (possibleSlots : list SlotCapacity) : Exec SchedulerConfig :=
  config ← createSchedulerConfig getenv;
  if bool_decide (possibleSlots = []) then Throws "Possible slots array is empty"
  else if negb (is_sorted possibleSlots) then Throws "Possible slots array is not sorted"
  else mret config.

(** The constructor of [GrpcServer]; [listens] tells on which addresses a server can be started. *)
Definition GrpcServer_new (listens : string -> bool) (config : ServerConfig) : Exec ServerConfig :=
  if listens (server_address config) then mret config
  else Throws ("Failed to start gRPC server on " +:+ server_address config).

Record TaskRegistry : Type := mkTaskRegistry {
  tr_id : string; tr_distLock : option ZkConfig; tr_scheduler : SchedulerConfig; tr_allocator : AllocatorConfig;
  tr_failureDetector : FailureDetectorConfig; tr_server : ServerConfig; tr_threads : list (Payload * Z) }.

Definition TaskRegistry_new (getenv : string -> option string) (listens : string -> bool)
    (config : RegistryConfig) (possibleSlots : list SlotCapacity) : Exec TaskRegistry :=
  distLock ← createDistLock getenv (wants_dist_lock config);
  scheduler ← Scheduler_new getenv possibleSlots;
  allocator ← createAllocatorConfig getenv;
  failureDetector ← createFailureDetectorConfig getenv;
  server ← GrpcServer_new listens (createServerConfig getenv);
  mret (mkTaskRegistry "1234" distLock scheduler allocator failureDetector server (registry_threads config)).

(** ** Destruction *)

(** The members of [TaskRegistry] in the order of their declaration; they are
    destroyed in the opposite order. *)
Inductive Member : Type :=
  | IdM | TaskStorageM | SchedulerM | AllocatorM | FailureDetectorM | GrpcServerM
  | AllocationThreadM | TerminationThreadM | SchedulingThreadM | MonitorThreadM.

#[export] Instance Member_eq_dec : EqDecision Member.
Proof. solve_decision. Defined.

Definition registry_members : list Member :=
  [IdM; TaskStorageM; SchedulerM; AllocatorM; FailureDetectorM; GrpcServerM;
   AllocationThreadM; TerminationThreadM; SchedulingThreadM; MonitorThreadM].

Definition destruction : list Member := reverse registry_members.

(** The members a member uses: the payloads of the threads, the pointers of the others. *)
Definition uses (m : Member) : list Member :=
  match m with
  | AllocationThreadM | TerminationThreadM => [AllocatorM]
  | SchedulingThreadM => [SchedulerM]
  | MonitorThreadM => [FailureDetectorM]
  | GrpcServerM | SchedulerM => [TaskStorageM]
  | AllocatorM => [TaskStorageM]
  | FailureDetectorM => [TaskStorageM; AllocatorM]
  | IdM | TaskStorageM => []
  end.

(** ** Stopping the program *)

(** [main] is at the test of its loop, in [isStopped.wait], past the loop, or was
    ended by [std::exit]. *)
Inductive MainPc : Type := MainTest | MainWait | MainShutdown | MainExit.

Record MainState : Type := mkMain { main_pc : MainPc; isStopping : bool }.

(** The handler of SIGINT. *)
Definition sigterm (s : MainState) : MainState :=
  if isStopping s then mkMain MainExit true else mkMain (main_pc s) true.

Definition main_test (s : MainState) : MainState :=
  mkMain (if isStopping s then MainShutdown else MainWait) (isStopping s).

(** Nobody calls [isStopped.notify_one]: a wait ends only spuriously. *)
Inductive main_step (spurious : bool) (s : MainState) : MainState -> Prop :=
  | main_tests : main_pc s = MainTest -> main_step spurious s (main_test s)
  | main_wakes : spurious = true -> main_pc s = MainWait -> main_step spurious s (mkMain MainTest (isStopping s))
  | main_signal : main_pc s = MainTest \/ main_pc s = MainWait -> main_step spurious s (sigterm s).

Lemma main_waits_inv s s' :
  main_step false s s' -> main_pc s = MainWait \/ main_pc s = MainExit ->
  main_pc s' = MainWait \/ main_pc s' = MainExit.
Proof.
  intros [Hpc|? |Hpc] [Hs|Hs]; rewrite ?Hs in *; try done; try (destruct Hpc; done).
  unfold sigterm. destruct (isStopping s); cbn; auto.
Qed.
