(* ===== verification/Accounting.v ===== *)
(** * Capacity accounting

    What the jobs of a VM hold of its capacity, and the relation between the
    database before and after that every storage call but the commit of a plan
    respects: on no VM does the idle capacity plus what its jobs hold grow. *)

From S2P Require Import Prelude Std Slot State Db TxLogic Storage StorageFacts Lifecycle StorageRefines ReportFacts.

(** ** Sums over tables *)

Definition table_sum {R} (w : Z -> R -> Z) (t : gmap Z R) : Z :=
  sum_list_Z (fun ir => w ir.1 ir.2) (map_to_list t).

Section table_sums.
Context {R : Type}.
Implicit Types (w : Z -> R -> Z) (t : gmap Z R).

Lemma table_sum_empty w : table_sum w (∅ : gmap Z R) = 0.
Proof. unfold table_sum. by rewrite map_to_list_empty. Qed.

Lemma table_sum_insert w t i r :
  t !! i = None -> table_sum w (<[i := r]> t) = w i r + table_sum w t.
Proof. intros Hi. unfold table_sum. by rewrite map_to_list_insert. Qed.

Lemma table_sum_nonneg w t : (forall i r, t !! i = Some r -> 0 <= w i r) -> 0 <= table_sum w t.
Proof. intros Hw. apply sum_list_Z_nonneg. intros [i r] Hir. by apply Hw, elem_of_map_to_list. Qed.

Lemma table_sum_add w1 w2 t :
  table_sum (fun i r => w1 i r + w2 i r) t = table_sum w1 t + table_sum w2 t.
Proof.
  induction t as [|i r t Hi IH] using map_ind; [by rewrite !table_sum_empty|].
  rewrite !table_sum_insert by done. lia.
Qed.

(** Comparing two tables with the same keys row by row. *)
Lemma table_sum_le w w' t t' :
  (forall i, match t !! i, t' !! i with
             | Some r, Some r' => w' i r' <= w i r
             | None, None => True
             | _, _ => False
             end) ->
  table_sum w' t' <= table_sum w t.
Proof.
  revert t'. induction t as [|i r t Hi IH] using map_ind; intros t' Hle.
  - assert (t' = ∅) as ->; [|by rewrite !table_sum_empty].
    apply map_empty. intros i. specialize (Hle i). rewrite lookup_empty in Hle. by destruct (t' !! i).
  - pose proof (Hle i) as Hr. rewrite lookup_insert_eq in Hr. destruct (t' !! i) as [r'|] eqn:Hi'; [|done].
    rewrite <- (insert_delete_id t' i r') by done.
    rewrite !table_sum_insert by (done || apply lookup_delete_eq).
    enough (table_sum w' (delete i t') <= table_sum w t) by lia. apply IH. intros k.
    destruct (decide (k = i)) as [->|Hne]; [by rewrite Hi, lookup_delete_eq|].
    rewrite lookup_delete_ne by done. specialize (Hle k). by rewrite lookup_insert_ne in Hle.
Qed.

Lemma table_sum_filter w (P : Z * R -> Prop) `{!forall x, Decision (P x)} t :
  table_sum w (filter P t) = table_sum (fun i r => if decide (P (i, r)) then w i r else 0) t.
Proof.
  induction t as [|i r t Hi IH] using map_ind; [by rewrite map_filter_empty, !table_sum_empty|].
  rewrite (table_sum_insert _ t) by done. case_decide as HP.
  - rewrite map_filter_insert_True by done. rewrite table_sum_insert, IH; [done|].
    by rewrite map_lookup_filter, Hi.
  - by rewrite map_filter_insert_False, delete_id, IH.
Qed.
End table_sums.

(** ** What jobs hold *)

Inductive Resource : Type := Cores | Memory.

Definition job_amount (d : Resource) (r : JobRow) : Z :=
  match d with Cores => j_cpu r | Memory => j_ram r end.
Definition vm_size (d : Resource) (r : VmRow) : Z :=
  match d with Cores => v_cpu r | Memory => v_ram r end.
Definition vm_spare (d : Resource) (r : VmRow) : Z :=
  match d with Cores => v_cpu_idle r | Memory => v_ram_idle r end.
Definition slot_amount (d : Resource) (s : SlotCapacity) : Z :=
  match d with Cores => cpu s | Memory => ram s end.

(** A job holds its requirement while it is open, and while it is being cancelled
    until its agent has reported its end; [gone] are the jobs whose end was reported. *)
Definition holding (gone : gset Z) (i : JobId) (r : JobRow) : bool :=
  negb (job_final (j_status r))
  || (bool_decide (j_status r = Cancelling) && negb (bool_decide (i ∈ gone))).

Definition held (d : Resource) (gone : gset Z) (v : VmId) (i : JobId) (r : JobRow) : Z :=
  if bool_decide (j_vm_id r = Some v) && holding gone i r then job_amount d r else 0.

Definition load (d : Resource) (gone : gset Z) (v : VmId) (db : Db) : Z :=
  table_sum (held d gone v) (db_jobs db).

Lemma holding_mono gone gone' i r :
  gone ⊆ gone' -> holding gone' i r = true -> holding gone i r = true.
Proof.
  intros Hsub. unfold holding. rewrite !orb_true_iff, !andb_true_iff, !negb_true_iff, !bool_decide_eq_false.
  set_solver.
Qed.

(** Idle capacity and what is held never exceed the size, on the VMs in scope. *)
Definition accounted_on (scope : VmRow -> bool) (gone : gset Z) (db : Db) : Prop :=
  forall v r d, db_vms db !! v = Some r -> scope r = true -> vm_spare d r + load d gone v db <= vm_size d r.

Definition all_vms (r : VmRow) : bool := true.

Definition accounted : gset Z -> Db -> Prop := accounted_on all_vms.

(** No VM comes into scope. *)
Definition scope_kept (scope : VmRow -> bool) (a b : Db) : Prop :=
  forall v r', db_vms b !! v = Some r' -> scope r' = true ->
    exists r, db_vms a !! v = Some r /\ scope r = true.

Definition jobs_nonneg (db : Db) : Prop :=
  forall i r d, db_jobs db !! i = Some r -> 0 <= job_amount d r.

Lemma wf_jobs_nonneg db : db_wf db -> jobs_nonneg db.
Proof.
  intros Hwf i r d Hr. destruct (jr_req _ _ _ (wf_jobs _ Hwf i r Hr)). destruct d; cbn in *; lia.
Qed.

Lemma held_nonneg d gone v i r : 0 <= job_amount d r -> 0 <= held d gone v i r.
Proof. intros. unfold held. case_bool; lia. Qed.

Lemma held_le d gone v i r : 0 <= job_amount d r -> held d gone v i r <= job_amount d r.
Proof. intros. unfold held. case_bool; lia. Qed.

Lemma load_nonneg d gone v db : jobs_nonneg db -> 0 <= load d gone v db.
Proof. intros Hnn. apply table_sum_nonneg. intros i r Hr. by apply held_nonneg, (Hnn i). Qed.

(** What the jobs require that the agent of a VM is told to run and has not ended. *)
Definition assigned_amount (d : Resource) (gone : gset Z) (v : VmId) (db : Db) : Z :=
  table_sum (fun i r => if assigned_to v r && negb (bool_decide (i ∈ gone)) then job_amount d r else 0)
    (db_jobs db).

Lemma assigned_holding gone v i r :
  assigned_to v r = true -> i ∉ gone -> j_vm_id r = Some v /\ holding gone i r = true.
Proof.
  unfold assigned_to, holding. rewrite andb_true_iff, !bool_decide_eq_true. intros [Hv Hs] Hi. split; [done|].
  rewrite (bool_decide_eq_false_2 (i ∈ gone)) by done. unfold getAssignedJobStatuses in Hs.
  destruct (j_status r); try done; exfalso; set_solver.
Qed.

Lemma assigned_amount_load d gone v db : jobs_nonneg db -> assigned_amount d gone v db <= load d gone v db.
Proof.
  intros Hnn. apply table_sum_le. intros i. destruct (db_jobs db !! i) as [r|] eqn:Hr; [|done].
  pose proof (Hnn i r d Hr). destruct (assigned_to v r && negb _) eqn:Ha; [|by apply held_nonneg].
  rewrite andb_true_iff, negb_true_iff, bool_decide_eq_false in Ha. destruct Ha as [Ha Hi].
  destruct (assigned_holding gone v i r Ha Hi) as [Hv Hh]. unfold held.
  rewrite Hh, bool_decide_eq_true_2 by done. done.
Qed.

(** ** Relief *)

(** The VMs are the same, of the same sizes; on none of them grows what jobs hold,
    nor that plus the idle capacity.  Plans keep their rows. *)
Definition vm_relief (gone gone' : gset Z) (a b : Db) (v : VmId) : Prop :=
  match db_vms a !! v, db_vms b !! v with
  | Some r, Some r' => forall d, vm_size d r' = vm_size d r
      /\ vm_spare d r' + load d gone' v b <= vm_spare d r + load d gone v a
  | None, None => True
  | _, _ => False
  end.

Record relieved (gone gone' : gset Z) (a b : Db) : Prop := {
  rel_nonneg : jobs_nonneg b;
  rel_vms : forall v, vm_relief gone gone' a b v;
  rel_load : forall v d, load d gone' v b <= load d gone v a;
  rel_plans : db_plans a ⊆ db_plans b;
}.

Definition relief (gone gone' : gset Z) (a b : Db) : Prop := jobs_nonneg a -> relieved gone gone' a b.

Lemma relief_accounted scope gone gone' a b :
  jobs_nonneg a -> relief gone gone' a b -> scope_kept scope a b ->
  accounted_on scope gone a -> accounted_on scope gone' b.
Proof.
  intros Hnn Hrel Hscope Hacc v r' d Hr' Hs. destruct (Hrel Hnn) as [_ Hv _ _]. specialize (Hv v).
  unfold vm_relief in Hv. rewrite Hr' in Hv. destruct (Hscope v r' Hr' Hs) as (r & Hr & Hsr). rewrite Hr in Hv.
  destruct (Hv d) as [-> Hle]. specialize (Hacc v r d Hr Hsr). lia.
Qed.

(** Relief adds no VM. *)
Lemma relief_all_vms gone gone' a b : jobs_nonneg a -> relief gone gone' a b -> scope_kept all_vms a b.
Proof.
  intros Hnn Hrel v r' Hr' _. destruct (Hrel Hnn) as [_ Hv _ _]. specialize (Hv v).
  unfold vm_relief in Hv. rewrite Hr' in Hv. destruct (db_vms a !! v) as [r|]; [eauto|done].
Qed.

#[export] Instance relief_preorder gone : PreOrder (relief gone gone).
Proof.
  split.
  - intros a Hnn. split; [done| |done..]. intros v. unfold vm_relief. by destruct (db_vms a !! v).
  - intros a b c Hab Hbc Hnn. destruct (Hab Hnn) as [Nb Vb Lb Pb]. destruct (Hbc Nb) as [Nc Vc Lc Pc].
    split; [done| | |by etrans].
    + intros v. specialize (Vb v). specialize (Vc v). unfold vm_relief in *.
      destruct (db_vms a !! v), (db_vms b !! v), (db_vms c !! v); try done.
      intros d. destruct (Vb d) as [E1 ?], (Vc d) as [E2 ?]. split; [congruence|lia].
    + intros v d. specialize (Lb v d). specialize (Lc v d). lia.
Qed.

(** Only the rows of VMs and jobs matter. *)
Lemma relief_same gone a b :
  db_vms b = db_vms a -> db_jobs b = db_jobs a -> db_plans a ⊆ db_plans b -> relief gone gone a b.
Proof.
  intros Ev Ej Hp Hnn. split; [| | |done].
  - intros i r d. rewrite Ej. apply Hnn.
  - intros v. unfold vm_relief, load. rewrite Ev, Ej. by destruct (db_vms a !! v).
  - intros v d. unfold load. by rewrite Ej.
Qed.

#[export] Instance relief_order gone : TxOrder (relief gone gone).
Proof. split; [apply _|]. intros a b _. by apply relief_same. Qed.

(** ** Statements *)

(** The size and the idle capacity of a row. *)
Definition same_capacity (r r' : VmRow) : Prop :=
  forall d, vm_size d r' = vm_size d r /\ vm_spare d r' = vm_spare d r.

Lemma status_trigger_capacity now r r' : same_capacity r r' -> same_capacity r (status_trigger now r r').
Proof. unfold status_trigger. case_decide; [done|]. intros Hs d. specialize (Hs d). by destruct d. Qed.

Lemma update_vms_relief gone now w f db :
  (forall i r, same_capacity r (f i r)) -> relief gone gone db (update_vms now w f db).
Proof.
  intros Hf Hnn. split; [done| |done..]. intros v. unfold vm_relief. rewrite update_vms_lookup.
  destruct (db_vms db !! v) as [r|]; [|done]. cbn. intros d. change (load d gone v (update_vms now w f db))
    with (load d gone v db). destruct (w v r); [|done].
  destruct (status_trigger_capacity now r (f v r) (Hf v r) d) as [-> ->]. done.
Qed.

(** A job whose row is edited stays where it is and requires what it did. *)
Record job_stays (gone gone' : gset Z) (i : JobId) (r r' : JobRow) : Prop := {
  stays_amount : forall d, job_amount d r' = job_amount d r;
  stays_vm : j_vm_id r' = j_vm_id r;
  stays_holding : holding gone' i r' = true -> holding gone i r = true;
}.

Lemma job_stays_held gone gone' i r r' v d :
  0 <= job_amount d r -> job_stays gone gone' i r r' -> held d gone' v i r' <= held d gone v i r.
Proof.
  intros Hnn [Ha Hv Hh]. unfold held. rewrite Ha, Hv. destruct (bool_decide _); [cbn|done].
  destruct (holding gone' i r'); [by rewrite Hh|]. case_bool; lia.
Qed.

Lemma update_jobs_relief gone w f db :
  (forall i r, w i r = true -> db_jobs db !! i = Some r -> job_stays gone gone i r (f i r)) ->
  relief gone gone db (update_jobs w f db).
Proof.
  intros Hf Hnn.
  assert (forall v d, load d gone v (update_jobs w f db) <= load d gone v db) as Hload.
  { intros v d. apply table_sum_le. intros i. rewrite update_jobs_lookup.
    destruct (db_jobs db !! i) as [r|] eqn:Hr; [|done]. cbn. destruct (w i r) eqn:Hw; [|done].
    apply job_stays_held; [by apply (Hnn i)|by apply Hf]. }
  split; [| |done..].
  - intros i r' d Hr'. rewrite update_jobs_lookup in Hr'. apply fmap_Some in Hr' as (r & Hr & ->).
    destruct (w i r) eqn:Hw; [|by apply (Hnn i)]. rewrite (stays_amount _ _ _ _ _ (Hf i r Hw Hr)).
    by apply (Hnn i).
  - intros v. unfold vm_relief. change (db_vms (update_jobs w f db)) with (db_vms db).
    destruct (db_vms db !! v); [|done]. intros d. split; [done|]. specialize (Hload v d). lia.
Qed.

(** A new job is on no VM. *)
Lemma new_job_relief gone now t p o db :
  0 <= cpu (tp_requiredCapacity p) -> 0 <= ram (tp_requiredCapacity p) ->
  db_jobs db !! seq_jobs db = None ->
  relief gone gone db (mkDb (db_vms db) (db_tasks db) (<[seq_jobs db := new_job now t p o]> (db_jobs db))
    (db_plans db) (db_locks db) (seq_vms db) (seq_tasks db) (seq_jobs db + 1) (seq_plans db)).
Proof.
  intros Hc Hm Hnew Hnn.
  set (db' := mkDb _ _ _ _ _ _ _ _ _).
  assert (forall v d, load d gone v db' = load d gone v db) as Hload.
  { intros v d. unfold load. cbn. by rewrite table_sum_insert. }
  split; [| | |done].
  - intros i r d Hr. cbn in Hr. apply lookup_insert_Some in Hr as [[<- <-]|[_ Hr]];
      [by destruct d|by apply (Hnn i)].
  - intros v. unfold vm_relief. change (db_vms db') with (db_vms db).
    destruct (db_vms db !! v); [|done]. intros d. by rewrite Hload.
  - intros v d. by rewrite Hload.
Qed.

Section statements.
Context `{Postgres} (gone : gset Z).

Local Ltac capacity := intros ? ? []; done.

Lemma move_vms_relief from to limit : query_keeps (relief gone gone) (move_vms from to limit).
Proof.
  intros env db a db'. unfold move_vms. case_bool; [|done]. intros [= _ <-].
  apply update_vms_relief. capacity.
Qed.

Lemma set_status_relief vmIds s : query_keeps (relief gone gone) (set_status_query vmIds s).
Proof.
  intros env db a db' Hq. destruct vmIds; [done|]. injection Hq as _ <-. apply update_vms_relief. capacity.
Qed.

Lemma save_allocation_relief id info : query_keeps (relief gone gone) (save_allocation_query id info).
Proof.
  intros env db x db'. unfold save_allocation_query. case_bool; [|done]. intros [= _ <-].
  apply update_vms_relief. capacity.
Qed.

Lemma restart_vms_relief c n : query_keeps (relief gone gone) (restart_vms_query c n).
Proof.
  intros env db x db'. unfold restart_vms_query. case_bool; [|done]. intros [= _ <-].
  apply update_vms_relief. capacity.
Qed.

Lemma terminate_relief c from to n : query_keeps (relief gone gone) (terminate_query c from to n).
Proof.
  intros env db a db'. unfold terminate_query. case_bool; [|done]. intros [= _ <-].
  apply update_vms_relief. capacity.
Qed.

Lemma inactive_relief limit : query_keeps (relief gone gone) (inactive_query limit).
Proof.
  intros env db x db'. unfold inactive_query. case_bool; [|done]. intros [= _ <-].
  apply update_vms_relief. capacity.
Qed.

(** A job that goes back to the queue keeps what it held on the VM it was on. *)
Lemma requeue_relief vmIds s n : s = Scheduled \/ s = Running ->
  query_keeps (relief gone gone) (requeue_query vmIds s n).
Proof.
  intros Hs env db a db'. unfold requeue_query. case_bool; [|done]. intros [= _ <-].
  apply update_jobs_relief. intros i r Hw _. split_bools. split; [by intros []|done|].
  intros _. unfold holding. by destruct Hs as [-> | ->], (j_status r).
Qed.

Lemma fail_relief vmIds s n : s = Scheduled \/ s = Running ->
  query_keeps (relief gone gone) (fail_query vmIds s n).
Proof.
  intros Hs env db a db' [= _ <-]. apply update_jobs_relief. intros i r Hw _. split_bools.
  split; [by intros []|done|]. done.
Qed.

Lemma restartJobs_relief vmIds s n : s = Scheduled \/ s = Running ->
  keeps (relief gone gone) (restartJobs vmIds s n).
Proof. intros Hs. unfold restartJobs. repeat keeps_step; auto using requeue_relief, fail_relief. Qed.

Lemma execWritableQuery_relief {A} (q : Env -> Db -> option (A * Db)) :
  query_keeps (relief gone gone) q -> keeps (relief gone gone) (execWritableQuery_ q).
Proof. intros Hq. unfold execWritableQuery_. by repeat keeps_step. Qed.

Lemma terminateVms_relief c from to n m : keeps (relief gone gone) (terminateVms_ c from to n m).
Proof.
  unfold terminateVms_. repeat keeps_step; [apply terminate_relief|]. apply restartJobs_relief. auto.
Qed.

Lemma insert_jobs_relief now t p options db ids db' :
  0 <= cpu (tp_requiredCapacity p) -> 0 <= ram (tp_requiredCapacity p) ->
  insert_jobs now t p options db = Some (ids, db') -> (relief gone gone) db db'.
Proof.
  intros Hc Hm. revert db ids db'. induction options as [|o options IH]; cbn; intros db ids db'.
  { intros [= _ <-]. reflexivity. }
  destruct (jsonb_in o) as [o'|]; [cbn|done]. case_bool; [|done].
  destruct (insert_jobs _ _ _ _ _) as [[ids' db1]|] eqn:Hi; [cbn|done]. intros [= _ <-].
  apply new_key_spec in Heqb as [_ Hnew]. etrans; [by apply (new_job_relief gone now t p o')|]. by apply IH in Hi.
Qed.

Lemma addTask_relief p : keeps (relief gone gone) (addTask_txn p).
Proof.
  unfold addTask_txn. repeat keeps_step.
  - intros env db t db'. unfold insert_task. destruct (jsonb_in _); [cbn|done]. case_bool; [|done].
    intros [= _ <-]. by apply relief_same.
  - intros env db ids db'. unfold insert_jobs_query. destruct (tp_jobOptions p); [done|].
    case_bool; [|done]. split_bools. apply insert_jobs_relief.
    + by apply int4_spec.
    + by apply int4_spec.
Qed.

Lemma acquireLock_relief : keeps (relief gone gone) acquireLock_.
Proof. unfold acquireLock_. repeat keeps_step. intros env db x db' [= _ <-]. reflexivity. Qed.

Lemma startScheduling_relief b i l : keeps (relief gone gone) (startScheduling_txn b i l).
Proof.
  unfold startScheduling_txn, checkLeader_, planWasRecentlyUpdated_, insertNewPlanRecord_.
  apply respects_and_then; [apply acquireLock_relief|]. intros _. repeat keeps_step.
  - intros env db x db'. case_bool; [|done]. intros [= _ <-]. by apply relief_same.
  - intros env db x db'. unfold insert_plan. case_bool; [|done]. intros [= _ <-].
    match goal with K : new_key _ _ = true |- _ => apply new_key_spec in K as [_ ?] end.
    apply relief_same; [done..|]. by apply insert_subseteq.
Qed.

Lemma getAssignedJobs_relief v : keeps (relief gone gone) (getAssignedJobs_txn v).
Proof.
  unfold getAssignedJobs_txn. repeat keeps_step; intros env db x db' [= _ <-]; apply update_vms_relief; capacity.
Qed.
End statements.

(** ** Releasing *)

Definition freed_at (d : Resource) (jobIds : list JobId) (v : VmId) (i : JobId) (r : JobRow) : Z :=
  if decide (i ∈ jobIds /\ j_vm_id r = Some v) then job_amount d r else 0.

Lemma freed_sum d jobIds jobs v :
  freed (job_amount d) jobIds jobs v = table_sum (freed_at d jobIds v) jobs.
Proof.
  unfold freed. change (sum_list_Z (fun ir => job_amount d ir.2)
    (map_to_list (filter (fun ir => ir.1 ∈ jobIds /\ j_vm_id ir.2 = Some v) jobs)))
    with (table_sum (fun _ => job_amount d) (filter (fun ir => ir.1 ∈ jobIds /\ j_vm_id ir.2 = Some v) jobs)).
  by rewrite table_sum_filter.
Qed.

Lemma freed_at_nonneg d jobIds v i r : 0 <= job_amount d r -> 0 <= freed_at d jobIds v i r.
Proof. intros. unfold freed_at. case_decide; lia. Qed.

Lemma release_spare now jobIds db v r r' d :
  jobs_nonneg db -> db_vms db !! v = Some r -> db_vms (release now jobIds db) !! v = Some r' ->
  vm_size d r' = vm_size d r
  /\ vm_spare d r' <= vm_spare d r + table_sum (freed_at d jobIds v) (db_jobs db).
Proof.
  intros Hnn Hr. unfold release. rewrite update_vms_lookup, Hr. cbn. intros [= <-].
  assert (0 <= table_sum (freed_at d jobIds v) (db_jobs db)).
  { apply table_sum_nonneg. intros i j Hj. by apply freed_at_nonneg, (Hnn i). }
  case_bool; [|split; [done|lia]]. rewrite status_trigger_same by done.
  destruct d; cbn [vm_size vm_spare set_v_idle v_cpu v_ram v_cpu_idle v_ram_idle]; (split; [done|]).
  - rewrite (freed_sum Cores). lia.
  - rewrite (freed_sum Memory). lia.
Qed.

(** Releasing is no more than what the jobs gave up. *)
Lemma release_relieved gone gone' now jobIds a b :
  db_vms b = db_vms a -> db_plans b = db_plans a -> jobs_nonneg b ->
  (forall v d, load d gone' v b + table_sum (freed_at d jobIds v) (db_jobs b) <= load d gone v a) ->
  relieved gone gone' a (release now jobIds b).
Proof.
  intros Ev Ep Hnn Hle. split; [done| | |].
  - intros v. unfold vm_relief. rewrite <- Ev.
    destruct (db_vms b !! v) as [r|] eqn:Hr.
    + destruct (db_vms (release now jobIds b) !! v) as [r'|] eqn:Hr'.
      * intros d. destruct (release_spare _ _ _ _ _ _ d Hnn Hr Hr') as [-> Hs].
        split; [done|]. change (load d gone' v (release now jobIds b)) with (load d gone' v b).
        specialize (Hle v d). lia.
      * unfold release in Hr'. by rewrite update_vms_lookup, Hr in Hr'.
    + unfold release. by rewrite update_vms_lookup, Hr.
  - intros v d. change (load d gone' v (release now jobIds b)) with (load d gone' v b).
    specialize (Hle v d).
    assert (0 <= table_sum (freed_at d jobIds v) (db_jobs b)); [|lia].
    apply table_sum_nonneg. intros i j Hj. by apply freed_at_nonneg, (Hnn i).
  - cbn. by rewrite Ep.
Qed.

(** The same for an update of jobs, row by row. *)
Lemma update_release_relieved gone gone' now jobIds w f db :
  jobs_nonneg db ->
  (forall i r, w i r = true -> forall d, job_amount d (f i r) = job_amount d r) ->
  (forall i r v d, db_jobs db !! i = Some r -> let r' := if w i r then f i r else r in
     held d gone' v i r' + freed_at d jobIds v i r' <= held d gone v i r) ->
  relieved gone gone' db (release now jobIds (update_jobs w f db)).
Proof.
  intros Hnn Hamount Hle. apply release_relieved; [done|done| |].
  - intros i r' d Hr'. rewrite update_jobs_lookup in Hr'. apply fmap_Some in Hr' as (r & Hr & ->).
    destruct (w i r) eqn:Hw; [rewrite (Hamount i r Hw)|]; by apply (Hnn i).
  - intros v d. unfold load. rewrite <- table_sum_add. apply table_sum_le. intros i.
    rewrite update_jobs_lookup. destruct (db_jobs db !! i) as [r|] eqn:Hr; [|done]. cbn. by apply Hle.
Qed.

(** ** Cancelling and reporting *)

(** A transaction is judged by what it commits. *)
Lemma run_call_commits {A} (m : Tx (Result A)) env db (P : Db -> Prop) :
  (forall db', same_tables db db' -> P db') ->
  wp env m (fun _ st => tx_committed st = true -> P (tx_db st)) (tx_start db) ->
  P (call_db (run_call m env db)).
Proof.
  intros Hsame Hw. unfold wp in Hw. unfold run_call, final_db.
  destruct (m env (tx_start db)) as [[r|e|] st]; cbn in *;
    (destruct (tx_committed st); [by apply Hw|apply Hsame, rollback_same]).
Qed.

Lemma relieved_same gone gone' a b :
  jobs_nonneg a -> gone ⊆ gone' -> same_tables a b -> relieved gone gone' a b.
Proof.
  intros Hnn Hsub Hs. pose proof (same_jobs _ _ Hs) as Ej. pose proof (same_vms _ _ Hs) as Ev.
  assert (forall v d, load d gone' v b <= load d gone v a) as Hload.
  { intros v d. apply table_sum_le. intros i. rewrite <- Ej. destruct (db_jobs a !! i) as [r|] eqn:Hr; [|done].
    apply job_stays_held; [by apply (Hnn i)|]. split; [done..|]. by apply holding_mono. }
  split; [| |done|by rewrite (same_plans _ _ Hs)].
  - intros i r d. rewrite <- Ej. apply Hnn.
  - intros v. unfold vm_relief. rewrite <- Ev. destruct (db_vms a !! v); [|done].
    intros d. split; [done|]. specialize (Hload v d). lia.
Qed.

Section cancel.
Context `{Postgres} (gone : gset Z).

Definition cancelled_ids (result : list (Z * JobStatus)) : list JobId :=
  (filter (fun js => js.2 = Cancelled) result).*1.

Lemma cancelled_ids_elem c env db result db' i :
  cancel_query c env db = Some (result, db') -> i ∈ cancelled_ids result ->
  exists r, db_jobs db !! i = Some r /\ job_condition c (env_now env) r = true /\ j_status r = Queued.
Proof.
  unfold cancel_query. case_bool; [|done]. intros [= <- _] Hi. unfold cancelled_ids in Hi.
  apply list_elem_of_fmap in Hi as ([i' s] & -> & Hi). apply list_elem_of_filter in Hi as [Hs Hi].
  apply list_elem_of_fmap in Hi as ([k r] & [= -> ->] & Hi). apply sql_rows_elem in Hi as [Hr Hc].
  exists r. split; [done|]. split; [done|]. cbn in Hs. by case_decide.
Qed.

Lemma cancel_relieved c env db result db' :
  cancel_query c env db = Some (result, db') -> jobs_nonneg db ->
  relieved gone gone db (release (env_now env) (cancelled_ids result) db').
Proof.
  intros Hq Hnn.
  pose proof (fun i => cancelled_ids_elem c env db result db' i Hq) as Hids.
  revert Hq. unfold cancel_query. case_bool; [|done]. intros [= _ <-].
  apply update_release_relieved; [done|by intros ? ? _ []|].
  intros i r v d Hr. pose proof (Hnn i r d Hr) as Hpos.
  destruct (job_condition c (env_now env) r) eqn:Hc; cbn zeta.
  - assert (job_final (j_status r) = false) as Hopen by (unfold job_condition in Hc; by split_bools).
    assert (held d gone v i r = if bool_decide (j_vm_id r = Some v) then job_amount d r else 0) as ->.
    { unfold held, holding. rewrite Hopen. cbn. by rewrite andb_true_r. }
    unfold cancel_row. destruct (decide (j_status r = Queued)) as [Hs|Hs].
    + assert (forall x, held d gone v i (set_j_status Cancelled x) = 0) as ->.
      { intros x. unfold held, holding. cbn. by rewrite andb_false_r. }
      unfold freed_at. cbn. case_decide as Hf; [|by case_bool; lia].
      rewrite bool_decide_eq_true_2 by apply Hf. by destruct d.
    + unfold freed_at. rewrite decide_False.
      { rewrite Z.add_0_r. unfold held. cbn. destruct (bool_decide _); [|done]. cbn.
        case_bool; destruct d; cbn in *; lia. }
      intros [Hi _]. destruct (Hids i Hi) as (r0 & Hr0 & _ & ?). congruence.
  - unfold freed_at. rewrite decide_False; [lia|].
    intros [Hi _]. destruct (Hids i Hi) as (r0 & Hr0 & ? & _). congruence.
Qed.

Lemma release_nil now db : release now [] db = db.
Proof.
  unfold release, update_vms. destruct db; unfold with_vms; cbn. f_equal.
  apply map_eq. intros i. rewrite sql_update_lookup. destruct (_ !! i); [|done]. cbn. f_equal.
  unfold has_job_of. rewrite bool_decide_eq_false_2; [done|]. intros Hne. apply Hne.
  apply map_empty. intros k. apply map_lookup_filter_None. right. set_solver.
Qed.

(** The end of a writing transaction. *)
Lemma wp_commit_end (P : Db -> Prop) env st :
  P (tx_db st) ->
  wp env (commit ;; mret (Success tt))
    (caught (fun _ => Failure PgException) (fun _ st' => tx_committed st' = true -> P (tx_db st'))) st.
Proof.
  intros HP. do 2 wp_step; cbn [chain caught]; [done|].
  apply wp_ret. by intros _.
Qed.

Lemma releaseVmResources_spec env ids st :
  wp env (releaseVmResources ids) (fun o st' => tx_committed st' = tx_committed st /\
    match o with
    | TxVal _ => tx_db st' = release (env_now env) ids (tx_db st)
    | TxThrow _ => True
    | TxTerminate => False
    end) st.
Proof.
  unfold releaseVmResources. destruct ids as [|i ids]; [apply wp_ret; by rewrite release_nil|].
  wp_step; [done|]. split; [done|]. match goal with K : Some _ = Some _ |- _ => by injection K as _ <- end.
Qed.

Lemma cancelJobs_relieved c env db :
  jobs_nonneg db -> relieved gone gone db (call_db (run_call (cancelJobs_ c) env db)).
Proof.
  intros Hnn. apply run_call_commits; [intros db' Hs; by apply relieved_same|].
  unfold cancelJobs_. do 4 wp_step; cbn [chain caught]; [done|].
  match goal with K : Some _ = Some _ |- _ => injection K as _ <- end.
  do 2 wp_step; cbn [chain caught]; [done|].
  match goal with K : cancel_query _ _ _ = Some (?r, _) |- _ => rename K into Hq, r into result end.
  pose proof (cancel_relieved c env db _ _ Hq Hnn) as Hrel. fold (cancelled_ids result).
  wp_step. wp_step.
  - apply wp_ret. subst result. cbn [chain]. apply wp_commit_end. by rewrite release_nil in Hrel.
  - eapply wp_mono; [apply releaseVmResources_spec|].
    intros [[]|e|] st' [Hc Hst]; cbn [chain caught]; [|by rewrite Hc|done].
    apply wp_commit_end. by rewrite Hst.
Qed.
End cancel.

(** A report of an end state releases what the job holds; the report of a job that
    holds nothing any more is what this excludes. *)
Definition report_due (gone : gset Z) (v : VmId) (j : JobId) (db : Db) : Prop :=
  forall r, job_on v j db = Some r -> holding gone j r = true.

Section report.
Context `{Postgres} (gone : gset Z).

Definition report_hits (v : VmId) (j : JobId) (i : JobId) (r : JobRow) : bool :=
  bool_decide (j_vm_id r = Some v) && bool_decide (i = j) && negb (job_final (j_status r)).

Lemma report_row_same now s r :
  j_vm_id (report_row now s r) = j_vm_id r
  /\ (forall d, job_amount d (report_row now s r) = job_amount d r)
  /\ j_status (report_row now s r) = js_status s.
Proof. unfold report_row. case_bool; (split; [done|]); (split; [by intros []|done]). Qed.

Lemma progress_relief v j s now db :
  job_final (js_status s) = false ->
  relief gone gone db (update_jobs (report_hits v j) (fun _ => report_row now s) db).
Proof.
  intros Hs. apply update_jobs_relief. intros i r Hw _. unfold report_hits in Hw. split_bools.
  destruct (report_row_same now s r) as (Ev & Ea & _). split; [done|done|].
  intros _. unfold holding. match goal with K : job_final (j_status r) = false |- _ => by rewrite K end.
Qed.

Lemma end_relieved v j s now now' db :
  job_final (js_status s) = true -> report_due gone v j db -> is_Some (job_on v j db) -> jobs_nonneg db ->
  relieved gone ({[j]} ∪ gone) db
    (release now' [j] (update_jobs (report_hits v j) (fun _ => report_row now s) db)).
Proof.
  intros Hs Hdue [rj Hj] Hnn. specialize (Hdue rj Hj). apply job_on_spec in Hj as [Hj Hv].
  apply update_release_relieved; [done|by intros i r _ d; apply report_row_same|].
  intros i r w d Hr. pose proof (Hnn i r d Hr) as Hpos. cbn zeta. destruct (decide (i = j)) as [->|Hne].
  - rewrite Hj in Hr. injection Hr as <-.
    assert (forall x, job_final (j_status x) = true -> held d ({[j]} ∪ gone) w j x = 0) as Hzero.
    { intros x Hx. unfold held, holding. rewrite Hx. cbn. rewrite (bool_decide_eq_true_2 (j ∈ _)) by set_solver.
      by rewrite !andb_false_r. }
    unfold report_hits. rewrite Hv, !bool_decide_eq_true_2 by done. cbn [andb].
    unfold held at 2. rewrite Hdue, Hv, andb_true_r. unfold freed_at.
    destruct (job_final (j_status rj)) eqn:Hf; cbn [negb].
    + rewrite Hzero, Hv by done. destruct (decide (v = w)) as [->|Hvw].
      * rewrite bool_decide_eq_true_2 by done. case_decide; lia.
      * rewrite decide_False by naive_solver. case_bool; lia.
    + destruct (report_row_same now s rj) as (Ev & Ea & Es). rewrite Hzero by by rewrite Es.
      rewrite Ev, Ea, Hv. destruct (decide (v = w)) as [->|Hvw].
      * rewrite bool_decide_eq_true_2 by done. case_decide; lia.
      * rewrite decide_False by naive_solver. case_bool; lia.
  - assert (report_hits v j i r = false) as ->.
    { unfold report_hits. rewrite (bool_decide_eq_false_2 (i = j)) by done. by rewrite andb_false_r. }
    unfold freed_at. rewrite decide_False by set_solver. rewrite Z.add_0_r.
    apply job_stays_held; [done|]. split; [done..|]. apply holding_mono. set_solver.
Qed.

Lemma progress_report_relief v j s :
  job_final (js_status s) = false -> keeps (relief gone gone) (updateJobState_txn v j s).
Proof.
  intros Hs. unfold updateJobState_txn. rewrite Hs. repeat keeps_step.
  intros env db x db' [= _ <-]. by apply progress_relief.
Qed.

Lemma end_report_relieved v j s env db :
  job_final (js_status s) = true -> report_due gone v j db -> jobs_nonneg db ->
  relieved gone ({[j]} ∪ gone) db (call_db (updateJobState v j s env db)).
Proof.
  intros Hs Hdue Hnn. unfold updateJobState. apply run_call_commits; [intros db' Hsame; apply relieved_same; [done|set_solver|done]|].
  unfold updateJobState_txn. rewrite Hs. do 4 wp_step; cbn [chain caught]; [done|].
  match goal with K : Some _ = Some _ |- _ => injection K as _ <- end.
  do 2 wp_step; cbn [chain caught]; [done|]. cbn [tx_db executed tx_start].
  wp_step; [|by apply wp_ret]. wp_step; [by apply wp_ret|].
  do 2 wp_step; cbn [chain caught]; [done|].
  match goal with K : Some _ = Some _ |- _ => injection K as _ <- end.
  wp_step. eapply wp_mono; [apply releaseVmResources_spec|].
  intros [[]|e|] st' [Hc Hst]; cbn [chain caught]; [|by rewrite Hc|done].
  apply wp_commit_end. rewrite Hst. apply end_relieved; [done..| |done].
  match goal with K : _ <$> job_on _ _ _ = Some _ |- _ => apply fmap_Some in K as (? & -> & _) end. by eexists.
Qed.
End report.

(** ** Calls *)

(** The calls that neither start or commit a plan nor report the end of a job. *)
Definition ordinary (op : StorageOp) : Prop :=
  match op with
  | OpStartScheduling _ _ _ | OpCommitPlanChange _ _ => False
  | OpUpdateJobState _ _ s => job_final (js_status s) = false
  | _ => True
  end.

Lemma then_call_relief {A B} gone (c : Call A) (k : A -> Db -> Call B) db :
  relief gone gone db (call_db c) -> (forall a db1, relief gone gone db1 (call_db (k a db1))) ->
  relief gone gone db (call_db (then_call c k)).
Proof. intros Hc Hk. destruct c as [[a|e] db1|db1]; cbn in *; [|done..]. by etrans. Qed.

Lemma ordinary_relief `{StdLib} `{Postgres} gone op env env2 db :
  ordinary op -> relief gone gone db (op_db op env env2 db).
Proof.
  destruct op; cbn [op_db ordinary]; intros Hord; try done;
    try (intros Hnn; by apply cancelJobs_relieved); try apply run_call_keeps.
  - apply addTask_relief.
  - unfold getCurrentState_txn, readOnlyTransaction_, getQueuedJobs_, getActiveVms_. by repeat keeps_step.
  - unfold getVmsToAllocate_txn. repeat keeps_step. apply execWritableQuery_relief, move_vms_relief.
  - unfold getVmsToTerminate_txn. repeat keeps_step. apply execWritableQuery_relief, move_vms_relief.
  - apply execWritableQuery_relief, set_status_relief.
  - apply execWritableQuery_relief, set_status_relief.
  - apply execWritableQuery_relief, save_allocation_relief.
  - unfold getJobStates_txn. by repeat keeps_step.
  - apply execWritableQuery_relief, restart_vms_relief.
  - apply terminateVms_relief.
  - apply then_call_relief; [|intros _ db1]; apply run_call_keeps.
    + apply execWritableQuery_relief, restart_vms_relief.
    + apply terminateVms_relief.
  - unfold terminateVmsWithInactiveAgents_txn. repeat keeps_step; [apply inactive_relief|].
    apply restartJobs_relief. auto.
  - apply terminateVms_relief.
  - apply getAssignedJobs_relief.
  - unfold getJobToLaunch_txn. by repeat keeps_step.
  - by apply progress_report_relief.
  - unfold getAllocatedVms_txn. by repeat keeps_step.
Qed.
