(* ===== verification/Cluster.v ===== *)
(** * The cluster: schedulers, agents and the other processes on one database

    A transition system in which any number of backends run iterations of the
    scheduler, agents report and the other processes call the storage, in any
    interleaving and with any faults.  Beside the database a state records, for the
    proofs only, which jobs' ends were reported and which plans are under way.  Its
    invariant is that no VM is overcommitted. *)

From S2P Require Import Prelude Std Slot State OrderedJobs JobAllocator AllocatorContract.
From S2P Require Import SlotSelector SelectorFacts Assigner AssignerFacts PlanFacts.
From S2P Require Import Db TxLogic Storage StorageFacts Lifecycle StorageRefines Scheduler SchedulerFacts Accounting.

(** ** Plans that add up *)

Definition jobs_amount (d : Resource) (l : list QueuedJobInfo) : Z :=
  sum_list_Z (fun j => slot_amount d (requiredCapacity j)) l.

(** On no VM does a plan write more idle capacity than its jobs leave. *)
Record plan_balanced (state : State) (c : StateChange) : Prop := {
  pb_written : forall vm s d, vm ∈ vms state -> updatedIdleCapacities c !! vm_id vm = Some s ->
    slot_amount d s + jobs_amount d (planned state c (ExistingVm (vm_id vm)))
    <= slot_amount d (idleCapacity vm);
  pb_untouched : forall i v, jobToVm c !! i = Some (ExistingVm v) -> is_Some (updatedIdleCapacities c !! v);
  pb_new : forall k slot d, desiredSlotMap c !! k = Some slot ->
    slot_amount d (idle slot) + jobs_amount d (planned state c (DesiredVm k)) <= slot_amount d (total slot);
}.

Lemma sum_list_Z_submseteq {A} (f : A -> Z) (l1 l2 : list A) :
  l1 ⊆+ l2 -> (forall x, x ∈ l2 -> 0 <= f x) -> sum_list_Z f l1 <= sum_list_Z f l2.
Proof.
  intros [k Hk]%submseteq_Permutation Hf. rewrite Hk, sum_list_Z_app.
  assert (0 <= sum_list_Z f k); [|lia]. apply sum_list_Z_nonneg. intros x Hx. apply Hf. rewrite Hk. set_solver.
Qed.

Lemma complex_plan_balanced state possibleSlots c :
  plan_ok state possibleSlots c -> all_fit possibleSlots (queuedJobs state) -> plan_balanced state c.
Proof.
  intros Hok Hfit. split.
  - intros vm s d Hvm Hs. destruct (plan_capacity _ _ _ Hok vm Hvm) as (_ & Hc & Hr).
    unfold idle_after in *. rewrite Hs in *. unfold jobs_cpu, jobs_ram in *.
    unfold jobs_amount. destruct d; cbn in *; lia.
  - intros i v Hi. apply (plan_updated _ _ _ Hok). eauto.
  - intros k slot d Hk. destruct (plan_slots _ _ _ Hok k slot Hk) as (_ & _ & _ & _ & _ & He).
    destruct (He Hfit). unfold jobs_cpu, jobs_ram in *. unfold jobs_amount. destruct d; cbn in *; lia.
Qed.

Lemma simple_plan_balanced state : state_wf state -> plan_balanced state (SimpleVmAssigner_assign state).
Proof.
  intros [Hjw _ Hjn _]. destruct (simple_assign_inv state Hjn) as [Hasg Hslots]. split.
  - intros vm s d _ Hs. unfold SimpleVmAssigner_assign in Hs. by destruct (simple_loop _ _ _ _).
  - intros i v Hi. by destruct (Hasg _ _ Hi) as (k & j & _ & _ & ?).
  - intros k slot d Hk. destruct (Hslots _ _ Hk) as (n & j & Hn & -> & ->).
    assert (jobs_amount d (planned state (SimpleVmAssigner_assign state) (DesiredVm (Z.of_nat n)))
            <= jobs_amount d [j]) as Hle.
    { apply sum_list_Z_submseteq.
      - apply NoDup_submseteq.
        + apply (NoDup_fmap_1 job_id). unfold planned, jobs_at. by apply NoDup_fmap_filter.
        + intros x [Hx Hin]%jobs_at_elem. destruct (Hasg _ _ Hx) as (n' & j' & Hn' & Hid & [= E]).
          assert (n' = n) as -> by lia. rewrite Hn in Hn'. injection Hn' as <-.
          assert (x = j) as ->; [|set_solver]. apply (NoDup_fmap_inj_on job_id (queuedJobs state)); try done.
          by eapply list_elem_of_lookup_2.
      - intros x Hx%list_elem_of_singleton. subst x. rewrite Forall_lookup in Hjw.
        destruct (Hjw _ _ Hn) as [[? _] [? _]]. by destruct d. }
    unfold jobs_amount in Hle at 2. rewrite sum_list_Z_one in Hle. by destruct d; cbn in *; lia.
Qed.

Lemma assign_balanced `{StdLib} type config state possibleSlots c :
  config_usable type config -> state_wf state -> possibleSlots <> [] -> Forall slot_wf possibleSlots ->
  all_fit possibleSlots (queuedJobs state) ->
  createVmAssigner_assign type state config possibleSlots = Ret c ->
  plan_balanced state c.
Proof.
  intros Hc Hst Hne Hsw Hfit. destruct type; cbn in *.
  - intros [= <-]. by apply simple_plan_balanced.
  - destruct Hc as (cfg & -> & Hs). cbn.
    destruct (complex_assign_ok cfg state possibleSlots) as (c' & -> & Hok); [done..|].
    intros [= <-]. by eapply complex_plan_balanced.
Qed.

(** ** Snapshots and plans that are under way *)

(** What stays true of a snapshot whatever happens. *)
Record snapshot_kept (db : Db) (st : State) : Prop := {
  sk_wf : state_wf st;
  sk_jobs : forall j, j ∈ queuedJobs st -> exists r, db_jobs db !! job_id j = Some r
    /\ job_req r = requiredCapacity j;
  sk_vms : forall vm, vm ∈ vms st -> exists r, db_vms db !! vm_id vm = Some r
    /\ vm_total r = totalCapacity vm;
}.

(** What stays true as long as no plan is committed: the idle capacity that was
    read is still free. *)
Definition snapshot_free (gone : gset Z) (db : Db) (st : State) : Prop :=
  forall vm d, vm ∈ vms st ->
    slot_amount d (idleCapacity vm) + load d gone (vm_id vm) db <= slot_amount d (totalCapacity vm).

(** A plan that can no longer be the latest one. *)
Definition overtaken (db : Db) (p : PlanId) : Prop := exists q r s,
  db_plans db !! p = Some r /\ db_plans db !! q = Some s /\ p_updated r < p_updated s.

Lemma row_amounts db v r d : db_vms db !! v = Some r ->
  vm_size d r = slot_amount d (vm_total r) /\ vm_spare d r = slot_amount d (vm_idle r).
Proof. by destruct d. Qed.

(** *** The two queries of [getCurrentState] *)

(** Each sees the database as it is when it runs. *)
Definition read_jobs `{Postgres} : Env -> Db -> Call (list QueuedJobInfo) :=
  run_call (let? _ := readOnlyTransaction_ in getQueuedJobs_).

Definition read_vms `{Postgres} : Env -> Db -> Call (list ActiveVm) := run_call getActiveVms_.

Record jobs_seen (db : Db) (jobs : list QueuedJobInfo) : Prop := {
  js_wf : Forall job_wf jobs;
  js_nodup : NoDup (job_id <$> jobs);
  js_rows : forall j, j ∈ jobs -> exists r, db_jobs db !! job_id j = Some r /\ job_req r = requiredCapacity j;
}.

Section reads.
Context `{Postgres}.

Lemma read_jobs_spec env db :
  db_wf db -> exists o, read_jobs env db = Answer o db /\ forall jobs, o = Success jobs -> jobs_seen db jobs.
Proof.
  intros Hwf. unfold read_jobs. apply run_call_wp. wp_step. eapply wp_mono; [apply readOnlyTransaction_spec|].
  intros [[[]|e]|e|] st1 (C1 & D1 & O1); cbn [chain]; [| |done..].
  2:{ apply wp_ret. unfold final_db. rewrite C1, D1. cbn. rewrite rollback_self. by eexists. }
  eapply wp_mono; [apply getQueuedJobs_spec|]. intros [[jobs|e]|e|] st2 (C2 & D2 & O2); try done;
    unfold final_db; rewrite C2, C1, D2, D1; cbn; rewrite rollback_self; [|by eexists].
  eexists. split; [done|]. intros l [= ->]. destruct O2 as (? & Hj & ->). rewrite D1 in Hj. cbn in Hj.
  apply (read_rows _ job_id) in Hj as [Hj Hjn]; [|by intros ??? (_ & _ & ->)%read_job_spec].
  assert (forall j, j ∈ l -> exists r, db_jobs db !! job_id j = Some r /\ job_req r = requiredCapacity j) as Hrows.
  { intros j (r & Hr & _ & (_ & _ & He)%read_job_spec)%Hj. exists r. by rewrite He. }
  split; [|done|done]. apply Forall_forall. intros j (r & Hr & E)%Hrows. unfold job_wf. rewrite <- E.
  apply (jr_req _ _ _ (wf_jobs _ Hwf _ _ Hr)).
Qed.

Lemma read_vms_spec env db :
  db_wf db -> exists o, read_vms env db = Answer o db
    /\ forall l, o = Success l -> NoDup (vm_id <$> l)
       /\ forall vm, vm ∈ l -> exists r, db_vms db !! vm_id vm = Some r /\ vm_active r = true
            /\ totalCapacity vm = vm_total r /\ idleCapacity vm = vm_idle r.
Proof.
  intros Hwf. unfold read_vms. apply run_call_wp.
  eapply wp_mono; [apply getActiveVms_spec|]. intros [[l|e]|e|] st2 (C2 & D2 & O2); try done;
    unfold final_db; rewrite C2, D2; cbn; rewrite rollback_self; [|by eexists].
  eexists. split; [done|]. intros k [= ->]. destruct O2 as (? & Hv & ->). cbn in Hv.
  apply (read_rows _ vm_id) in Hv as [Hv Hvn]; [|by intros ??? (_ & ->)%read_vm_spec].
  split; [done|]. intros vm (r & Hr & Ha & (_ & He)%read_vm_spec)%Hv. exists r. by rewrite He.
Qed.

(** When nothing happens between them they are what [getCurrentState] does. *)
Definition later_queries (n : nat) (env : Env) : Env :=
  mkEnv (env_now env) (env_locked env) (fun k => env_fault env (n + k)) (env_in_doubt env).

Lemma getCurrentState_reads env db st db' :
  getCurrentState env db = Answer (Success st) db' ->
  read_jobs env db = Answer (Success (queuedJobs st)) db'
  /\ read_vms (later_queries 2 env) db = Answer (Success (vms st)) db'.
Proof.
  unfold getCurrentState, read_jobs, read_vms, run_call, getCurrentState_txn, readOnlyTransaction_, getQueuedJobs_,
    getActiveVms_, and_then, try_catch, begin_txn, query, mbind, tx_bind, mret, tx_ret, exec. cbn.
  destruct (env_fault env 0); [done|]. cbn. destruct (env_fault env 1); [done|]. cbn.
  destruct (mapM read_job _); cbn; [|done]. destruct (env_fault env 2); [done|]. cbn.
  destruct (mapM read_vm _); cbn; [|done]. by intros [= <- <-].
Qed.
End reads.

Lemma snapshot_read `{Postgres} scope gone db jobs l :
  (forall r, vm_active r = true -> scope r = true) ->
  db_wf db -> accounted_on scope gone db -> jobs_seen db jobs -> NoDup (vm_id <$> l) ->
  (forall vm, vm ∈ l -> exists r, db_vms db !! vm_id vm = Some r /\ vm_active r = true
     /\ totalCapacity vm = vm_total r /\ idleCapacity vm = vm_idle r) ->
  snapshot_kept db (mkState jobs l) /\ snapshot_free gone db (mkState jobs l).
Proof.
  intros Hsc Hwf Hacc [Hjw Hjn Hj] Hn Hv. split; [split; [split|..]|]; cbn; try done.
  - apply Forall_forall. intros vm (r & Hr & _ & Et & Ei)%Hv. destruct (wf_vms _ Hwf _ _ Hr).
    unfold vm_wf. by rewrite Et, Ei.
  - intros vm (r & Hr & _ & E & _)%Hv. eauto.
  - intros vm d (r & Hr & Ha & Et & Ei)%Hv. rewrite Et, Ei.
    destruct (row_amounts db _ r d Hr) as [<- <-]. apply Hacc; auto.
Qed.

Lemma jobs_seen_later a b jobs : rtc change a b -> jobs_seen a jobs -> jobs_seen b jobs.
Proof.
  intros Hch [Hw Hn Hj]. split; [done|done|]. intros j Hin. destruct (Hj j Hin) as (r & Hr & <-).
  destruct (changes_jobs_evolve _ _ Hch _ _ Hr) as (r' & Hr' & He). exists r'. split; [done|].
  by apply (ev_req _ _ He).
Qed.

Lemma snapshot_kept_later a b st : rtc change a b -> snapshot_kept a st -> snapshot_kept b st.
Proof.
  intros Hch [Hw Hj Hv]. split; [done| |].
  - apply (jobs_seen_later a b (queuedJobs st) Hch). by split; [apply Hw|apply Hw|].
  - intros vm Hin. destruct (Hv vm Hin) as (r & Hr & <-).
    destruct (changes_vms_persist _ _ Hch _ _ Hr) as (r' & Hr' & E). eauto.
Qed.

(** ** Committing a plan *)

Section committed.
Context `{StdLib} `{Postgres}.
Context (gone : gset Z) (st : State) (c : StateChange) (now : Z) (p : PlanId).
Context (slots : gmap Z VmId) (db db' : Db).
Context (Hwf : db_wf db) (Heff : plan_effect now c p slots db db').
Context (Hsound : plan_sound st c) (Hbal : plan_balanced st c) (Hkept : snapshot_kept db st).

Definition placed (d : Resource) (t : VmInfo) (i : JobId) (r : JobRow) : Z :=
  if decide (jobToVm c !! i = Some t) then job_amount d r else 0.

Definition landed (d : Resource) (v : VmId) (i : JobId) (r : JobRow) : Z :=
  if decide (omap (resolve slots) (jobToVm c) !! i = Some v) then job_amount d r else 0.

(** The jobs a plan sends somewhere are those of its snapshot. *)
Lemma placed_planned d t : table_sum (placed d t) (db_jobs db) <= jobs_amount d (planned st c t).
Proof.
  assert (table_sum (placed d t) (db_jobs db)
    = table_sum (fun _ => job_amount d) (filter (fun ir => jobToVm c !! ir.1 = Some t) (db_jobs db))) as ->.
  { by rewrite table_sum_filter. }
  set (sent := map_to_list (filter (fun ir => jobToVm c !! ir.1 = Some t) (db_jobs db))).
  assert (table_sum (fun _ => job_amount d) (filter (fun ir => jobToVm c !! ir.1 = Some t) (db_jobs db))
    = jobs_amount d ((fun ir => mkJob ir.1 (job_req ir.2)) <$> sent)) as ->.
  { unfold jobs_amount. rewrite sum_list_Z_fmap. unfold table_sum. by destruct d. }
  apply sum_list_Z_submseteq.
  - apply NoDup_submseteq.
    + apply (NoDup_fmap_1 job_id). rewrite <- list_fmap_compose. apply NoDup_fst_map_to_list.
    + intros j Hj. apply list_elem_of_fmap in Hj as ([i r] & -> & Hir).
      apply elem_of_map_to_list, map_lookup_filter_Some in Hir as [Hr Ht]. cbn in *.
      assert (i ∈ job_id <$> queuedJobs st) as Hi by (apply (ps_assigns _ _ Hsound); eauto).
      apply list_elem_of_fmap in Hi as (j & -> & Hj). apply jobs_at_elem. split; [done|].
      destruct (sk_jobs _ _ Hkept j Hj) as (r0 & Hr0 & E). rewrite Hr in Hr0. injection Hr0 as <-.
      rewrite E. by destruct j.
  - intros j [_ Hj]%jobs_at_elem. pose proof (state_jobs_wf _ (sk_wf _ _ Hkept)) as Hw.
    rewrite Forall_forall in Hw. destruct (Hw j Hj) as [[? _] [? _]]. by destruct d.
Qed.

Lemma load_committed d v :
  load d gone v db' <= load d gone v db + table_sum (landed d v) (db_jobs db).
Proof.
  unfold load. rewrite <- table_sum_add. apply table_sum_le. intros i. rewrite (pe_jobs _ _ _ _ _ _ Heff).
  destruct (db_jobs db !! i) as [r|] eqn:Hr; [|done]. cbn.
  pose proof (wf_jobs_nonneg _ Hwf i r d Hr) as Hnn. pose proof (held_nonneg d gone v i r Hnn).
  unfold assign_row, landed. destruct (omap _ _ !! i) as [w|]; [|rewrite decide_False by done; lia].
  assert (held d gone v i (set_j_vm_id w (set_j_status Scheduled r))
    = if bool_decide (Some w = Some v) then job_amount d r else 0) as ->.
  { unfold held, holding. cbn. rewrite andb_true_r. by destruct d. }
  destruct (decide (w = v)) as [->|Hne].
  - rewrite decide_True, bool_decide_eq_true_2 by done. lia.
  - rewrite bool_decide_eq_false_2, decide_False by congruence. lia.
Qed.

(** Where the jobs of the plan end up. *)
Lemma landed_old v d :
  is_Some (db_vms db !! v) ->
  table_sum (landed d v) (db_jobs db) <= table_sum (placed d (ExistingVm v)) (db_jobs db).
Proof.
  intros [r0 Hv]. apply table_sum_le. intros i. destruct (db_jobs db !! i) as [r|] eqn:Hr; [|done].
  pose proof (wf_jobs_nonneg _ Hwf i r d Hr). unfold landed, placed.
  case_decide as Hl; [|case_decide; lia]. rewrite lookup_omap in Hl.
  destruct (jobToVm c !! i) as [[w|k]|] eqn:Hi; cbn in Hl; [| |done].
  - injection Hl as ->. by rewrite decide_True.
  - destruct (pe_slots _ _ _ _ _ _ Heff k v Hl) as [s Hs].
    destruct (pe_new _ _ _ _ _ _ Heff k s Hs) as (v' & Hv' & Hnone & _). congruence.
Qed.

Lemma landed_new v k d :
  slots !! k = Some v -> db_vms db !! v = None ->
  table_sum (landed d v) (db_jobs db) <= table_sum (placed d (DesiredVm k)) (db_jobs db).
Proof.
  intros Hk Hv. apply table_sum_le. intros i. destruct (db_jobs db !! i) as [r|] eqn:Hr; [|done].
  pose proof (wf_jobs_nonneg _ Hwf i r d Hr). unfold landed, placed.
  case_decide as Hl; [|case_decide; lia]. rewrite lookup_omap in Hl.
  destruct (jobToVm c !! i) as [[w|k']|] eqn:Hi; cbn in Hl; [| |done].
  - injection Hl as ->. pose proof (ps_existing _ _ Hsound _ _ Hi) as Hw.
    apply list_elem_of_fmap in Hw as (vm & -> & Hvm). destruct (sk_vms _ _ Hkept vm Hvm) as (? & ? & _). congruence.
  - rewrite (pe_inj _ _ _ _ _ _ Heff _ _ _ Hl Hk). by rewrite decide_True.
Qed.

(** Nothing was on a VM that did not exist. *)
Lemma load_absent v d : db_vms db !! v = None -> load d gone v db <= 0.
Proof.
  intros Hv. transitivity (table_sum (fun _ (_ : JobRow) => 0) (db_jobs db)).
  - apply table_sum_le. intros i. destruct (db_jobs db !! i) as [r|] eqn:Hr; [|done].
    unfold held. destruct (bool_decide (j_vm_id r = Some v)) eqn:Hb; [|done].
    apply bool_decide_eq_true in Hb. destruct (jr_vm _ _ _ (wf_jobs _ Hwf i r Hr) v Hb). congruence.
  - unfold table_sum, sum_list_Z. induction (map_to_list (db_jobs db)); cbn; lia.
Qed.

Lemma plan_vm_row_amounts v r d :
  vm_size d (plan_vm_row now c v r) = vm_size d r
  /\ vm_spare d (plan_vm_row now c v r)
     = match updatedIdleCapacities c !! v with Some s => slot_amount d s | None => vm_spare d r end.
Proof.
  unfold plan_vm_row, status_trigger. destruct d, (updatedIdleCapacities c !! v), (decide (v ∈ vmsToTerminate c));
    try done; by case_decide.
Qed.

(** A plan computed from a snapshot whose idle capacities are still free, for jobs
    and VMs that pass the checks, overcommits nothing. *)
Lemma committed_accounted scope :
  (forall v r, scope (plan_vm_row now c v r) = true -> scope r = true) ->
  accounted_on scope gone db -> snapshot_free gone db st -> accounted_on scope gone db'.
Proof.
  intros Hscope Hacc Hfree v r' d Hr' Hsc. pose proof (load_committed d v) as Hload.
  destruct (db_vms db !! v) as [r|] eqn:Hr.
  - rewrite (pe_old _ _ _ _ _ _ Heff v r Hr) in Hr'. injection Hr' as <-.
    destruct (plan_vm_row_amounts v r d) as [-> ->]. pose proof (landed_old v d ltac:(by eexists)) as Hl.
    pose proof (placed_planned d (ExistingVm v)) as Hp. specialize (Hacc v r d Hr (Hscope _ _ Hsc)).
    destruct (updatedIdleCapacities c !! v) as [s|] eqn:Hs.
    + destruct (ps_updated _ _ Hsound v s Hs) as (vm & Hvm & <- & _).
      pose proof (pb_written _ _ Hbal vm s d Hvm Hs). pose proof (Hfree vm d Hvm).
      destruct (sk_vms _ _ Hkept vm Hvm) as (r0 & Hr0 & E). rewrite Hr in Hr0. injection Hr0 as <-.
      destruct (row_amounts db _ r d Hr) as [-> _]. rewrite E. lia.
    + assert (planned st c (ExistingVm v) = []) as Hnone; [|rewrite Hnone in Hp; cbn in Hp; lia].
      apply elem_of_nil_inv. intros j [Hj _]%jobs_at_elem. destruct (pb_untouched _ _ Hbal _ _ Hj). congruence.
  - destruct (pe_only _ _ _ _ _ _ Heff v ltac:(by eexists)) as [[r Hr0]|[k Hk]]; [congruence|].
    destruct (pe_slots _ _ _ _ _ _ Heff k v Hk) as [s Hs].
    destruct (pe_new _ _ _ _ _ _ Heff k s Hs) as (v' & Hv' & _ & Hnew).
    rewrite Hk in Hv'. injection Hv' as <-. rewrite Hr' in Hnew. injection Hnew as ->.
    pose proof (landed_new v k d Hk Hr). pose proof (placed_planned d (DesiredVm k)).
    pose proof (load_absent v d Hr). pose proof (pb_new _ _ Hbal k s d Hs). destruct d; cbn in *; lia.
Qed.
End committed.

(** ** The order of plans *)

Lemma latest_newest `{Postgres} db p : latest_plans db = [p] ->
  exists r, db_plans db !! p = Some r
    /\ forall q s, db_plans db !! q = Some s -> q <> p -> p_updated s < p_updated r.
Proof.
  intros Hl. unfold latest_plans in Hl. pose proof (last_updated_max db) as Hmax.
  assert (Hmem : forall q s, db_plans db !! q = Some s -> Some (p_updated s) = last_updated db -> q = p).
  { intros q s Hq Hs. assert (q ∈ [p]) as Hin; [|by apply list_elem_of_singleton in Hin].
    rewrite <- Hl. apply list_elem_of_fmap. exists (q, s). split; [done|].
    apply sql_rows_elem. by rewrite bool_decide_eq_true. }
  assert (exists r, db_plans db !! p = Some r /\ Some (p_updated r) = last_updated db) as (r & Hr & Hm).
  { assert (p ∈ [p]) as Hin by set_solver. rewrite <- Hl in Hin.
    apply list_elem_of_fmap in Hin as ([q s] & -> & Hin). apply sql_rows_elem in Hin as [Hq Hs].
    rewrite bool_decide_eq_true in Hs. eauto. }
  exists r. split; [done|]. intros q s Hq Hne. rewrite <- Hm in Hmax. destruct Hmax as [Hle _].
  specialize (Hle q s Hq). destruct (decide (p_updated s = p_updated r)) as [E|]; [|lia].
  destruct Hne. apply (Hmem q s Hq). congruence.
Qed.

Lemma overtaken_not_latest `{Postgres} db p : overtaken db p -> latest_plans db <> [p].
Proof.
  intros (q & r & s & Hp & Hq & Hlt) (r' & Hr' & Hnew)%latest_newest. rewrite Hp in Hr'. injection Hr' as <-.
  destruct (decide (q = p)) as [->|Hne]; [rewrite Hp in Hq; injection Hq as <-; lia|].
  specialize (Hnew q s Hq Hne). lia.
Qed.

Lemma overtaken_kept a b p : db_plans a ⊆ db_plans b -> overtaken a p -> overtaken b p.
Proof.
  intros Hsub (q & r & s & Hp & Hq & Hlt). exists q, r, s.
  split; [by eapply lookup_weaken|]. split; [by eapply lookup_weaken|done].
Qed.

(** The clock does not run backwards between the statements of one scheduler. *)
Definition clock_after (env : Env) (p : PlanId) (db : Db) : Prop :=
  forall r, db_plans db !! p = Some r -> p_updated r <= env_now env.

Section plan_order.
Context `{Postgres} (env : Env) (c : StateChange) (p : PlanId) (slots : gmap Z VmId) (db db' : Db).
Context (Hclock : clock_after env p db) (Heff : plan_effect (env_now env) c p slots db db').

Lemma committed_plan_row q :
  db_plans db' !! q = (fun r => if decide (q = p) then mkPlanRow (p_created r) (env_now env) (p_backend_id r) else r)
    <$> db_plans db !! q.
Proof.
  rewrite (pe_plans _ _ _ _ _ _ Heff), sql_update_lookup. destruct (db_plans db !! q); [|done].
  cbn. f_equal. by case_decide; [rewrite bool_decide_eq_true_2|rewrite bool_decide_eq_false_2].
Qed.

(** Committing a plan overtakes every other. *)
Lemma commit_overtakes q :
  latest_plans db = [p] -> q <> p -> is_Some (db_plans db !! q) -> overtaken db' q.
Proof.
  intros (r & Hr & Hnew)%latest_newest Hne [s Hs].
  exists p, s, (mkPlanRow (p_created r) (env_now env) (p_backend_id r)). rewrite !committed_plan_row, Hs, Hr. cbn.
  rewrite decide_False, decide_True by done. split; [done|]. split; [done|].
  specialize (Hnew q s Hs Hne). specialize (Hclock r Hr). cbn. lia.
Qed.
End plan_order.

(** ** Starting a plan *)

Definition plans_same (a b : Db) : Prop := db_plans b = db_plans a.

#[export] Instance plans_same_order : TxOrder plans_same.
Proof. split; [split; [done|intros a b c; unfold plans_same; congruence]|done]. Qed.

Section starting.
Context `{Postgres}.

Lemma acquireLock_plans : keeps plans_same acquireLock_.
Proof. unfold acquireLock_. repeat keeps_step. by intros env db x db' [= _ <-]. Qed.

Lemma checkLeader_plans n : keeps plans_same (checkLeader_ n).
Proof.
  unfold checkLeader_. repeat keeps_step. intros env db x db'. case_bool; [|done]. by intros [= _ <-].
Qed.

Lemma planWasRecentlyUpdated_plans i : keeps plans_same (planWasRecentlyUpdated_ i).
Proof. unfold planWasRecentlyUpdated_. by repeat keeps_step. Qed.

(** A started plan: its row is new and committed. *)
Definition plan_started (env : Env) (plans : gmap Z PlanRow) (o : TxOut (Result PlanId)) (st : TxState) : Prop :=
  match o with
  | TxVal (Success p) => tx_committed st = true /\ plans !! p = None
      /\ exists r, db_plans (tx_db st) !! p = Some r /\ p_updated r = env_now env
  | _ => True
  end.

Lemma insertNewPlanRecord_starts b env st :
  wp env (insertNewPlanRecord_ b) (plan_started env (db_plans (tx_db st))) st.
Proof.
  unfold insertNewPlanRecord_. do 3 wp_step; cbn [chain caught]; [done|].
  match goal with K : insert_plan _ _ _ = _ |- _ => revert K end. unfold insert_plan. case_bool; [|done].
  intros [= <- <-]. do 2 wp_step; cbn [chain caught]; [done|]. apply wp_ret. cbn.
  match goal with K : new_key _ _ = true |- _ => apply new_key_spec in K as [_ ?] end.
  split; [done|]. split; [done|]. rewrite lookup_insert_eq. by eexists.
Qed.

(** The rest of a transaction after a part that leaves the plans alone. *)
Lemma plan_started_after {A} (m : Tx A) (k : A -> Tx (Result PlanId)) plans env st :
  db_plans (tx_db st) = plans -> keeps plans_same m ->
  (forall a st', db_plans (tx_db st') = plans -> wp env (k a) (plan_started env plans) st') ->
  wp env (m ≫= k) (plan_started env plans) st.
Proof.
  intros Hst Hm Hk. apply wp_bind. eapply wp_mono; [eapply wp_keeps with (Q := fun _ _ => True); [done|exact Hm]|].
  intros [a|e|] st' [_ Hp]; cbn [chain]; [|done..]. apply Hk. unfold plans_same in Hp. congruence.
Qed.

Lemma startScheduling_new b i l env db p db' :
  startScheduling b i l env db = Answer (Success p) db' ->
  db_plans db !! p = None /\ exists r, db_plans db' !! p = Some r /\ p_updated r = env_now env.
Proof.
  assert (wp env (startScheduling_txn b i l) (plan_started env (db_plans db)) (tx_start db)) as Hw.
  { unfold startScheduling_txn. apply plan_started_after; [done|apply acquireLock_plans|].
    intros [[]|e] st1 E1; [|by apply wp_ret]. apply plan_started_after; [done| |].
    { destruct l; [|apply respects_ret]. apply respects_bind; [apply checkLeader_plans|intros _; apply respects_ret]. }
    intros [] st2 E2. apply plan_started_after; [done|apply planWasRecentlyUpdated_plans|].
    intros [[]|e] st3 E3; [| |by apply wp_ret].
    - do 2 wp_step; cbn [chain]; [done|]. by apply wp_ret.
    - rewrite <- E3. apply insertNewPlanRecord_starts. }
  unfold startScheduling, run_call. unfold wp in Hw.
  destruct (startScheduling_txn _ _ _ _ _) as [[r|e|] st]; try done. intros [= -> <-].
  cbn in Hw. unfold final_db. by destruct Hw as [-> ?].
Qed.
End starting.

(** ** The transition system *)

(** How a backend computes its plans. *)
Record Backend : Type := mkBackend {
  b_type : VmAssignerType; b_config : option ComplexVmAssignerConfig; b_slots : list SlotCapacity }.

Definition backend_usable (b : Backend) : Prop :=
  config_usable (b_type b) (b_config b) /\ b_slots b <> [] /\ Forall slot_wf (b_slots b).

(** How far a backend is with a plan: started, with the jobs read, with the VMs read. *)
Inductive PlanStage : Type :=
  | PlanStarted
  | PlanJobs (jobs : list QueuedJobInfo)
  | PlanRead (st : State).

(** The database, the jobs whose end was reported, and the plans under way. *)
Record Cluster : Type := mkCluster {
  c_db : Db; c_gone : gset JobId; c_plans : gmap PlanId PlanStage }.

(** What a call on behalf of plan [p] leaves; on success the plan goes on. *)
Definition after_call {A} (stage : A -> PlanId * PlanStage) (c : Call A) (s : Cluster) : Cluster :=
  match c with
  | Answer (Success a) db => mkCluster db (c_gone s) (<[(stage a).1 := (stage a).2]> (c_plans s))
  | c => mkCluster (call_db c) (c_gone s) (c_plans s)
  end.

Definition after_start : Call PlanId -> Cluster -> Cluster := after_call (fun p => (p, PlanStarted)).
Definition after_jobs (p : PlanId) : Call (list QueuedJobInfo) -> Cluster -> Cluster :=
  after_call (fun jobs => (p, PlanJobs jobs)).
Definition after_vms (p : PlanId) (jobs : list QueuedJobInfo) : Call (list ActiveVm) -> Cluster -> Cluster :=
  after_call (fun l => (p, PlanRead (mkState jobs l))).

Section cluster.
Context `{StdLib} `{Postgres}.

(** What backends do.  A plan is started, its jobs and its VMs are read, one after the
    other, and what was computed from them is committed, once. *)
Inductive backend_step : Cluster -> Cluster -> Prop :=
  | cs_start b interval lockNumber env s :
      backend_step s (after_start (startScheduling b interval lockNumber env (c_db s)) s)
  | cs_read_jobs p env s : c_plans s !! p = Some PlanStarted ->
      backend_step s (after_jobs p (read_jobs env (c_db s)) s)
  | cs_read_vms p jobs env s : c_plans s !! p = Some (PlanJobs jobs) ->
      backend_step s (after_vms p jobs (read_vms env (c_db s)) s)
  | cs_commit p st b c env s : c_plans s !! p = Some (PlanRead st) ->
      backend_usable b -> all_fit (b_slots b) (queuedJobs st) ->
      createVmAssigner_assign (b_type b) st (b_config b) (b_slots b) = Ret c ->
      clock_after env p (c_db s) ->
      backend_step s (mkCluster (call_db (commitPlanChange c p env (c_db s))) (c_gone s)
        (delete p (c_plans s))).

(** With the other calls, and agents that report the end of a job as long as it holds
    its capacity, and may repeat a report that changed nothing. *)
Inductive cluster_step : Cluster -> Cluster -> Prop :=
  | cs_backend s s' : backend_step s s' -> cluster_step s s'
  | cs_call op env env2 s : ordinary op ->
      cluster_step s (mkCluster (op_db op env env2 (c_db s)) (c_gone s) (c_plans s))
  | cs_report v j js env gone' s :
      job_final (js_status js) = true -> report_due (c_gone s) v j (c_db s) ->
      gone' = {[j]} ∪ c_gone s
        \/ gone' = c_gone s /\ same_tables (c_db s) (call_db (updateJobState v j js env (c_db s))) ->
      cluster_step s (mkCluster (call_db (updateJobState v j js env (c_db s))) gone' (c_plans s)).

(** What stays true of a plan under way. *)
Definition stage_ok (gone : gset Z) (db : Db) (p : PlanId) (o : PlanStage) : Prop :=
  match o with
  | PlanStarted => True
  | PlanJobs jobs => jobs_seen db jobs
  | PlanRead st => snapshot_kept db st /\ (overtaken db p \/ snapshot_free gone db st)
  end.

Section scope.
(** The VMs the invariant is about: they include all active ones, and a plan brings
    none back among them. *)
Context (scope : VmRow -> bool).
Context (Hactive : forall r, vm_active r = true -> scope r = true).
Context (Hplan : forall now c v r, scope (plan_vm_row now c v r) = true -> scope r = true).

Record cluster_ok (s : Cluster) : Prop := {
  ok_wf : db_wf (c_db s);
  ok_accounted : accounted_on scope (c_gone s) (c_db s);
  ok_plans : forall p o, c_plans s !! p = Some o -> is_Some (db_plans (c_db s) !! p);
  ok_stages : forall p o, c_plans s !! p = Some o -> stage_ok (c_gone s) (c_db s) p o;
}.

(** Whatever puts nothing on a VM keeps the plans as they are. *)
Lemma stage_ok_later gone gone' a b p o :
  rtc change a b -> db_plans a ⊆ db_plans b ->
  (forall v d, load d gone' v b <= load d gone v a) -> stage_ok gone a p o -> stage_ok gone' b p o.
Proof.
  intros Hch Hplans Hload. destruct o as [|jobs|st]; cbn; [done|by apply jobs_seen_later|].
  intros [Hk Ho]. split; [by eapply snapshot_kept_later|].
  destruct Ho as [Ho|Hf]; [left; by eapply overtaken_kept|right].
  intros vm d Hvm. specialize (Hf vm d Hvm). specialize (Hload (vm_id vm) d). lia.
Qed.

(** Steps that put nothing on a VM. *)
Lemma kept_ok s db gone :
  cluster_ok s -> rtc change (c_db s) db -> accounted_on scope gone db -> db_plans (c_db s) ⊆ db_plans db ->
  (forall v d, load d gone v db <= load d (c_gone s) v (c_db s)) ->
  cluster_ok (mkCluster db gone (c_plans s)).
Proof.
  intros [Hwf Hacc Hpl Hst] Hch Hacc' Hplans Hload. split; cbn.
  - by eapply changes_wf.
  - done.
  - intros p o Hp. destruct (Hpl p o Hp) as [r Hr]. exists r. by eapply lookup_weaken.
  - intros p o Hp. eapply stage_ok_later; eauto.
Qed.

Lemma relief_ok s db gone :
  cluster_ok s -> rtc change (c_db s) db -> relief (c_gone s) gone (c_db s) db ->
  scope_kept scope (c_db s) db -> cluster_ok (mkCluster db gone (c_plans s)).
Proof.
  intros Hok Hch Hrel Hsc. pose proof (wf_jobs_nonneg _ (ok_wf _ Hok)) as Hnn.
  destruct (Hrel Hnn) as [_ _ Hload Hplans].
  apply kept_ok; [done..| |done|done]. eapply relief_accounted; [done..|]. apply Hok.
Qed.

Lemma same_vms_scope a b : db_vms b = db_vms a -> scope_kept scope a b.
Proof. intros E v r Hr Hs. rewrite E in Hr. eauto. Qed.

(** A plan whose call succeeded goes on. *)
Lemma stage_set_ok s p o :
  cluster_ok s -> is_Some (db_plans (c_db s) !! p) -> stage_ok (c_gone s) (c_db s) p o ->
  cluster_ok (mkCluster (c_db s) (c_gone s) (<[p := o]> (c_plans s))).
Proof.
  intros [Hwf Hacc Hpl Hst] Hp Ho. split; cbn; [done|done| |].
  - intros q o' [[<- _]|[_ Hq]]%lookup_insert_Some; eauto.
  - intros q o' [[<- <-]|[_ Hq]]%lookup_insert_Some; eauto.
Qed.

Lemma start_vms b i l : forall env db, db_vms (call_db (startScheduling b i l env db)) = db_vms db.
Proof.
  set (R := fun a b : Db => db_vms b = db_vms a).
  assert (TxOrder R) as HR by (split; [split; [done|intros x y z; unfold R; congruence]|done]).
  intros env db. apply (run_call_keeps (R := R)).
  unfold startScheduling_txn, acquireLock_, checkLeader_, planWasRecentlyUpdated_, insertNewPlanRecord_, insert_plan.
  repeat keeps_step; intros ? ? ? ?; try case_bool; try done; by intros [= _ <-].
Qed.

Lemma start_ok b i l env s :
  cluster_ok s -> cluster_ok (after_start (startScheduling b i l env (c_db s)) s).
Proof.
  intros Hok.
  assert (cluster_ok (mkCluster (call_db (startScheduling b i l env (c_db s))) (c_gone s) (c_plans s))) as Hbase.
  { apply relief_ok; [done| | |apply same_vms_scope, start_vms].
    - by apply (op_refines (OpStartScheduling b i l) env env), Hok.
    - apply run_call_keeps, startScheduling_relief. }
  destruct (startScheduling b i l env (c_db s)) as [[p|e] db|db] eqn:Hs; cbn in *; [|done..].
  apply startScheduling_new in Hs as (_ & r & Hr & _). by apply (stage_set_ok (mkCluster db _ _)).
Qed.

Lemma cluster_eta s : mkCluster (c_db s) (c_gone s) (c_plans s) = s.
Proof. by destruct s. Qed.

Lemma read_jobs_ok p env s :
  cluster_ok s -> c_plans s !! p = Some PlanStarted -> cluster_ok (after_jobs p (read_jobs env (c_db s)) s).
Proof.
  intros Hok Hp. destruct (read_jobs_spec env (c_db s) (ok_wf _ Hok)) as ([jobs|e] & -> & Hj); cbn; [|by rewrite cluster_eta].
  apply stage_set_ok; [done|by eapply (ok_plans _ Hok)|]. by apply Hj.
Qed.

Lemma read_vms_ok p jobs env s :
  cluster_ok s -> c_plans s !! p = Some (PlanJobs jobs) -> cluster_ok (after_vms p jobs (read_vms env (c_db s)) s).
Proof.
  intros Hok Hp. destruct (read_vms_spec env (c_db s) (ok_wf _ Hok)) as ([l|e] & -> & Hl); cbn; [|by rewrite cluster_eta].
  destruct (Hl l eq_refl) as [Hn Hv]. apply stage_set_ok; [done|by eapply (ok_plans _ Hok)|]. cbn.
  pose proof (ok_stages _ Hok p _ Hp) as Hj. cbn in Hj.
  destruct (snapshot_read scope (c_gone s) (c_db s) jobs l); [done|apply Hok|apply Hok|done..|auto].
Qed.

(** A commit takes effect as a whole, on the latest plan, or not at all. *)
Lemma commitPlanChange_cases c p env db :
  let db' := call_db (commitPlanChange c p env db) in
  same_tables db db'
  \/ plan_admitted c p db /\ exists slots, plan_effect (env_now env) c p slots db db'.
Proof.
  cbn zeta. unfold commitPlanChange.
  apply (run_call_commits _ _ _ (fun db' => same_tables db db'
    \/ plan_admitted c p db /\ exists slots, plan_effect (env_now env) c p slots db db')); [by left|].
  eapply wp_mono; [apply commitPlanChange_wp|]. intros o st [_ Hc] Ht. right. by apply Hc.
Qed.

Lemma kept_plan_fits db st c : snapshot_kept db st -> plan_sound st c -> change_fits c db.
Proof.
  intros Hk Hp. split; [|by apply Hp]. intros v s r Hu Hr.
  destruct (ps_updated _ _ Hp v s Hu) as (vm & Hvm & <- & Hw & Hf). split; [done|].
  destruct (sk_vms _ _ Hk vm Hvm) as (r0 & Hr0 & E). rewrite Hr in Hr0. injection Hr0 as <-. rewrite E.
  eapply fits_trans; [exact Hf|]. pose proof (state_vms_wf _ (sk_wf _ _ Hk)) as Hv.
  rewrite Forall_forall in Hv. by apply Hv.
Qed.

Lemma forget_plan_ok p s : cluster_ok s -> cluster_ok (mkCluster (c_db s) (c_gone s) (delete p (c_plans s))).
Proof.
  intros [Hwf Hacc Hpl Hst]. split; cbn; [done|done| |].
  - intros q o [_ Hq]%lookup_delete_Some. eauto.
  - intros q o [_ Hq]%lookup_delete_Some. eauto.
Qed.

Lemma effective_commit_ok p st c env slots s db' :
  cluster_ok s -> c_plans s !! p = Some (PlanRead st) -> plan_sound st c -> plan_balanced st c ->
  clock_after env p (c_db s) -> rtc change (c_db s) db' ->
  plan_admitted c p (c_db s) -> plan_effect (env_now env) c p slots (c_db s) db' ->
  cluster_ok (mkCluster db' (c_gone s) (delete p (c_plans s))).
Proof.
  intros [Hwf Hacc Hpl Hst] Hp Hsound Hbal Hclock Hch Hadm Heff. pose proof (pa_latest _ _ _ Hadm) as Hlatest.
  destruct (Hst p _ Hp) as [Hkept [Hover|Hfree]]; [by destruct (overtaken_not_latest _ _ Hover)|].
  split; cbn.
  - by eapply changes_wf.
  - eapply committed_accounted; [done..|by apply Hplan|done|done].
  - intros q o [_ Hq]%lookup_delete_Some. rewrite (committed_plan_row _ _ _ _ _ _ Heff).
    apply fmap_is_Some. eauto.
  - intros q [|jobs|st'] [Hne Hq]%lookup_delete_Some; cbn; [done| |].
    + eapply jobs_seen_later; [done|]. apply (Hst q _ Hq).
    + destruct (Hst q _ Hq) as [Hk _].
      split; [by eapply snapshot_kept_later|]. left. eapply commit_overtakes; eauto.
Qed.

Lemma commit_ok p st b c env s :
  cluster_ok s -> c_plans s !! p = Some (PlanRead st) -> backend_usable b ->
  all_fit (b_slots b) (queuedJobs st) ->
  createVmAssigner_assign (b_type b) st (b_config b) (b_slots b) = Ret c -> clock_after env p (c_db s) ->
  cluster_ok (mkCluster (call_db (commitPlanChange c p env (c_db s))) (c_gone s) (delete p (c_plans s))).
Proof.
  intros Hok Hp (Hcfg & Hne & Hsw) Hfit Hc Hclock. destruct (ok_stages _ Hok p _ Hp) as [Hkept _].
  pose proof (sk_wf _ _ Hkept) as Hst.
  assert (plan_sound st c) as Hsound.
  { destruct (assign_sound (b_type b) (b_config b) st (b_slots b)) as (c' & Hc' & ?); [done..|]. congruence. }
  assert (plan_balanced st c) as Hbal by by eapply assign_balanced.
  assert (rtc change (c_db s) (call_db (commitPlanChange c p env (c_db s)))) as Hch.
  { apply commitPlanChange_call_refines; [by eapply kept_plan_fits|apply Hok]. }
  destruct (commitPlanChange_cases c p env (c_db s)) as [Hsame|(Hadm & slots & Heff)].
  - apply (forget_plan_ok p (mkCluster _ _ _)), relief_ok; [done..| |].
    + intros Hnn. by apply relieved_same.
    + apply same_vms_scope. symmetry. apply Hsame.
  - by eapply effective_commit_ok.
Qed.

Lemma backend_step_ok s s' : backend_step s s' -> cluster_ok s -> cluster_ok s'.
Proof.
  intros [b i l env ?|p env ?|p jobs env ?|] Hok.
  - by apply start_ok.
  - by apply read_jobs_ok.
  - by apply read_vms_ok.
  - by eapply commit_ok.
Qed.

Lemma call_ok op env env2 s :
  ordinary op -> scope_kept scope (c_db s) (op_db op env env2 (c_db s)) -> cluster_ok s ->
  cluster_ok (mkCluster (op_db op env env2 (c_db s)) (c_gone s) (c_plans s)).
Proof.
  intros Hop Hsc Hok. apply relief_ok; [done| |by apply ordinary_relief|done].
  apply op_refines; [|apply Hok]. by destruct op.
Qed.
End scope.

(** *** All VMs *)

Lemma cluster_step_ok s s' : cluster_step s s' -> cluster_ok all_vms s -> cluster_ok all_vms s'.
Proof.
  intros Hstep Hok. pose proof (wf_jobs_nonneg _ (ok_wf _ _ Hok)) as Hnn.
  destruct Hstep as [s s' Hb|op env env2 s Hop|v j js env gone' s Hf Hdue Hg].
  - by eapply backend_step_ok.
  - apply call_ok; [done| |done]. by apply (relief_all_vms ∅ ∅), ordinary_relief.
  - assert (relief (c_gone s) gone' (c_db s) (call_db (updateJobState v j js env (c_db s)))) as Hrel.
    { intros _. destruct Hg as [-> |[-> Hs]]; [by apply end_report_relieved|by apply relieved_same]. }
    apply relief_ok; [done| |done|by eapply relief_all_vms].
    by apply (op_refines (OpUpdateJobState v j js) env env), Hok.
Qed.

Lemma cluster_steps_ok s s' : rtc cluster_step s s' -> cluster_ok all_vms s -> cluster_ok all_vms s'.
Proof. induction 1; eauto using cluster_step_ok. Qed.

(** ** The scheduler's iteration *)

(** An iteration nobody interferes with is a run of the system. *)
Lemma iteration_runs id config possibleSlots distLock env1 env2 env3 it db' s :
  cluster_ok all_vms s ->
  backend_usable (mkBackend (vmAssignerType config) (complexVmAssignerConfig config) possibleSlots) ->
  (forall st, snapshot (call_db (startScheduling id (schedulingInterval config)
     (default None (lock_number distLock)) env1 (c_db s))) st -> all_fit possibleSlots (queuedJobs st)) ->
  env_now env1 <= env_now env3 ->
  iteration id config possibleSlots distLock env1 env2 env3 (fun d => d) (fun d => d) (c_db s) = (it, db') ->
  exists plans, rtc backend_step s (mkCluster db' (c_gone s) plans).
Proof.
  intros Hok Hb Hfit Hclock. rewrite iteration_eq. destruct (lock_number distLock) as [ln|]; cbn in Hfit.
  2:{ intros [= _ <-]. exists (c_plans s). by rewrite cluster_eta. }
  pose proof (cs_start id (schedulingInterval config) ln env1 s) as S1.
  pose proof (cluster_step_ok _ _ (cs_backend _ _ S1) Hok) as K1.
  destruct (startScheduling _ _ _ _ _) as [[p|e] db1|db1] eqn:Hs; cbn in *;
    [|intros [= _ <-]; eexists; by apply rtc_once..].
  apply startScheduling_new in Hs as (_ & r & Hr & Hnow).
  set (s1 := mkCluster db1 (c_gone s) (<[p := PlanStarted]> (c_plans s))) in *.
  destruct (getCurrentState_spec env2 db1 (ok_wf _ _ K1)) as (o & Hread & Hsnap). rewrite rollback_self in Hread.
  rewrite Hread. destruct o as [st|e].
  2:{ intros [= _ <-]. eexists. by apply rtc_once. }
  apply getCurrentState_reads in Hread as [Hjobs Hvms].
  pose proof (cs_read_jobs p env2 s1 ltac:(by cbn; rewrite lookup_insert_eq)) as S2. cbn in S2. rewrite Hjobs in S2. cbn in S2.
  set (s2 := mkCluster db1 (c_gone s) (<[p := PlanJobs (queuedJobs st)]> (<[p := PlanStarted]> (c_plans s)))) in *.
  pose proof (cs_read_vms p (queuedJobs st) (later_queries 2 env2) s2 ltac:(by cbn; rewrite lookup_insert_eq)) as S3.
  cbn in S3. rewrite Hvms in S3. cbn in S3.
  replace (mkState (queuedJobs st) (vms st)) with st in S3 by by destruct st.
  set (s3 := mkCluster db1 (c_gone s) (<[p := PlanRead st]> (c_plans s2))) in *.
  assert (rtc backend_step s s3) as S.
  { eapply rtc_l; [exact S1|]. eapply rtc_l; [exact S2|]. by apply rtc_once. }
  destruct (createVmAssigner_assign _ _ _ _) as [c| |] eqn:Hc; [|by intros [= _ <-]; eexists..].
  assert (backend_step s3 (mkCluster (call_db (commitPlanChange c p env3 db1)) (c_gone s) (delete p (c_plans s3)))) as S4.
  { eapply (cs_commit p st (mkBackend _ _ _) c env3 s3); [by cbn; rewrite lookup_insert_eq|exact Hb|by apply Hfit, Hsnap|done|].
    intros r' Hr'. cbn in Hr'. rewrite Hr in Hr'. injection Hr' as <-. lia. }
  intros Hit. assert (db' = call_db (commitPlanChange c p env3 db1)) as ->.
  { by destruct (commitPlanChange _ _ _ _) as [[]|]; cbn; injection Hit. }
  eexists. by eapply rtc_r.
Qed.
End cluster.
