(* ===== verification/RowEdits.v ===== *)
(** * What statements do to rows

    Every statement of the storage leaves a row as it is, edits it in one of a few
    ways, or inserts it.  [RowEdits] says which edits a relation on job rows and one
    on VM rows have to admit; a relation between the states of a transaction that
    such statements respect is then respected by every call. *)

From S2P Require Import Prelude Std Slot State Db TxLogic Storage StorageFacts Lifecycle StorageRefines VmFacts.

(** ** Effects *)

Section effects.
Context (E : JobId -> JobRow -> JobRow -> Prop) (F : VmRow -> VmRow -> Prop).

Definition job_effect (now : Z) (i : JobId) (old new : option JobRow) : Prop :=
  match old, new with
  | None, None => True
  | None, Some r' => exists t p o, r' = new_job now t p o
  | Some r, Some r' => r' = r \/ E i r r'
  | Some _, None => False
  end.

(** The edit is followed by the trigger on [last_status_update]. *)
Definition vm_effect (now : Z) (old new : option VmRow) : Prop :=
  match old, new with
  | None, None => True
  | None, Some r' => exists s, r' = new_vm now s
  | Some r, Some r' => r' = r \/ exists r1, F r r1 /\ r' = status_trigger now r r1
  | Some _, None => False
  end.

Record effect (now : Z) (a b : Db) : Prop := {
  eff_jobs : forall i, job_effect now i (db_jobs a !! i) (db_jobs b !! i);
  eff_vms : forall v, vm_effect now (db_vms a !! v) (db_vms b !! v);
}.

Lemma job_effect_same now i o : job_effect now i o o.
Proof. destruct o; cbn; auto. Qed.

Lemma vm_effect_same now o : vm_effect now o o.
Proof. destruct o; cbn; auto. Qed.

Lemma effect_same now a b : db_vms b = db_vms a -> db_jobs b = db_jobs a -> effect now a b.
Proof. intros Ev Ej. split; intros; [rewrite Ej; apply job_effect_same|rewrite Ev; apply vm_effect_same]. Qed.

Lemma update_jobs_effect now w f db :
  (forall i r, db_jobs db !! i = Some r -> w i r = true -> f i r = r \/ E i r (f i r)) ->
  effect now db (update_jobs w f db).
Proof.
  intros Hf. split; intros i; [|apply vm_effect_same]. rewrite update_jobs_lookup.
  destruct (db_jobs db !! i) as [r|] eqn:Hr; cbn; [|done]. destruct (w i r) eqn:Hw; auto.
Qed.

Lemma update_vms_effect now w f db :
  (forall v r, db_vms db !! v = Some r -> w v r = true -> f v r = r \/ F r (f v r)) ->
  effect now db (update_vms now w f db).
Proof.
  intros Hf. split; intros v; [apply job_effect_same|]. rewrite update_vms_lookup.
  destruct (db_vms db !! v) as [r|] eqn:Hr; cbn; [|done]. destruct (w v r) eqn:Hw; [|auto].
  destruct (Hf v r Hr Hw) as [-> |]; [left|right; eauto]. unfold status_trigger. by rewrite decide_True.
Qed.

Lemma insert_vm_effect now s db v db' : insert_vm now s db = Some (v, db') -> effect now db db'.
Proof.
  intros (Hnone & Ev & Ej & _)%insert_vm_spec. split; intros k; [rewrite Ej; apply job_effect_same|]. rewrite Ev.
  destruct (decide (k = v)) as [-> |Hne]; [|rewrite lookup_insert_ne by done; apply vm_effect_same].
  rewrite lookup_insert_eq, Hnone. cbn. eauto.
Qed.
End effects.

(** A statement that inserts several jobs. *)
Lemma insert_jobs_rows `{Postgres} now t p options db ids db' :
  insert_jobs now t p options db = Some (ids, db') ->
  db_vms db' = db_vms db /\ forall i, db_jobs db' !! i = db_jobs db !! i
    \/ db_jobs db !! i = None /\ exists o, db_jobs db' !! i = Some (new_job now t p o).
Proof.
  revert db ids db'. induction options as [|o options IH]; cbn; intros db ids db'.
  { intros [= _ <-]. auto. }
  destruct (jsonb_in o) as [o'|]; [cbn|done]. case_bool; [|done]. rewrite new_key_spec in Heqb.
  destruct (insert_jobs _ _ _ _ _) as [[ids' db1]|] eqn:Hi; [cbn|done]. intros [= _ <-].
  apply IH in Hi as [Hv Hj]. split; [done|]. intros i. specialize (Hj i). cbn in Hj.
  destruct (decide (i = seq_jobs db)) as [-> |Hne]; [|by rewrite lookup_insert_ne in Hj by done].
  right. split; [apply Heqb|]. rewrite lookup_insert_eq in Hj. destruct Hj as [-> |[? _]]; [eauto|done].
Qed.

Lemma insert_jobs_effect `{Postgres} E F now t p options db ids db' :
  insert_jobs now t p options db = Some (ids, db') -> effect E F now db db'.
Proof.
  intros [Hv Hj]%insert_jobs_rows. split; intros i; [|rewrite Hv; apply vm_effect_same].
  destruct (Hj i) as [-> |[-> [o ->]]]; [apply job_effect_same|]. cbn. eauto.
Qed.

(** ** Which edits the storage makes *)

(** [n] and [m] are the limits on restarts that the calls are given. *)
Class RowEdits (n m : Z) (E : JobId -> JobRow -> JobRow -> Prop) (F : VmRow -> VmRow -> Prop) : Prop := {
  re_assign : forall i v r, job_open r -> E i r (set_j_vm_id v (set_j_status Scheduled r));
  re_cancel : forall i r, job_open r -> E i r (cancel_row r);
  re_requeue : forall i r, job_restartable r -> j_restart_count r < n ->
    E i r (set_j_restart_count (j_restart_count r + 1) (set_j_status Queued r));
  re_fail : forall i r, job_restartable r -> E i r (set_j_status InternalError r);
  re_vm : forall r r', vm_edit r r' -> v_restart_count r' = v_restart_count r -> F r r';
  re_idle : forall c k r, F r (set_v_idle c k r);
  re_restart : forall r, v_status r = Allocating -> v_restart_count r < m ->
    F r (set_v_restart_count (v_restart_count r + 1) (set_v_status PendingAllocation r));
}.

(** The limits a call is given are within [n] and [m]. *)
Definition op_within (n m : Z) (op : StorageOp) : Prop :=
  match op with
  | OpRestartStaleAllocatingVms _ vmAttempts => vmAttempts <= m
  | OpTerminateStaleAllocatingVms _ _ jobAttempts => jobAttempts <= n
  | OpRollbackUnallocatedVmsState _ vmAttempts jobAttempts => vmAttempts <= m /\ jobAttempts <= n
  | OpTerminateVmsWithInactiveAgents _ jobAttempts => jobAttempts <= n
  | OpTerminateVmsWithoutAgents _ jobAttempts => jobAttempts <= n
  | _ => True
  end.

Lemma op_within_some op : exists n m, op_within n m op.
Proof.
  destruct op; cbn; try (by exists 0, 0);
    match goal with
    | |- exists n m, ?x <= m /\ ?y <= n => by exists y, x
    | |- exists n m, ?x <= _ => by exists x, x
    end.
Qed.

(** The status a report writes is one the relation admits. *)
Definition reports_edit (E : JobId -> JobRow -> JobRow -> Prop) (op : StorageOp) : Prop :=
  match op with
  | OpUpdateJobState v j s => forall now r, job_open r -> j_vm_id r = Some v -> E j r (report_row now s r)
  | _ => True
  end.

(** A relation that statements with admitted effects respect. *)
Class EffectRel (E : JobId -> JobRow -> JobRow -> Prop) (F : VmRow -> VmRow -> Prop)
    (T : Env -> TxState -> TxState -> Prop) : Prop := {
  #[global] er_rel :: TxRel T;
  er_effect : forall env st db', effect E F (env_now env) (tx_db st) db' -> T env st (executed env db' st);
}.

Lemma wp_respects {A} T env (m : Tx A) (Q : TxOut A -> TxState -> Prop) st :
  wp env m Q st -> respects T m -> wp env m (fun o st' => Q o st' /\ T env st st') st.
Proof. intros HQ Hm. apply wp_conj; [done|]. apply Hm. Qed.

(** ** Statements and calls *)

Section statements.
Context `{StdLib} `{Postgres}.
Context {n m : Z} {E : JobId -> JobRow -> JobRow -> Prop} {F : VmRow -> VmRow -> Prop} `{!RowEdits n m E F}.
Context {T : Env -> TxState -> TxState -> Prop} `{!EffectRel E F T}.

Definition query_effect {A} (q : Env -> Db -> option (A * Db)) : Prop :=
  forall env db a db', q env db = Some (a, db') -> effect E F (env_now env) db db'.

Lemma exec_effect {A} (q : Env -> Db -> option (A * Db)) : query_effect q -> respects T (exec q).
Proof. intros Hq. apply respects_exec. intros env st a db' Hs. by eapply er_effect, Hq. Qed.

Local Ltac edits_step := first [keeps_step|apply exec_effect].

(** A statement that edits each row in one of the ways of the class. *)
Local Ltac by_row :=
  intros ? ? ? ?; try case_bool; try done; intros [= _ <-];
  (apply update_vms_effect || apply update_jobs_effect); intros ? ? ? ?; split_bools; subst; cbn beta.

Local Ltac vm_row := right; apply re_vm; [by constructor|done].

Lemma execWritableQuery_edits {A} (q : Env -> Db -> option (A * Db)) :
  query_effect q -> respects T (execWritableQuery_ q).
Proof. intros Hq. unfold execWritableQuery_. repeat edits_step. done. Qed.

Lemma move_vms_edits from to limit :
  (forall r, v_status r = from -> vm_edit r (set_v_status to r)) -> query_effect (move_vms from to limit).
Proof.
  intros Hedit env db a db'. unfold move_vms. case_bool; [|done]. intros [= _ <-]. apply update_vms_effect.
  intros v r Hr Hw%bool_decide_eq_true. right. apply re_vm; [|done]. apply Hedit.
  apply pick_vms_elem in Hw as (r' & ? & ? & _). by simplify_eq.
Qed.

Lemma set_status_edits vmIds s :
  (forall r, vm_edit r (set_v_status s r)) -> query_effect (set_status_query vmIds s).
Proof. intros Hs. destruct vmIds; [done|]. unfold set_status_query. by_row. right. by apply re_vm. Qed.

Lemma save_allocation_edits id info : query_effect (save_allocation_query id info).
Proof. unfold save_allocation_query. by_row. vm_row. Qed.

Lemma release_edits jobIds : respects T (releaseVmResources jobIds).
Proof. unfold releaseVmResources. repeat edits_step. unfold release. by_row. right. apply re_idle. Qed.

Lemma cancelJobs_edits c : respects T (cancelJobs_ c).
Proof.
  unfold cancelJobs_. repeat first [apply release_edits|edits_step]. unfold cancel_query. by_row.
  right. unfold job_condition in *. split_bools. by apply re_cancel.
Qed.

Lemma restart_vms_edits c k : k <= m -> query_effect (restart_vms_query c k).
Proof. intros Hk. unfold restart_vms_query. by_row. right. apply re_restart; [done|lia]. Qed.

Lemma restartJobs_edits vmIds s k :
  (forall r, j_status r = s -> job_restartable r) -> k <= n -> respects T (restartJobs vmIds s k).
Proof.
  intros Hs Hk. unfold restartJobs, requeue_query, fail_query. repeat edits_step; by_row; right.
  - apply re_requeue; [by apply Hs|lia].
  - by apply re_fail, Hs.
Qed.

Lemma terminateVms_edits c from to k l :
  (forall r, vm_edit r (set_v_status to r)) -> l <= n -> respects T (terminateVms_ c from to k l).
Proof.
  intros Hto Hl. unfold terminateVms_, terminate_query.
  repeat first [apply restartJobs_edits; [by left|done]|edits_step]. by_row. right. by apply re_vm.
Qed.

Lemma inactive_edits limit k : k <= n -> respects T (terminateVmsWithInactiveAgents_txn limit k).
Proof.
  intros Hk. unfold terminateVmsWithInactiveAgents_txn, inactive_query.
  repeat first [apply restartJobs_edits; [by right|done]|edits_step]. by_row. vm_row.
Qed.

Lemma addTask_edits p : respects T (addTask_txn p).
Proof.
  unfold addTask_txn. repeat edits_step.
  - intros env db t db'. unfold insert_task. destruct (jsonb_in _); [cbn|done]. case_bool; [|done].
    intros [= _ <-]. by apply effect_same.
  - intros env db ids db'. unfold insert_jobs_query. destruct (tp_jobOptions p); [done|].
    case_bool; [|done]. apply insert_jobs_effect.
Qed.

Lemma acquireLock_edits : respects T acquireLock_.
Proof. unfold acquireLock_. repeat edits_step. intros env db x db' [= _ <-]. by apply effect_same. Qed.

Lemma startScheduling_edits b i l : respects T (startScheduling_txn b i l).
Proof.
  unfold startScheduling_txn, checkLeader_, planWasRecentlyUpdated_, insertNewPlanRecord_.
  apply respects_and_then; [apply acquireLock_edits|]. intros _. repeat edits_step.
  - intros env db x db'. case_bool; [|done]. intros [= _ <-]. by apply effect_same.
  - intros env db x db'. unfold insert_plan. case_bool; [|done]. intros [= _ <-]. by apply effect_same.
Qed.

Lemma updateJobState_edits v j s :
  (forall now r, job_open r -> j_vm_id r = Some v -> E j r (report_row now s r)) ->
  respects T (updateJobState_txn v j s).
Proof.
  intros Hs. unfold updateJobState_txn. repeat first [apply release_edits|edits_step]; by_row; right; by apply Hs.
Qed.

Lemma getAssignedJobs_edits v : respects T (getAssignedJobs_txn v).
Proof. unfold getAssignedJobs_txn. repeat edits_step; by_row; vm_row. Qed.

(** ** Committing a plan *)

Lemma terminatePlannedVms_edits l : respects T (terminatePlannedVms_ l).
Proof. unfold terminatePlannedVms_. repeat edits_step. by_row. vm_row. Qed.

Lemma updateVmCapacities_edits c : respects T (updateVmCapacities_ c).
Proof.
  unfold updateVmCapacities_. repeat edits_step. by_row.
  match goal with |- context [?c !! ?i] => destruct (c !! i); [right; apply re_idle|by left] end.
Qed.

Lemma allocate_loop_edits todo : forall acc, respects T (allocate_loop todo acc).
Proof.
  induction todo as [|[d s] todo IH]; intros acc; cbn [allocate_loop]; repeat edits_step; [|apply IH].
  intros env db x db'. apply insert_vm_effect.
Qed.

Lemma checks_edits c planId : respects T (isSchedulingRelevant_ planId) /\ respects T (checkConflicts_ c).
Proof.
  unfold isSchedulingRelevant_, checkConflicts_, getJobStatusesWithLock, getVmStatusesWithLock.
  split; repeat edits_step.
Qed.

Lemma refreshPlanActivityTs_edits planId : respects T (refreshPlanActivityTs_ planId).
Proof. unfold refreshPlanActivityTs_. repeat edits_step. intros env db x db' [= _ <-]. by apply effect_same. Qed.

(** The assignments are applied to jobs that the check found open. *)
Lemma applyJobVmAssignments_edits env a slots st :
  (forall i r, is_Some (a !! i) -> db_jobs (tx_db st) !! i = Some r -> job_open r) ->
  wp env (applyJobVmAssignments_ a slots) (fun _ st' => T env st st') st.
Proof.
  intros Hopen. unfold applyJobVmAssignments_. wp_step; [by apply wp_ret, tx_rel_silent|].
  wp_step; [by do 2 wp_step; apply tx_rel_silent|]. do 3 wp_step; cbn [chain caught]; [by apply tx_rel_silent|].
  apply wp_ret. cbn [caught]. apply er_effect.
  match goal with K : (if _ then _ else _) = _ |- _ => revert K; case_bool; [|done]; intros [= _ <-] end.
  apply update_jobs_effect. intros i r Hr Hw. split_bools. destruct Hw as [v Hv]. right.
  unfold assign_row. rewrite Hv. apply re_assign, (Hopen i); [|done].
  rewrite lookup_omap in Hv. destruct (a !! i); [by eauto|done].
Qed.

(** A step of a method: what is known after it, and that it respects the relation. *)
Local Ltac wp_through spec edits :=
  wp_step; eapply wp_mono; [eapply (wp_respects T); [apply spec|apply edits]|].

Local Ltac wp_leave := cbn [chain]; try apply wp_ret; try first [eassumption|eapply tx_rel_trans; eassumption|tauto].

Lemma commitPlanChange_edits c planId : respects T (commitPlanChange_txn c planId).
Proof.
  intros env st. change (wp env (commitPlanChange_txn c planId) (fun _ st' => T env st st') st).
  destruct (checks_edits c planId) as [Hrelevant Hconflicts]. unfold commitPlanChange_txn.
  wp_through acquireLock_spec acquireLock_edits. intros [[[]|e]|e|] st1 [_ R1]; wp_leave.
  wp_through isSchedulingRelevant_spec Hrelevant. intros [[b|e]|e|] st2 [_ R2]; wp_leave.
  assert (T env st st2) as S2 by wp_leave. wp_step; wp_leave.
  wp_through checkConflicts_spec Hconflicts. intros [[[]|e]|e|] st3 [[_ E3] R3]; wp_leave.
  destruct E3 as (E3 & Hjobs & _). assert (T env st st3) as S3 by wp_leave.
  wp_through terminatePlannedVms_spec terminatePlannedVms_edits. intros [[[]|e]|e|] st4 [[_ E4] R4]; wp_leave.
  assert (T env st st4) as S4 by wp_leave.
  wp_through updateVmCapacities_spec updateVmCapacities_edits. intros [[[]|e]|e|] st5 [[_ E5] R5]; wp_leave.
  assert (T env st st5) as S5 by wp_leave. wp_step.
  eapply wp_mono; [eapply (wp_respects T); [apply allocate_loop_spec, unordered_nodup|apply allocate_loop_edits]|].
  intros [[slots|e]|e|] st6 [[_ E6] R6]; wp_leave. assert (T env st st6) as S6 by wp_leave.
  assert (db_jobs (tx_db st6) = db_jobs (tx_db st2)) as J6.
  { destruct E6 as [_ _ _ _ _ (-> & _)]. destruct E5 as [(-> & _) _]. destruct E4 as [(-> & _) _]. by rewrite E3. }
  wp_step. eapply wp_mono; [apply applyJobVmAssignments_edits|].
  { intros i r. rewrite J6. apply Hjobs. }
  intros [[[]|e]|e|] st7 R7; wp_leave. assert (T env st st7) as S7 by wp_leave.
  eapply wp_mono; [eapply (wp_respects T) with (Q := fun _ _ => True); [done|]|].
  { apply respects_and_then; [apply refreshPlanActivityTs_edits|]. intros _. repeat edits_step. }
  intros o st8 [_ R8]. wp_leave.
Qed.

(** ** Calls *)

(** The transactions of a call respect a relation. *)
Definition op_respects (op : StorageOp) : Prop :=
  match op with
  | OpAddTask p => respects T (addTask_txn p)
  | OpStartScheduling b i l => respects T (startScheduling_txn b i l)
  | OpGetCurrentState => respects T getCurrentState_txn
  | OpCommitPlanChange c p => respects T (commitPlanChange_txn c p)
  | OpGetVmsToAllocate k => respects T (getVmsToAllocate_txn k)
  | OpGetVmsToTerminate k => respects T (getVmsToTerminate_txn k)
  | OpReturnUnterminatedVms l => respects T (setVmStatus_ l PendingTermination)
  | OpSaveVmTerminationResult v => respects T (setVmStatus_ [v] Terminated)
  | OpSaveVmAllocationResult v i => respects T (execWritableQuery_ (save_allocation_query v i))
  | OpCancelTask t => respects T (cancelJobs_ (OfTask t))
  | OpCancelTimedOutJobs => respects T (cancelJobs_ TimedOut)
  | OpGetJobStates t => respects T (getJobStates_txn t)
  | OpRestartStaleAllocatingVms l k => respects T (restartAllocatingVms_ (StatusOlderThan l) k)
  | OpTerminateStaleAllocatingVms l k k' =>
    respects T (terminateVms_ (StatusOlderThan l) Allocating Terminated k k')
  | OpRollbackUnallocatedVmsState l k k' =>
    respects T (restartAllocatingVms_ (VmIdIn l) k)
    /\ respects T (terminateVms_ (VmIdIn l) Allocating Terminated k k')
  | OpTerminateVmsWithInactiveAgents l k => respects T (terminateVmsWithInactiveAgents_txn l k)
  | OpTerminateVmsWithoutAgents l k =>
    respects T (terminateVms_ (StatusOlderThan l) Allocated PendingTermination 0 k)
  | OpGetAssignedJobs v => respects T (getAssignedJobs_txn v)
  | OpGetJobToLaunch v j => respects T (getJobToLaunch_txn v j)
  | OpUpdateJobState v j s => respects T (updateJobState_txn v j s)
  | OpGetAllocatedVms => respects T getAllocatedVms_txn
  end.

Lemma op_edits op : op_within n m op -> reports_edit E op -> op_respects op.
Proof.
  destruct op; cbn [op_within reports_edit op_respects]; intros Hop Hrep.
  - apply addTask_edits.
  - apply startScheduling_edits.
  - unfold getCurrentState_txn, readOnlyTransaction_, getQueuedJobs_, getActiveVms_. by repeat edits_step.
  - apply commitPlanChange_edits.
  - unfold getVmsToAllocate_txn. repeat edits_step. apply execWritableQuery_edits, move_vms_edits. by constructor.
  - unfold getVmsToTerminate_txn. repeat edits_step. apply execWritableQuery_edits, move_vms_edits. by constructor.
  - apply execWritableQuery_edits, set_status_edits. constructor.
  - apply execWritableQuery_edits, set_status_edits. constructor.
  - apply execWritableQuery_edits, save_allocation_edits.
  - apply cancelJobs_edits.
  - apply cancelJobs_edits.
  - unfold getJobStates_txn. by repeat edits_step.
  - by apply execWritableQuery_edits, restart_vms_edits.
  - apply terminateVms_edits; [constructor|done].
  - destruct Hop. split; [by apply execWritableQuery_edits, restart_vms_edits|].
    apply terminateVms_edits; [constructor|done].
  - by apply inactive_edits.
  - apply terminateVms_edits; [constructor|done].
  - apply getAssignedJobs_edits.
  - unfold getJobToLaunch_txn. by repeat edits_step.
  - by apply updateJobState_edits.
  - unfold getAllocatedVms_txn. by repeat edits_step.
Qed.
End statements.
Arguments op_respects {_ _} T op.

(** Relations between databases pass from the statements to the call. *)
Lemma op_respects_db `{StdLib} `{Postgres} R `{!TxOrder R} op env env2 db :
  op_respects (on_db R) op -> R db (op_db op env env2 db).
Proof.
  destruct op; cbn [op_respects op_db]; intros Hop; try (by apply run_call_keeps).
  destruct Hop as [H1 H2]. unfold rollbackUnallocatedVmsState.
  pose proof (run_call_keeps _ env db H1) as Hfirst.
  destruct (run_call _ env db) as [[a|e] db1|db1]; cbn in *; [|done..]. etrans; [exact Hfirst|]. by apply run_call_keeps.
Qed.
