(* ===== verification/StatusLogs.v ===== *)
(** * The status logs

    The triggers [update_vm_log] and [update_job_log] write a row for every VM and job
    that is inserted or changes its status.  In any run of the storage the log of a
    job, or of a VM, is its history: a walk from its first status to its present one,
    along the transitions the statements make. *)

From S2P Require Import Prelude Std Slot State Db TxLogic Storage Lifecycle StorageRefines RowEdits Api.

(** ** Histories *)

(** The rows of the log for one id: statuses with the time they were entered. *)
Definition history {S} (i : Z) (log : list (LogRow S)) : list (S * Z) :=
  (fun e => (log_status e, log_timestamp e)) <$> filter (fun e => log_id e = i) log.

Fixpoint walks {S} (edge : S -> S -> bool) (h : list S) : bool :=
  match h with
  | s :: ((s' :: _) as h') => edge s s' && walks edge h'
  | _ => true
  end.

Lemma walks_snoc {S} (edge : S -> S -> bool) h s x :
  walks edge h = true -> last h = Some x -> edge x s = true -> walks edge (h ++ [s]) = true.
Proof.
  induction h as [|a [|b h] IH]; [done| |].
  - cbn. intros _ [= ->]. by intros ->.
  - intros [Ha Hw]%andb_true_iff Hl He. change (edge a b && walks edge ((b :: h) ++ [s]) = true).
    rewrite Ha, IH; done.
Qed.

(** A status no transition leaves is the last one of a walk. *)
Lemma walks_stop {S} (edge : S -> S -> bool) (h : list S) k s :
  walks edge h = true -> h !! k = Some s -> (forall s', edge s s' = false) -> length h = Datatypes.S k.
Proof.
  revert k. induction h as [|a [|b h] IH]; intros k Hw Hk Hs; [done| |].
  - by destruct k.
  - apply andb_true_iff in Hw as [Ha Hw]. destruct k as [|k].
    + injection Hk as ->. by rewrite Hs in Ha.
    + change ((b :: h) !! k = Some s) in Hk. specialize (IH k Hw Hk Hs). cbn in *. lia.
Qed.

Lemma history_app {S} i (a b : list (LogRow S)) : history i (a ++ b) = history i a ++ history i b.
Proof. unfold history. by rewrite filter_app, fmap_app. Qed.

Section tables.
Context {R S : Type} `{EqDecision S} (status : R -> S).

(** What a statement adds to the history of a row. *)
Definition entry (now : Z) (old new : option R) : list (S * Z) :=
  match new with
  | None => []
  | Some r => if decide (status <$> old = Some (status r)) then [] else [(status r, now)]
  end.

Lemma history_entries now (old : gmap Z R) i (l : list (Z * R)) :
  NoDup l.*1 ->
  history i (omap (fun ir => if decide (status <$> old !! ir.1 = Some (status ir.2)) then None
                             else Some (mkLog ir.1 (status ir.2) now)) l)
  = entry now (old !! i) ((list_to_map l : gmap Z R) !! i).
Proof.
  induction l as [|[k r] l IH]; [done|]. cbn [fmap list_fmap]. intros [Hk Hl]%NoDup_cons.
  specialize (IH Hl). cbn [list_to_map foldr]. cbn [omap list_omap fst snd] in *.
  destruct (decide (k = i)) as [-> |Hne].
  - rewrite not_elem_of_list_to_map_1 in IH by done. rewrite lookup_insert_eq. cbn [entry] in *.
    case_decide; [done|]. unfold history in *. rewrite filter_cons_True by done. cbn. by rewrite IH.
  - rewrite lookup_insert_ne by done. case_decide; [done|]. unfold history in *.
    by rewrite filter_cons_False by done.
Qed.

Lemma history_status_log now old new i :
  history i (status_log status now old new) = entry now (old !! i) (new !! i).
Proof.
  unfold status_log. rewrite history_entries by apply NoDup_fst_map_to_list. by rewrite list_to_map_to_list.
Qed.

(** ** Tables and their logs *)

(** Transitions; the first status; when a row was created; what is known of the time
    of its last transition. *)
Context (edge : S -> S -> bool) (init : S) (created : R -> Z) (entered : R -> Z -> Prop).

Definition row_logged (log : list (LogRow S)) (i : Z) (row : option R) : Prop :=
  match row with
  | None => history i log = []
  | Some r =>
    walks edge (history i log).*1 = true
    /\ head (history i log) = Some (init, created r)
    /\ exists t, last (history i log) = Some (status r, t) /\ entered r t
  end.

(** What a statement may do to a row. *)
Definition row_moves (now : Z) (old new : option R) : Prop :=
  match old, new with
  | None, None => True
  | None, Some r' => status r' = init /\ created r' = now /\ entered r' now
  | Some r, Some r' =>
    created r' = created r
    /\ (status r' = status r /\ (forall t, entered r t -> entered r' t)
        \/ status r' <> status r /\ edge (status r) (status r') = true /\ entered r' now)
  | Some _, None => False
  end.

Lemma row_logged_moves log i now old new add :
  row_logged log i old -> row_moves now old new -> history i add = entry now old new ->
  row_logged (log ++ add) i new.
Proof.
  unfold row_logged. intros Hlog Hm Hadd. destruct old as [r|], new as [r'|]; cbn in Hm, Hadd; [| | |].
  - destruct Hlog as (Hw & Hh & t & Hl & He), Hm as [Hc Hm]. rewrite history_app, Hadd, Hc.
    destruct Hm as [[Es Hkeep]|(Es & Hedge & Hnow)].
    + rewrite Es, decide_True, app_nil_r by done. eauto 6.
    + rewrite decide_False by congruence. rewrite fmap_app, last_snoc. split; [|split; [|eauto]].
      * eapply walks_snoc; [done| |exact Hedge]. by rewrite fmap_last, Hl.
      * by destruct (history i log).
  - done.
  - destruct Hm as (Es & <- & He). rewrite history_app, Hadd, Hlog, decide_False, Es by done. cbn. eauto.
  - by rewrite history_app, Hadd, Hlog.
Qed.

Definition table_logged (log : list (LogRow S)) (t : gmap Z R) : Prop := forall i, row_logged log i (t !! i).

Lemma table_logged_moves log now old new :
  table_logged log old -> (forall i, row_moves now (old !! i) (new !! i)) ->
  table_logged (log ++ status_log status now old new) new.
Proof. intros Hlog Hm i. eapply row_logged_moves; [apply Hlog|apply Hm|apply history_status_log]. Qed.
End tables.

(** ** The transitions the statements make *)

Definition job_edge (s s' : JobStatus) : bool :=
  match s, s' with
  | Queued, (Scheduled | Running | Completed | Error | Cancelled) => true
  | Scheduled, (Queued | Running | Completed | Error | InternalError | Cancelling | Cancelled) => true
  | Running, (Queued | Scheduled | Completed | Error | InternalError | Cancelling | Cancelled) => true
  | _, _ => false
  end.

(** Termination and the results of the cloud are written whatever the status is. *)
Definition vm_edge (s s' : VmStatus) : bool :=
  match s, s' with
  | _, (Allocated | PendingTermination | Terminated) => true
  | PendingAllocation, Allocating => true
  | Allocating, PendingAllocation => true
  | Allocated, AgentStarted => true
  | PendingTermination, Terminating => true
  | _, _ => false
  end.

Lemma job_edge_final s s' : job_final s = true -> job_edge s s' = false.
Proof. by destruct s. Qed.

Definition job_moves (_ : JobId) (r r' : JobRow) : Prop :=
  j_created r' = j_created r /\ (j_status r' = j_status r \/ job_edge (j_status r) (j_status r') = true).

(** Before the trigger sets [last_status_update]. *)
Definition vm_moves (r r' : VmRow) : Prop :=
  v_created r' = v_created r /\ v_last_status_update r' = v_last_status_update r
  /\ (v_status r' = v_status r \/ vm_edge (v_status r) (v_status r') = true).

#[export] Instance moves_edits n m : RowEdits n m job_moves vm_moves.
Proof.
  split; unfold job_moves, vm_moves, job_open, job_restartable, cancel_row; cbn.
  - intros _ v r Ho. split; [done|]. by destruct (j_status r); auto.
  - intros _ r Ho. split; [done|]. right. by destruct (j_status r).
  - intros _ r [-> | ->]; auto.
  - intros _ r [-> | ->]; auto.
  - intros r r' He _. destruct He as [r|r|r Hs|r Hs|r|r Hs|r Hs|r|r|r]; cbn;
      try (rewrite ?Hs; by destruct (v_status r); auto); by repeat split; right; rewrite Hs.
  - auto.
  - intros r -> _. auto.
Qed.

(** Reports with the statuses the API lets pass. *)
Definition screened (op : StorageOp) : Prop :=
  match op with
  | OpUpdateJobState _ _ s => js_status s ∈ getAllowedAgentUpdateJobStatuses
  | _ => True
  end.

Lemma screened_moves op : screened op -> reports_edit job_moves op.
Proof.
  destruct op; try done. cbn [screened reports_edit]. intros Hs now r Ho _. unfold job_moves.
  assert (j_created (report_row now s r) = j_created r /\ j_status (report_row now s r) = js_status s) as [-> ->].
  { unfold report_row. by case_bool. }
  split; [done|]. revert Hs Ho. unfold job_open, getAllowedAgentUpdateJobStatuses.
  destruct (js_status s), (j_status r); try done; auto; set_solver.
Qed.

(** ** The database and its logs *)

(** The last transition of a VM is when its [last_status_update] says. *)
Record logs_ok (db : Db) (logs : Logs) : Prop := {
  lo_jobs : table_logged j_status job_edge Queued j_created (fun _ _ => True) (job_statuses_log logs) (db_jobs db);
  lo_vms : table_logged v_status vm_edge PendingAllocation v_created (fun r t => v_last_status_update r = t)
    (vm_statuses_log logs) (db_vms db);
}.

Lemma effect_logs now a b logs :
  effect job_moves vm_moves now a b -> logs_ok a logs -> logs_ok b (add_logs logs (statement_logs now a b)).
Proof.
  intros [Ej Ev] [Hj Hv]. split; cbn; apply table_logged_moves; try done; intros i.
  - specialize (Ej i). destruct (db_jobs a !! i) as [r|], (db_jobs b !! i) as [r'|]; cbn in *; try done.
    + destruct Ej as [-> |[Hc Hs]]; [by auto|]. split; [done|].
      destruct (decide (j_status r' = j_status r)); [by left|right]. by destruct Hs.
    + by destruct Ej as (t & p & o & ->).
  - specialize (Ev i). destruct (db_vms a !! i) as [r|], (db_vms b !! i) as [r'|]; cbn in *; try done.
    + destruct Ev as [-> |(r1 & (Hc & Hu & Hs) & ->)]; [by auto|]. unfold status_trigger. case_decide as Heq.
      * split; [done|]. left. split; [done|]. by rewrite Hu.
      * cbn. split; [done|]. right. destruct Hs; [congruence|auto].
    + by destruct Ev as [s ->].
Qed.

(** ** Invariants of the tables with their logs *)

(** What single statements keep, when they are made of the edits [E] and [F]. *)
Class LogInvariant (E : JobId -> JobRow -> JobRow -> Prop) (F : VmRow -> VmRow -> Prop)
    (P : Db -> Logs -> Prop) : Prop := {
  li_tables : forall a b logs, db_jobs b = db_jobs a -> db_vms b = db_vms a -> P a logs -> P b logs;
  li_effect : forall now a b logs, effect E F now a b -> P a logs -> P b (add_logs logs (statement_logs now a b));
}.

#[export] Instance logs_ok_invariant : LogInvariant job_moves vm_moves logs_ok.
Proof. split; [|apply effect_logs]. intros a b logs Ej Ev []. split; by rewrite ?Ej, ?Ev. Qed.

(** What a transaction adds to the logs goes with what it does to the tables. *)
Definition logs_along (P : Db -> Logs -> Prop) (_ : Env) (a b : TxState) : Prop :=
  forall base, P (tx_db a) (add_logs base (tx_logs a)) -> P (tx_db b) (add_logs base (tx_logs b)).

Lemma add_logs_assoc a b c : add_logs a (add_logs b c) = add_logs (add_logs a b) c.
Proof. unfold add_logs. cbn. by rewrite !app_assoc. Qed.

Lemma add_logs_none a : add_logs a no_logs = a.
Proof. unfold add_logs. cbn. rewrite !app_nil_r. by destruct a. Qed.

#[export] Instance logs_along_effects E F P `{!LogInvariant E F P} : EffectRel E F (logs_along P).
Proof.
  split; [split|].
  - by intros env a b Hd Hl base; rewrite Hd, Hl.
  - intros env a b c Hab Hbc base Ha. auto.
  - intros env st db' He base Hok. cbn. rewrite add_logs_assoc. by apply li_effect.
Qed.

(** ** Calls *)

Section calls.
Context `{StdLib} `{Postgres}.

(** What a call adds to the logs. *)
Definition op_logs (op : StorageOp) (env env2 : Env) (db : Db) : Logs :=
  match op with
  | OpAddTask p => call_logs (addTask_txn p) env db
  | OpStartScheduling b i l => call_logs (startScheduling_txn b i l) env db
  | OpGetCurrentState => call_logs getCurrentState_txn env db
  | OpCommitPlanChange c p => call_logs (commitPlanChange_txn c p) env db
  | OpGetVmsToAllocate k => call_logs (getVmsToAllocate_txn k) env db
  | OpGetVmsToTerminate k => call_logs (getVmsToTerminate_txn k) env db
  | OpReturnUnterminatedVms l => call_logs (setVmStatus_ l PendingTermination) env db
  | OpSaveVmTerminationResult v => call_logs (setVmStatus_ [v] Terminated) env db
  | OpSaveVmAllocationResult v i => call_logs (execWritableQuery_ (save_allocation_query v i)) env db
  | OpCancelTask t => call_logs (cancelJobs_ (OfTask t)) env db
  | OpCancelTimedOutJobs => call_logs (cancelJobs_ TimedOut) env db
  | OpGetJobStates t => call_logs (getJobStates_txn t) env db
  | OpRestartStaleAllocatingVms l k => call_logs (restartAllocatingVms_ (StatusOlderThan l) k) env db
  | OpTerminateStaleAllocatingVms l k k' =>
    call_logs (terminateVms_ (StatusOlderThan l) Allocating Terminated k k') env db
  | OpRollbackUnallocatedVmsState l k k' =>
    add_logs (call_logs (restartAllocatingVms_ (VmIdIn l) k) env db)
      (match run_call (restartAllocatingVms_ (VmIdIn l) k) env db with
       | Answer (Success _) db1 => call_logs (terminateVms_ (VmIdIn l) Allocating Terminated k k') env2 db1
       | _ => no_logs
       end)
  | OpTerminateVmsWithInactiveAgents l k => call_logs (terminateVmsWithInactiveAgents_txn l k) env db
  | OpTerminateVmsWithoutAgents l k =>
    call_logs (terminateVms_ (StatusOlderThan l) Allocated PendingTermination 0 k) env db
  | OpGetAssignedJobs v => call_logs (getAssignedJobs_txn v) env db
  | OpGetJobToLaunch v j => call_logs (getJobToLaunch_txn v j) env db
  | OpUpdateJobState v j s => call_logs (updateJobState_txn v j s) env db
  | OpGetAllocatedVms => call_logs getAllocatedVms_txn env db
  end.

Section invariant.
Context {n m : Z} {E : JobId -> JobRow -> JobRow -> Prop} {F : VmRow -> VmRow -> Prop} `{!RowEdits n m E F}.
Context {P : Db -> Logs -> Prop} `{!LogInvariant E F P}.

Lemma call_logs_kept {A} (t : Tx (Result A)) env db logs :
  respects (logs_along P) t -> P db logs ->
  P (call_db (run_call t env db)) (add_logs logs (call_logs t env db)).
Proof.
  intros Ht Hok. specialize (Ht env (tx_start db) logs). cbn in Ht. rewrite add_logs_none in Ht. specialize (Ht Hok).
  unfold run_call, call_logs, final_db. destruct (t env (tx_start db)) as [[r|e|] st]; cbn in *;
    (destruct (tx_committed st); [done|]; rewrite add_logs_none; by apply (li_tables db)).
Qed.

Lemma op_logs_kept op env env2 db logs :
  op_within n m op -> reports_edit E op -> P db logs ->
  P (op_db op env env2 db) (add_logs logs (op_logs op env env2 db)).
Proof.
  intros Hw Hrep Hok. pose proof (op_edits (T := logs_along P) op Hw Hrep) as Hop.
  destruct op; cbn [op_respects op_db op_logs] in *; try (by apply call_logs_kept).
  destruct Hop as [H1 H2]. pose proof (call_logs_kept _ env db logs H1 Hok) as Hfirst.
  unfold rollbackUnallocatedVmsState. rewrite add_logs_assoc.
  destruct (run_call _ env db) as [[a|e] db1|db1]; cbn in *; rewrite ?add_logs_none; [by apply call_logs_kept|done..].
Qed.
End invariant.

Lemma op_logs_ok op env env2 db logs :
  screened op -> logs_ok db logs ->
  logs_ok (op_db op env env2 db) (add_logs logs (op_logs op env env2 db)).
Proof.
  intros Hs Hok. destruct (op_within_some op) as (n & m & Hw).
  by apply (op_logs_kept (n := n) (m := m)); [|apply screened_moves|].
Qed.

(** The database with its logs, and any sequence of calls. *)
Record LoggedDb : Type := mkLogged { ld_db : Db; ld_logs : Logs }.

Inductive logged_step : LoggedDb -> LoggedDb -> Prop :=
  | logged_call op env env2 s : screened op ->
      logged_step s (mkLogged (op_db op env env2 (ld_db s)) (add_logs (ld_logs s) (op_logs op env env2 (ld_db s)))).

Lemma logged_steps_ok a b : rtc logged_step a b -> logs_ok (ld_db a) (ld_logs a) -> logs_ok (ld_db b) (ld_logs b).
Proof. induction 1 as [|x y z [op env env2 s Hop] _ IH]; [done|]. intros Ha. by apply IH, op_logs_ok. Qed.

(** A sequence of calls, evaluated. *)
Definition run_logged (calls : list (StorageOp * Env)) (s : LoggedDb) : LoggedDb :=
  foldl (fun s c => mkLogged (op_db c.1 c.2 c.2 (ld_db s)) (add_logs (ld_logs s) (op_logs c.1 c.2 c.2 (ld_db s))))
    s calls.

Lemma run_logged_steps calls s : Forall (fun c => screened c.1) calls -> rtc logged_step s (run_logged calls s).
Proof.
  intros Hc. revert s. induction Hc as [|[op env] calls Hop _ IH]; intros s; [done|].
  eapply rtc_l; [by apply (logged_call op env env)|]. apply IH.
Qed.
End calls.
