(* ===== verification/RowInvariants.v ===== *)
(** * Invariants of single rows

    A property of job rows and one of VM rows that every edit of the storage keeps
    hold in every database its calls reach.  What has to be shown of them is the class
    [RowInvariant]: one obligation for each way a row is made or edited. *)

From S2P Require Import Prelude Std Slot State Db TxLogic Storage StorageFacts Lifecycle StorageRefines RowEdits.

(** [n] and [m] are the limits on restarts that the calls are given. *)
Class RowInvariant (n m : Z) (J : JobId -> JobRow -> Prop) (V : VmRow -> Prop) : Prop := {
  ri_new_job : forall i now t p o, J i (new_job now t p o);
  ri_assign : forall i v r, J i r -> J i (set_j_vm_id v (set_j_status Scheduled r));
  ri_cancel : forall i r, job_open r -> J i r -> J i (cancel_row r);
  ri_requeue : forall i r, j_restart_count r < n -> J i r ->
    J i (set_j_restart_count (j_restart_count r + 1) (set_j_status Queued r));
  ri_fail : forall i r, J i r -> J i (set_j_status InternalError r);
  ri_new_vm : forall now s, V (new_vm now s);
  ri_status : forall s r, V r -> V (set_v_status s r);
  ri_idle : forall c k r, V r -> V (set_v_idle c k r);
  ri_cloud : forall i t r, V r -> V (set_v_cloud i t r);
  ri_activity : forall t r, V r -> V (set_v_agent_activity t r);
  ri_updated : forall t r, V r -> V (set_v_last_status_update t r);
  ri_restart : forall r, v_restart_count r < m -> V r ->
    V (set_v_restart_count (v_restart_count r + 1) (set_v_status PendingAllocation r));
}.

Section rows.
Context {n m : Z} {J : JobId -> JobRow -> Prop} {V : VmRow -> Prop} `{!RowInvariant n m J V}.

Record rows_ok (db : Db) : Prop := {
  ro_jobs : forall i r, db_jobs db !! i = Some r -> J i r;
  ro_vms : forall v r, db_vms db !! v = Some r -> V r;
}.

Definition keeps_rows (a b : Db) : Prop := rows_ok a -> rows_ok b.

#[export] Instance keeps_rows_order : TxOrder keeps_rows.
Proof.
  split; [split|].
  - by intros a Ha.
  - intros a b c Hab Hbc Ha. auto.
  - intros a b _ []. by split.
Qed.

Definition keeps_job (i : JobId) (r r' : JobRow) : Prop := J i r -> J i r'.
Definition keeps_vm (r r' : VmRow) : Prop := V r -> V r'.

Lemma vm_edit_kept r r' : vm_edit r r' -> v_restart_count r' = v_restart_count r -> keeps_vm r r'.
Proof.
  intros He Hc Hr. destruct He; try (cbn in Hc; lia);
    repeat first [done|apply ri_cloud|apply ri_status|apply ri_idle|apply ri_activity].
Qed.

#[local] Instance kept_edits : RowEdits n m keeps_job keeps_vm.
Proof.
  split; unfold keeps_job; intros.
  - by apply ri_assign.
  - by apply ri_cancel.
  - by apply ri_requeue.
  - by apply ri_fail.
  - by apply vm_edit_kept.
  - intros ?. by apply ri_idle.
  - intros ?. by apply ri_restart.
Qed.

Lemma effect_keeps_rows now a b : effect keeps_job keeps_vm now a b -> keeps_rows a b.
Proof.
  intros [Ej Ev] [Hj Hv]. split.
  - intros i r' Hr'. specialize (Ej i). rewrite Hr' in Ej. destruct (db_jobs a !! i) as [r|] eqn:Hr; cbn in Ej.
    + specialize (Hj i r Hr). destruct Ej as [-> |Ej]; auto.
    + destruct Ej as (t & p & o & ->). apply ri_new_job.
  - intros v r' Hr'. specialize (Ev v). rewrite Hr' in Ev. destruct (db_vms a !! v) as [r|] eqn:Hr; cbn in Ev.
    + specialize (Hv v r Hr). destruct Ev as [-> |(r1 & Hr1 & ->)]; [done|]. unfold status_trigger.
      case_decide; [by auto|]. by apply ri_updated; auto.
    + destruct Ev as [s ->]. apply ri_new_vm.
Qed.

#[local] Instance kept_effects : EffectRel keeps_job keeps_vm (on_db keeps_rows).
Proof. split; [apply _|]. intros env st db'. apply effect_keeps_rows. Qed.

(** The status a report writes is one the invariant admits. *)
Definition reports_within (op : StorageOp) : Prop := reports_edit keeps_job op.

Lemma op_rows `{StdLib} `{Postgres} op env env2 db :
  op_within n m op -> reports_within op -> keeps_rows db (op_db op env env2 db).
Proof. intros Hop Hrep. apply op_respects_db; [apply _|]. by apply op_edits. Qed.
End rows.
Arguments rows_ok : clear implicits.
Arguments keeps_rows : clear implicits.
Arguments reports_within : clear implicits.
