(* ===== verification/Restarts.v ===== *)
(** * Restarts are bounded

    When every process is configured with the same limits, no storage call takes a
    job's restarts or a VM's allocation attempts beyond them: an invariant of rows. *)

From S2P Require Import Prelude Std Slot State Db TxLogic Storage Lifecycle StorageRefines RowEdits RowInvariants.

Section restarts.
Context (n m : Z) (Hn : 0 <= n) (Hm : 0 <= m).

Definition job_bounded (_ : JobId) (r : JobRow) : Prop := j_restart_count r <= n.
Definition vm_bounded (r : VmRow) : Prop := v_restart_count r <= m.

Definition restarts_bounded : Db -> Prop := rows_ok job_bounded vm_bounded.

#[local] Instance bounded_rows : RowInvariant n m job_bounded vm_bounded.
Proof. split; unfold job_bounded, vm_bounded; intros; cbn in *; lia. Qed.

Lemma report_bounded now s i r : job_bounded i r -> job_bounded i (report_row now s r).
Proof. unfold job_bounded, report_row. by case_bool. Qed.

(** Calls of processes with these limits, in any order. *)
Inductive limited_step `{StdLib} `{Postgres} : Db -> Db -> Prop :=
  | limited_call op env env2 db : op_within n m op -> limited_step db (op_db op env env2 db).

Lemma limited_steps_bounded `{StdLib} `{Postgres} a b :
  rtc limited_step a b -> restarts_bounded a -> restarts_bounded b.
Proof.
  induction 1 as [|x y z [op env env2 d Hop] _ IH]; [done|]. intros Ha. apply IH.
  eapply op_rows; [done| |done]. destruct op; cbn; try done. intros now r _ _ Hr. by apply report_bounded.
Qed.
End restarts.
