(* ===== verification/JobLives.v ===== *)
(** * How often a job changes its status

    The number of entries a job has in the status log is bounded by its restarts, as
    long as the reports tell ends, which is what the agents of src/client report: an
    invariant of the table with its log. *)

From S2P Require Import Prelude Std Slot State Db TxLogic Storage Lifecycle StorageRefines RowEdits RowInvariants.
From S2P Require Import Restarts StatusLogs.

(** How many transitions are left to a job that is not restarted. *)
Definition status_rank (s : JobStatus) : Z :=
  match s with
  | Queued => 2
  | Scheduled => 1
  | _ => 0
  end.

Definition job_potential (r : JobRow) : Z := 2 * j_restart_count r - status_rank (j_status r).

(** A transition uses up some of the potential; a restart adds to it. *)
Definition life_moves (_ : JobId) (r r' : JobRow) : Prop :=
  j_status r <> Running ->
  j_status r' <> Running
  /\ (j_status r' = j_status r /\ job_potential r' = job_potential r \/ job_potential r + 1 <= job_potential r').

Definition any_vm (_ _ : VmRow) : Prop := True.

#[export] Instance life_edits n m : RowEdits n m life_moves any_vm.
Proof.
  split; try done; unfold life_moves, job_potential, job_open, job_restartable, cancel_row; cbn -[Z.mul Z.add Z.sub].
  - intros _ v r Ho Hr. split; [done|]. destruct (j_status r); try done; cbn -[Z.mul Z.add Z.sub]; auto; right; lia.
  - intros _ r Ho Hr. destruct (j_status r); try done; cbn -[Z.mul Z.add Z.sub]; 
      (split; [done|right; case_decide; cbn -[Z.mul Z.add Z.sub]; lia]).
  - intros _ r [Hs|Hs] _ Hr; rewrite Hs in *; [|done]. split; [done|]. right. cbn -[Z.mul Z.add Z.sub]. lia.
  - intros _ r [Hs|Hs] Hr; rewrite Hs in *; [|done]. split; [done|]. right. cbn -[Z.mul Z.add Z.sub]. lia.
Qed.

(** Reports of an end. *)
Definition ends_only (op : StorageOp) : Prop :=
  match op with
  | OpUpdateJobState _ _ s => js_status s ∈ [Completed; Cancelled; Error]
  | _ => True
  end.

Lemma ends_move op : ends_only op -> reports_edit life_moves op.
Proof.
  destruct op; try done. cbn [ends_only reports_edit]. intros Hs now r Ho _ Hr.
  assert (j_restart_count (report_row now s r) = j_restart_count r /\ j_status (report_row now s r) = js_status s) as [Hc E].
  { unfold report_row. by case_bool. }
  unfold job_potential. rewrite Hc, E. rewrite !elem_of_cons, elem_of_nil in Hs.
  assert (status_rank (js_status s) = 0 /\ js_status s <> Running) as [-> Hs'] by (by destruct Hs as [-> |[-> |[-> |[]]]]).
  split; [done|right]. unfold job_open in Ho. destruct (j_status r); try done; cbn -[Z.mul Z.add Z.sub]; lia.
Qed.

(** ** The invariant *)

Definition lives_ok (db : Db) (logs : Logs) : Prop := forall i,
  match db_jobs db !! i with
  | None => history i (job_statuses_log logs) = []
  | Some r => j_status r <> Running
    /\ Z.of_nat (length (history i (job_statuses_log logs))) <= job_potential r + 3
  end.

#[export] Instance lives_invariant : LogInvariant life_moves any_vm lives_ok.
Proof.
  split.
  - intros a b logs Ej _ Ha i. rewrite Ej. apply Ha.
  - intros now a b logs [Ej _] Ha i. specialize (Ej i). specialize (Ha i).
    assert (history i (job_statuses_log (add_logs logs (statement_logs now a b)))
      = history i (job_statuses_log logs) ++ entry j_status now (db_jobs a !! i) (db_jobs b !! i)) as ->.
    { cbn [add_logs statement_logs job_statuses_log]. unfold update_job_log. by rewrite history_app, history_status_log. }
    destruct (db_jobs a !! i) as [r|], (db_jobs b !! i) as [r'|]; cbn in Ej |- *; try done; rewrite ?length_app.
    + destruct Ha as [Hr Ha]. destruct Ej as [-> |Em].
      { rewrite decide_True by done. cbn. split; [done|lia]. }
      destruct (Em Hr) as [Hr' [[Es Ep]|Ep]]; (split; [done|]).
      * rewrite Es, decide_True by done. cbn. lia.
      * case_decide; cbn; lia.
    + destruct Ej as (t & p & o & ->). rewrite Ha, decide_False by done. split; [done|]. unfold job_potential. cbn. lia.
    + by rewrite Ha.
Qed.

(** ** Runs *)

Section runs.
Context `{StdLib} `{Postgres} (n m : Z) (Hn : 0 <= n) (Hm : 0 <= m).

(** Calls of processes with these limits and reports of ends, in any order. *)
Inductive ending_step : LoggedDb -> LoggedDb -> Prop :=
  | ending_call op env env2 s : op_within n m op -> ends_only op ->
      ending_step s (mkLogged (op_db op env env2 (ld_db s)) (add_logs (ld_logs s) (op_logs op env env2 (ld_db s)))).

Lemma ending_steps_ok a b :
  rtc ending_step a b -> lives_ok (ld_db a) (ld_logs a) -> restarts_bounded n m (ld_db a) ->
  lives_ok (ld_db b) (ld_logs b) /\ restarts_bounded n m (ld_db b).
Proof.
  induction 1 as [|x y z [op env env2 s Hop Hend] _ IH]; [done|]. intros Hl Hr. apply IH; cbn.
  - by apply (op_logs_kept (n := n) (m := m)); [|apply ends_move|].
  - eapply (limited_steps_bounded n m Hn Hm); [|exact Hr]. apply rtc_once. by constructor.
Qed.

Lemma run_logged_ends calls s :
  Forall (fun c => op_within n m c.1 /\ ends_only c.1) calls -> rtc ending_step s (run_logged calls s).
Proof.
  intros Hc. revert s. induction Hc as [|[op env] calls [Hw He] _ IH]; intros s; [done|].
  eapply rtc_l; [by apply (ending_call op env env)|]. apply IH.
Qed.
End runs.
