(* ===== verification/Parked.v ===== *)
(** * Jobs that left their VM

    A job that was taken off a VM keeps its [vm_id].  It is queued again, cancelled in
    the queue, or failed; and the VM it was taken off has been given up.  This holds of
    every call of the storage, as long as no VM that was given up is saved as allocated. *)

From S2P Require Import Prelude Std Slot State Db TxLogic Storage StorageFacts Lifecycle StorageRefines VmFacts Accounting.

Definition off_vm (s : JobStatus) : bool := bool_decide (s ∈ [Queued; Cancelled; InternalError]).

Definition given_up (db : Db) (v : VmId) : Prop := exists r, db_vms db !! v = Some r /\ vm_active r = false.

Definition parked (db : Db) : Prop :=
  forall i r v, db_jobs db !! i = Some r -> j_vm_id r = Some v -> off_vm (j_status r) = true -> given_up db v.

(** No VM becomes active, and jobs stay parked. *)
Record guarded (a b : Db) : Prop := {
  g_scope : scope_kept vm_active a b;
  g_parked : parked a -> parked b;
}.

Lemma guarded_same a b : db_vms b = db_vms a -> db_jobs b = db_jobs a -> guarded a b.
Proof.
  intros Ev Ej. split.
  - intros v r. rewrite Ev. eauto.
  - intros Hp i r v. rewrite Ej. intros Hr Hv Ho. unfold given_up. rewrite Ev. by eapply Hp.
Qed.

#[export] Instance guarded_order : TxOrder guarded.
Proof.
  split; [split|].
  - intros a. by apply guarded_same.
  - intros a b c [S1 P1] [S2 P2]. split; [|by auto]. intros v r Hr Ha.
    destruct (S2 v r Hr Ha) as (r' & Hr' & Ha'). by eapply S1.
  - intros a b _. by apply guarded_same.
Qed.

Lemma trigger_active now r r' : vm_active (status_trigger now r r') = vm_active r'.
Proof. unfold status_trigger. by case_decide. Qed.

Lemma update_vms_guarded now w f db :
  (forall i r, w i r = true -> db_vms db !! i = Some r -> vm_active (f i r) = true -> vm_active r = true) ->
  guarded db (update_vms now w f db).
Proof.
  intros Hf. split.
  - intros v r'. rewrite update_vms_lookup. intros (r & Hr & ->)%fmap_Some. exists r. split; [done|].
    destruct (w v r) eqn:Hw; [|done]. rewrite trigger_active in *. eauto.
  - intros Hp i j v Hj Hv Ho. destruct (Hp i j v Hj Hv Ho) as (r & Hr & Ha). unfold given_up.
    rewrite update_vms_lookup, Hr. eexists. split; [done|]. cbn. destruct (w v r) eqn:Hw; [|done].
    rewrite trigger_active. destruct (vm_active (f v r)) eqn:Hfa; [|done].
    by rewrite (Hf v r Hw Hr Hfa) in Ha.
Qed.

Lemma update_jobs_guarded w f db :
  (forall i r v, w i r = true -> db_jobs db !! i = Some r -> j_vm_id (f i r) = Some v ->
     off_vm (j_status (f i r)) = true ->
     (j_vm_id r = Some v /\ off_vm (j_status r) = true) \/ given_up db v) ->
  guarded db (update_jobs w f db).
Proof.
  intros Hf. split; [by intros v r; eauto|]. intros Hp i r' v. rewrite update_jobs_lookup.
  intros (r & Hr & ->)%fmap_Some. destruct (w i r) eqn:Hw; [|by intros; eapply Hp].
  intros Hv Ho. destruct (Hf i r v Hw Hr Hv Ho) as [[Hv' Ho']|Hg]; [by eapply Hp|done].
Qed.

Section statements.
Context `{StdLib} `{Postgres}.

(** A statement that gives a VM a status it does not become active by. *)
Local Ltac by_status :=
  intros ? ? ? ?; try case_bool; try done; intros [= _ <-]; apply update_vms_guarded;
  intros ? r ? _; split_bools; unfold vm_active in *;
  repeat match goal with K : v_status r = _ |- _ => rewrite K end; done.

Lemma execWritableQuery_guarded {A} (q : Env -> Db -> option (A * Db)) :
  query_keeps guarded q -> keeps guarded (execWritableQuery_ q).
Proof. intros Hq. unfold execWritableQuery_. by repeat keeps_step. Qed.

Lemma move_vms_guarded from to limit :
  (bool_decide (to ∈ getActiveVmStatuses) = true -> bool_decide (from ∈ getActiveVmStatuses) = true) ->
  query_keeps guarded (move_vms from to limit).
Proof.
  intros Hft env db x db'. unfold move_vms. case_bool; [|done]. intros [= _ <-]. apply update_vms_guarded.
  intros v r Hw Hr Ha. apply bool_decide_eq_true, pick_vms_elem in Hw as (r0 & Hr0 & Hs & _).
  rewrite Hr in Hr0. injection Hr0 as <-. unfold vm_active in *. rewrite Hs. by apply Hft.
Qed.

Lemma set_status_guarded vmIds s :
  bool_decide (s ∈ getActiveVmStatuses) = false -> query_keeps guarded (set_status_query vmIds s).
Proof.
  intros Hs. destruct vmIds; [done|]. unfold set_status_query. intros env db x db' [= _ <-].
  apply update_vms_guarded. intros i r _ _. unfold vm_active. cbn. congruence.
Qed.

Lemma restart_vms_guarded c n : query_keeps guarded (restart_vms_query c n).
Proof. unfold restart_vms_query. by_status. Qed.

Lemma getAssignedJobs_guarded v : keeps guarded (getAssignedJobs_txn v).
Proof. unfold getAssignedJobs_txn. repeat keeps_step; by_status. Qed.

Lemma cancel_guarded c : query_keeps guarded (cancel_query c).
Proof.
  intros env db x db'. unfold cancel_query. case_bool; [|done]. intros [= _ <-]. apply update_jobs_guarded.
  intros i r v _ _ Hv. cbn. case_decide as Hq; [|done]. intros _. left. split; [done|]. by rewrite Hq.
Qed.

Lemma release_guarded jobIds : keeps guarded (releaseVmResources jobIds).
Proof.
  unfold releaseVmResources. repeat keeps_step. intros env db x db' [= _ <-]. by apply update_vms_guarded.
Qed.

Lemma insert_jobs_guarded now t p options db ids db' :
  insert_jobs now t p options db = Some (ids, db') -> guarded db db'.
Proof.
  revert db ids db'. induction options as [|o options IH]; cbn; intros db ids db'.
  { intros [= _ <-]. reflexivity. }
  destruct (jsonb_in o) as [o'|]; [cbn|done]. case_bool; [|done].
  destruct (insert_jobs _ _ _ _ _) as [[ids' db1]|] eqn:Hi; [cbn|done]. intros [= _ <-].
  etrans; [|by apply IH in Hi]. split; [by intros v r; eauto|]. intros Hp i r v. cbn.
  intros [[_ <-]|[_ Hr]]%lookup_insert_Some; [done|]. by eapply Hp.
Qed.

Lemma addTask_guarded p : keeps guarded (addTask_txn p).
Proof.
  unfold addTask_txn. repeat keeps_step.
  - intros env db t db'. unfold insert_task. destruct (jsonb_in _); [cbn|done]. case_bool; [|done].
    intros [= _ <-]. by apply guarded_same.
  - intros env db ids db'. unfold insert_jobs_query. destruct (tp_jobOptions p); [done|].
    case_bool; [|done]. apply insert_jobs_guarded.
Qed.

(** *** VMs that are given up, and their jobs *)

Lemma on_vms_elem l r v : on_vms l r = true -> j_vm_id r = Some v -> v ∈ l.
Proof. unfold on_vms. intros Hl Hv. rewrite Hv in Hl. by apply bool_decide_eq_true in Hl. Qed.

Lemma requeue_guarded vmIds s n env db x db' :
  (forall v, v ∈ vmIds -> given_up db v) -> requeue_query vmIds s n env db = Some (x, db') ->
  guarded db db' /\ db_vms db' = db_vms db.
Proof.
  intros Hg. unfold requeue_query. case_bool; [|done]. intros [= _ <-]. split; [|done].
  apply update_jobs_guarded. intros i r v Hw _ Hv _. cbn in Hv. split_bools. right. by eapply Hg, on_vms_elem.
Qed.

Lemma fail_guarded vmIds s n env db x db' :
  (forall v, v ∈ vmIds -> given_up db v) -> fail_query vmIds s n env db = Some (x, db') -> guarded db db'.
Proof.
  intros Hg [= _ <-]. apply update_jobs_guarded. intros i r v Hw _ Hv _. cbn in Hv. split_bools. right.
  by eapply Hg, on_vms_elem.
Qed.

Lemma given_up_same a b v : db_vms b = db_vms a -> given_up a v -> given_up b v.
Proof. unfold given_up. by intros ->. Qed.

(** The rest of a transaction that has given up the VMs it restarts the jobs of. *)
Lemma restartJobs_wp vmIds s n env st0 st :
  guarded st0 (tx_db st) -> (forall v, v ∈ vmIds -> given_up (tx_db st) v) -> tx_committed st = false ->
  wp env (restartJobs vmIds s n ;; commit ;; mret (Success tt))
    (caught (fun _ => Failure PgException) (fun _ st' => tx_committed st' = true -> guarded st0 (tx_db st'))) st.
Proof.
  intros Hst Hg Hc. unfold restartJobs. do 3 wp_step; cbn [chain caught]; [by cbn; rewrite Hc|].
  match goal with K : requeue_query _ _ _ _ _ = _ |- _ => apply requeue_guarded in K as [G1 Ev]; [|done] end.
  wp_step; cbn [chain caught]; [by cbn; rewrite Hc|].
  match goal with K : fail_query _ _ _ _ _ = _ |- _ => apply fail_guarded in K as G2 end.
  2:{ intros v Hv. eapply given_up_same; [done|]. by apply Hg. }
  apply wp_commit_end. cbn. etrans; [done|]. by etrans.
Qed.

Lemma terminated_given_up (hit : Z -> VmRow -> bool) now to db v :
  bool_decide (to ∈ getActiveVmStatuses) = false -> v ∈ (sql_rows hit (db_vms db)).*1 ->
  given_up (update_vms now hit (fun _ => set_v_status to) db) v.
Proof.
  intros Hto Hv. apply list_elem_of_fmap in Hv as ([i r] & -> & Hin). apply sql_rows_elem in Hin as [Hr Hw].
  unfold given_up. rewrite update_vms_lookup. cbn. rewrite Hr. eexists. split; [done|]. cbn. rewrite Hw.
  by rewrite trigger_active.
Qed.

Lemma give_up_guarded (hit : Z -> VmRow -> bool) now to db :
  bool_decide (to ∈ getActiveVmStatuses) = false ->
  guarded db (update_vms now hit (fun _ => set_v_status to) db).
Proof. intros Hto. apply update_vms_guarded. intros i r _ _. unfold vm_active. cbn. congruence. Qed.

Lemma terminateVms_guarded c from to n m env db :
  bool_decide (to ∈ getActiveVmStatuses) = false ->
  guarded db (call_db (run_call (terminateVms_ c from to n m) env db)).
Proof.
  intros Hto. apply run_call_commits; [intros db' []; by apply guarded_same|].
  unfold terminateVms_. do 4 wp_step; cbn [chain caught]; [done|].
  match goal with K : Some _ = Some _ |- _ => injection K as _ <- end.
  do 2 wp_step; cbn [chain caught]; [done|].
  match goal with K : terminate_query _ _ _ _ _ _ = _ |- _ => revert K end.
  unfold terminate_query. case_bool; [|done]. intros [= <- <-]. destruct (decide (_ = [])); [by apply wp_ret|].
  apply restartJobs_wp; [by apply give_up_guarded|intros v; by apply terminated_given_up|done].
Qed.

Lemma inactive_guarded limit n env db :
  guarded db (call_db (terminateVmsWithInactiveAgents limit n env db)).
Proof.
  unfold terminateVmsWithInactiveAgents. apply run_call_commits; [intros db' []; by apply guarded_same|].
  unfold terminateVmsWithInactiveAgents_txn. do 4 wp_step; cbn [chain caught]; [done|].
  match goal with K : Some _ = Some _ |- _ => injection K as _ <- end.
  do 2 wp_step; cbn [chain caught]; [done|].
  match goal with K : inactive_query _ _ _ = _ |- _ => revert K end.
  unfold inactive_query. case_bool; [|done]. intros [= <- <-]. destruct (decide (_ = [])); [by apply wp_ret|].
  apply restartJobs_wp; [by apply give_up_guarded|intros v; by apply terminated_given_up|done].
Qed.

(** *** Calls *)

(** The result of an allocation is saved before the VM is given up. *)
Definition saved_in_time (op : StorageOp) (db : Db) : Prop :=
  match op with
  | OpSaveVmAllocationResult v _ => ~ given_up db v
  | _ => True
  end.

Lemma saveVmAllocationResult_guarded v info env db :
  ~ given_up db v -> guarded db (call_db (saveVmAllocationResult v info env db)).
Proof.
  intros Hv. unfold saveVmAllocationResult. apply run_call_commits; [intros db' []; by apply guarded_same|].
  unfold execWritableQuery_. do 4 wp_step; cbn [chain caught]; [done|].
  match goal with K : Some _ = Some _ |- _ => injection K as _ <- end.
  do 2 wp_step; cbn [chain caught]; [done|].
  match goal with K : save_allocation_query _ _ _ _ = _ |- _ => revert K end.
  unfold save_allocation_query. case_bool; [|done]. intros [= <- <-].
  apply wp_commit_end, update_vms_guarded. intros i r Hw Hr _. split_bools. subst. cbn in Hr.
  destruct (vm_active r) eqn:Ha; [done|]. destruct Hv. by eexists.
Qed.

Lemma then_call_guarded {A B} (c : Call A) (k : A -> Db -> Call B) db :
  guarded db (call_db c) -> (forall a db1, guarded db1 (call_db (k a db1))) -> guarded db (call_db (then_call c k)).
Proof. intros Hc Hk. destruct c as [[a|e] db1|db1]; cbn in *; [|done..]. by etrans. Qed.

Lemma op_guarded op env env2 db :
  match op with OpCommitPlanChange _ _ | OpUpdateJobState _ _ _ => False | _ => True end ->
  saved_in_time op db -> guarded db (op_db op env env2 db).
Proof.
  destruct op; cbn [op_db saved_in_time]; intros Hop Hin; try (by destruct Hop); clear Hop.
  - apply run_call_keeps, addTask_guarded.
  - apply run_call_keeps. unfold startScheduling_txn, acquireLock_, checkLeader_, planWasRecentlyUpdated_, insertNewPlanRecord_, insert_plan.
    repeat keeps_step; intros ? ? ? ?; try case_bool; try done; intros [= _ <-]; by apply guarded_same.
  - apply run_call_keeps. unfold getCurrentState_txn, readOnlyTransaction_, getQueuedJobs_, getActiveVms_. by repeat keeps_step.
  - apply run_call_keeps. unfold getVmsToAllocate_txn. repeat keeps_step. by apply execWritableQuery_guarded, move_vms_guarded.
  - apply run_call_keeps. unfold getVmsToTerminate_txn. repeat keeps_step. by apply execWritableQuery_guarded, move_vms_guarded.
  - by apply run_call_keeps, execWritableQuery_guarded, set_status_guarded.
  - by apply run_call_keeps, execWritableQuery_guarded, set_status_guarded.
  - by apply saveVmAllocationResult_guarded.
  - apply run_call_keeps. unfold cancelJobs_. repeat first [apply release_guarded|keeps_step]. apply cancel_guarded.
  - apply run_call_keeps. unfold cancelJobs_. repeat first [apply release_guarded|keeps_step]. apply cancel_guarded.
  - apply run_call_keeps. unfold getJobStates_txn. by repeat keeps_step.
  - apply run_call_keeps, execWritableQuery_guarded, restart_vms_guarded.
  - by apply terminateVms_guarded.
  - apply then_call_guarded; [|intros _ db1; by apply terminateVms_guarded].
    apply run_call_keeps, execWritableQuery_guarded, restart_vms_guarded.
  - apply inactive_guarded.
  - by apply terminateVms_guarded.
  - apply run_call_keeps, getAssignedJobs_guarded.
  - apply run_call_keeps. unfold getJobToLaunch_txn. by repeat keeps_step.
  - apply run_call_keeps. unfold getAllocatedVms_txn. by repeat keeps_step.
Qed.

Lemma plan_revives_no_vm now c v r : vm_active (plan_vm_row now c v r) = true -> vm_active r = true.
Proof.
  unfold plan_vm_row, status_trigger. destruct (updatedIdleCapacities c !! v), (decide (v ∈ vmsToTerminate c)); try done;
    by case_decide.
Qed.

(** A plan puts jobs on VMs, and takes none off. *)
Lemma plan_effect_parked now c p slots db db' : plan_effect now c p slots db db' -> parked db -> parked db'.
Proof.
  intros Heff Hp i r' v. rewrite (pe_jobs _ _ _ _ _ _ Heff). intros (r & Hr & ->)%fmap_Some.
  unfold assign_row. destruct (omap _ _ !! i) as [w|]; [done|]. intros Hv Ho.
  destruct (Hp i r v Hr Hv Ho) as (m & Hm & Ha). unfold given_up.
  rewrite (pe_old _ _ _ _ _ _ Heff v m Hm). eexists. split; [done|].
  destruct (vm_active (plan_vm_row now c v m)) eqn:Hact; [|done]. apply plan_revives_no_vm in Hact. congruence.
Qed.
End statements.
