(* ===== verification/AgentSystem.v ===== *)
(** * Agents and backends together

    The agents of all VMs and the calls of the backends on one database, in any
    interleaving.  A panic or the end of its machine's supervisor restarts an agent,
    which keeps nothing but the containers that exist on its VM. *)

From stdpp Require Import pretty.
From S2P Require Import Prelude Std Slot State Db TxLogic Storage StorageFacts StorageRefines Api Agent.

#[export] Instance job_name_inj : Inj (=) (=) job_name.
Proof. intros i j. unfold job_name. intros E%(inj (String.append "job-")). by apply (inj pretty). Qed.

(** ** What an agent does to the database *)

(** The storage calls an agent's events lead to, with the report that was sent. *)
Definition agent_op (v : VmId) (p : option ProtoExecutionJobState) (op : StorageOp) : Prop :=
  match op with
  | OpGetAssignedJobs w | OpGetJobToLaunch w _ => w = v /\ p = None
  | OpUpdateJobState w j s => exists rep, p = Some rep /\ w = v /\ j = pe_job_id rep
      /\ s = protoExecutionJobStateToJobState rep
  | _ => False
  end.

Section handlers.
Context `{StdLib} `{Postgres}.

Lemma reply_to_db {A B} (c : Call A) (f : Exn -> Reply B) (g : A -> Reply B) : (reply_to c f g).2 = call_db c.
Proof. by destruct c as [[]|]. Qed.

(** A lost request leaves the database alone; otherwise the handler ran. *)
Lemma rpc_db {A} d (h : Db -> Reply A * Db) db : (rpc d h db).2 = db \/ (rpc d h db).2 = (h db).2.
Proof. destruct d; cbn; [|by left|by right]. right. by destruct (h db) as [[] ]. Qed.

Lemma rpc_value {A} d (h : Db -> Reply A * Db) db a : (rpc d h db).1 = Some a -> (h db).1 = ReplyOk a.
Proof. destruct d; cbn; [|done|done]. destruct (h db) as [[] ]; cbn; by try intros [= ->]. Qed.

(** What an agent is told is on its VM. *)
Lemma getAssignedJobs_told v env db jobs db' :
  api_getAssignedJobs v env db = (ReplyOk jobs, db') ->
  forall j s, (j, s) ∈ jobs -> exists r, db_jobs db !! j = Some r /\ assigned_to v r = true.
Proof.
  assert (match getAssignedJobs v env db with
    | Answer (Success l) _ => forall x, x ∈ l -> exists r, db_jobs db !! aj_id x = Some r /\ assigned_to v r = true
    | _ => True end) as Hcall.
  { unfold getAssignedJobs. apply (run_call_wp _ _ _ (fun c => match c with
      | Answer (Success l) _ => forall x, x ∈ l -> exists r, db_jobs db !! aj_id x = Some r /\ assigned_to v r = true
      | _ => True end)).
    unfold getAssignedJobs_txn. repeat (wp_step; cbn [chain caught]); try done.
    repeat match goal with K : Some _ = Some _ |- _ => injection K as _ <- end. cbn.
    intros x ([i r] & -> & Hin)%list_elem_of_fmap. apply sql_rows_elem in Hin. eauto. }
  unfold api_getAssignedJobs. destruct (getAssignedJobs v env db) as [[l|e] db1|db1]; cbn; try done.
  intros [= <- _] j s Hin. unfold setAssignedJobs in Hin. apply list_elem_of_fmap in Hin as (x & [= -> _] & Hx). auto.
Qed.
End handlers.

(** ** Steps *)

(** Case analysis on an event that happened. *)
Ltac agent_cases :=
  unfold agent_exec, poller_exec, runner_exec, waiter_exec, goes, mbind, option_bind in *;
  repeat match goal with
  | H : context [match ?x with _ => _ end] |- _ => destruct x eqn:?; simplify_eq/=
  | H : None = Some _ |- _ => discriminate H
  end.

(** A report tells the end of a job: a result, or a failure. *)
Definition tells_end (p : ProtoExecutionJobState) : Prop :=
  (pe_status p = JOB_COMPLETED /\ is_Some (pe_result_url p)) \/ (pe_status p = JOB_FAILED /\ pe_result_url p = None).

Lemma completion_report w j v p done :
  handleContainerCompletion w j v = (Some p, done) -> pe_vm_id p = v /\ pe_job_id p = j /\ tells_end p.
Proof.
  destruct w as [[]|c o s l]; cbn; [intros [= <- _]|done|destruct (UploadFileToS3 o s l); intros [= <- _]];
    (split; [done|]); (split; [done|]); [by right|left; by split].
Qed.

(** A job the agent may still launch, or launched. *)
Definition in_poll (p : Poller) (j : JobId) : Prop :=
  match p with
  | PollGot asg => j ∈ assignedJobIds asg
  | PollCancelledAdded l | PollInfos l => j ∈ l
  | _ => False
  end.

Definition in_run (r : JobRunner) (j : JobId) : Prop :=
  match r with
  | RunLaunch i _ | RunFailed i => i = j
  | _ => False
  end.

Definition knows (a : Agent) (j : JobId) : Prop :=
  is_Some (map_get j (assignedJobs (ag_state a))) \/ is_Some (map_get j (readyToRunJobs (ag_state a)))
  \/ in_poll (ag_poller a) j \/ in_run (ag_runner a) j \/ Waits j ∈ ag_waiters a \/ job_name j ∈ ag_names a.

(** *** Maps *)

Lemma map_set_get {V} k (v : V) m m' : map_set k v m = Some m' ->
  forall j, map_get j m' = if decide (j = k) then Some v else map_get j m.
Proof.
  destruct m as [t|]; [|done]. intros [= <-] j. cbn. case_decide; simplify_eq.
  - by rewrite lookup_insert_eq.
  - by rewrite lookup_insert_ne.
Qed.

Lemma map_delete_get {V} k (m : GoMap V) j : map_get j (map_delete k m) = if decide (j = k) then None else map_get j m.
Proof.
  destruct m as [t|]; cbn; [|by case_decide]. case_decide; simplify_eq.
  - by rewrite lookup_delete_eq.
  - by rewrite lookup_delete_ne.
Qed.

Lemma map_keys_get {V} (m : GoMap V) j : j ∈ map_keys m <-> is_Some (map_get j m).
Proof.
  unfold map_keys. rewrite list_elem_of_fmap. destruct m as [t|]; cbn.
  - split; [intros ([i x] & -> & Hx%elem_of_map_to_list); by eexists|].
    intros [x Hx]. exists (j, x). split; [done|]. by apply elem_of_map_to_list.
  - rewrite map_to_list_empty. split; [intros (? & _ & []%not_elem_of_nil)|by intros []].
Qed.

Lemma ranges_get {V} (m : GoMap V) keys j : ranges m keys = true -> j ∈ keys -> is_Some (map_get j m).
Proof. intros Hr%bool_decide_eq_true. rewrite Hr. apply map_keys_get. Qed.

Lemma AddAssignedJobs_spec l s s' : AddAssignedJobs l s = Some s' ->
  readyToRunJobs s' = readyToRunJobs s
  /\ forall j, is_Some (map_get j (assignedJobs s')) -> is_Some (map_get j (assignedJobs s)) \/ j ∈ l.
Proof.
  revert s. induction l as [|k l IH]; intros s; cbn; [intros [= <-]; auto|].
  destruct (map_get k (readyToRunJobs s)).
  - intros [E Hl]%IH. split; [done|]. intros j [?|?]%Hl; set_solver.
  - destruct (map_set k tt (assignedJobs s)) as [m|] eqn:Hm; [cbn|done]. intros [E Hl]%IH. split; [done|].
    intros j [Hj|?]%Hl; [|set_solver]. cbn in Hj. rewrite (map_set_get _ _ _ _ Hm) in Hj.
    case_decide; [set_solver|auto].
Qed.

Lemma AddCancelledJobs_spec l s s' : AddCancelledJobs l s = Some s' ->
  assignedJobs s' = assignedJobs s /\ readyToRunJobs s' = readyToRunJobs s.
Proof.
  revert s. induction l as [|k l IH]; intros s; cbn; [by intros [= <-]|].
  destruct (map_set k tt (cancelledJobs s)); [cbn|done]. by intros [-> ->]%IH.
Qed.

(** Filling a slice from the front. *)
Lemma fill_keys_spec range : forall pre post, length range = length post ->
  fill_keys (pre ++ post) (length pre) range = Some (pre ++ range).
Proof.
  induction range as [|k range IH]; intros pre [|x post] Hl; cbn in *; try done.
  rewrite decide_True by (rewrite length_app; cbn; lia).
  rewrite insert_app_r_alt, Nat.sub_diag by lia. cbn.
  replace (pre ++ k :: post) with ((pre ++ [k]) ++ post) by by rewrite <- app_assoc.
  replace (S (length pre)) with (length (pre ++ [k])) by (rewrite length_app; cbn; lia).
  rewrite IH by lia. by rewrite <- app_assoc.
Qed.

(** The slice has the size of the map: no index is out of range. *)
Lemma GetJobsForInfo_spec range s : ranges (assignedJobs s) range = true -> GetJobsForInfo range s = Some range.
Proof.
  intros Hr%bool_decide_eq_true. unfold GetJobsForInfo.
  apply (fill_keys_spec range []). by rewrite length_replicate, Hr.
Qed.

Lemma UpdateJobInfos_spec i info s s' : UpdateJobInfos i info s = Some s' ->
  forall j, (is_Some (map_get j (assignedJobs s')) -> is_Some (map_get j (assignedJobs s)))
    /\ (is_Some (map_get j (readyToRunJobs s')) <-> is_Some (map_get j (readyToRunJobs s)) \/ j = i).
Proof.
  unfold UpdateJobInfos. destruct (map_set i info _) as [m1|]; [cbn|done].
  destruct (map_set i tt _) as [m2|] eqn:Hm; [cbn|done]. intros [= <-] j. cbn.
  rewrite map_delete_get, (map_set_get _ _ _ _ Hm). case_decide; [|naive_solver].
  split; [by intros []|]. split; [by auto|by eexists].
Qed.

Lemma GetReadyToRunJob_spec range s o s' :
  ranges (readyToRunJobs s) range = true -> GetReadyToRunJob range s = Some (o, s') ->
  assignedJobs s' = assignedJobs s
  /\ (forall j, is_Some (map_get j (readyToRunJobs s')) -> is_Some (map_get j (readyToRunJobs s)))
  /\ (forall j info, o = Some (j, info) -> is_Some (map_get j (readyToRunJobs s)))
  /\ (forall j, is_Some (map_get j (readyToRunJobs s)) ->
       is_Some (map_get j (readyToRunJobs s')) \/ exists info, o = Some (j, info))
  /\ (o = None -> forall j, ~ is_Some (map_get j (readyToRunJobs s))).
Proof.
  intros Hr. destruct range as [|k range]; cbn.
  { intros [= <- <-]. split; [done|]. split; [done|]. split; [done|]. split; [by left|]. intros _ j Hj.
    apply bool_decide_eq_true, Permutation_nil_l in Hr. apply map_keys_get in Hj. rewrite <- Hr in Hj.
    by apply not_elem_of_nil in Hj. }
  destruct (map_set k tt _) as [m|]; [cbn|done]. intros [= <- <-]. cbn. split; [done|]. split.
  - intros j. rewrite map_delete_get. case_decide; [by intros []|done].
  - split; [intros j info [= <- _]; eapply ranges_get; [done|set_solver]|].
    split; [|done]. intros j Hj. rewrite map_delete_get. case_decide; [subst; eauto|auto].
Qed.

Lemma ReturnFailedToLaunchJob_spec i s s' : ReturnFailedToLaunchJob i s = Some s' ->
  assignedJobs s' = assignedJobs s
  /\ forall j, is_Some (map_get j (readyToRunJobs s')) <-> is_Some (map_get j (readyToRunJobs s)) \/ j = i.
Proof.
  unfold ReturnFailedToLaunchJob. destruct (map_set i tt _) as [m|] eqn:Hm; [cbn|done].
  intros [= <-]. cbn. split; [done|]. intros j. rewrite (map_set_get _ _ _ _ Hm).
  case_decide; [|naive_solver]. split; [by auto|by eexists].
Qed.

Lemma waits_kept (n : nat) k j (l : list Waiter) :
  (Waits j ∈ <[n := Completes k]> l -> Waits j ∈ l) /\ (Waits j ∈ delete n l -> Waits j ∈ l).
Proof.
  rewrite !list_elem_of_lookup. split; intros [i Hi].
  - apply list_lookup_insert_Some in Hi as [(_ & ? & _)|[_ Hi]]; [done|eauto].
  - rewrite list_lookup_delete in Hi. eauto.
Qed.

(** The specification of the operation on the state that was performed. *)
Ltac state_op Hop :=
  match goal with
  | K : AddCancelledJobs _ _ = Some _ |- _ => pose proof (AddCancelledJobs_spec _ _ _ K) as Hop
  | K : AddAssignedJobs _ _ = Some _ |- _ => pose proof (AddAssignedJobs_spec _ _ _ K) as Hop
  | R : ranges _ _ = true, K : GetJobsForInfo _ _ = Some _ |- _ =>
    rewrite GetJobsForInfo_spec in K by done; injection K as <-; pose proof R as Hop
  | K : UpdateJobInfos _ _ _ = Some _ |- _ => pose proof (UpdateJobInfos_spec _ _ _ _ K) as Hop
  | R : ranges _ _ = true, K : GetReadyToRunJob _ _ = Some _ |- _ =>
    pose proof (GetReadyToRunJob_spec _ _ _ _ R K) as Hop
  | K : ReturnFailedToLaunchJob _ _ = Some _ |- _ => pose proof (ReturnFailedToLaunchJob_spec _ _ _ K) as Hop
  end.

Section steps.
Context `{StdLib} `{Postgres}.

Lemma agent_exec_db e a db next p db' :
  agent_exec e a db = Some (next, p, db') ->
  db' = db \/ exists op env, agent_op (ag_vm a) p op /\ db' = op_db op env env db.
Proof.
  intros Hex. agent_cases; try (by left).
  - match goal with K : rpc d ?h db = _ |- _ => pose proof (rpc_db d h db) as Hdb; rewrite K in Hdb; cbn in Hdb end.
    destruct Hdb as [->| ->]; [by left|]. right. exists (OpGetAssignedJobs (ag_vm a)), env.
    split; [done|]. apply reply_to_db.
  - match goal with K : rpc d ?h db = _ |- _ => pose proof (rpc_db d h db) as Hdb; rewrite K in Hdb; cbn in Hdb end.
    destruct Hdb as [->| ->]; [by left|]. right. eexists (OpGetJobToLaunch (ag_vm a) _), env.
    split; [done|]. apply reply_to_db.
  - destruct p as [p|]; [|by left].
    match goal with K : handleContainerCompletion _ _ _ = _ |- _ => apply completion_report in K as (Hv & Hj & He) end.
    destruct (rpc_db d (api_updateJobState p env) db) as [-> | ->]; [by left|]. right.
    exists (OpUpdateJobState (ag_vm a) (pe_job_id p) (protoExecutionJobStateToJobState p)), env.
    split; [by exists p|]. unfold api_updateJobState. rewrite bool_decide_eq_true_2.
    + cbn [op_db]. by rewrite reply_to_db, Hv.
    + unfold protoExecutionJobStateToJobState, getAllowedAgentUpdateJobStatuses. cbn.
      destruct He as [[-> _]|[-> _]]; cbn; set_solver.
Qed.

(** A report an agent sends tells an end. *)
Lemma agent_exec_tells e a db next p db' : agent_exec e a db = Some (next, Some p, db') -> tells_end p.
Proof.
  intros Hex. agent_cases.
  match goal with K : handleContainerCompletion _ _ _ = _ |- _ => by apply completion_report in K as (_ & _ & ?) end.
Qed.

Lemma agent_exec_vm e a db a' p db' : agent_exec e a db = Some (Goes a', p, db') -> ag_vm a' = ag_vm a.
Proof. intros Hex. by agent_cases. Qed.

Lemma told_assignments d v env db o db' j :
  rpc d (api_getAssignedJobs v env) db = (o, db') -> j ∈ assignedJobIds (getAssignments o) ->
  exists r, db_jobs db !! j = Some r /\ assigned_to v r = true.
Proof.
  intros Hrpc. destruct o as [jobs|]; cbn; [|by intros ?%not_elem_of_nil].
  intros ([i s] & -> & [_ Hin]%list_elem_of_filter)%list_elem_of_fmap.
  assert ((api_getAssignedJobs v env db).1 = ReplyOk jobs) as Hok by (apply (rpc_value d); by rewrite Hrpc).
  destruct (api_getAssignedJobs v env db) as [r db1] eqn:E. cbn in Hok. subst r.
  by eapply getAssignedJobs_told.
Qed.

(** An agent learns of jobs only from the server. *)
Lemma knows_step e a db a' p db' j :
  agent_exec e a db = Some (Goes a', p, db') -> knows a' j ->
  knows a j \/ exists r, db_jobs db !! j = Some r /\ assigned_to (ag_vm a) r = true.
Proof.
  intros Hex. unfold knows.
  destruct e; agent_cases; cbn [ag_vm ag_state ag_poller ag_runner ag_waiters ag_names in_poller in_runner
    in_waiters in_poll in_run]; try tauto.
  - match goal with K : rpc _ _ _ = _ |- _ => pose proof (told_assignments _ _ _ _ _ _ j K) end. tauto.
  - state_op Hop. destruct Hop as [-> ->]. tauto.
  - state_op Hop. destruct Hop as [-> Ha]. specialize (Ha j). tauto.
  - state_op Hop. pose proof (ranges_get _ _ j Hop). tauto.
  - state_op Hop. specialize (Hop j). rewrite elem_of_cons. tauto.
  - rewrite elem_of_cons. tauto.
  - state_op Hop. destruct Hop as (-> & Hr & Hj & _). specialize (Hr j).
    intros [?|[?|[?|[<-|?]]]]; [tauto..| |tauto]. left. right. left. by eapply Hj.
  - state_op Hop. destruct Hop as (-> & Hr & Hj & _). specialize (Hr j). tauto.
  - rewrite elem_of_app, list_elem_of_singleton. intros [?|[?|[?|[[]|[[?|[= ->]]|Hn]]]]]; try tauto.
    destruct (takes_name d jobInfo); [|tauto]. apply elem_of_union in Hn as [Hn|?]; [|tauto].
    apply elem_of_singleton in Hn. apply (inj job_name) in Hn. subst. tauto.
  - intros [?|[?|[?|[?|[?|Hn]]]]]; try tauto.
    destruct (takes_name d jobInfo); [|tauto]. apply elem_of_union in Hn as [Hn|?]; [|tauto].
    apply elem_of_singleton in Hn. apply (inj job_name) in Hn. subst. tauto.
  - state_op Hop. destruct Hop as [-> Hr]. specialize (Hr j). intros [?|[Hj|?]]; [tauto| |tauto].
    destruct (proj1 Hr Hj) as [?| ->]; tauto.
  - pose proof (waits_kept n jobId j (ag_waiters a)) as [Hi Hd].
    match goal with |- context [if ?b then _ else _] => destruct b end; tauto.
  - pose proof (waits_kept n jobId j (ag_waiters a)) as [Hi Hd]. tauto.
Qed.
End steps.

(** ** The system *)

(** The database, the agents, and, for the proofs, the reports sent so far. *)
Record AgentSystem : Type := mkSystem {
  sy_db : Db; sy_agents : gmap VmId Agent; sy_reports : list ProtoExecutionJobState }.

(** The calls of the backends themselves: only the handler of the agent API reports. *)
Definition backend_op (op : StorageOp) : Prop :=
  match op with
  | OpUpdateJobState _ _ _ => False
  | _ => True
  end.

Section system.
Context `{StdLib} `{Postgres} (init : AgentState).

(** What [CreateRegistry] does when [init] is [zero_state]. *)
Definition boot : VmId -> gset string -> Agent := start_agent init.

Definition resumed (a : Agent) (n : Next) : Agent :=
  match n with
  | Goes a' => a'
  | Panics => boot (ag_vm a) (ag_names a)
  end.

Inductive system_step : AgentSystem -> AgentSystem -> Prop :=
  | sy_call op env env2 s : backend_op op ->
      system_step s (mkSystem (op_db op env env2 (sy_db s)) (sy_agents s) (sy_reports s))
  | sy_boot v s : sy_agents s !! v = None ->
      system_step s (mkSystem (sy_db s) (<[v := boot v ∅]> (sy_agents s)) (sy_reports s))
  | sy_restart v a s : sy_agents s !! v = Some a ->
      system_step s (mkSystem (sy_db s) (<[v := boot v (ag_names a)]> (sy_agents s)) (sy_reports s))
  | sy_act v a e next p db' s : sy_agents s !! v = Some a ->
      agent_exec e a (sy_db s) = Some (next, p, db') ->
      system_step s (mkSystem db' (<[v := resumed a next]> (sy_agents s)) (option_list p ++ sy_reports s)).

(** ** Each end is reported once *)

Definition waiting (l : list Waiter) : list JobId :=
  omap (fun w => match w with Waits j => Some j | Completes _ => None end) l.

Definition reported_by (v : VmId) (l : list ProtoExecutionJobState) : list JobId :=
  pe_job_id <$> filter (fun p => pe_vm_id p = v) l.

(** Every container that waits or was reported has its name to itself. *)
Record agent_ok (v : VmId) (a : Agent) (reports : list ProtoExecutionJobState) : Prop := {
  ao_vm : ag_vm a = v;
  ao_once : NoDup (reported_by v reports ++ waiting (ag_waiters a));
  ao_named : forall j, j ∈ reported_by v reports ++ waiting (ag_waiters a) -> job_name j ∈ ag_names a;
}.

Record system_ok (s : AgentSystem) : Prop := {
  so_agents : forall v a, sy_agents s !! v = Some a -> agent_ok v a (sy_reports s);
  so_none : forall v, sy_agents s !! v = None -> reported_by v (sy_reports s) = [];
  so_ends : Forall tells_end (sy_reports s);
}.

Lemma waiting_app l k : waiting (l ++ k) = waiting l ++ waiting k.
Proof. apply omap_app. Qed.

(** A container ends. *)
Lemma waiting_end l n j : l !! n = Some (Waits j) ->
  waiting l ≡ₚ j :: waiting (delete n l) /\ waiting (<[n := Completes j]> l) = waiting (delete n l).
Proof.
  intros Hn. rewrite <- (take_drop_middle l n _ Hn) at 1.
  rewrite delete_take_drop, insert_take_drop by by eapply lookup_lt_Some.
  rewrite !waiting_app. cbn. split; [|done]. by rewrite Permutation_middle.
Qed.

Lemma waiting_complete l n j : l !! n = Some (Completes j) -> waiting (delete n l) = waiting l.
Proof.
  intros Hn. rewrite <- (take_drop_middle l n _ Hn) at 2. rewrite delete_take_drop, !waiting_app. done.
Qed.

Lemma reported_by_cons v p l :
  reported_by v (p :: l) = if decide (pe_vm_id p = v) then pe_job_id p :: reported_by v l else reported_by v l.
Proof. unfold reported_by. rewrite filter_cons. by case_decide. Qed.

(** The same reports and containers, under more names. *)
Lemma agent_ok_same v a a' reports :
  agent_ok v a reports -> ag_vm a' = ag_vm a -> waiting (ag_waiters a') ⊆+ waiting (ag_waiters a) ->
  ag_names a ⊆ ag_names a' -> agent_ok v a' reports.
Proof.
  intros [Hv Ho Hn] Ev Hw Hs.
  assert (reported_by v reports ++ waiting (ag_waiters a') ⊆+ reported_by v reports ++ waiting (ag_waiters a)) as Hsub
    by by apply submseteq_skips_l.
  split; [congruence| |].
  { destruct (submseteq_Permutation _ _ Hsub) as [k Hk]. rewrite Hk in Ho. by apply NoDup_app in Ho as [? _]. }
  intros j Hj. apply Hs, Hn. by eapply elem_of_submseteq.
Qed.

(** Starting a container under a name of its own. *)
Lemma agent_ok_launch v a reports j s p r :
  agent_ok v a reports -> job_name j ∉ ag_names a ->
  agent_ok v (mkAgent (ag_vm a) s p r (ag_waiters a ++ [Waits j]) ({[job_name j]} ∪ ag_names a)) reports.
Proof.
  intros [Hv Ho Hn] Hj. split; cbn; [done| |]; rewrite waiting_app; cbn; rewrite app_assoc.
  - apply NoDup_app. split; [done|]. split; [|apply NoDup_singleton].
    intros i Hi ->%list_elem_of_singleton. by apply Hj, Hn.
  - intros i [Hi| ->%list_elem_of_singleton]%elem_of_app; [specialize (Hn i Hi)|]; set_solver.
Qed.

(** A container ends, with or without a report. *)
Lemma agent_ok_end v a reports n j l s p :
  agent_ok v a reports -> ag_waiters a !! n = Some (Waits j) ->
  l = <[n := Completes j]> (ag_waiters a) \/ l = delete n (ag_waiters a) ->
  (forall q, p = Some q -> pe_vm_id q = v /\ pe_job_id q = j) ->
  agent_ok v (in_waiters l s a) (option_list p ++ reports).
Proof.
  intros [Hv Ho Hn] Hj Hl Hp. destruct (waiting_end _ _ _ Hj) as [Hw Hc].
  assert (waiting l = waiting (delete n (ag_waiters a))) as Hwl by by destruct Hl as [-> | ->].
  assert (reported_by v (option_list p ++ reports) ++ waiting l ⊆+ reported_by v reports ++ waiting (ag_waiters a)) as Hsub.
  { rewrite Hwl, Hw, <- Permutation_middle. destruct p as [q|].
    - change (option_list (Some q) ++ reports) with (q :: reports). destruct (Hp q eq_refl) as [Hqv Hqj]. rewrite reported_by_cons, decide_True by done. by rewrite Hqj.
    - by apply submseteq_cons_r; left. }
  split; cbn; [done| |].
  - destruct (submseteq_Permutation _ _ Hsub) as [k Hk]. rewrite Hk in Ho. by apply NoDup_app in Ho as [? _].
  - intros i Hi. apply Hn. by eapply elem_of_submseteq.
Qed.

Lemma agent_exec_ok v e a db next p db' reports :
  agent_ok v a reports -> agent_exec e a db = Some (next, p, db') ->
  agent_ok v (resumed a next) (option_list p ++ reports) /\ (forall q, p = Some q -> pe_vm_id q = v /\ tells_end q).
Proof.
  intros Hok Hex. destruct e; agent_cases.
  11:{ split.
    - eapply agent_ok_end; [done|done|by case_bool; [left|right]|].
      intros q ->. rewrite <- (ao_vm _ _ _ Hok). match goal with K : handleContainerCompletion _ _ _ = _ |- _ => by apply completion_report in K as (? & ? & _) end.
    - intros q ->. rewrite <- (ao_vm _ _ _ Hok). match goal with K : handleContainerCompletion _ _ _ = _ |- _ => by apply completion_report in K as (? & _ & ?) end. }
  all: split; [|done].
  11:{ eapply agent_ok_same; [done|done| |done]. cbn. by erewrite waiting_complete. }
  9:{ apply andb_false_iff in Heqb. rewrite bool_decide_eq_false in Heqb.
    destruct jobInfo as [info|]; [|by eapply agent_ok_same; [done|done|apply submseteq_nil_l|done]].
    unfold takes_name in *. rewrite bool_decide_eq_true_2 in * by done. cbn.
    destruct (d_pulled d && d_created d) eqn:Hd; cbn.
    - destruct Heqb as [Hf|Hj]; [destruct d as [[] [] ?]; done|]. destruct (d_started d); cbn.
      + by apply agent_ok_launch.
      + eapply agent_ok_same; [done|done|done|set_solver].
    - by eapply agent_ok_same; [done|done|done|]. }
  all: repeat case_match; simplify_eq/=; (eapply agent_ok_same; [done|done| |done]); try done;
    cbn; apply submseteq_nil_l.
Qed.

Lemma reported_by_other v p l : (forall q, p = Some q -> pe_vm_id q <> v) ->
  reported_by v (option_list p ++ l) = reported_by v l.
Proof.
  intros Hp. destruct p as [q|]; [|done]. change (option_list (Some q) ++ l) with (q :: l).
  rewrite reported_by_cons, decide_False by by apply Hp. done.
Qed.

Lemma agent_ok_other v a p l : (forall q, p = Some q -> pe_vm_id q <> v) ->
  agent_ok v a l -> agent_ok v a (option_list p ++ l).
Proof. intros Hp [Hv Ho Hn]. split; [done| |intros j]; rewrite reported_by_other by done; auto. Qed.

Lemma system_step_ok s s' : system_step s s' -> system_ok s -> system_ok s'.
Proof.
  intros Hstep [Ha Hn He]. destruct Hstep as [op env env2 s Hop|v s Hv|v a s Hv|v a e next p db' s Hv Hex].
  - by split.
  - split; cbn; [| |done].
    + intros w b [[<- <-]|[_ Hw]]%lookup_insert_Some; [|by apply Ha].
      split; cbn; [done|..]; rewrite (Hn v Hv); cbn; [apply NoDup_nil_2|by intros ? ?%not_elem_of_nil].
    + intros w [Hw _]%lookup_insert_None. by apply Hn.
  - split; cbn; [| |done].
    + intros w b [[<- <-]|[_ Hw]]%lookup_insert_Some; [|by apply Ha].
      pose proof (Ha v a Hv) as Hok. eapply agent_ok_same; [done|symmetry; apply Hok|apply submseteq_nil_l|done].
    + intros w [Hw _]%lookup_insert_None. by apply Hn.
  - destruct (agent_exec_ok v e a _ _ _ _ _ (Ha v a Hv) Hex) as [Hok Hp].
    split; cbn [sy_agents sy_reports].
    + intros w b [[<- <-]|[Hne Hw]]%lookup_insert_Some; [done|]. apply agent_ok_other; [|by apply Ha].
      intros q Hq. by destruct (Hp q Hq) as [-> _].
    + intros w [Hw Hne]%lookup_insert_None. rewrite reported_by_other; [by apply Hn|].
      intros q Hq. by destruct (Hp q Hq) as [-> _].
    + apply Forall_app. split; [|done]. destruct p as [q|]; [|by apply Forall_nil_2].
      apply Forall_singleton. by apply Hp.
Qed.

Lemma system_steps_ok s s' : rtc system_step s s' -> system_ok s -> system_ok s'.
Proof. induction 1; eauto using system_step_ok. Qed.

(** ** Agents run what they were assigned *)

(** At some time in the run that led to [s], the job was assigned to the VM. *)
Definition was_assigned (start s : AgentSystem) (v : VmId) (j : JobId) : Prop :=
  exists s0 r, rtc system_step start s0 /\ rtc system_step s0 s
    /\ db_jobs (sy_db s0) !! j = Some r /\ assigned_to v r = true.

Lemma was_assigned_later start s s' v j :
  system_step s s' -> was_assigned start s v j -> was_assigned start s' v j.
Proof. intros Hs (s0 & r & H1 & H2 & Hr). exists s0, r. split; [done|]. split; [by eapply rtc_r|done]. Qed.

Definition agents_informed (start s : AgentSystem) : Prop :=
  forall v a j, sy_agents s !! v = Some a -> knows a j -> was_assigned start s v j.

Lemma informed_boot start s v names : map_keys (assignedJobs init) = [] -> map_keys (readyToRunJobs init) = [] ->
  (forall j, job_name j ∈ names -> was_assigned start s v j) ->
  forall j, knows (boot v names) j -> was_assigned start s v j.
Proof.
  intros E1 E2 Hn j. unfold knows. cbn. rewrite <- !map_keys_get, E1, E2, !elem_of_nil.
  intros [[]|[[]|[[]|[[]|[[]|Hj]]]]]. auto.
Qed.

Lemma informed_step start s s' :
  map_keys (assignedJobs init) = [] -> map_keys (readyToRunJobs init) = [] -> rtc system_step start s ->
  system_step s s' -> system_ok s -> agents_informed start s -> agents_informed start s'.
Proof.
  intros E1 E2 Hrun Hstep Hok Hi w b j Hb Hk.
  assert (forall v j, was_assigned start s v j -> was_assigned start s' v j) as Hlater
    by (intros v i; by apply was_assigned_later).
  destruct Hstep as [op env env2 s Hop|v s Hv|v a s Hv|v a e next p db' s Hv Hex]; cbn in Hb.
  - by eapply Hlater, Hi.
  - apply lookup_insert_Some in Hb as [[<- <-]|[_ Hb]]; [|by eapply Hlater, Hi].
    revert j Hk. apply informed_boot; [done..|]. by intros j ?%elem_of_empty.
  - apply lookup_insert_Some in Hb as [[<- <-]|[_ Hb]]; [|by eapply Hlater, Hi].
    revert j Hk. apply informed_boot; [done..|]. intros j Hj. apply Hlater, (Hi v a); [done|].
    unfold knows. tauto.
  - apply lookup_insert_Some in Hb as [[<- <-]|[_ Hb]]; [|by eapply Hlater, Hi].
    pose proof (ao_vm _ _ _ (so_agents _ Hok v a Hv)) as Ev. destruct next as [a'|]; cbn in Hk.
    + destruct (knows_step _ _ _ _ _ _ _ Hex Hk) as [Ha|(r & Hr & Hon)]; [by eapply Hlater, Hi|].
      apply Hlater. exists s, r. rewrite <- Ev. done.
    + revert j Hk. rewrite Ev. apply informed_boot; [done..|]. intros j Hj. apply Hlater, (Hi v a); [done|].
      unfold knows. tauto.
Qed.

Lemma informed_steps start s :
  map_keys (assignedJobs init) = [] -> map_keys (readyToRunJobs init) = [] ->
  rtc system_step start s -> system_ok start -> sy_agents start = ∅ -> agents_informed start s.
Proof.
  intros E1 E2 Hrun Hok Hempty.
  enough (agents_informed start s /\ system_ok s) as [? _] by done.
  revert s Hrun. apply (rtc_ind_r (fun s => agents_informed start s /\ system_ok s) start).
  - split; [|done]. intros v a j. by rewrite Hempty, lookup_empty.
  - intros y z Hxy Hyz [Hi Hx]. split; [by eapply informed_step|by eapply system_step_ok].
Qed.
End system.

(** ** Agents whose maps are nil *)

(** Nothing to launch, nothing to wait for, and nil maps. *)
Record blank (a : Agent) : Prop := {
  bl_state : ag_state a = zero_state;
  bl_waiters : ag_waiters a = [];
  bl_runner : ag_runner a = RunIdle \/ ag_runner a = RunLoop;
  bl_infos : forall j l, ag_poller a <> PollInfos (j :: l);
  bl_names : ag_names a = ∅;
}.

Lemma zero_ranges {V} keys : ranges (None : GoMap V) keys = true -> keys = [].
Proof.
  intros Hr%bool_decide_eq_true. unfold map_keys in Hr. cbn in Hr. rewrite map_to_list_empty in Hr.
  by apply Permutation_nil_r in Hr.
Qed.

(** A job that is not told is no panic; one that is told is. *)
Lemma zero_assigned l : AddAssignedJobs l zero_state = match l with [] => Some zero_state | _ => None end.
Proof. by destruct l. Qed.

Lemma zero_cancelled l : AddCancelledJobs l zero_state = match l with [] => Some zero_state | _ => None end.
Proof. by destruct l. Qed.

Lemma boot_blank v : blank (boot zero_state v ∅).
Proof. split; cbn; auto. Qed.

Lemma blank_exec `{Postgres} e a db next p db' :
  blank a -> agent_exec e a db = Some (next, p, db') -> p = None /\ blank (resumed zero_state a next).
Proof.
  intros [Hs Hw Hr Hi Hn] Hex. destruct a as [v st po ru wa na]. cbn in *. subst st wa na.
  destruct e as [e|e|n e]; destruct e; agent_cases; try (by destruct Hr); try (by edestruct Hi); (split; [done|]);
    try match goal with K : ranges _ _ = true |- _ => apply zero_ranges in K as -> end;
    rewrite ?zero_cancelled, ?zero_assigned; try (by split; cbn; auto).
  - destruct (cancelledJobIds _); split; cbn; auto.
  - destruct assigned; split; cbn; auto.
Qed.

Record blank_system (s : AgentSystem) : Prop := {
  bs_agents : forall v a, sy_agents s !! v = Some a -> blank a;
  bs_reports : sy_reports s = [];
}.

Lemma blank_step `{StdLib} `{Postgres} s s' : system_step zero_state s s' -> blank_system s ->
  blank_system s'
  /\ (sy_db s' = sy_db s \/ exists op env env2, backend_op op /\ sy_db s' = op_db op env env2 (sy_db s)).
Proof.
  intros Hstep [Ha Hr]. destruct Hstep as [op env env2 s Hop|v s Hv|v a s Hv|v a e next p db' s Hv Hex]; cbn.
  - split; [by split|]. right. by exists op, env, env2.
  - split; [|by left]. split; cbn; [|done].
    intros w b [[<- <-]|[_ Hw]]%lookup_insert_Some; [apply boot_blank|eauto].
  - split; [|by left]. split; cbn; [|done].
    intros w b [[<- <-]|[_ Hw]]%lookup_insert_Some; [|eauto]. rewrite (bl_names _ (Ha v a Hv)). apply boot_blank.
  - destruct (blank_exec _ _ _ _ _ _ (Ha v a Hv) Hex) as [-> Hb]. split.
    + split; cbn; [|done]. intros w b [[<- <-]|[_ Hw]]%lookup_insert_Some; eauto.
    + destruct (agent_exec_db _ _ _ _ _ _ Hex) as [->|(op & env & Hop & ->)]; [by left|].
      right. exists op, env, env. split; [|done]. destruct op; try done. by destruct Hop as (? & ? & _).
Qed.

(** ** Containers that cannot be started *)

(** The name of the job is taken, and the agent is about to launch it. *)
Definition retrying (j : JobId) (a : Agent) : Prop :=
  job_name j ∈ ag_names a /\ (is_Some (map_get j (readyToRunJobs (ag_state a))) \/ in_run (ag_runner a) j).

Lemma retrying_step `{Postgres} j e a db a' p db' :
  agent_exec e a db = Some (Goes a', p, db') -> retrying j a ->
  retrying j a' /\ (ag_runner a' = RunIdle -> ag_runner a = RunIdle).
Proof.
  intros Hex [Hn Hj]. unfold retrying.
  destruct e; agent_cases; cbn [ag_vm ag_state ag_poller ag_runner ag_waiters ag_names in_poller in_runner
    in_waiters in_poll in_run] in *; try (by split).
  - state_op Hop. destruct Hop as [_ ->]. auto.
  - state_op Hop. destruct Hop as [-> _]. auto.
  - state_op Hop. specialize (Hop j). tauto.
  - destruct Hj as [Hj|[]]. state_op Hop. destruct Hop as (_ & _ & _ & Hk & _).
    split; [|done]. split; [done|]. destruct (Hk j Hj) as [?|[info [= -> _]]]; auto.
  - destruct Hj as [Hj|[]]. state_op Hop. destruct Hop as (_ & _ & _ & Hk & Hnone). exfalso.
    by apply (Hnone eq_refl j).
  - split; [|done]. destruct Hj as [Hj| ->]; [by case_bool; set_solver|].
    rewrite (bool_decide_eq_true_2 (job_name j ∈ _)), andb_true_r in Heqb by done. exfalso.
    destruct jobInfo; [|done]. by destruct d as [[] [] []].
  - split; [|done]. split; [case_bool; set_solver|done].
  - state_op Hop. destruct Hop as [_ Hr]. rewrite (Hr j). split; [|done]. split; [done|].
    left. destruct Hj; auto.
Qed.

(** ** Running a system *)

(** The agent of a VM goes through a list of events. *)
Fixpoint acts `{Postgres} (init : AgentState) (v : VmId) (es : list AgentEvent) (s : AgentSystem) : option AgentSystem :=
  match es with
  | [] => Some s
  | e :: es' =>
    a ← sy_agents s !! v;
    '(next, p, db') ← agent_exec e a (sy_db s);
    acts init v es' (mkSystem db' (<[v := resumed init a next]> (sy_agents s)) (option_list p ++ sy_reports s))
  end.

Lemma acts_run `{StdLib} `{Postgres} init v es s s' : acts init v es s = Some s' -> rtc (system_step init) s s'.
Proof.
  revert s. induction es as [|e es IH]; intros s; cbn; [by intros [= ->]|].
  destruct (sy_agents s !! v) as [a|] eqn:Ha; [cbn|done].
  destruct (agent_exec e a (sy_db s)) as [[[next p] db']|] eqn:He; [cbn|done].
  intros Hs. eapply rtc_l; [by eapply sy_act|]. by apply IH.
Qed.
