(* ===== verification/AgentCluster.v ===== *)
(** * The cluster with its agents

    The backends of [Cluster] and the agents of [AgentSystem] on one database.  The
    agents' side of the contract of [Cluster] is what their code does: each end is
    reported once, as a result or a failure.  That is enough for no active VM to be
    overcommitted. *)

From S2P Require Import Prelude Std Slot State Db TxLogic Storage StorageFacts Lifecycle StorageRefines ReportFacts.
From S2P Require Import SchedulerFacts Accounting Cluster RowEdits RowInvariants Parked Api Agent AgentSystem.

(** ** What a report of an agent does *)

Section reports.
Context `{StdLib} `{Postgres}.

(** A report of a result or a failure takes effect as a whole on a job that is not being
    cancelled, or not at all. *)
Lemma report_cases v j s env db :
  job_final (js_status s) = true -> js_status s <> Cancelled ->
  let db' := call_db (updateJobState v j s env db) in
  same_tables db db'
  \/ exists r, job_on v j db = Some r /\ j_status r <> Cancelling
       /\ db' = release (env_now env) [j] (update_jobs (report_hits v j) (fun _ => report_row (env_now env) s) db).
Proof.
  intros Hs Hc. cbn zeta. unfold updateJobState.
  apply (run_call_commits _ _ _ (fun db' => same_tables db db'
    \/ exists r, job_on v j db = Some r /\ j_status r <> Cancelling
       /\ db' = release (env_now env) [j] (update_jobs (report_hits v j) (fun _ => report_row (env_now env) s) db)));
    [by left|].
  unfold updateJobState_txn. rewrite Hs. do 4 wp_step; cbn [chain caught]; [done|].
  match goal with K : Some _ = Some _ |- _ => injection K as _ <- end.
  do 2 wp_step; cbn [chain caught]; [done|]. cbn [tx_db executed tx_start].
  wp_step; [|by apply wp_ret]. wp_step; [by apply wp_ret|].
  do 2 wp_step; cbn [chain caught]; [done|].
  match goal with K : Some _ = Some _ |- _ => injection K as _ <- end.
  wp_step. eapply wp_mono; [apply releaseVmResources_spec|].
  intros [[]|e|] st' [Hc' Hst]; cbn [chain caught]; [|by rewrite Hc'|done].
  apply (wp_commit_end (fun db' => same_tables db db' \/ exists r, job_on v j db = Some r /\ j_status r <> Cancelling
    /\ db' = release (env_now env) [j] (update_jobs (report_hits v j) (fun _ => report_row (env_now env) s) db))).
  right. match goal with K : _ <$> job_on _ _ _ = Some _ |- _ => apply fmap_Some in K as (r & Hr & ->) end.
  exists r. split; [done|]. split; [|by rewrite Hst].
  intros E. rewrite E, (bool_decide_eq_false_2 (js_status s = Cancelled)) in Heqb by done. done.
Qed.

(** On an open job it gives back what the job holds. *)
Lemma open_report_relieved gone v j s r now now' db :
  job_final (js_status s) = true -> js_status s <> Cancelling -> job_on v j db = Some r -> job_open r ->
  jobs_nonneg db ->
  relieved gone gone db (release now' [j] (update_jobs (report_hits v j) (fun _ => report_row now s) db)).
Proof.
  intros Hs Hc [Hj Hv]%job_on_spec Hopen Hnn.
  apply update_release_relieved; [done|by intros i x _ d; apply report_row_same|].
  intros i x w d Hx. pose proof (Hnn i x d Hx) as Hpos. cbn zeta. destruct (decide (i = j)) as [->|Hne].
  - rewrite Hj in Hx. injection Hx as <-. destruct (report_row_same now s r) as (Ev & Ea & Es).
    unfold report_hits. unfold job_open in Hopen. rewrite Hv, !bool_decide_eq_true_2, Hopen by done. cbn [andb negb].
    unfold held, holding, freed_at. rewrite Ev, Ea, Es, Hs, Hopen, (bool_decide_eq_false_2 (_ = Cancelling)) by done.
    cbn. rewrite andb_false_r, andb_true_r, Hv. destruct (decide (v = w)) as [->|Hvw].
    + rewrite bool_decide_eq_true_2 by done. case_decide; lia.
    + rewrite decide_False by naive_solver. case_bool; lia.
  - assert (report_hits v j i x = false) as ->.
    { unfold report_hits. rewrite (bool_decide_eq_false_2 (i = j)) by done. by rewrite andb_false_r. }
    unfold freed_at. rewrite decide_False by set_solver. lia.
Qed.

(** On a job that has ended it changes the idle capacity of the job's VM, no more. *)
Lemma late_report v j s r now now' db :
  job_on v j db = Some r -> job_final (j_status r) = true ->
  let db' := release now' [j] (update_jobs (report_hits v j) (fun _ => report_row now s) db) in
  db_jobs db' = db_jobs db /\ db_plans db' = db_plans db
  /\ forall w, db_vms db' !! w
       = (fun x => if decide (w = v) then returned (job_req r) x else x) <$> db_vms db !! w.
Proof.
  intros [Hj Hv]%job_on_spec Hf. cbn zeta.
  assert (db_jobs (update_jobs (report_hits v j) (fun _ => report_row now s) db) = db_jobs db) as E.
  { apply map_eq. intros i. rewrite update_jobs_lookup. destruct (db_jobs db !! i) as [x|] eqn:Hx; [|done].
    cbn. unfold report_hits. case_bool; [|done]. split_bools. subst. congruence. }
  split; [exact E|]. split; [done|].
  refine (proj1 (release_one now' j _ r v _ Hv)). by rewrite E.
Qed.
End reports.

(** ** The transition system *)

Record Fleet : Type := mkFleet {
  f_cluster : Cluster; f_agents : gmap VmId Agent; f_reports : list ProtoExecutionJobState }.

Definition f_db (s : Fleet) : Db := c_db (f_cluster s).

Definition set_db (db : Db) (c : Cluster) : Cluster := mkCluster db (c_gone c) (c_plans c).

Section fleet.
Context `{StdLib} `{Postgres} (init : AgentState).

(** Backends plan and commit; the other calls are made, results of allocations being
    saved in time; agents start, are restarted, and act. *)
Inductive fleet_step : Fleet -> Fleet -> Prop :=
  | fs_backend c' s : backend_step (f_cluster s) c' -> fleet_step s (mkFleet c' (f_agents s) (f_reports s))
  | fs_call op env env2 s : ordinary op -> backend_op op -> saved_in_time op (f_db s) ->
      fleet_step s (mkFleet (set_db (op_db op env env2 (f_db s)) (f_cluster s)) (f_agents s) (f_reports s))
  | fs_boot v s : f_agents s !! v = None ->
      fleet_step s (mkFleet (f_cluster s) (<[v := boot init v ∅]> (f_agents s)) (f_reports s))
  | fs_restart v a s : f_agents s !! v = Some a ->
      fleet_step s (mkFleet (f_cluster s) (<[v := boot init v (ag_names a)]> (f_agents s)) (f_reports s))
  | fs_act v a e next p db' s : f_agents s !! v = Some a ->
      agent_exec e a (f_db s) = Some (next, p, db') ->
      fleet_step s (mkFleet (set_db db' (f_cluster s)) (<[v := resumed init a next]> (f_agents s))
                      (option_list p ++ f_reports s)).

(** Who completed or failed was reported by its VM. *)
Definition ended (reports : list ProtoExecutionJobState) (i : JobId) (r : JobRow) : Prop :=
  j_status r = Completed \/ j_status r = Error -> forall v, j_vm_id r = Some v -> i ∈ reported_by v reports.

Definition all_ended (reports : list ProtoExecutionJobState) : Db -> Prop := rows_ok (ended reports) (fun _ => True).

#[local] Instance ended_rows n m reports : RowInvariant n m (ended reports) (fun _ => True).
Proof. split; unfold ended; try done; intros; cbn in *; try naive_solver; case_decide; naive_solver. Qed.

Lemma all_ended_more p reports db : all_ended reports db -> all_ended (option_list p ++ reports) db.
Proof.
  intros [Hj Hv]. split; [|done]. intros i r Hr Hs v Hvm. specialize (Hj i r Hr Hs v Hvm).
  destruct p as [q|]; [|done]. change (option_list (Some q) ++ reports) with (q :: reports).
  rewrite reported_by_cons. case_decide; set_solver.
Qed.

Lemma op_ended op env env2 reports db :
  reports_within (ended reports) op -> all_ended reports db -> all_ended reports (op_db op env env2 db).
Proof. intros Hr. destruct (op_within_some op) as (n & m & Hw). by apply (op_rows (n := n) (m := m)). Qed.

(** *** Steps of backends *)

Lemma backend_step_kept s s' reports :
  backend_step s s' -> db_wf (c_db s) -> parked (c_db s) -> all_ended reports (c_db s) ->
  parked (c_db s') /\ all_ended reports (c_db s') /\ c_gone s' = c_gone s.
Proof.
  intros Hstep Hwf Hp He.
  destruct Hstep as [b i l env s|p env s Hs|p jobs env s Hs|p st b c env s].
  - assert (guarded (c_db s) (op_db (OpStartScheduling b i l) env env (c_db s))) as [_ Hg] by by apply op_guarded.
    assert (all_ended reports (op_db (OpStartScheduling b i l) env env (c_db s))) as He' by by apply op_ended.
    cbn in Hg, He'. unfold after_start, after_call. by destruct (startScheduling _ _ _ _ _) as [[]|]; cbn; auto.
  - destruct (read_jobs_spec env (c_db s) Hwf) as ([jobs|e] & -> & _); by cbn.
  - destruct (read_vms_spec env (c_db s) Hwf) as ([l|e] & -> & _); by cbn.
  - cbn. split; [|split; [by apply (op_ended (OpCommitPlanChange c p) env env)|done]].
    destruct (commitPlanChange_cases c p env (c_db s)) as [[Ev _ Ej _ _]|(_ & slots & Heff)].
    + by apply (guarded_same (c_db s)).
    + by eapply plan_effect_parked.
Qed.

Record fleet_ok (s : Fleet) : Prop := {
  fo_cluster : cluster_ok vm_active (f_cluster s);
  fo_gone : c_gone (f_cluster s) = ∅;
  fo_parked : parked (f_db s);
  fo_ended : all_ended (f_reports s) (f_db s);
  fo_agents : system_ok (mkSystem (f_db s) (f_agents s) (f_reports s));
}.

(** *** Reports *)

Lemma tells_end_status p : tells_end p ->
  js_status (protoExecutionJobStateToJobState p) = Completed \/ js_status (protoExecutionJobStateToJobState p) = Error.
Proof. intros [[E _]|[E _]]; cbn; rewrite E; auto. Qed.

Lemma report_guarded v j s now now' db :
  js_status s = Completed \/ js_status s = Error ->
  guarded db (release now' [j] (update_jobs (report_hits v j) (fun _ => report_row now s) db)).
Proof.
  intros Hs. transitivity (update_jobs (report_hits v j) (fun _ => report_row now s) db).
  - apply update_jobs_guarded. intros i r w _ _ _ Ho. destruct (report_row_same now s r) as (_ & _ & Es).
    rewrite Es in Ho. by destruct Hs as [E|E]; rewrite E in Ho.
  - by apply update_vms_guarded.
Qed.

(** The first report of a job by the VM it is on. *)
Lemma report_ok v j s env reports c :
  js_status s = Completed \/ js_status s = Error -> j ∉ reported_by v reports ->
  cluster_ok vm_active c -> parked (c_db c) -> all_ended reports (c_db c) ->
  cluster_ok vm_active (set_db (call_db (updateJobState v j s env (c_db c))) c)
  /\ parked (call_db (updateJobState v j s env (c_db c))).
Proof.
  intros Hs Hnew Hok Hp He.
  assert (job_final (js_status s) = true /\ js_status s <> Cancelled /\ js_status s <> Cancelling) as (Hf & Hc1 & Hc2)
    by by destruct Hs as [-> | ->].
  assert (rtc change (c_db c) (call_db (updateJobState v j s env (c_db c)))) as Hch
    by by apply (op_refines (OpUpdateJobState v j s) env env), Hok.
  pose proof (wf_jobs_nonneg _ (ok_wf _ _ Hok)) as Hnn.
  destruct (report_cases v j s env (c_db c) Hf Hc1) as [Hsame|(r & Hr & Hcl & E)].
  - assert (guarded (c_db c) (call_db (updateJobState v j s env (c_db c)))) as [Hsc Hpk]
      by (destruct Hsame; by apply guarded_same).
    split; [|by auto]. apply relief_ok; [done|done| |done]. intros _. by apply relieved_same.
  - rewrite E in *. destruct (report_guarded v j s (env_now env) (env_now env) (c_db c) Hs) as [Hsc Hpk].
    split; [|by auto]. destruct (job_final (j_status r)) eqn:Hfin.
    + destruct (late_report v j s r (env_now env) (env_now env) (c_db c) Hr Hfin) as (Ej & Epl & Ev).
      apply job_on_spec in Hr as [Hr Hv].
      assert (given_up (c_db c) v) as (m & Hm & Hdown).
      { apply (Hp j r v Hr Hv). destruct (j_status r) eqn:Est; try done.
        - destruct Hnew. apply (ro_jobs _ He j r Hr); auto.
        - destruct Hnew. apply (ro_jobs _ He j r Hr); auto. }
      apply kept_ok; [done|done| |by rewrite Epl|].
      * intros w x d Hx Ha. rewrite Ev in Hx. apply fmap_Some in Hx as (y & Hy & ->).
        destruct (decide (w = v)) as [->|Hne]; [rewrite Hm in Hy; injection Hy as <-; change (vm_active m = true) in Ha; congruence|].
        unfold load. rewrite Ej. by apply (ok_accounted _ _ Hok).
      * intros w d. unfold load. by rewrite Ej.
    + apply relief_ok; [done|done| |done]. intros _. by eapply open_report_relieved.
Qed.

Lemma act_ok v a e next p db' s :
  f_agents s !! v = Some a -> agent_exec e a (f_db s) = Some (next, p, db') -> fleet_ok s ->
  fleet_ok (mkFleet (set_db db' (f_cluster s)) (<[v := resumed init a next]> (f_agents s)) (option_list p ++ f_reports s)).
Proof.
  intros Ha Hex [Hc Hg Hp He Hs].
  assert (system_ok (mkSystem db' (<[v := resumed init a next]> (f_agents s)) (option_list p ++ f_reports s))) as Hs'
    by exact (system_step_ok init _ _ (sy_act init v a e next p db' (mkSystem (f_db s) _ _) Ha Hex) Hs).
  pose proof (ao_vm _ _ _ (so_agents _ Hs v a Ha)) as Hvm.
  destruct (agent_exec_db _ _ _ _ _ _ Hex) as [->|(op & env & Hop & ->)].
  { split; cbn; [unfold set_db, f_db; by rewrite cluster_eta|done|done|by apply all_ended_more|done]. }
  rewrite Hvm in Hop. destruct op as [| | | | | | | | | | | | | | | | |w|w j|w j js|]; try done.
  3:{ destruct Hop as (rep & -> & -> & -> & ->).
    assert (tells_end rep) as Hend by (pose proof (so_ends _ Hs') as Hall; by inversion Hall).
    assert (pe_vm_id rep = v) as Hrv.
    { destruct (agent_exec_ok init v e a _ _ _ _ _ (so_agents _ Hs v a Ha) Hex) as [_ Hrep]. by apply Hrep. }
    assert (pe_job_id rep ∉ reported_by v (f_reports s)) as Hnew.
    { pose proof (ao_once _ _ _ (so_agents _ Hs' v _ (lookup_insert_eq _ _ _))) as Hn.
      change (option_list (Some rep) ++ f_reports s) with (rep :: f_reports s) in Hn. cbn [sy_reports] in Hn.
      rewrite reported_by_cons, decide_True in Hn by done. apply NoDup_app in Hn as [Hn _]. by apply NoDup_cons in Hn as [? _]. }
    destruct (report_ok v (pe_job_id rep) _ env (f_reports s) (f_cluster s) (tells_end_status rep Hend) Hnew Hc Hp He)
      as [Hc' Hp'].
    split; cbn; [done|done|done| |done].
    apply (op_ended (OpUpdateJobState v (pe_job_id rep) _) env env); [|by apply (all_ended_more (Some rep))].
    cbn. intros now r _ Hv _ _ w Hw. destruct (report_row_same now (protoExecutionJobStateToJobState rep) r) as (Ev & _ & _).
    rewrite Ev, Hv in Hw. injection Hw as <-. change (option_list (Some rep) ++ f_reports s) with (rep :: f_reports s).
    rewrite reported_by_cons, decide_True by done. left. }
  all: destruct Hop as [-> ->]; cbn [option_list app] in *.
  - assert (guarded (f_db s) (op_db (OpGetAssignedJobs v) env env (f_db s))) as [Hsc Hpk] by by apply op_guarded.
    split; cbn [f_cluster f_agents f_reports]; [by apply call_ok|done|by apply Hpk|by apply op_ended|done].
  - assert (guarded (f_db s) (op_db (OpGetJobToLaunch v j) env env (f_db s))) as [Hsc Hpk] by by apply op_guarded.
    split; cbn [f_cluster f_agents f_reports]; [by apply call_ok|done|by apply Hpk|by apply op_ended|done].
Qed.

Lemma fleet_step_ok s s' : fleet_step s s' -> fleet_ok s -> fleet_ok s'.
Proof.
  intros Hstep Hok. pose proof Hok as [Hc Hg Hp He Hs].
  destruct Hstep as [c' s Hb|op env env2 s Hord Hop Hin|v s Hv|v a s Hv|v a e next p db' s Hv Hex].
  - destruct (backend_step_kept _ _ _ Hb (ok_wf _ _ Hc) Hp He) as (Hp' & He' & Hg').
    split; cbn; [|congruence|done|done|by destruct Hs].
    eapply (backend_step_ok vm_active); [done|apply plan_revives_no_vm|done|done].
  - assert (guarded (f_db s) (op_db op env env2 (f_db s))) as [Hsc Hpk].
    { apply op_guarded; [|done]. by destruct op. }
    split; cbn [f_cluster f_agents f_reports]; [by apply call_ok|done|by apply Hpk| |by destruct Hs].
    apply op_ended; [|done]. by destruct op.
  - split; cbn; [done|done|done|done|].
    exact (system_step_ok init _ _ (sy_boot init v (mkSystem (f_db s) _ _) Hv) Hs).
  - split; cbn; [done|done|done|done|].
    exact (system_step_ok init _ _ (sy_restart init v a (mkSystem (f_db s) _ _) Hv) Hs).
  - by eapply act_ok.
Qed.

Lemma fleet_steps_ok s s' : rtc fleet_step s s' -> fleet_ok s -> fleet_ok s'.
Proof. induction 1; eauto using fleet_step_ok. Qed.
End fleet.

(** The agent of a VM goes through a list of events. *)
Lemma acts_fleet `{StdLib} `{Postgres} init v es s s' :
  acts init v es (mkSystem (f_db s) (f_agents s) (f_reports s)) = Some s' ->
  rtc (fleet_step init) s (mkFleet (set_db (sy_db s') (f_cluster s)) (sy_agents s') (sy_reports s')).
Proof.
  revert s. induction es as [|e es IH]; intros [c agents reports]; cbn.
  { intros [= <-]. cbn. unfold set_db, f_db. cbn. by rewrite cluster_eta. }
  destruct (agents !! v) as [a|] eqn:Ha; [cbn|done].
  destruct (agent_exec e a (f_db (mkFleet c agents reports))) as [[[next p] db']|] eqn:He; [cbn|done].
  intros Hs. eapply rtc_l; [by eapply (fs_act init v a)|]. by apply (IH (mkFleet (set_db db' c) _ _)).
Qed.
