(* ===== verification/EndToEnd.v ===== *)
(** * From the queue to the result

    Scheduler, allocator and agent API one after the other: what an undisturbed run
    of [allocate] leaves when the cloud gives every VM it is asked for, and what the
    calls of an agent get and do for a job that is scheduled on its VM. *)

From S2P Require Import Prelude Std Slot State Db TxLogic Storage StorageFacts Lifecycle StorageRefines StorageSpec.
From S2P Require Import VmFacts Interfaces Process Allocator AllocatorFacts Api.

(** ** An obliging cloud *)

Definition obliging {W} `{CloudClient W} : Prop := forall v s w, exists info w', cloud_allocate v s w = (Success info, w').

Section allocating.
Context `{StdLib} `{Postgres} {W : Type} `{CloudClient W} (sch : Schedule) (Hsch : undisturbed sch).

Lemma obliging_allocates_all vms : obliging -> plain_names -> forall w un w',
  db_wf (w_db w) -> process sch (Allocator.allocate_vms vms) w = (Some un, w') -> un = [].
Proof.
  intros Hob Hplain. induction vms as [|vm vms IH]; intros w un w' Hwf; cbn [Allocator.allocate_vms].
  { by intros [= <- _]. }
  process_step. destruct (Hob (apv_id vm) (apv_capacity vm) (w_cloud w)) as (info & c & Hc).
  rewrite Hc. process_step. rewrite (und_alone _ Hsch).
  destruct (saveVmAllocationResult_effect (apv_id vm) info (envs sch (w_calls w)) (w_db w))
    as (db1 & -> & Hwf1 & _); [apply Hsch|done|by eapply Hplain|]. by apply IH.
Qed.

(** All pending VMs are allocated; other VMs and the jobs are as they were. *)
Lemma obliging_allocate config (w : World W) :
  obliging -> plain_names -> db_wf (w_db w) -> maxVmAllocationCount config < 2 ^ 63 ->
  vmRestartAttemptCount (alloc_common config) < 2 ^ 31 -> jobRestartAttemptCount (alloc_common config) < 2 ^ 31 ->
  Z.of_nat (size (db_vms (w_db w))) < maxVmAllocationCount config -> env_locked (envs sch (w_calls w)) = ∅ ->
  exists w', process sch (Allocator.allocate config) w = (Some tt, w')
    /\ db_wf (w_db w') /\ db_jobs (w_db w') = db_jobs (w_db w)
    /\ forall v r, db_vms (w_db w) !! v = Some r -> exists r', db_vms (w_db w') !! v = Some r'
         /\ (v_status r = PendingAllocation -> row_allocated r') /\ (v_status r <> PendingAllocation -> r' = r).
Proof.
  intros Hob Hplain Hwf Hmax Hn Hm Hroom Hfree.
  destruct (allocate_runs sch Hsch config w) as (w' & l & un & db1 & w1 & w2 & now1 & now2 & E & Hrun); [done..|].
  destruct Hrun as [Hho _ (Edb & _ & Hwf1) Hloop Hdone _ _ Hnone].
  rewrite (obliging_allocates_all l Hob Hplain w1 un w2) in * by (by rewrite ?Edb).
  rewrite (Hnone eq_refl) in *. destruct Hdone as [Hwf2 Hj _ Hdone Hrest].
  exists w2. split; [done|]. split; [done|]. destruct (ho_other _ _ _ _ _ _ _ Hho) as [Ej _]. split; [congruence|].
  assert (Z.of_nat (length (apv_id <$> l)) < maxVmAllocationCount config) as Hlen.
  { eapply Z.le_lt_trans; [|exact Hroom]. apply inj_le. rewrite <- (size_dom (D := gset Z)).
    rewrite <- (size_list_to_set (C := gset Z) (apv_id <$> l)) by apply Hho. apply subseteq_size.
    intros v Hv%elem_of_list_to_set. destruct (ho_was _ _ _ _ _ _ _ Hho v Hv) as (r & Hr & _).
    apply elem_of_dom. eauto. }
  intros v r Hr. destruct (decide (v ∈ apv_id <$> l)) as [Hin|Hout].
  - destruct (ho_was _ _ _ _ _ _ _ Hho v Hin) as (r0 & Hr0 & Hs0 & _ & Hr1).
    destruct (Hdone v _ Hin (not_elem_of_nil v) Hr1) as (r' & Hr' & Hal). exists r'. split; [done|].
    split; [done|]. intros Hne. congruence.
  - exists r. rewrite Hrest, (ho_rest _ _ _ _ _ _ _ Hho) by (done || by left). split; [done|]. split; [|done].
    intros Hs. exfalso. apply Hout. eapply (ho_all _ _ _ _ _ _ _ Hho); [done..|]. rewrite Hfree. set_solver.
Qed.
End allocating.

(** ** The calls of an agent *)

Section agent.
Context `{Postgres}.

(** A VM after its agent asked for assignments. *)
Definition agent_heard (now : Z) (r : VmRow) : VmRow :=
  let r1 := if bool_decide (v_status r = Allocated) then status_trigger now r (set_v_status AgentStarted r) else r in
  set_v_agent_activity now r1.

Record agent_session (v : VmId) (i : JobId) (url : string) (e1 e2 e3 : Env) (r : JobRow) (vr : VmRow) (db : Db)
    (told : list (Z * ProtoJobStatus)) (launch : ProtoJobToLaunch) (db1 db2 : Db) : Prop := {
  as_asks : api_getAssignedJobs v e1 db = (ReplyOk told, db1);
  as_told : (i, jobStatusToProto (j_status r)) ∈ told;
  as_heard : db_vms db1 !! v = Some (agent_heard (env_now e1) vr);
  as_launches : api_getJobToLaunch v i e2 db1 = (ReplyOk launch, db1);
  as_limits : pj_id launch = i /\ pj_cpu_cores launch = j_cpu r /\ pj_memory_mb launch = j_ram r
    /\ pj_job_options launch = j_options r;
  as_reports : api_updateJobState (mkProtoExecutionJobState v i JOB_COMPLETED (Some url)) e3 db1 = (ReplyOk tt, db2);
  as_ended : exists r', db_jobs db2 !! i = Some r' /\ j_status r' = Completed /\ j_result_url r' = Some url
    /\ j_finished r' = Some (env_now e3);
}.

Lemma agent_serves v i url e1 e2 e3 r vr db :
  quiet e1 -> quiet e2 -> quiet e3 -> db_wf db ->
  db_jobs db !! i = Some r -> j_vm_id r = Some v -> j_status r = Scheduled -> db_vms db !! v = Some vr ->
  exists told launch db1 db2, agent_session v i url e1 e2 e3 r vr db told launch db1 db2.
Proof.
  intros Hq1 Hq2 Hq3 Hwf Hr Hv Hs Hvr.
  destruct (jr_task _ _ _ (wf_jobs _ Hwf i r Hr)) as [t Ht].
  pose proof (getAssignedJobs_quiet e1 Hq1 v db) as Hask. cbv zeta in Hask.
  match type of Hask with _ = Answer (Success ?l) ?d => set (told := l) in *; set (db1 := d) in * end.
  assert (job_on v i db1 = Some r) as Hon.
  { unfold job_on. change (db_jobs db1) with (db_jobs db). rewrite Hr. cbn. by rewrite decide_True. }
  pose proof (updateJobState_quiet e3 Hq3 v i (mkJobState Completed (Some url)) db1) as Hrep.
  rewrite Hon, Hs in Hrep. rewrite bool_decide_eq_false_2 in Hrep by done. cbn [andb] in Hrep. cbv zeta in Hrep.
  match type of Hrep with _ = Answer _ ?d => set (db2 := d) in * end.
  eexists (setAssignedJobs told), _, db1, db2. split.
  - unfold api_getAssignedJobs, getAssignedJobs. by rewrite Hask.
  - unfold told, setAssignedJobs, pgResultToAssignedJobs. rewrite <- list_fmap_compose.
    apply list_elem_of_fmap. exists (i, r). split; [done|]. apply sql_rows_elem. split; [done|].
    unfold assigned_to. rewrite Hv, Hs, !bool_decide_eq_true_2; [done|unfold getAssignedJobStatuses; set_solver|done].
  - unfold db1. rewrite !update_vms_lookup, Hvr. cbn. rewrite !bool_decide_eq_true_2 by done. cbn.
    unfold agent_heard. unfold status_trigger at 1. by rewrite decide_True.
  - unfold api_getJobToLaunch. rewrite (getJobToLaunch_quiet e2 Hq2 v i r t db1); [done|done|exact Ht|].
    apply (wf_jobs _ Hwf i r Hr).
  - done.
  - unfold api_updateJobState.
    change (protoExecutionJobStateToJobState _) with (mkJobState Completed (Some url)). rewrite bool_decide_eq_true_2 by (unfold getAllowedAgentUpdateJobStatuses; set_solver).
    cbn [pe_vm_id pe_job_id]. unfold updateJobState. by rewrite Hrep.
  - exists (report_row (env_now e3) (mkJobState Completed (Some url)) r). split; [|done]. unfold db2. cbn [js_status].
    change (job_final Completed) with true. cbv iota.
    match goal with |- db_jobs (release _ _ ?d) !! _ = _ => change (db_jobs d !! i = Some (report_row (env_now e3)
      (mkJobState Completed (Some url)) r)) end.
    rewrite update_jobs_lookup. change (db_jobs db1) with (db_jobs db).
    rewrite Hr. cbn [fmap option_fmap option_map]. by rewrite Hv, Hs, !bool_decide_eq_true_2 by done.
Qed.
End agent.
