(* ===== verification/LogProps.v ===== *)
(** * Properties of the status logs

    The logs the triggers write, and the state diagrams of docs/uml-diagrams. *)

From S2P Require Import Prelude Std Slot State Db TxLogic Storage Lifecycle Checker StorageRefines RowEdits Api.
From S2P Require Import RowInvariants Restarts StatusLogs JobLives.

(** C9: The status logs are histories.  Whatever calls are made of the storage, in any
    order, with any faults and commits in doubt, as long as reports carry statuses the
    agent API lets pass, the log of a job starts with status queued at the time the job
    was created, follows the transitions of [job_edge], and ends with the job's status;
    a final status, once logged, stays the last.  The log of a VM starts with
    pending_allocation when it was created, follows [vm_edge], and ends with the VM's
    status at the time its [last_status_update] says.  Nothing else is logged. *)
Theorem status_logs_are_histories `{StdLib} `{Postgres} db s :
  db_jobs db = ∅ -> db_vms db = ∅ ->
  rtc logged_step (mkLogged db no_logs) s ->
  let jobs i := history i (job_statuses_log (ld_logs s)) in
  let vms v := history v (vm_statuses_log (ld_logs s)) in
  (forall i r, db_jobs (ld_db s) !! i = Some r ->
     walks job_edge (jobs i).*1 = true /\ head (jobs i) = Some (Queued, j_created r)
     /\ (exists t, last (jobs i) = Some (j_status r, t))
     /\ forall k st, (jobs i).*1 !! k = Some st -> job_final st = true -> length (jobs i) = S k)
  /\ (forall v r, db_vms (ld_db s) !! v = Some r ->
     walks vm_edge (vms v).*1 = true /\ head (vms v) = Some (PendingAllocation, v_created r)
     /\ last (vms v) = Some (v_status r, v_last_status_update r))
  /\ (forall i, db_jobs (ld_db s) !! i = None -> jobs i = [])
  /\ (forall v, db_vms (ld_db s) !! v = None -> vms v = []).
Proof.
  intros Ej Ev Hrun jobs vms.
  assert (logs_ok db no_logs) as Hstart by (split; intros i; rewrite ?Ej, ?Ev; done).
  destruct (logged_steps_ok _ _ Hrun Hstart) as [Hj Hv].
  split; [|split; [|split]].
  - intros i r Hr. specialize (Hj i). rewrite Hr in Hj. destruct Hj as (Hw & Hh & t & Hl & _).
    split; [done|]. split; [done|]. split; [by exists t|]. intros k st Hk Hf.
    rewrite <- (length_fmap fst). eapply walks_stop; [done..|]. intros st'. by apply job_edge_final.
  - intros v r Hr. specialize (Hv v). rewrite Hr in Hv. destruct Hv as (Hw & Hh & t & Hl & <-). done.
  - intros i Hr. specialize (Hj i). by rewrite Hr in Hj.
  - intros v Hr. specialize (Hv v). by rewrite Hr in Hv.
Qed.

(** ** A run *)

#[local] Existing Instance reference_stdlib.
#[local] Existing Instance reference_postgres.

Definition empty_db : Db := mkDb ∅ ∅ ∅ ∅ ∅ 1 1 1 1.

(** A task of two jobs is added and scheduled on a new VM, the VM is allocated and its
    agent calls; one job completes, the other is cancelled. *)
Definition logged_calls : list (StorageOp * Env) :=
  [(OpAddTask (mkTask (mkSlot 1 512) 60 2 "{}" "image" "client" ["{}"%string; "{}"%string]), calm 1);
   (OpStartScheduling "backend" 0 None, calm 2);
   (OpCommitPlanChange
      (mkStateChange (list_to_map [(1, DesiredVm 0); (2, DesiredVm 0)])
         (list_to_map [(0, mkDesired (mkSlot 2 1024) (mkSlot 0 0))]) ∅ []) 1, calm 3);
   (OpGetVmsToAllocate 5, calm 4);
   (OpSaveVmAllocationResult 1 (mkAllocatedVm "i-1" "t2"), calm 5);
   (OpGetAssignedJobs 1, calm 6);
   (OpUpdateJobState 1 1 (mkJobState Completed (Some "url"%string)), calm 7);
   (OpCancelTask 1, calm 8)].

Definition logged_end : LoggedDb := run_logged logged_calls (mkLogged empty_db no_logs).

Lemma status_logs_are_histories_witness :
  history 1 (job_statuses_log (ld_logs logged_end)) = [(Queued, 1); (Scheduled, 3); (Completed, 7)]
  /\ history 2 (job_statuses_log (ld_logs logged_end)) = [(Queued, 1); (Scheduled, 3); (Cancelling, 8)]
  /\ history 1 (vm_statuses_log (ld_logs logged_end))
     = [(PendingAllocation, 3); (Allocating, 4); (Allocated, 5); (AgentStarted, 6)]
  /\ forall v r, db_vms (ld_db logged_end) !! v = Some r ->
       let h := history v (vm_statuses_log (ld_logs logged_end)) in
       walks vm_edge h.*1 = true /\ head h = Some (PendingAllocation, v_created r)
       /\ last h = Some (v_status r, v_last_status_update r).
Proof.
  split; [vm_compute; reflexivity|]. split; [vm_compute; reflexivity|]. split; [vm_compute; reflexivity|].
  apply (status_logs_are_histories empty_db logged_end).
  - reflexivity.
  - reflexivity.
  - apply run_logged_steps. repeat (apply Forall_cons; split; [vm_compute; auto|]); [|apply Forall_nil_2].
    set_solver.
Defined.

(** ** The length of a job's life *)

(** C10: Jobs do not go round for ever.  Let the processes be configured with at most [n] restarts
    of a job and let the reports tell ends, as those of the agents do.  Whatever calls
    are made, in any order, with any faults, a job changes its status at most
    [2 * n + 2] times: its log has two entries for each time it was restarted and at most
    three more, and what is left to it shrinks with every change but a restart. *)
Theorem job_lives_are_bounded `{StdLib} `{Postgres} n m db s :
  0 <= n -> 0 <= m -> db_jobs db = ∅ -> db_vms db = ∅ ->
  rtc (ending_step n m) (mkLogged db no_logs) s ->
  forall i r, db_jobs (ld_db s) !! i = Some r ->
    let entries := Z.of_nat (length (history i (job_statuses_log (ld_logs s)))) in
    entries + status_rank (j_status r) <= 2 * j_restart_count r + 3
    /\ j_restart_count r <= n /\ entries <= 2 * n + 3.
Proof.
  intros Hn Hm Ej Ev Hrun i r Hr entries.
  destruct (ending_steps_ok n m Hn Hm _ _ Hrun) as [Hl [Hj _]].
  - intros k. cbn. by rewrite Ej.
  - split; cbn; intros k x; by rewrite ?Ej, ?Ev, lookup_empty.
  - specialize (Hl i). rewrite Hr in Hl. destruct Hl as [_ Hl]. specialize (Hj i r Hr).
    unfold job_potential in Hl. unfold job_bounded in Hj. assert (0 <= status_rank (j_status r)) by (by destruct (j_status r)).
    unfold entries. lia.
Qed.

(** With one restart: the VM's agent falls silent and the job is done elsewhere.  The
    bound is reached. *)
Definition restarted_calls : list (StorageOp * Env) :=
  take 5 logged_calls ++
  [(OpTerminateVmsWithoutAgents 0 1, calm 6);
   (OpStartScheduling "backend" 0 None, calm 7);
   (OpCommitPlanChange
      (mkStateChange (list_to_map [(1, DesiredVm 0)])
         (list_to_map [(0, mkDesired (mkSlot 1 512) (mkSlot 0 0))]) ∅ []) 2, calm 8);
   (OpUpdateJobState 2 1 (mkJobState Completed (Some "url"%string)), calm 9)].

Definition restarted_end : LoggedDb := run_logged restarted_calls (mkLogged empty_db no_logs).

Lemma job_lives_are_bounded_witness :
  history 1 (job_statuses_log (ld_logs restarted_end))
    = [(Queued, 1); (Scheduled, 3); (Queued, 6); (Scheduled, 8); (Completed, 9)]
  /\ forall i r, db_jobs (ld_db restarted_end) !! i = Some r ->
       Z.of_nat (length (history i (job_statuses_log (ld_logs restarted_end)))) <= 5.
Proof.
  split; [vm_compute; reflexivity|]. intros i r Hr.
  refine (proj2 (proj2 (job_lives_are_bounded 1 0 empty_db restarted_end _ _ _ _ _ i r Hr))).
  - lia.
  - lia.
  - reflexivity.
  - reflexivity.
  - apply run_logged_ends. repeat apply Forall_cons_2; try exact (conj I I); [| |apply Forall_nil_2].
    + split; [apply Z.le_refl|exact I].
    + split; [exact I|left].
Defined.

(** ** The documented diagrams *)

(** docs/uml-diagrams/job_state.puml and vm_state.puml. *)
Definition documented_job_edge (s s' : JobStatus) : bool :=
  match s, s' with
  | Queued, (Scheduled | Cancelled) => true
  | Scheduled, (Running | Cancelling | Queued | InternalError) => true
  | Running, (Completed | Error | Cancelling | Queued | InternalError) => true
  | Cancelling, Cancelled => true
  | _, _ => false
  end.

Definition documented_vm_edge (s s' : VmStatus) : bool :=
  match s, s' with
  | PendingAllocation, Allocating => true
  | Allocating, (Allocated | Terminated | PendingAllocation) => true
  | Allocated, (AgentStarted | PendingTermination) => true
  | AgentStarted, PendingTermination => true
  | PendingTermination, Terminating => true
  | Terminating, (Terminated | PendingTermination) => true
  | _, _ => false
  end.

(** The storage makes every documented transition but the one from cancelling to
    cancelled: cancelling counts as final. *)
Lemma cancelling_is_never_left s s' :
  documented_job_edge s s' = true -> job_edge s s' = true \/ (s = Cancelling /\ s' = Cancelled).
Proof. destruct s, s'; cbn; auto. Qed.

Lemma documented_vm_edges_are_made s s' : documented_vm_edge s s' = true -> vm_edge s s' = true.
Proof. by destruct s, s'. Qed.

(** An undocumented transition that happens: the VM of a job is given up before its
    agent was heard of, the job goes back to the queue, and the report of the agent
    completes it there. *)
Example queued_job_completes :
  history 1 (job_statuses_log (ld_logs (run_logged
    (take 5 logged_calls ++
     [(OpTerminateVmsWithoutAgents 0 3, calm 6);
      (OpUpdateJobState 1 1 (mkJobState Completed (Some "url"%string)), calm 7)]) (mkLogged empty_db no_logs))))
  = [(Queued, 1); (Scheduled, 3); (Queued, 6); (Completed, 7)].
Proof. vm_compute. reflexivity. Qed.
