(* ===== verification/StorageProps.v ===== *)
(** * Properties of the storage *)

From S2P Require Import Prelude Std Slot State OrderedJobs JobAllocator SlotSelector Assigner PlanFacts Db TxLogic Storage StorageFacts Lifecycle Checker.
From S2P Require Import StorageRefines StorageSpec StorageProgress TaskFacts ReportFacts Scheduler SchedulerFacts VmFacts.

(** ** Atomicity *)

Section atomicity.
Context `{Postgres}.

Lemma addTask_atomic p : atomic (addTask_txn p).
Proof. unfold addTask_txn. atomic_auto. Qed.

Lemma getCurrentState_atomic : atomic getCurrentState_txn.
Proof. unfold getCurrentState_txn, readOnlyTransaction_, getQueuedJobs_, getActiveVms_. atomic_auto. Qed.

Lemma getVmsToAllocate_atomic n : atomic (getVmsToAllocate_txn n).
Proof. unfold getVmsToAllocate_txn, execWritableQuery_. atomic_auto. Qed.

Lemma getVmsToTerminate_atomic n : atomic (getVmsToTerminate_txn n).
Proof. unfold getVmsToTerminate_txn, execWritableQuery_. atomic_auto. Qed.

Lemma execWritableQuery_atomic {A} (q : Env -> Db -> option (A * Db)) : atomic (execWritableQuery_ q).
Proof. unfold execWritableQuery_. atomic_auto. Qed.

Lemma cancelJobs_atomic c : atomic (cancelJobs_ c).
Proof. unfold cancelJobs_, releaseVmResources. atomic_auto. Qed.

Lemma getJobStates_atomic t : atomic (getJobStates_txn t).
Proof. unfold getJobStates_txn. atomic_auto. Qed.

Lemma terminateVms_atomic c from to n m : atomic (terminateVms_ c from to n m).
Proof. unfold terminateVms_, restartJobs. atomic_auto. Qed.

Lemma terminateVmsWithInactiveAgents_atomic l n : atomic (terminateVmsWithInactiveAgents_txn l n).
Proof. unfold terminateVmsWithInactiveAgents_txn, restartJobs. atomic_auto. Qed.

Lemma getAssignedJobs_atomic v : atomic (getAssignedJobs_txn v).
Proof. unfold getAssignedJobs_txn. atomic_auto. Qed.

Lemma getJobToLaunch_atomic v j : atomic (getJobToLaunch_txn v j).
Proof. unfold getJobToLaunch_txn. atomic_auto. Qed.

Lemma updateJobState_atomic v j s : atomic (updateJobState_txn v j s).
Proof. unfold updateJobState_txn, releaseVmResources. atomic_auto. Qed.

Lemma getAllocatedVms_atomic : atomic getAllocatedVms_txn.
Proof. unfold getAllocatedVms_txn. atomic_auto. Qed.
End atomicity.

Definition call_failed {A} (c : Call A) : bool :=
  match c with
  | Answer (Failure _) _ => true
  | _ => false
  end.

Section failures.
Context `{StdLib} `{Postgres}.

Definition op_failed (op : StorageOp) (env env2 : Env) (db : Db) : bool :=
  match op with
  | OpAddTask p => call_failed (addTask p env db)
  | OpStartScheduling b i l => call_failed (startScheduling b i l env db)
  | OpGetCurrentState => call_failed (getCurrentState env db)
  | OpCommitPlanChange c p => call_failed (commitPlanChange c p env db)
  | OpGetVmsToAllocate n => call_failed (getVmsToAllocate n env db)
  | OpGetVmsToTerminate n => call_failed (getVmsToTerminate n env db)
  | OpReturnUnterminatedVms l => call_failed (returnUnterminatedVms l env db)
  | OpSaveVmTerminationResult v => call_failed (saveVmTerminationResult v env db)
  | OpSaveVmAllocationResult v i => call_failed (saveVmAllocationResult v i env db)
  | OpCancelTask t => call_failed (cancelTask t env db)
  | OpCancelTimedOutJobs => call_failed (cancelTimedOutJobs env db)
  | OpGetJobStates t => call_failed (getJobStates t env db)
  | OpRestartStaleAllocatingVms l n => call_failed (restartStaleAllocatingVms l n env db)
  | OpTerminateStaleAllocatingVms l n m => call_failed (terminateStaleAllocatingVms l n m env db)
  | OpRollbackUnallocatedVmsState l n m => call_failed (rollbackUnallocatedVmsState l n m env env2 db)
  | OpTerminateVmsWithInactiveAgents l n => call_failed (terminateVmsWithInactiveAgents l n env db)
  | OpTerminateVmsWithoutAgents l n => call_failed (terminateVmsWithoutAgents l n env db)
  | OpGetAssignedJobs v => call_failed (getAssignedJobs v env db)
  | OpGetJobToLaunch v j => call_failed (getJobToLaunch v j env db)
  | OpUpdateJobState v j s => call_failed (updateJobState v j s env db)
  | OpGetAllocatedVms => call_failed (getAllocatedVms env db)
  end.

(** The calls that are one transaction with one commit at its end: not
    [rollbackUnallocatedVmsState], which is two, and not [startScheduling], which
    commits a lock number when it is told that a plan is recent. *)
Definition all_or_nothing (op : StorageOp) : Prop :=
  match op with
  | OpStartScheduling _ _ _ | OpRollbackUnallocatedVmsState _ _ _ => False
  | _ => True
  end.

Lemma atomic_call_failed {A} (m : Tx (Result A)) env db :
  atomic m -> env_in_doubt env = false -> call_failed (run_call m env db) = true ->
  same_tables db (call_db (run_call m env db)).
Proof.
  intros Hm Hd Hf. destruct (run_call m env db) as [[a|e] db'|db'] eqn:Hr; try done.
  by eapply run_call_atomic.
Qed.

Lemma commitPlanChange_atomic c p env db :
  env_in_doubt env = false -> call_failed (commitPlanChange c p env db) = true ->
  same_tables db (call_db (commitPlanChange c p env db)).
Proof.
  intros Hd. pose proof (commitPlanChange_wp env c p db) as Hw. unfold wp in Hw.
  unfold commitPlanChange, run_call, final_db.
  destruct (commitPlanChange_txn _ _ _ _) as [[[[]|e]|e|] st]; try done.
  destruct Hw as [Hc _]. cbn in *. by rewrite Hc.
Qed.

(** C26: A storage call that answers a failure has changed no table, whichever of
    its statements failed, as long as a commit reported as failed did not take
    effect: every method but the two named is one transaction. *)
Theorem failed_call_changes_nothing op env env2 db :
  all_or_nothing op -> env_in_doubt env = false -> op_failed op env env2 db = true ->
  same_tables db (op_db op env env2 db).
Proof.
  intros Ho Hd. destruct op; cbn [op_failed op_db all_or_nothing] in *; try done;
    try (by apply commitPlanChange_atomic); try (intros Hf; apply atomic_call_failed; [|done|exact Hf]).
  - apply addTask_atomic.
  - apply getCurrentState_atomic.
  - apply getVmsToAllocate_atomic.
  - apply getVmsToTerminate_atomic.
  - apply execWritableQuery_atomic.
  - apply execWritableQuery_atomic.
  - apply execWritableQuery_atomic.
  - apply cancelJobs_atomic.
  - apply cancelJobs_atomic.
  - apply getJobStates_atomic.
  - apply execWritableQuery_atomic.
  - apply terminateVms_atomic.
  - apply terminateVmsWithInactiveAgents_atomic.
  - apply terminateVms_atomic.
  - apply getAssignedJobs_atomic.
  - apply getJobToLaunch_atomic.
  - apply updateJobState_atomic.
  - apply getAllocatedVms_atomic.
Qed.
End failures.

(** An environment in which the n-th statement fails. *)
Definition faulty (now : Z) (k : nat) : Env :=
  mkEnv now ∅ (fun n => if decide (n = k) then Some SqlError else None) false.

#[local] Existing Instance reference_stdlib.
#[local] Existing Instance reference_postgres.

(** The release of the capacity fails: the report is not recorded either. *)
Lemma failed_call_changes_nothing_witness :
  same_tables sample_db
    (op_db (OpUpdateJobState 1 1 (mkJobState Completed None)) (faulty 10 3) (faulty 10 3) sample_db).
Proof.
  apply (failed_call_changes_nothing (OpUpdateJobState 1 1 (mkJobState Completed None))); [done|done|].
  vm_compute. reflexivity.
Defined.

(** ** Committing a plan *)

(** C21: When [commitPlanChange] answers success, the plan was the latest one, no
    job of it was final and no VM whose idle capacity it updates had been given up;
    in a plan of an assigner, these are all the VMs it puts jobs on.  The new database
    is the old one with the planned VMs marked for termination, the idle capacities
    written, one new row in status pending allocation for every desired slot, different
    slots getting different new VMs, and every job of the plan scheduled on the VM its
    assignment resolves to, which exists. *)
Theorem committed_plan_takes_effect `{StdLib} `{Postgres} c planId env db db' :
  commitPlanChange c planId env db = Answer (Success tt) db' ->
  plan_admitted c planId db
  /\ (forall type config state possibleSlots, config_usable type config -> state_wf state ->
        possibleSlots <> [] -> Forall slot_wf possibleSlots ->
        createVmAssigner_assign type state config possibleSlots = Ret c ->
        forall i v r, jobToVm c !! i = Some (ExistingVm v) -> db_vms db !! v = Some r -> vm_active r = true)
  /\ exists slotsToVms, plan_effect (env_now env) c planId slotsToVms db db'.
Proof.
  intros Hc. apply commitPlanChange_answer in Hc as [Hpa Hpe]. split; [done|]. split; [|done].
  intros type config state slots Hu Hst Hne Hsw Ha i v r Hi. apply (pa_vms _ _ _ Hpa).
  by eapply assign_updates.
Qed.

(** The sample database with a plan in it, and a plan for its two queued jobs. *)
Definition planned_db : Db := mkDb (db_vms sample_db) (db_tasks sample_db) (db_jobs sample_db)
  {[ 1 := mkPlanRow 100 100 "backend" ]} ∅ 3 2 4 2.

Definition sample_change : StateChange := mkStateChange
  (list_to_map [(2, ExistingVm 1); (3, DesiredVm 0)])
  (list_to_map [(0, mkDesired (mkSlot 4 4096) (mkSlot 0 0))])
  (list_to_map [(1, mkSlot 1 1024)]) [2].

Lemma committed_plan_takes_effect_witness :
  exists db', commitPlanChange sample_change 1 (calm 200) planned_db = Answer (Success tt) db'
    /\ exists slotsToVms, plan_effect 200 sample_change 1 slotsToVms planned_db db'.
Proof.
  destruct (commitPlanChange sample_change 1 (calm 200) planned_db) as [[[]|e] db'|db'] eqn:Hc;
    [|vm_compute in Hc; discriminate Hc|vm_compute in Hc; discriminate Hc].
  exists db'. split; [reflexivity|].
  exact (proj2 (proj2 (committed_plan_takes_effect sample_change 1 (calm 200) planned_db db' Hc))).
Defined.

(** C25: Without faults the checks are the only reasons to fail: a plan whose id is
    the latest, whose jobs are open and whose VMs are there and active, and whose
    capacities fit, is committed. *)
Theorem committable_plan_is_committed `{StdLib} `{Postgres} c planId env db :
  quiet env -> plan_committable c planId db ->
  exists db', commitPlanChange c planId env db = Answer (Success tt) db'.
Proof.
  intros Hq Hc. pose proof (commitPlanChange_succeeds env Hq c planId db Hc) as Hs.
  unfold commitPlanChange, run_call. unfold succeeds, wp in Hs.
  destruct (commitPlanChange_txn _ _ _ _) as [o st]; cbn in Hs. destruct Hs as (_ & [] & ->). by eexists.
Qed.

(** The entries of a literal map, one by one. *)
Ltac map_cases H :=
  repeat (apply lookup_insert_Some in H as [[<- <-]|[_ H]]; [|]);
  try (exfalso; by rewrite lookup_empty in H).

Lemma sample_change_committable : plan_committable sample_change 1 planned_db.
Proof.
  split.
  - apply db_wfb_sound. vm_compute. reflexivity.
  - split.
    + intros v s r Hs Hr. cbn in Hs. map_cases Hs. vm_compute in Hr. injection Hr as <-. by split.
    + intros d s Hs. cbn in Hs. map_cases Hs. by repeat split.
  - split; [vm_compute; reflexivity| |].
    + intros i r [t Ht] Hr. cbn in Ht. map_cases Ht; vm_compute in Hr; by injection Hr as <-.
    + intros v r [s Hs] Hr. cbn in Hs. map_cases Hs. vm_compute in Hr. by injection Hr as <-.
  - intros i v Hi. cbn in Hi. apply lookup_insert_Some in Hi as [[_ [= <-]]|[_ Hi]]; [by vm_compute; eexists|].
    apply lookup_insert_Some in Hi as [[_ ?]|[_ Hi]]; [done|by rewrite lookup_empty in Hi].
  - intros i d Hi. cbn in Hi. apply lookup_insert_Some in Hi as [[_ ?]|[_ Hi]]; [done|].
    apply lookup_insert_Some in Hi as [[_ [= <-]]|[_ Hi]]; [by vm_compute; eexists|by rewrite lookup_empty in Hi].
  - vm_compute. split; [done|done].
Qed.

Lemma committable_plan_is_committed_witness :
  exists db', commitPlanChange sample_change 1 (calm 200) planned_db = Answer (Success tt) db'.
Proof.
  apply (committable_plan_is_committed sample_change 1 (calm 200) planned_db).
  - apply calm_quiet.
  - apply sample_change_committable.
Defined.

(** ** Tasks *)

(** C27: A task with storable parameters is added, with one new job per entry of
    [jobOptions]; asking for the states of its jobs right after gives exactly that
    many queued jobs without a result. *)
Theorem added_task_can_be_queried `{Postgres} p env env2 db :
  quiet env -> quiet env2 -> db_wf db -> task_storable p db ->
  exists t ids db', addTask p env db = Answer (Success (mkCreatedJobs t ids)) db'
    /\ length ids = length (tp_jobOptions p) /\ NoDup ids
    /\ (forall i, i ∈ ids -> db_jobs db !! i = None)
    /\ (forall i, i ∉ ids -> db_jobs db' !! i = db_jobs db !! i)
    /\ getJobStates t env2 db'
       = Answer (Success (replicate (length (tp_jobOptions p)) (mkJobState Queued (Some EmptyString)))) db'.
Proof.
  intros Hq Hq2 Hwf Hp. destruct (addTask_inserts p env db Hq Hwf Hp) as (ids & db' & Ha & Hi).
  eexists _, _, _. split; [done|]. pose proof Hi as [Hl Hnd Hr Hrows Hrest].
  split; [done|]. split; [done|]. split; [|split; [done|]].
  - intros i Hin. apply eq_None_not_Some. intros Hs. apply (wf_seq_jobs _ Hwf) in Hs.
    specialize (Hr _ Hin). lia.
  - rewrite getJobStates_quiet by done. do 2 f_equal. eapply inserted_states; [done| |done].
    apply eq_None_not_Some. intros Hs. apply (wf_seq_tasks _ Hwf) in Hs. lia.
Qed.

Definition sample_parameters : TaskParameters :=
  mkTask (mkSlot 1 1024) 60 2 "{}" "image" "client" ["{}"%string; "[]"%string].

Lemma added_task_can_be_queried_witness :
  exists t ids db', addTask sample_parameters (calm 10) sample_db = Answer (Success (mkCreatedJobs t ids)) db'
    /\ getJobStates t (calm 20) db'
       = Answer (Success (replicate 2 (mkJobState Queued (Some EmptyString)))) db'.
Proof.
  destruct (added_task_can_be_queried sample_parameters (calm 10) (calm 20) sample_db)
    as (t & ids & db' & Ha & _ & _ & _ & _ & Hg).
  - apply calm_quiet.
  - apply calm_quiet.
  - apply sample_db_wf.
  - split; try done. repeat (apply Forall_cons; split; [by eexists|]). apply Forall_nil_2.
  - exists t, ids, db'. split; [exact Ha|exact Hg].
Defined.

(** ** VMs *)

(** C28: [getVmsToAllocate] hands out at most as many VMs as it is asked for, each
    of them pending allocation and not locked by another transaction, with the size
    it was planned with, and marks exactly these as allocating; when it hands out
    fewer than asked for, no such VM is left.  Two calls in a row hand out
    different VMs. *)
Theorem vms_are_handed_out_once `{Postgres} n m env env2 db :
  quiet env -> quiet env2 -> db_wf db -> n < 2 ^ 63 -> m < 2 ^ 63 ->
  exists l1 l2 db1 db2, getVmsToAllocate n env db = Answer (Success l1) db1
    /\ getVmsToAllocate m env2 db1 = Answer (Success l2) db2
    /\ handed_out PendingAllocation Allocating n env (apv_id <$> l1) db db1
    /\ (forall a, a ∈ l1 -> exists r, db_vms db !! apv_id a = Some r /\ apv_capacity a = vm_total r)
    /\ (forall v, v ∈ apv_id <$> l1 -> v ∉ apv_id <$> l2).
Proof.
  intros Hq1 Hq2 Hwf Hn Hm.
  destruct (getVmsToAllocate_hands_out n env db) as (l1 & db1 & E1 & H1 & C1); [done..|].
  assert (db_wf db1) as Hwf1.
  { pose proof (op_refines (OpGetVmsToAllocate n) env env db I Hwf) as Hr. cbn [op_db] in Hr.
    rewrite E1 in Hr. by eapply changes_wf. }
  destruct (getVmsToAllocate_hands_out m env2 db1) as (l2 & db2 & E2 & H2 & C2); [done..|].
  exists l1, l2, db1, db2. repeat (split; [done|]). intros v Hv1 Hv2.
  destruct (ho_was _ _ _ _ _ _ _ H1 v Hv1) as (r & _ & _ & _ & Hr1).
  destruct (ho_was _ _ _ _ _ _ _ H2 v Hv2) as (r' & Hr' & Hs & _).
  rewrite Hr1 in Hr'. injection Hr' as <-. unfold status_trigger in Hs. by case_decide.
Qed.

Lemma vms_are_handed_out_once_witness :
  exists l1 l2 db1 db2, getVmsToAllocate 5 (calm 10) sample_db = Answer (Success l1) db1
    /\ getVmsToAllocate 5 (calm 20) db1 = Answer (Success l2) db2
    /\ apv_id <$> l1 = [2] /\ apv_id <$> l2 = [].
Proof.
  destruct (vms_are_handed_out_once 5 5 (calm 10) (calm 20) sample_db)
    as (l1 & l2 & db1 & db2 & E1 & E2 & _).
  - apply calm_quiet.
  - apply calm_quiet.
  - apply sample_db_wf.
  - reflexivity.
  - reflexivity.
  - exists l1, l2, db1, db2. split; [exact E1|]. split; [exact E2|].
    vm_compute in E1. injection E1 as <- <-. vm_compute in E2. injection E2 as <- _. split; reflexivity.
Defined.

(** [rollbackUnallocatedVmsState] on VMs that are still allocating puts those
    with attempts left back to pending allocation, one attempt used, and terminates
    the others; jobs scheduled on a terminated VM go back to the queue while they
    have attempts left and end in an internal error otherwise; no other VM and no
    other job changes. *)
Theorem unallocated_vms_are_retried_or_given_up `{Postgres} vmIds n m env1 env2 db :
  quiet env1 -> quiet env2 -> db_wf db -> vmIds <> [] -> n < 2 ^ 31 -> m < 2 ^ 31 ->
  exists db', rollbackUnallocatedVmsState vmIds n m env1 env2 db = Answer (Success tt) db'
    /\ (forall v, db_vms db' !! v = (fun r =>
          if retried (VmIdIn vmIds) n (env_now env1) v r then retry_row (env_now env1) r
          else if given_up (VmIdIn vmIds) Allocating n (env_now env2) v r
          then status_trigger (env_now env2) r (set_v_status Terminated r)
          else r) <$> db_vms db !! v)
    /\ (forall i, db_jobs db' !! i
          = job_fate (dead_vm (VmIdIn vmIds) Allocating n (env_now env2) db) Scheduled m <$> db_jobs db !! i).
Proof.
  intros Hq1 Hq2 Hwf Hne Hn Hm.
  destruct (retry_or_give_up (VmIdIn vmIds) n m env1 env2 db) as (db1 & db' & E1 & E2 & HV & HJ);
    [done|done|done|by destruct vmIds|done|done|].
  exists db'. unfold rollbackUnallocatedVmsState. rewrite E1. cbn [then_call]. auto.
Qed.

(** VM 2 is being allocated for the last time; job 2 waits for it. *)
Definition allocating_db : Db := mkDb
  (<[2 := mkVmRow Allocating 1 1024 0 0 None None 0 0 None 3]> (db_vms sample_db)) (db_tasks sample_db)
  (<[2 := sample_job Scheduled 1 1024 (Some 2)]> (db_jobs sample_db)) ∅ ∅ 3 2 4 1.

Lemma unallocated_vms_are_retried_or_given_up_witness :
  exists db', rollbackUnallocatedVmsState [2] 3 3 (calm 10) (calm 20) allocating_db = Answer (Success tt) db'
    /\ v_status <$> db_vms db' !! 2 = Some Terminated /\ j_status <$> db_jobs db' !! 2 = Some Queued.
Proof.
  destruct (unallocated_vms_are_retried_or_given_up [2] 3 3 (calm 10) (calm 20) allocating_db)
    as (db' & E & HV & HJ).
  - apply calm_quiet.
  - apply calm_quiet.
  - apply db_wfb_sound. vm_compute. reflexivity.
  - discriminate.
  - reflexivity.
  - reflexivity.
  - exists db'. split; [exact E|]. rewrite HV, HJ. split; vm_compute; reflexivity.
Defined.

(** ** Reports and cancellations *)

(** C31: When an agent reports the end of a job that is open on its VM, the job
    takes the reported state and the finishing time, its VM gets the capacity of
    the job back, never beyond its size, and no other job or VM changes. *)
Theorem report_of_end_releases_capacity `{Postgres} v j s env db r :
  quiet env -> job_on v j db = Some r -> job_open r -> job_final (js_status s) = true ->
  exists db', updateJobState v j s env db = Answer (Success tt) db'
    /\ (forall w, db_vms db' !! w
          = (fun x => if decide (w = v) then returned (job_req r) x else x) <$> db_vms db !! w)
    /\ (forall i, db_jobs db' !! i
          = (fun x => if decide (i = j) then report_row (env_now env) s r else x) <$> db_jobs db !! i).
Proof.
  intros Hq Hon Hopen Hfin. unfold job_open in Hopen.
  destruct (updateJobState_final env Hq v j s db r) as (db' & E & HV & HJ); [done|done| |].
  - intros Hc. by rewrite Hc in Hopen.
  - exists db'. rewrite Hopen in HJ. auto.
Qed.

Lemma report_of_end_releases_capacity_witness :
  exists db', updateJobState 1 1 (mkJobState Completed (Some "url"%string)) (calm 50) sample_db
      = Answer (Success tt) db'
    /\ vm_idle <$> db_vms db' !! 1 = Some (mkSlot 4 4096).
Proof.
  destruct (report_of_end_releases_capacity 1 1 (mkJobState Completed (Some "url"%string)) (calm 50)
    sample_db (sample_job Running 2 2048 (Some 1))) as (db' & E & HV & _).
  - apply calm_quiet.
  - reflexivity.
  - reflexivity.
  - reflexivity.
  - exists db'. split; [exact E|]. rewrite HV. vm_compute. reflexivity.
Defined.

Lemma job_open_statuses s : job_final s = false <-> s ∈ [Queued; Scheduled; Running].
Proof. split; [destruct s; try done; intros _; set_solver|]. rewrite !elem_of_cons, elem_of_nil. intros [->|[->|[->|[]]]]; done. Qed.

Lemma cancelJobs_rows `{Postgres} c env db : quiet env -> job_condition_ok c db = true ->
  exists db', run_call (cancelJobs_ c) env db = Answer (Success tt) db'
    /\ forall i r, db_jobs db !! i = Some r ->
       db_jobs db' !! i = Some (if job_condition c (env_now env) r then cancel_row r else r).
Proof.
  intros Hq Hok. rewrite cancelJobs_quiet by done. unfold cancel_query. rewrite Hok.
  eexists. split; [done|]. intros i r Hr.
  match goal with |- db_jobs (if _ then ?d else _) !! _ = _ => assert (Hj : db_jobs d !! i =
    Some (if job_condition c (env_now env) r then cancel_row r else r)) end.
  { rewrite update_jobs_lookup, Hr. done. }
  case_decide; exact Hj.
Qed.

(** C32: Without faults, and while the time limits of open jobs are timestamps the
    server can represent, [cancelTask] reaches the jobs of its task, [cancelTimedOutJobs]
    those whose time limit, counted from their creation, has passed: of these, queued jobs are
    cancelled, scheduled and running ones are asked to cancel, and all others keep
    their rows, as do the jobs that were not meant. *)
Theorem cancellation_reaches_open_jobs `{Postgres} c env db :
  quiet env ->
  (forall i r, c = TimedOut -> db_jobs db !! i = Some r -> j_status r ∈ [Queued; Scheduled; Running] ->
     timestamp_ok (j_created r + seconds (j_estimation r)) = true) ->
  exists db', match c with OfTask t => cancelTask t env db | TimedOut => cancelTimedOutJobs env db end
      = Answer (Success tt) db'
    /\ forall i r, db_jobs db !! i = Some r ->
       let meant := match c with
                    | OfTask t => j_task_id r = t
                    | TimedOut => j_created r + seconds (j_estimation r) < env_now env
                    end in
       (meant -> j_status r = Queued -> db_jobs db' !! i = Some (set_j_status Cancelled r))
       /\ (meant -> j_status r ∈ [Scheduled; Running] -> db_jobs db' !! i = Some (set_j_status Cancelling r))
       /\ (~ meant \/ j_status r ∉ [Queued; Scheduled; Running] -> db_jobs db' !! i = Some r).
Proof.
  intros Hq Hok. destruct (cancelJobs_rows c env db Hq) as (db' & E & HJ).
  { destruct c as [t|]; [done|]. cbn. apply forallb_forall. intros [i r] Hin. cbn.
    apply list_elem_of_In, elem_of_map_to_list in Hin. apply orb_true_iff.
    destruct (job_final (j_status r)) eqn:Hf; [by left|right]. apply (Hok i r); [done|done|].
    by apply job_open_statuses. }
  exists db'. split; [by destruct c|]. intros i r Hr meant. rewrite (HJ i r Hr).
  assert (job_condition c (env_now env) r = true <-> meant /\ j_status r ∈ [Queued; Scheduled; Running]) as Hsel.
  { unfold job_condition, meant, timed_out. rewrite andb_true_iff, negb_true_iff, job_open_statuses.
    destruct c; [by rewrite bool_decide_eq_true|by rewrite Z.ltb_lt]. }
  unfold cancel_row. split; [|split].
  - intros Hm Hs. rewrite (proj2 Hsel) by (rewrite Hs; set_solver). by rewrite decide_True.
  - intros Hm Hs. rewrite (proj2 Hsel) by set_solver. rewrite decide_False; [done|].
    intros Hbad. rewrite Hbad in Hs. by rewrite !elem_of_cons, elem_of_nil in Hs; destruct Hs as [?|[?|[]]].
  - intros Hn. destruct (job_condition c (env_now env) r); [|done]. destruct (proj1 Hsel eq_refl). by destruct Hn.
Qed.

Lemma cancellation_reaches_open_jobs_witness :
  exists db', cancelTask 1 (calm 50) sample_db = Answer (Success tt) db'
    /\ j_status <$> db_jobs db' !! 1 = Some Cancelling /\ j_status <$> db_jobs db' !! 2 = Some Cancelled.
Proof.
  destruct (cancellation_reaches_open_jobs (OfTask 1) (calm 50) sample_db) as (db' & E & HJ).
  - apply calm_quiet.
  - discriminate.
  - exists db'. split; [exact E|]. split.
    + destruct (HJ 1 (sample_job Running 2 2048 (Some 1)) eq_refl) as (_ & Hcancelling & _).
      rewrite Hcancelling; [reflexivity|reflexivity|right; left].
    + destruct (HJ 2 (sample_job Queued 1 1024 None) eq_refl) as (Hcancelled & _).
      rewrite Hcancelled; reflexivity.
Defined.

(** ** Where the storage falls short *)

(** [getFinalJobStatuses] counts "cancelling" among the final statuses.  When
    the agent reports that a cancelling job is cancelled, the call succeeds and the
    job stays cancelling, so that the agent is told about it again; and every such
    report gives the capacity of the job back to the VM once more. *)
Theorem cancelling_job_is_never_cancelled `{Postgres} v j s env db r :
  quiet env -> job_on v j db = Some r -> j_status r = Cancelling -> js_status s = Cancelled ->
  exists db', updateJobState v j s env db = Answer (Success tt) db'
    /\ (forall i, db_jobs db' !! i = db_jobs db !! i)
    /\ (forall w, db_vms db' !! w
          = (fun x => if decide (w = v) then returned (job_req r) x else x) <$> db_vms db !! w)
    /\ assigned_to v r = true.
Proof.
  intros Hq Hon Hc Hs. pose proof Hon as [Hj Hv]%job_on_spec.
  destruct (updateJobState_final env Hq v j s db r) as (db' & E & HV & HJ); [done|by rewrite Hs|done|].
  exists db'. split; [done|]. rewrite Hc in HJ. split; [|split; [done|]].
  - intros i. rewrite HJ. destruct (decide (i = j)) as [->|Hne]; [by rewrite Hj|].
    by destruct (db_jobs db !! i).
  - unfold assigned_to. rewrite Hv, Hc, (bool_decide_eq_true_2 (Some v = Some v)) by done. reflexivity.
Qed.

(** Two jobs share VM 1; job 1 is being cancelled. *)
Definition shared_vm_db (s : JobStatus) : Db := mkDb
  (list_to_map [(1, sample_vm AgentStarted 4 4096 0 0 (Some "i-1"%string))])
  (list_to_map [(1, sample_task)])
  (list_to_map [(1, sample_job s 2 2048 (Some 1)); (2, sample_job Running 2 2048 (Some 1))])
  ∅ ∅ 2 2 3 1.

Lemma cancelling_job_is_never_cancelled_witness :
  exists db', updateJobState 1 1 (mkJobState Cancelled None) (calm 50) (shared_vm_db Cancelling)
      = Answer (Success tt) db'
    /\ j_status <$> db_jobs db' !! 1 = Some Cancelling
    /\ vm_idle <$> db_vms db' !! 1 = Some (mkSlot 2 2048).
Proof.
  destruct (cancelling_job_is_never_cancelled 1 1 (mkJobState Cancelled None) (calm 50)
    (shared_vm_db Cancelling) (sample_job Cancelling 2 2048 (Some 1))) as (db' & E & HJ & HV & _).
  - apply calm_quiet.
  - reflexivity.
  - reflexivity.
  - reflexivity.
  - exists db'. split; [exact E|]. rewrite HJ, HV. split; vm_compute; reflexivity.
Defined.

(** A second report of the end of a job succeeds too and gives its capacity
    back a second time: afterwards the VM counts as wholly idle, fit to be
    terminated or filled again, while another job of half its size runs on it. *)
Theorem second_report_overcommits :
  exists db1 db2,
    updateJobState 1 1 (mkJobState Completed None) (calm 50) (shared_vm_db Running) = Answer (Success tt) db1
    /\ updateJobState 1 1 (mkJobState Completed None) (calm 60) db1 = Answer (Success tt) db2
    /\ (exists r, db_vms db1 !! 1 = Some r /\ vm_idle r = mkSlot 2 2048)
    /\ (exists r, db_vms db2 !! 1 = Some r /\ vm_idle r = vm_total r)
    /\ j_status <$> db_jobs db2 !! 2 = Some Running.
Proof.
  eexists _, _. split; [vm_compute; reflexivity|]. split; [vm_compute; reflexivity|].
  split; [eexists; split; vm_compute; reflexivity|]. split; [|vm_compute; reflexivity].
  eexists; split; vm_compute; reflexivity.
Qed.

(** As long as one VM is planned or being allocated, its cloud id is NULL, and
    [getAllocatedVms], which asks for the cloud ids of all active VMs, fails; with a
    client library that refuses to read NULL as a string, untracked VMs are then
    never looked for. *)
Theorem allocated_vms_unknown_while_one_is_pending `{Postgres} env db v r :
  quiet env -> as_string None = None -> db_vms db !! v = Some r -> vm_active r = true ->
  v_cloud_vm_id r = None ->
  getAllocatedVms env db = Answer (Failure PgException) db.
Proof.
  intros Hq Hnull Hr Ha Hc. rewrite getAllocatedVms_quiet by done.
  destruct (mapM read_allocated _) as [l|] eqn:Hl; [exfalso|done].
  apply mapM_Some_1 in Hl.
  assert ((v, r) ∈ sql_rows (fun _ r => vm_active r) (db_vms db)) as Hin by by apply sql_rows_elem.
  apply list_elem_of_lookup in Hin as [k Hk].
  destruct (Forall2_lookup_l _ _ _ _ _ Hl Hk) as (a & _ & Hread).
  unfold read_allocated in Hread. cbn in Hread. by rewrite Hc, Hnull in Hread.
Qed.

Lemma allocated_vms_unknown_while_one_is_pending_witness :
  getAllocatedVms (calm 10) sample_db = Answer (Failure PgException) sample_db.
Proof.
  apply (allocated_vms_unknown_while_one_is_pending (calm 10) sample_db 2
    (sample_vm PendingAllocation 1 1024 1 1024 None)); reflexivity || apply calm_quiet.
Defined.

(** A plan may give up a VM that was never allocated.  When such a VM is picked
    by [getVmsToTerminate], the process ends (an exception leaves a [noexcept]
    function) and the VM is left terminating, with nobody to finish it. *)
Theorem unallocated_vm_ends_the_terminator `{Postgres} n env db v r :
  quiet env -> as_string None = None -> n < 2 ^ 63 -> v ∈ pick_vms PendingTermination n env db ->
  db_vms db !! v = Some r -> v_cloud_vm_id r = None ->
  exists db', getVmsToTerminate n env db = Crash db' /\ v_status <$> db_vms db' !! v = Some Terminating.
Proof.
  intros Hq Hnull Hn Hv Hr Hc. rewrite getVmsToTerminate_quiet by done.
  destruct (move_vms_spec PendingTermination Terminating n env db Hn) as (db' & -> & Hho).
  destruct (ho_was _ _ _ _ _ _ _ Hho v Hv) as (r' & Hr' & Hs & _ & Hr1).
  rewrite Hr in Hr'. injection Hr' as <-. set (r1 := status_trigger _ _ _) in Hr1.
  assert (v_cloud_vm_id r1 = None /\ v_status r1 = Terminating) as [Hc1 Hs1].
  { unfold r1, status_trigger. by case_decide. }
  exists db'. rewrite Hr1. cbn. rewrite Hs1. split; [|done].
  destruct (mapM read_terminating _) as [l|] eqn:Hl; [exfalso|done]. apply mapM_Some_1 in Hl.
  match type of Hl with Forall2 _ ?rows _ => assert ((v, r1) ∈ rows) as Hin end.
  { apply sql_rows_elem. split; [done|]. by apply bool_decide_eq_true. }
  apply list_elem_of_lookup in Hin as [k Hk].
  destruct (Forall2_lookup_l _ _ _ _ _ Hl Hk) as (a & _ & Hread).
  unfold read_terminating in Hread. cbn in Hread. by rewrite Hc1, Hnull in Hread.
Qed.

(** After the sample plan, which gives up VM 2. *)
Lemma unallocated_vm_ends_the_terminator_witness :
  exists db, call_db (commitPlanChange sample_change 1 (calm 200) planned_db) = db
    /\ exists db', getVmsToTerminate 1 (calm 300) db = Crash db'
       /\ v_status <$> db_vms db' !! 2 = Some Terminating.
Proof.
  eexists. split; [reflexivity|].
  apply (unallocated_vm_ends_the_terminator 1 (calm 300) _ 2
    (mkVmRow PendingTermination 1 1024 1 1024 None None 0 200 (Some 0) 0)).
  - apply calm_quiet.
  - reflexivity.
  - reflexivity.
  - apply (bool_decide_eq_true_1 (2 ∈ _)). vm_compute. reflexivity.
  - vm_compute. reflexivity.
  - reflexivity.
Defined.

(** The lock number of a scheduler is compared with the largest one recorded
    but a smaller one is not refused: a scheduler that lost its lock starts an
    iteration like the holder. *)
Theorem stale_scheduler_is_not_refused `{Postgres} env b interval n db :
  quiet env -> n < max_lock db -> n < 2 ^ 63 ->
  default 0 (last_updated db) + seconds interval <= env_now env ->
  new_key (seq_plans db) (db_plans db) = true ->
  exists db', startScheduling b interval (Some n) env db = Answer (Success (seq_plans db)) db'.
Proof.
  intros Hq _ Hn Hold Hkey.
  destruct (startScheduling_succeeds env b interval (Some n) db) as (db' & E & _); [done..|]. by exists db'.
Qed.

Lemma stale_scheduler_is_not_refused_witness :
  exists db', startScheduling "old" 40 (Some 3) (calm (seconds 100)) (with_locks sample_db {[ 7 ]})
    = Answer (Success 1) db'.
Proof.
  apply (stale_scheduler_is_not_refused (calm (seconds 100)) "old" 40 3 (with_locks sample_db {[ 7 ]})).
  - apply calm_quiet.
  - reflexivity.
  - reflexivity.
  - vm_compute. discriminate.
  - reflexivity.
Defined.

(** When the agent of a VM has been silent for too long, the VM is marked for
    termination and its running jobs are restarted or failed; a job that was only
    scheduled on it keeps its status and its VM, and is neither queued again nor
    ended. *)
Theorem scheduled_job_stays_on_lost_vm `{Postgres} limit m env db v r i j :
  quiet env -> db_wf db -> agent_times_ok limit db = true -> m < 2 ^ 31 ->
  db_vms db !! v = Some r -> inactive_agent (env_now env) limit r = true ->
  db_jobs db !! i = Some j -> j_vm_id j = Some v -> j_status j = Scheduled ->
  exists db', terminateVmsWithInactiveAgents limit m env db = Answer (Success tt) db'
    /\ v_status <$> db_vms db' !! v = Some PendingTermination
    /\ db_jobs db' !! i = Some j
    /\ forall k x, db_jobs db !! k = Some x -> j_vm_id x = Some v -> j_status x = Running ->
         j_status <$> db_jobs db' !! k = Some (if j_restart_count x <? m then Queued else InternalError).
Proof.
  intros Hq Hwf Hok Hm Hr Hin Hj Hv Hs. rewrite terminateVmsWithInactiveAgents_quiet by done.
  unfold inactive_query. rewrite Hok. set (hit := fun (_ : Z) r => inactive_agent (env_now env) limit r).
  set (ids := (sql_rows hit (db_vms db)).*1).
  assert (v ∈ ids) as Hvin.
  { apply list_elem_of_fmap. exists (v, r). split; [done|]. by apply sql_rows_elem. }
  rewrite decide_False by (intros Hnil; rewrite Hnil in Hvin; by apply not_elem_of_nil in Hvin).
  set (db1 := update_vms _ _ _ db).
  assert (db_wf db1) as Hwf1.
  { eapply change_wf; [|exact Hwf]. apply update_vms_refines. constructor. }
  destruct (restarted_spec env ids Running m db1) as (db' & -> & HJ & HV); [done|done|done|].
  exists db'. split; [done|]. split; [|split].
  - rewrite HV. unfold db1. rewrite update_vms_lookup, Hr. cbn. unfold hit. rewrite Hin.
    unfold status_trigger. by case_decide.
  - rewrite HJ. cbn. rewrite Hj. cbn. f_equal. unfold job_fate. rewrite Hv, Hs. done.
  - intros k x Hk Hx Hrun. rewrite HJ. cbn. rewrite Hk. cbn. unfold job_fate.
    rewrite Hx, Hrun, !bool_decide_eq_true_2 by done. cbn. by destruct (_ <? _).
Qed.

(** Job 1 was just scheduled on VM 1 when its agent went silent. *)
Lemma scheduled_job_stays_on_lost_vm_witness :
  exists db', terminateVmsWithInactiveAgents 120 3 (calm (seconds 500)) (shared_vm_db Scheduled)
      = Answer (Success tt) db'
    /\ v_status <$> db_vms db' !! 1 = Some PendingTermination
    /\ j_status <$> db_jobs db' !! 1 = Some Scheduled.
Proof.
  destruct (scheduled_job_stays_on_lost_vm 120 3 (calm (seconds 500)) (shared_vm_db Scheduled) 1
    (sample_vm AgentStarted 4 4096 0 0 (Some "i-1"%string)) 1 (sample_job Scheduled 2 2048 (Some 1)))
    as (db' & E & HV & HJ & _); try reflexivity.
  - apply calm_quiet.
  - apply db_wfb_sound. vm_compute. reflexivity.
  - exists db'. split; [exact E|]. split; [exact HV|]. rewrite HJ. reflexivity.
Defined.
