(* ===== verification/SystemProps.v ===== *)
(** * Properties of the system

    The processes together: iterations of the scheduler with and without
    interference, the allocator, the failure detector, the API, and what holds in
    every database that any interleaving of them can reach. *)

From S2P Require Import Prelude Std Slot State OrderedJobs JobAllocator SlotSelector Assigner PlanFacts PlanProps.
From S2P Require Import Db TxLogic Storage StorageFacts Lifecycle Checker.
From S2P Require Import StorageRefines StorageSpec StorageProgress TaskFacts ReportFacts Scheduler SchedulerFacts VmFacts.
From S2P Require Import Interfaces Process Allocator FailureDetector Protocol AllocatorFacts Api Client EndToEnd.

#[local] Existing Instance reference_stdlib.
#[local] Existing Instance reference_postgres.

(** ** Samples *)

(** A scheduler with best fit on jobs in decreasing order, every five seconds. *)
Definition sample_scheduler : SchedulerConfig := mkSchedulerConfig 5 Complex (Some Samples.bfd).

Lemma sample_scheduler_usable :
  config_usable (vmAssignerType sample_scheduler) (complexVmAssignerConfig sample_scheduler).
Proof. exists Samples.bfd. by split. Qed.

(** ** Scheduling *)

(** C5: An iteration of the scheduler that meets no faults and no interference,
    with the last plan older than the interval and room for new rows, commits a
    plan that empties the queue: every queued job is scheduled on a VM that exists,
    and that is not given up when the job needs anything, with its other columns as
    they were; no other job changes. *)
Theorem undisturbed_iteration_empties_queue `{StdLib} `{Postgres} id config possibleSlots distLock ln
    env1 env2 env3 db :
  config_usable (vmAssignerType config) (complexVmAssignerConfig config) ->
  Scheduler_accepts possibleSlots = true -> Forall slot_wf possibleSlots ->
  quiet env1 -> quiet env2 -> quiet env3 -> db_wf db ->
  lock_number distLock = Some ln -> lock_ok ln -> 0 < schedulingInterval config ->
  default 0 (last_updated db) + seconds (schedulingInterval config) <= env_now env1 ->
  0 <= seq_plans db < 2 ^ 31 -> 0 <= seq_vms db ->
  seq_vms db + Z.of_nat (size (db_jobs db)) <= 2 ^ 31 ->
  exists db', iteration id config possibleSlots distLock env1 env2 env3 (fun d => d) (fun d => d) db
      = (Committed (seq_plans db), db')
    /\ (forall i r, db_jobs db !! i = Some r -> j_status r = Queued -> placed_on db' i r)
    /\ (forall i r, db_jobs db !! i = Some r -> j_status r <> Queued -> db_jobs db' !! i = Some r)
    /\ db_wf db'.
Proof.
  intros Hc Ha Hs Hq1 Hq2 Hq3 Hwf Hln Hok Hi Hold Hp Hv Hroom.
  destruct (schedule_places config possibleSlots Hc Ha Hs id distLock ln env1 env2 env3 db)
    as (db' & E & HQ & HO & _); [done..|].
  destruct (schedule_steps config possibleSlots Hc Ha Hs id distLock env1 env2 env3 (fun d => d) (fun d => d) db)
    as [Hst _]; [done|by intros ??; apply rtc_refl..|].
  exists db'. rewrite E in Hst. repeat (split; [done|]). by eapply steps_wf.
Qed.

Lemma undisturbed_iteration_empties_queue_witness :
  exists db', iteration "backend" sample_scheduler Samples.slots None (calm (seconds 100)) (calm (seconds 101))
      (calm (seconds 102)) (fun d => d) (fun d => d) sample_db = (Committed 1, db')
    /\ placed_on db' 2 (sample_job Queued 1 1024 None)
    /\ placed_on db' 3 (sample_job Queued 4 4096 None).
Proof.
  destruct (undisturbed_iteration_empties_queue "backend" sample_scheduler Samples.slots None None
    (calm (seconds 100)) (calm (seconds 101)) (calm (seconds 102)) sample_db) as (db' & E & HQ & _).
  - apply sample_scheduler_usable.
  - reflexivity.
  - apply Samples.slots_wf.
  - apply calm_quiet.
  - apply calm_quiet.
  - apply calm_quiet.
  - apply sample_db_wf.
  - reflexivity.
  - exact I.
  - reflexivity.
  - vm_compute. discriminate.
  - vm_compute. split; [discriminate|reflexivity].
  - vm_compute. discriminate.
  - vm_compute. discriminate.
  - exists db'. split; [exact E|]. split; apply HQ; reflexivity.
Defined.

(** C12: Whatever faults an iteration meets and whatever other processes do between
    its three transactions, it always has a plan to propose, its commit is within
    the storage's precondition, so that it moves the database only by storage
    calls, and it leaves the database well-formed. *)
Theorem disturbed_iteration_is_safe `{StdLib} `{Postgres} id config possibleSlots distLock
    env1 env2 env3 others1 others2 db :
  config_usable (vmAssignerType config) (complexVmAssignerConfig config) ->
  Scheduler_accepts possibleSlots = true -> Forall slot_wf possibleSlots ->
  other_processes others1 -> other_processes others2 -> db_wf db ->
  let '(outcome, db') := iteration id config possibleSlots distLock env1 env2 env3 others1 others2 db in
  outcome <> NoPlan /\ rtc step db db' /\ db_wf db'.
Proof.
  intros Hc Ha Hs Ho1 Ho2 Hwf.
  destruct (schedule_steps config possibleSlots Hc Ha Hs id distLock env1 env2 env3 others1 others2 db)
    as [Hst Hno]; [done..|].
  destruct (iteration _ _ _ _ _ _ _ _ _ _) as [o db']. split; [done|]. split; [done|].
  by eapply steps_wf.
Qed.

(** A job of VM 1 ends while a plan is computed. *)
Definition report_in_between (d : Db) : Db :=
  op_db (OpUpdateJobState 1 1 (mkJobState Completed (Some "url"%string))) (calm (seconds 101))
    (calm (seconds 101)) d.

Lemma report_in_between_steps : other_processes report_in_between.
Proof. intros d _. apply rtc_once. by apply step_call. Qed.

Lemma disturbed_iteration_is_safe_witness :
  let '(outcome, db') := iteration "backend" sample_scheduler Samples.slots None (calm (seconds 100))
      (calm (seconds 101)) (mkEnv (seconds 102) ∅ (fun n => if decide (n = 5%nat) then Some SqlError else None) false)
      (fun d => d) report_in_between sample_db in
  outcome <> NoPlan /\ rtc step sample_db db' /\ db_wf db'.
Proof.
  apply (disturbed_iteration_is_safe "backend" sample_scheduler Samples.slots None).
  - apply sample_scheduler_usable.
  - reflexivity.
  - apply Samples.slots_wf.
  - intros d _. apply rtc_refl.
  - apply report_in_between_steps.
  - apply sample_db_wf.
Defined.

(** The sample database without its second VM. *)
Definition busy_db : Db := mkDb (delete 2 (db_vms sample_db)) (db_tasks sample_db) (db_jobs sample_db)
  ∅ ∅ 3 2 4 1.

(** The idle capacities of a plan are those of its snapshot: when a job of a
    VM ends between the snapshot and the commit of a plan that adds a job to that
    VM, the capacity the ended job returned is overwritten.  Here VM 1 runs one
    job of 1 core out of 4 afterwards, and 1 idle core is recorded. *)
Theorem released_capacity_is_overwritten : exists db',
  iteration "backend" sample_scheduler Samples.slots None (calm (seconds 100)) (calm (seconds 101))
    (calm (seconds 102)) (fun d => d) report_in_between busy_db = (Committed 1, db')
  /\ j_status <$> db_jobs db' !! 1 = Some Completed
  /\ (forall i r, db_jobs db' !! i = Some r -> j_vm_id r = Some 1 -> i = 1 \/ i = 2)
  /\ job_req <$> db_jobs db' !! 2 = Some (mkSlot 1 1024)
  /\ vm_total <$> db_vms db' !! 1 = Some (mkSlot 4 4096)
  /\ vm_idle <$> db_vms db' !! 1 = Some (mkSlot 1 1024).
Proof.
  eexists. split; [vm_compute; reflexivity|]. split; [vm_compute; reflexivity|]. split.
  { intros i r Hr. apply elem_of_map_to_list in Hr. vm_compute in Hr. intros Hv.
    repeat (apply elem_of_cons in Hr as [[= -> ->]|Hr]; [first [by left|by right|done]|]).
    by apply elem_of_nil in Hr. }
  repeat split; vm_compute; reflexivity.
Qed.

(** ** Every interleaving *)

(** C7: Every call of the storage, on a well-formed database and whatever faults
    it meets, a commit in doubt included, amounts to a sequence of the edits of
    the lifecycle (jobs and VMs move only along its transitions, rows are only
    added with fresh keys, jobs only together with their task), and leaves the database well-formed. *)
Theorem storage_refines_lifecycle `{StdLib} `{Postgres} op env env2 db :
  db_wf db -> op_admissible op db ->
  rtc change db (op_db op env env2 db) /\ db_wf (op_db op env env2 db).
Proof.
  intros Hwf Hadm. pose proof (op_refines op env env2 db Hadm Hwf) as Hr.
  split; [done|by eapply changes_wf].
Qed.

Lemma storage_refines_lifecycle_witness :
  rtc change sample_db (op_db (OpGetVmsToAllocate 5) (calm 10) (calm 10) sample_db)
  /\ v_status <$> db_vms (op_db (OpGetVmsToAllocate 5) (calm 10) (calm 10) sample_db) !! 2 = Some Allocating.
Proof.
  split; [|vm_compute; reflexivity].
  apply (storage_refines_lifecycle (OpGetVmsToAllocate 5) (calm 10) (calm 10) sample_db).
  - apply sample_db_wf.
  - exact I.
Defined.

(** The database the migrations create. *)
Definition initial_db : Db := mkDb ∅ ∅ ∅ ∅ ∅ 1 1 1 1.

Lemma initial_db_wf : db_wf initial_db.
Proof. apply db_wfb_sound. vm_compute. reflexivity. Qed.

(** C8: In every database that calls of any number of schedulers, allocators,
    failure detectors and API servers can reach, in any order and with any faults,
    no VM has more idle capacity than its size, every VM in use has its cloud id,
    every job belongs to a task that exists, every assigned job is on a VM that
    exists, and the sequences are ahead of the keys. *)
Theorem reachable_database_is_well_formed `{StdLib} `{Postgres} db :
  rtc step initial_db db -> db_wf db.
Proof. intros Hs. eapply steps_wf; [exact Hs|apply initial_db_wf]. Qed.

Definition reached_db : Db :=
  op_db (OpGetVmsToAllocate 5) (calm 20) (calm 20)
    (op_db (OpAddTask (mkTask (mkSlot 1 1024) 60 1 "{}" "image" "client" ["{}"%string])) (calm 10) (calm 10) initial_db).

Lemma reachable_database_is_well_formed_witness :
  db_wf reached_db /\ j_status <$> db_jobs reached_db !! 1 = Some Queued.
Proof.
  split; [|vm_compute; reflexivity]. apply reachable_database_is_well_formed.
  eapply rtc_l; [apply step_call|apply rtc_once, step_call]; exact I.
Defined.

(** C11: A job that is completed, cancelled or failed keeps its row for ever.  One that
    is being cancelled is never run again: it is cancelling or cancelled from then on.
    Every job keeps its task, its requirements, its options and its creation time,
    and never loses a restart. *)
Theorem final_jobs_are_final `{StdLib} `{Postgres} a b i r :
  db_wf a -> rtc step a b -> db_jobs a !! i = Some r ->
  exists r', db_jobs b !! i = Some r'
    /\ (j_status r ∈ [Completed; Cancelled; Error; InternalError] -> r' = r)
    /\ (j_status r = Cancelling -> j_status r' = Cancelling \/ j_status r' = Cancelled)
    /\ j_task_id r' = j_task_id r /\ job_req r' = job_req r /\ j_options r' = j_options r
    /\ j_created r' = j_created r /\ j_estimation r' = j_estimation r
    /\ j_restart_count r <= j_restart_count r'.
Proof.
  intros Hwf Hs Hr. destruct (changes_jobs_evolve a b (steps_refine a b Hs Hwf) i r Hr) as (r' & Hr' & He).
  destruct He as [Hf Ht Hq Ho [Hc He] Hn]. exists r'. split; [done|]. split; [|split; [|done]].
  - intros Hin. apply Hf, job_final_spec. set_solver.
  - intros Hin. left. rewrite Hf; [done|]. by rewrite Hin.
Qed.

Lemma final_jobs_are_final_witness :
  let done_db := report_in_between sample_db in
  j_status <$> db_jobs done_db !! 1 = Some Completed
  /\ db_jobs (op_db (OpCancelTask 1) (calm (seconds 200)) (calm 0) done_db) !! 1 = db_jobs done_db !! 1.
Proof.
  cbn zeta. split; [vm_compute; reflexivity|].
  destruct (db_jobs (report_in_between sample_db) !! 1) as [r|] eqn:Hr; [|vm_compute in Hr; discriminate Hr].
  destruct (final_jobs_are_final (report_in_between sample_db)
    (op_db (OpCancelTask 1) (calm (seconds 200)) (calm 0) (report_in_between sample_db)) 1 r) as (r' & Hr' & Hf & _).
  - apply db_wfb_sound. vm_compute. reflexivity.
  - apply rtc_once, step_call. exact I.
  - exact Hr.
  - rewrite Hr', Hf; [reflexivity|]. vm_compute in Hr. injection Hr as <-. left.
Defined.

(** ** The other processes *)

(** A cloud that has VMs of up to two cores and remembers which it gave. *)
Definition sample_cloud : CloudClient (list VmId) := {|
  cloud_allocate v s w :=
    if cpu s <=? 2 then (Success (mkAllocatedVm "i-2"%string "small"%string), v :: w)
    else (Failure AllocationException, w);
  cloud_terminate _ w := (Success tt, w);
  cloud_getAllAllocatedVms w := (Success [], w);
  cloud_getPossibleSlots := [mkSlot 1 1024; mkSlot 2 2048];
|}.
#[local] Existing Instance sample_cloud.

Definition sample_schedule : Schedule := mkSchedule (fun n => calm (seconds (100 + Z.of_nat n))) (fun _ d => d).

Lemma sample_undisturbed : undisturbed sample_schedule.
Proof. split; [intros n; apply calm_quiet|done]. Qed.

Lemma sample_plain_names : plain_names.
Proof. intros v s w info w'. cbn. case_bool; [|done]. by intros [= <- _]. Qed.

Definition sample_common : CommonConfig := mkCommonConfig 3 3.

(** The allocator and the failure detector, whatever the cloud answers,
    whatever faults their calls meet and whatever others do in between, move the
    database only by storage calls and leave it well-formed. *)
Theorem processes_keep_the_database_well_formed `{StdLib} `{Postgres} {W : Type} `{CloudClient W}
    (sch : Schedule) config fd_config (w : World W) :
  (forall n, other_processes (others sch n)) -> db_wf (w_db w) ->
  forall m, m ∈ [Allocator.allocate config; Allocator.terminate config; FailureDetector.monitor fd_config] ->
  let w' := (process sch m w).2 in rtc step (w_db w) (w_db w') /\ db_wf (w_db w').
Proof.
  intros Ho Hwf m Hm. assert (steps_only (process sch m)) as Hs.
  { apply (process_steps sch Ho). apply elem_of_cons in Hm as [->|Hm]; [apply allocate_asks|].
    apply elem_of_cons in Hm as [->|Hm]; [apply terminate_asks|].
    apply list_elem_of_singleton in Hm as ->. apply monitor_asks. }
  split; [by apply Hs|]. eapply steps_wf; [by apply Hs|done].
Qed.

Lemma processes_keep_the_database_well_formed_witness :
  db_wf (w_db (process sample_schedule (FailureDetector.monitor (mkFailureDetectorConfig 60 60 60 60 sample_common))
    (mkWorld sample_db [] 0%nat)).2).
Proof.
  apply (processes_keep_the_database_well_formed sample_schedule (mkAllocatorConfig 5 5 sample_common)
    (mkFailureDetectorConfig 60 60 60 60 sample_common) (mkWorld sample_db [] 0%nat)).
  - intros n d _. apply rtc_refl.
  - apply sample_db_wf.
  - right. right. left.
Defined.

(** C29: A run of [allocate] that meets no faults leaves none of the VMs it was
    handed in status allocating: each one it took was pending allocation and is
    now allocated with a cloud id and type, or pending again, or terminated; it
    takes at most the configured number, all of them when they are fewer, and
    touches no other VM. *)
Theorem allocate_settles_every_vm `{StdLib} `{Postgres} {W : Type} `{CloudClient W} (sch : Schedule) config (w : World W) :
  undisturbed sch -> plain_names -> db_wf (w_db w) -> maxVmAllocationCount config < 2 ^ 63 ->
  vmRestartAttemptCount (alloc_common config) < 2 ^ 31 -> jobRestartAttemptCount (alloc_common config) < 2 ^ 31 ->
  exists ids w', process sch (Allocator.allocate config) w = (Some tt, w')
    /\ Z.of_nat (length ids) <= Z.max (maxVmAllocationCount config) 0
    /\ (forall v r, v ∈ ids -> db_vms (w_db w) !! v = Some r -> v_status r = PendingAllocation
          /\ exists r', db_vms (w_db w') !! v = Some r' /\ settled r')
    /\ (forall v, v ∉ ids -> db_vms (w_db w') !! v = db_vms (w_db w) !! v)
    /\ (Z.of_nat (length ids) < maxVmAllocationCount config ->
          forall v r, db_vms (w_db w) !! v = Some r -> v_status r = PendingAllocation ->
            v ∉ env_locked (envs sch (w_calls w)) -> v ∈ ids).
Proof. intros Hsch. by apply allocate_settles. Qed.

Lemma allocate_settles_every_vm_witness :
  exists w', process sample_schedule (Allocator.allocate (mkAllocatorConfig 5 5 sample_common))
      (mkWorld sample_db [] 0%nat) = (Some tt, w')
    /\ v_status <$> db_vms (w_db w') !! 2 = Some Allocated.
Proof.
  destruct (allocate_settles_every_vm sample_schedule (mkAllocatorConfig 5 5 sample_common)
    (mkWorld sample_db [] 0%nat)) as (ids & w' & E & _).
  - apply sample_undisturbed.
  - apply sample_plain_names.
  - apply sample_db_wf.
  - reflexivity.
  - reflexivity.
  - reflexivity.
  - exists w'. split; [exact E|]. vm_compute in E. injection E as <-. vm_compute. reflexivity.
Defined.

(** C30: The failure detector's pass over stale allocations puts every VM that has
    been allocating for longer than the limit back to pending allocation while it
    has attempts left, and terminates it otherwise; VMs that are not allocating
    are untouched, and jobs change only when their VM was terminated: scheduled
    ones go back to the queue or end in an internal error. *)
Theorem stale_allocations_are_resolved `{StdLib} `{Postgres} {W : Type} `{CloudClient W} (sch : Schedule) config (w : World W) :
  let limit := StatusOlderThan (allocationTimeLimit config) in
  let n := vmRestartAttemptCount (fd_common config) in
  let m := jobRestartAttemptCount (fd_common config) in
  let now1 := env_now (envs sch (w_calls w)) in
  let now2 := env_now (envs sch (S (w_calls w))) in
  undisturbed sch -> db_wf (w_db w) -> now1 <= now2 -> n < 2 ^ 31 -> m < 2 ^ 31 ->
  vm_condition_ok limit Allocating (w_db w) = true ->
  exists w', process sch (FailureDetector.handleStaleAllocatingVms_ config) w = (Some tt, w')
    /\ (forall v r, db_vms (w_db w) !! v = Some r -> v_status r = Allocating ->
          now1 > v_last_status_update r + seconds (allocationTimeLimit config) ->
          db_vms (w_db w') !! v = Some (if v_restart_count r <? n then retry_row now1 r
                                        else status_trigger now2 r (set_v_status Terminated r)))
    /\ (forall v r, db_vms (w_db w) !! v = Some r -> v_status r <> Allocating ->
          db_vms (w_db w') !! v = Some r)
    /\ (forall i, db_jobs (w_db w') !! i
          = job_fate (dead_vm limit Allocating n now2 (w_db w)) Scheduled m <$> db_jobs (w_db w) !! i).
Proof.
  intros limit n m now1 now2 Hsch Hwf Hnow Hn Hm Hok.
  destruct (retry_or_give_up limit n m (envs sch (w_calls w)) (envs sch (S (w_calls w))) (w_db w))
    as (db1 & db' & E1 & E2 & HV & HJ); [apply Hsch|apply Hsch|done..|].
  exists (mkWorld db' (w_cloud w) (S (S (w_calls w)))). split; [|split; [|split]].
  - unfold FailureDetector.handleStaleAllocatingVms_. process_step.
    rewrite (und_alone _ Hsch). unfold restartStaleAllocatingVms.
    unfold limit, n, m in E1, E2. rewrite E1. process_step. unfold terminateStaleAllocatingVms.
    by rewrite (und_alone _ Hsch), E2.
  - intros v r Hr Hs Hold. cbn [w_db]. rewrite HV, Hr. cbn [fmap option_fmap option_map]. f_equal.
    unfold retried, given_up, limit, vm_condition. rewrite !bool_decide_eq_true_2 by done.
    fold now1 now2. cbn [andb].
    rewrite (proj2 (Z.gtb_lt now1 _)), (proj2 (Z.gtb_lt now2 _)), !andb_true_r by lia.
    rewrite Z.geb_leb. destruct (Z.ltb_spec (v_restart_count r) n); [done|].
    by rewrite (proj2 (Z.leb_le _ _)) by lia.
  - intros v r Hr Hs. cbn [w_db]. rewrite HV, Hr. cbn. f_equal.
    unfold retried, given_up. by rewrite bool_decide_eq_false_2.
  - exact HJ.
Qed.

(** VM 2 was allocating for the third time when its allocator died. *)
Definition abandoned_db : Db := mkDb
  (<[2 := mkVmRow Allocating 1 1024 0 0 None None 0 0 None 3]> (db_vms sample_db)) (db_tasks sample_db)
  (<[2 := sample_job Scheduled 1 1024 (Some 2)]> (db_jobs sample_db)) ∅ ∅ 3 2 4 1.

Lemma stale_allocations_are_resolved_witness :
  exists w', process sample_schedule (FailureDetector.handleStaleAllocatingVms_
      (mkFailureDetectorConfig 60 60 60 60 sample_common)) (mkWorld abandoned_db ([] : list VmId) 0%nat) = (Some tt, w')
    /\ v_status <$> db_vms (w_db w') !! 2 = Some Terminated /\ j_status <$> db_jobs (w_db w') !! 2 = Some Queued.
Proof.
  destruct (stale_allocations_are_resolved sample_schedule (mkFailureDetectorConfig 60 60 60 60 sample_common)
    (mkWorld abandoned_db ([] : list VmId) 0%nat)) as (w' & E & _).
  - apply sample_undisturbed.
  - apply db_wfb_sound. vm_compute. reflexivity.
  - vm_compute. discriminate.
  - reflexivity.
  - reflexivity.
  - vm_compute. reflexivity.
  - exists w'. split; [exact E|]. vm_compute in E. injection E as <-. split; vm_compute; reflexivity.
Defined.

(** ** From the queue to the result *)

(** C4: A queued job runs to its end.  When an iteration of the scheduler and a run of
    the allocator meet no faults and no interference, the cloud gives the VMs it is
    asked for, the allocator may allocate as many as there are, and no VM was left
    allocating, then every queued job that needs anything is on a VM that exists in
    the cloud; the agent of that VM is told of the job when it asks, gets the
    capacity and options the job was added with, and its report of the end leaves
    the job completed with the result. *)
Theorem queued_jobs_run_to_their_end `{StdLib} `{Postgres} {W : Type} `{CloudClient W}
    id config possibleSlots distLock ln env1 env2 env3 sch alloc ask1 ask2 ask3 url db (cloud : W) :
  config_usable (vmAssignerType config) (complexVmAssignerConfig config) ->
  Scheduler_accepts possibleSlots = true -> Forall slot_wf possibleSlots ->
  quiet env1 -> quiet env2 -> quiet env3 -> db_wf db ->
  lock_number distLock = Some ln -> lock_ok ln -> 0 < schedulingInterval config ->
  default 0 (last_updated db) + seconds (schedulingInterval config) <= env_now env1 ->
  0 <= seq_plans db < 2 ^ 31 -> 0 <= seq_vms db ->
  seq_vms db + Z.of_nat (size (db_jobs db)) <= 2 ^ 31 ->
  (forall v r, db_vms db !! v = Some r -> v_status r <> Allocating) ->
  undisturbed sch -> plain_names -> obliging -> env_locked (envs sch 0) = ∅ ->
  maxVmAllocationCount alloc < 2 ^ 63 -> vmRestartAttemptCount (alloc_common alloc) < 2 ^ 31 ->
  jobRestartAttemptCount (alloc_common alloc) < 2 ^ 31 ->
  quiet ask1 -> quiet ask2 -> quiet ask3 ->
  exists db', iteration id config possibleSlots distLock env1 env2 env3 (fun d => d) (fun d => d) db
      = (Committed (seq_plans db), db')
    /\ (Z.of_nat (size (db_vms db')) < maxVmAllocationCount alloc ->
        exists w', process sch (Allocator.allocate alloc) (mkWorld db' cloud 0%nat) = (Some tt, w')
          /\ forall i r, db_jobs db !! i = Some r -> j_status r = Queued -> slot_positive (job_req r) ->
               exists v vr told launch db1 db2,
                 agent_session v i url ask1 ask2 ask3 (set_j_vm_id v (set_j_status Scheduled r)) vr (w_db w')
                   told launch db1 db2
                 /\ (v_status vr = Allocated \/ v_status vr = AgentStarted) /\ is_Some (v_cloud_vm_id vr)).
Proof.
  intros Hc Ha Hs Hq1 Hq2 Hq3 Hwf Hln Hok Hi Hold Hp Hv Hroom Hnone Hsch Hplain Hob Hfree Hmax Hn Hm A1 A2 A3.
  destruct (schedule_places config possibleSlots Hc Ha Hs id distLock ln env1 env2 env3 db)
    as (db' & E & HQ & _ & Hal); [done..|].
  destruct (schedule_steps config possibleSlots Hc Ha Hs id distLock env1 env2 env3 (fun d => d) (fun d => d) db)
    as [Hst _]; [done|by intros ??; apply rtc_refl..|]. rewrite E in Hst.
  assert (db_wf db') as Hwf' by (by eapply steps_wf).
  exists db'. split; [done|]. intros Hsize.
  destruct (obliging_allocate sch Hsch alloc (mkWorld db' cloud 0%nat)) as (w' & Ew & Hw & Ej & Hvms); [done..|].
  exists w'. split; [done|]. intros i r Hr Hq Hpos. destruct (HQ i r Hr Hq) as (v & vr & Hjob & Hvr & Hact).
  destruct (Hvms v vr Hvr) as (vr' & Hvr' & Hpend & Hsame).
  assert (v_status vr' = Allocated \/ v_status vr' = AgentStarted) as Hup.
  { destruct (decide (v_status vr = PendingAllocation)) as [Hps|Hps]; [left; by apply Hpend|].
    rewrite (Hsame Hps). assert (v_status vr <> Allocating) as Hna.
    { intros (r0 & Hr0 & Hs0)%(Hal v vr Hvr). by destruct (Hnone v r0 Hr0). }
    specialize (Hact Hpos). revert Hact Hps Hna. unfold vm_active, getActiveVmStatuses.
    rewrite bool_decide_eq_true. destruct (v_status vr); set_solver. }
  destruct (agent_serves v i url ask1 ask2 ask3 (set_j_vm_id v (set_j_status Scheduled r)) vr' (w_db w'))
    as (told & launch & db1 & db2 & Has); [done..| |done|done|done|]; [by rewrite Ej|].
  exists v, vr', told, launch, db1, db2. split; [done|]. split; [done|].
  by apply (vr_cloud _ (wf_vms _ Hw v vr' Hvr')).
Qed.

(** A cloud that has every VM it is asked for. *)
Definition generous_cloud : CloudClient unit := {|
  cloud_allocate v s w := (Success (mkAllocatedVm "i-new"%string "any"%string), w);
  cloud_terminate _ w := (Success tt, w);
  cloud_getAllAllocatedVms w := (Success [], w);
  cloud_getPossibleSlots := Samples.slots;
|}.

Lemma queued_jobs_run_to_their_end_witness :
  exists db', iteration "backend" sample_scheduler Samples.slots None (calm (seconds 100)) (calm (seconds 101))
      (calm (seconds 102)) (fun d => d) (fun d => d) sample_db = (Committed 1, db')
    /\ exists w' v vr told launch db1 db2,
         process (H1 := generous_cloud) sample_schedule (Allocator.allocate (mkAllocatorConfig 9 9 sample_common))
           (mkWorld db' tt 0%nat) = (Some tt, w')
         /\ agent_session v 3 "url" (calm 1) (calm 2) (calm 3)
              (set_j_vm_id v (set_j_status Scheduled (sample_job Queued 4 4096 None))) vr (w_db w') told launch db1 db2
         /\ (v_status vr = Allocated \/ v_status vr = AgentStarted).
Proof.
  destruct (queued_jobs_run_to_their_end (H1 := generous_cloud) "backend" sample_scheduler Samples.slots None None
    (calm (seconds 100)) (calm (seconds 101)) (calm (seconds 102)) sample_schedule
    (mkAllocatorConfig 9 9 sample_common) (calm 1) (calm 2) (calm 3) "url" sample_db tt) as (db' & E & Hrun).
  - apply sample_scheduler_usable.
  - reflexivity.
  - apply Samples.slots_wf.
  - apply calm_quiet.
  - apply calm_quiet.
  - apply calm_quiet.
  - apply sample_db_wf.
  - reflexivity.
  - exact I.
  - reflexivity.
  - vm_compute. discriminate.
  - vm_compute. split; [discriminate|reflexivity].
  - vm_compute. discriminate.
  - vm_compute. discriminate.
  - intros v r Hr. cbn in Hr.
    repeat (apply lookup_insert_Some in Hr as [[<- <-]|[_ Hr]]; [done|]). by rewrite lookup_empty in Hr.
  - apply sample_undisturbed.
  - by intros v s w info w' [= <- _].
  - intros v s w. by eexists _, _.
  - reflexivity.
  - reflexivity.
  - reflexivity.
  - reflexivity.
  - apply calm_quiet.
  - apply calm_quiet.
  - apply calm_quiet.
  - exists db'. split; [exact E|]. destruct Hrun as (w' & Ew & Hjobs).
    + vm_compute in E. injection E as <-. vm_compute. reflexivity.
    + destruct (Hjobs 3 (sample_job Queued 4 4096 None)) as (v & vr & told & launch & db1 & db2 & Has & Hup & _).
      * reflexivity.
      * reflexivity.
      * left. reflexivity.
      * exists w', v, vr, told, launch, db1, db2. split; [exact Ew|]. split; [exact Has|exact Hup].
Defined.

(** ** The API *)

(** [getTaskState] finds exactly the tasks that have a job, reports one state
    per job, and summarises them: the task is running when one of its jobs is, and
    completed when none of its jobs can run any more. *)
Theorem task_state_summarises_jobs `{Postgres} `{JsonParser} t env db :
  quiet env ->
  (fst (api_getTaskState t env db) = ReplyStatus NOT_FOUND
     <-> forall i r, db_jobs db !! i = Some r -> j_task_id r <> t)
  /\ snd (api_getTaskState t env db) = db
  /\ forall i r, db_jobs db !! i = Some r -> j_task_id r = t ->
     exists st, api_getTaskState t env db = (ReplyOk st, db)
       /\ length (pts_job_states st) = length (sql_rows (fun _ r => bool_decide (j_task_id r = t)) (db_jobs db))
       /\ (pts_status st = TASK_RUNNING
           <-> exists i r, db_jobs db !! i = Some r /\ j_task_id r = t /\ j_status r = Running)
       /\ (pts_status st = TASK_COMPLETED
           <-> forall i r, db_jobs db !! i = Some r -> j_task_id r = t -> job_final (j_status r) = true).
Proof.
  intros Hq. unfold api_getTaskState. rewrite getJobStates_quiet by done. cbn [reply_to].
  set (rows := sql_rows (fun _ r => bool_decide (j_task_id r = t)) (db_jobs db)).
  assert (Hrows : forall i r, (i, r) ∈ rows <-> db_jobs db !! i = Some r /\ j_task_id r = t).
  { intros i r. unfold rows. by rewrite sql_rows_elem, bool_decide_eq_true. }
  split; [|split; [done|]].
  - destruct rows as [|[i r] rest]; cbn.
    + split; [|done]. intros _ i r Hr Ht. by apply (not_elem_of_nil (i, r)), Hrows.
    + split; [done|]. intros Hno. destruct (proj1 (Hrows i r)) as [Hr Ht]; [left|]. by destruct (Hno i r Hr).
  - intros i r Hr Ht. exists (protoTaskStateFromJobStates (read_job_state <$> rows)).
    assert (rows <> []) as Hne.
    { intros He. apply (not_elem_of_nil (i, r)). rewrite <- He. by apply Hrows. }
    split; [by destruct rows|]. split; [cbn; by rewrite !length_fmap|].
    unfold protoTaskStateFromJobStates, rows. cbn [pts_status]. split; [|apply reported_completed].
    rewrite task_status_running, reported_status. by setoid_rewrite proto_running.
Qed.

(** A parser that takes everything for JSON. *)
Definition sample_json : JsonParser := {| json_valid _ := true |}.
#[local] Existing Instance sample_json.

Lemma task_state_summarises_jobs_witness :
  exists st, api_getTaskState 1 (calm 10) sample_db = (ReplyOk st, sample_db) /\ pts_status st = TASK_RUNNING.
Proof.
  destruct (task_state_summarises_jobs 1 (calm 10) sample_db) as (_ & _ & Hst); [apply calm_quiet|].
  destruct (Hst 1 (sample_job Running 2 2048 (Some 1))) as (st & E & _ & Hrun & _); [reflexivity..|].
  exists st. split; [exact E|]. apply Hrun. exists 1, (sample_job Running 2 2048 (Some 1)).
  repeat split; reflexivity.
Defined.

(** C6: A client that waits for a task is told the truth, and for good.  Its polls and
    its last question meet no faults, while the other processes do what they like in
    between.  It gets an answer; the answer has the state of every job of the task in the
    database at the last turn; it calls the task completed exactly when no job of the
    task can run any more; and if it does, every later answer, after any calls of any
    process, is completed too, with the same results. *)
Theorem client_gets_final_results `{StdLib} `{Postgres} t polls last db :
  db_wf db -> has_jobs t db -> Forall (fun turn => other_processes turn.1 /\ quiet turn.2) (last :: polls) ->
  exists result db', waitTaskForComplete t polls last db = (Some result, db') /\ rtc step db db'
    /\ (forall i r, db_jobs db' !! i = Some r -> j_task_id r = t ->
          (jobStatusToProto (j_status r), Some (default EmptyString (j_result_url r))) ∈ ptr_job_results result)
    /\ (ptr_status result = TASK_COMPLETED
        <-> forall i r, db_jobs db' !! i = Some r -> j_task_id r = t -> job_final (j_status r) = true)
    /\ (ptr_status result = TASK_COMPLETED -> forall db'' env, rtc step db' db'' -> quiet env ->
          exists later, api_getTaskResult t env db'' = (ReplyOk later, db'')
            /\ ptr_status later = TASK_COMPLETED /\ ptr_job_results later ≡ₚ ptr_job_results result).
Proof.
  intros Hwf Hj Hturns. destruct (wait_tells t polls last db Hwf Hj Hturns) as (db' & E & Hs & Hj').
  exists (result_of t db'), db'. split; [done|]. split; [done|]. split; [|split; [apply result_status|]].
  - intros i r Hr Ht. cbn. rewrite <- list_fmap_compose. apply list_elem_of_fmap. exists (i, r). split; [done|].
    apply sql_rows_elem. by rewrite bool_decide_eq_true.
  - intros Hc db'' env Hs' Hq. pose proof (steps_wf _ _ Hs Hwf) as Hwf'.
    exists (result_of t db''). split; [by apply asks_result, (has_jobs_later t db')|].
    assert (result_of t db'' = result_of t db') as ->; [|done].
    unfold result_of. by rewrite (final_rows_kept t db') by (done || by apply result_status).
Qed.

(** The job of task 1 that runs completes before the second poll, the queued one is
    cancelled with the task; a late cancellation then changes nothing. *)
Definition ending_turns : list Turn :=
  [(fun d => d, calm (seconds 100)); (fun d => op_db (OpCancelTask 1) (calm (seconds 104)) (calm 0) (report_in_between d), calm (seconds 105))].

Lemma client_gets_final_results_witness :
  exists result db', waitTaskForComplete 1 ending_turns (fun d => d, calm (seconds 106)) sample_db = (Some result, db')
    /\ ptr_status result = TASK_COMPLETED
    /\ exists later, api_getTaskResult 1 (calm (seconds 200))
           (op_db (OpCancelTask 1) (calm (seconds 150)) (calm 0) db')
         = (ReplyOk later, op_db (OpCancelTask 1) (calm (seconds 150)) (calm 0) db')
       /\ ptr_status later = TASK_COMPLETED.
Proof.
  destruct (client_gets_final_results 1 ending_turns (fun d => d, calm (seconds 106)) sample_db)
    as (result & db' & E & _ & _ & _ & Hlater).
  - apply sample_db_wf.
  - exists 1. eexists. split; [vm_compute; reflexivity|reflexivity].
  - repeat apply Forall_cons_2; try apply Forall_nil_2; (split; [|apply calm_quiet]); cbn [fst].
    + intros d _. apply rtc_refl.
    + intros d _. apply rtc_refl.
    + intros d Hd. eapply rtc_r; [by apply report_in_between_steps|]. apply (step_call (OpCancelTask 1)). exact I.
  - exists result, db'. assert (ptr_status result = TASK_COMPLETED) as Hc.
    { vm_compute in E. injection E as <- _. reflexivity. }
    split; [exact E|]. split; [exact Hc|].
    destruct (Hlater Hc (op_db (OpCancelTask 1) (calm (seconds 150)) (calm 0) db') (calm (seconds 200)))
      as (later & El & Hl & _).
    + apply rtc_once. by apply step_call.
    + apply calm_quiet.
    + exists later. split; [exact El|exact Hl].
Defined.

(** An agent cannot put a job back into the queue: such a report is refused as
    an invalid argument; a report on a job that is not on the agent's VM is
    answered with not found; neither changes anything.  Every other report is
    answered with OK, one on a job that is being cancelled included, which is
    dropped unless it reports the cancellation: the agent is never told that the
    job was cancelled. *)
Theorem agent_reports_are_screened `{Postgres} p env db :
  quiet env ->
  (pe_status p = JOB_QUEUED -> api_updateJobState p env db = (ReplyStatus INVALID_ARGUMENT, db))
  /\ (pe_status p <> JOB_QUEUED -> job_on (pe_vm_id p) (pe_job_id p) db = None ->
        api_updateJobState p env db = (ReplyStatus NOT_FOUND, db))
  /\ (forall r, pe_status p <> JOB_QUEUED -> job_on (pe_vm_id p) (pe_job_id p) db = Some r ->
        exists db', api_updateJobState p env db = (ReplyOk tt, db')
          /\ (j_status r = Cancelling -> pe_status p <> JOB_CANCELLED -> db' = db)).
Proof.
  intros Hq. unfold api_updateJobState, updateJobState. rewrite updateJobState_quiet by done.
  assert (Hallowed : pe_status p <> JOB_QUEUED ->
    bool_decide (protoJobStatusToJobStatus (pe_status p) ∈ getAllowedAgentUpdateJobStatuses) = true).
  { unfold getAllowedAgentUpdateJobStatuses. intros ?. apply bool_decide_eq_true.
    destruct (pe_status p); cbn; [done|set_solver..]. }
  split; [by intros Hs; unfold protoExecutionJobStateToJobState; rewrite Hs|]. split.
  - intros Hne Hon. cbn. by rewrite (Hallowed Hne), Hon.
  - intros r Hne Hon. cbn [protoExecutionJobStateToJobState js_status]. rewrite (Hallowed Hne), Hon.
    destruct (bool_decide (j_status r = Cancelling) && _) eqn:Hc; [by exists db|].
    eexists. split; [done|]. intros Hs Hp. exfalso. rewrite (bool_decide_eq_true_2 _ Hs) in Hc.
    by destruct (pe_status p).
Qed.

Lemma agent_reports_are_screened_witness :
  api_updateJobState (mkProtoExecutionJobState 1 1 JOB_QUEUED None) (calm 10) sample_db
    = (ReplyStatus INVALID_ARGUMENT, sample_db)
  /\ api_updateJobState (mkProtoExecutionJobState 2 1 JOB_COMPLETED None) (calm 10) sample_db
    = (ReplyStatus NOT_FOUND, sample_db).
Proof.
  split; [apply (agent_reports_are_screened (mkProtoExecutionJobState 1 1 JOB_QUEUED None))
         |apply (agent_reports_are_screened (mkProtoExecutionJobState 2 1 JOB_COMPLETED None))];
    first [apply calm_quiet|reflexivity|discriminate].
Defined.

(** A task that passes the validation and cannot be stored is not answered with
    an error status: [addTask] of the public API asks the parsed parameters, which
    hold a value, for their error, and throws; it never answers with the internal
    error it means to give.  A task without jobs is such a task on every database,
    which keeps its tables. *)
Theorem failed_insertion_escapes_the_handler `{Postgres} `{JsonParser} protoTask env db :
  (forall p e db', taskParametersFromProto protoTask = Success p -> addTask p env db = Answer (Failure e) db' ->
     api_addTask protoTask env db = (ReplyThrow, db'))
  /\ fst (api_addTask protoTask env db) <> ReplyStatus INTERNAL
  /\ (quiet env -> pt_job_options protoTask = [] -> pt_job_count protoTask = 0 ->
      json_valid (pt_settings protoTask) = true ->
      fst (api_addTask protoTask env db) = ReplyThrow
      /\ same_tables db (snd (api_addTask protoTask env db))).
Proof.
  split; [|split].
  - intros p e db' Hp Ha. unfold api_addTask. by rewrite Hp, Ha.
  - unfold api_addTask. destruct (taskParametersFromProto protoTask); [|done].
    by destruct (addTask _ _ _) as [[|]|].
  - intros Hq Ho Hc Hs. assert (exists p, taskParametersFromProto protoTask = Success p /\ tp_jobOptions p = [])
      as (p & Hp & Hopt).
    { unfold taskParametersFromProto, validateProtoTaskParameters, validateJson. rewrite Ho, Hc, Hs. by eexists. }
    unfold api_addTask. rewrite Hp, addTask_quiet by done. unfold insert_jobs_query. rewrite Hopt.
    destruct (insert_task _ _) as [[t db1]|]; (split; [done|]); cbn; [apply rollback_same|done].
Qed.

(** Such a task, and the sample database. *)
Lemma failed_insertion_escapes_the_handler_witness :
  fst (api_addTask (mkProtoTask 1 1024 60 "{}" 0 "image" "client" []) (calm 10) sample_db) = ReplyThrow.
Proof.
  apply (failed_insertion_escapes_the_handler (mkProtoTask 1 1024 60 "{}" 0 "image" "client" [])).
  - apply calm_quiet.
  - reflexivity.
  - reflexivity.
  - reflexivity.
Defined.
