(* ===== verification/ProtocolProps.v ===== *)
(** * Properties of the processes over their interfaces, with witnesses

    What the allocator, the failure detector and the scheduler ask, in which order, of
    whatever implements [TaskStorage] and [CloudClient]. *)

From S2P Require Import Prelude Std Slot State OrderedJobs JobAllocator SlotSelector Assigner PlanFacts PlanProps.
From S2P Require Import Db Storage Lifecycle Checker StorageRefines Interfaces Process Scheduler SchedulerFacts.
From S2P Require Import Allocator FailureDetector Protocol Scripted SystemProps.

(** ** The allocator *)

(** C17: The allocator with any storage and any cloud.  [allocate] asks for VMs; if
    it gets them it asks the cloud for each of them once, in order, with its capacity,
    saves every instance it is given right away whatever the storage says to that, and
    hands back those that were refused, all of them and only them, in one last call,
    which is not made when there are none; if it gets none it does nothing.
    [terminate] likewise.  Both return. *)
Theorem allocator_settles_what_it_takes {S : Type} `{!TaskStorage S} `{!Cloud S} `{!Answering S} config (s : S) :
  let limits := alloc_common config in
  (exists s' r t, run (Allocator.allocate config) s = (Some tt, s')
    /\ trace (Allocator.allocate config) s = told (OpGetVmsToAllocate (maxVmAllocationCount config)) r :: t
    /\ match r with
       | Failure _ => t = []
       | Success vms => exists outcomes back, length outcomes = length vms
         /\ t = concat (zip_with attempt vms outcomes) ++ back
         /\ handed_back (fun ids => OpRollbackUnallocatedVmsState ids (vmRestartAttemptCount limits)
              (jobRestartAttemptCount limits)) (refused (apv_id <$> vms) outcomes) back
       end)
  /\ (exists s' r t, run (Allocator.terminate config) s = (Some tt, s')
    /\ trace (Allocator.terminate config) s = told (OpGetVmsToTerminate (maxVmTerminationCount config)) r :: t
    /\ match r with
       | Failure _ => t = []
       | Success vms => exists outcomes back, length outcomes = length vms
         /\ t = concat (zip_with attempt_end vms outcomes) ++ back
         /\ handed_back OpReturnUnterminatedVms (refused (tpv_id <$> vms) outcomes) back
       end).
Proof.
  intros limits. split.
  - destruct (allocate_does config s) as ([] & s' & E & r & t & Ht & Hr). by exists s', r, t.
  - destruct (terminate_does config s) as ([] & s' & E & r & t & Ht & Hr). by exists s', r, t.
Qed.

(** A storage that hands out two VMs and a cloud that refuses the larger one. *)
Definition two_vms : list AllocationPendingVmInfo :=
  [mkAllocationPending 5 (mkSlot 64 65536); mkAllocationPending 7 (mkSlot 1 1024)].
Definition small_instance : AllocatedVmInfo := mkAllocatedVm "i-7"%string "small"%string.
Definition handing_out (op : StorageOp) : Result (op_value op) :=
  match op with
  | OpGetVmsToAllocate _ => Success two_vms
  | _ => Failure RuntimeException
  end.
Definition picky (c : CloudCall) : cloud_answer c :=
  match c with
  | CloudAllocate _ s => if cpu s <=? 2 then Success small_instance else Failure AllocationException
  | CloudTerminate _ => Success tt
  | CloudGetAllAllocatedVms => Success []
  | CloudGetPossibleSlots => []
  end.

#[local] Instance handing_out_storage : TaskStorage (list Event) := scripted_storage handing_out.
#[local] Instance picky_cloud : Cloud (list Event) := scripted_cloud picky.

Lemma allocator_settles_what_it_takes_witness :
  exists h, run (Allocator.allocate (mkAllocatorConfig 2 2 sample_common)) ([] : list Event) = (Some tt, h)
    /\ trace (Allocator.allocate (mkAllocatorConfig 2 2 sample_common)) ([] : list Event)
       = [told (OpGetVmsToAllocate 2) (Success two_vms);
          replied (CloudAllocate 5 (mkSlot 64 65536)) (Failure AllocationException);
          replied (CloudAllocate 7 (mkSlot 1 1024)) (Success small_instance);
          told (OpSaveVmAllocationResult 7 small_instance) (Failure RuntimeException);
          told (OpRollbackUnallocatedVmsState [5] 3 3) (Failure RuntimeException)].
Proof.
  destruct (allocator_settles_what_it_takes (mkAllocatorConfig 2 2 sample_common) ([] : list Event))
    as [(h & r & t & E & _) _].
  exists h. split; [exact E|]. vm_compute. reflexivity.
Defined.

(** ** The failure detector *)

(** C18: The failure detector with any storage and any cloud.  An iteration returns and
    makes every pass, in order, with its limits, whatever the passes before it came to.
    In between it asks which VMs are tracked; only if it is told does it list the
    instances; only if they are listed does it terminate, each once and in order, those
    that are not tracked and no others. *)
Theorem monitor_makes_every_pass {S : Type} `{!TaskStorage S} `{!Cloud S} `{!Answering S} config (s : S) :
  exists s' t1 tracked t2 cancelled, run (FailureDetector.monitor config) s = (Some tt, s')
    /\ trace (FailureDetector.monitor config) s
       = t1 ++ told OpGetAllocatedVms tracked :: t2 ++ [told OpCancelTimedOutJobs cancelled]
    /\ ev_request <$> t1 = OnStorage <$> passes config
    /\ match tracked with
       | Failure _ => t2 = []
       | Success known => exists listed t, t2 = replied CloudGetAllAllocatedVms listed :: t
         /\ match listed with
            | Failure _ => t = []
            | Success all => ev_request <$> t
                = (fun vm => OnCloud (CloudTerminate (av_id vm))) <$> filter (fun vm => vm ∉ known) all
            end
       end.
Proof.
  destruct (monitor_does config s) as ([] & s' & E & t1 & tracked & t2 & cancelled & Ht & H1 & H2).
  exists s', t1, tracked, t2, cancelled. split; [done|]. split; [done|]. split; [done|].
  destruct tracked as [known|e]; [|done]. destruct H2 as (listed & t & -> & Hl). exists listed, t. split; [done|].
  destruct listed; [done|by apply fmap_nil_inv in Hl].
Qed.

(** The passes fail; one instance is tracked, another is not, and neither is its
    termination granted. *)
Definition limits_60 : FailureDetectorConfig := mkFailureDetectorConfig 60 60 60 60 sample_common.
Definition known_instance : AllocatedVmInfo := mkAllocatedVm "i-1"%string "small"%string.
Definition failing_passes : TaskStorage (list Event) := scripted_storage (fun op =>
  match op with
  | OpGetAllocatedVms => Success [known_instance]
  | _ => Failure PgException
  end).
Definition two_instances : Cloud (list Event) := scripted_cloud (fun c =>
  match c with
  | CloudAllocate _ _ => Failure AllocationException
  | CloudTerminate _ => Failure RuntimeException
  | CloudGetAllAllocatedVms => Success [known_instance; small_instance]
  | CloudGetPossibleSlots => []
  end).

Lemma monitor_makes_every_pass_witness :
  exists h, run (TaskStorage0 := failing_passes) (Cloud0 := two_instances) (FailureDetector.monitor limits_60)
      ([] : list Event) = (Some tt, h)
    /\ ev_request <$> h = (OnStorage <$> passes limits_60)
         ++ [OnStorage OpGetAllocatedVms; OnCloud CloudGetAllAllocatedVms; OnCloud (CloudTerminate "i-7");
             OnStorage OpCancelTimedOutJobs].
Proof.
  destruct (monitor_makes_every_pass (TaskStorage0 := failing_passes) (Cloud0 := two_instances) limits_60
    ([] : list Event)) as (h & t1 & tracked & t2 & cancelled & E & _).
  exists h. split; [exact E|]. vm_compute in E. injection E as <-. vm_compute. reflexivity.
Defined.

(** ** The scheduler *)

(** C13: The scheduler with any storage that hands out well-formed states.  What it
    asks such a storage to commit is a sound plan for the state the storage handed out,
    made by the configured assigner, under the id the storage gave, with the lock number
    the lock gave; it says that a plan was committed exactly when the storage said so;
    it makes three calls at most, none after one that failed, none without the lock; and
    it never ends without a plan to propose. *)
Theorem scheduler_commits_what_it_read `{StdLib} {S : Type} `{!TaskStorage S} `{!Cloud S} (Inv : S -> Prop)
    `{!PlanningStorage S Inv} id config possibleSlots distLock (s : S) :
  config_usable (vmAssignerType config) (complexVmAssignerConfig config) ->
  Scheduler_accepts possibleSlots = true -> Forall slot_wf possibleSlots -> Inv s ->
  let t := trace (schedule id config possibleSlots distLock) s in
  let outcome := (run (schedule id config possibleSlots distLock) s).1 in
  outcome <> Some NoPlan
  /\ (forall c p r, (c, p, r) ∈ commits t -> exists ln st, lock_number distLock = Some ln
        /\ t = [told (OpStartScheduling id (schedulingInterval config) ln) (Success p);
                told OpGetCurrentState (Success st); told (OpCommitPlanChange c p) r]
        /\ createVmAssigner_assign (vmAssignerType config) st (complexVmAssignerConfig config) possibleSlots = Ret c
        /\ plan_sound st c)
  /\ (forall p, outcome = Some (Committed p) <-> exists c, (c, p, Success tt) ∈ commits t)
  /\ (length t <= 3)%nat /\ (lock_number distLock = None -> t = [])
  /\ (forall t1 e t2, t = t1 ++ e :: t2 -> ev_failed e = true -> t2 = []).
Proof.
  intros Hc Ha Hs Hi t outcome. subst t outcome.
  pose proof (schedule_goes Inv id config possibleSlots distLock Hc Ha Hs s Hi) as Hw.
  destruct Hw as [Hl|ln Hl|ln e Hl|ln p Hl|ln p e Hl|ln p st Hl|ln p st c r Hl Hp Hc'].
  7: { split; [by destruct r as [[]|]|]. split; [|split; [|split; [done|split; [congruence|]]]].
    - intros c0 p0 r0 Hin. apply list_elem_of_singleton in Hin. injection Hin as -> -> ->. by exists ln, st.
    - intros p0. split.
      + destruct r as [[]|]; [|done]. intros [= ->]. exists c. left.
      + intros (c0 & Hin). apply list_elem_of_singleton in Hin. by injection Hin as -> -> <-.
    - intros t1 e0 t2 Ht Hf. destruct t1 as [|? [|? [|? t1]]]; cbn in Ht; simplify_eq; try done.
      by destruct t1. }
  all: split; [done|]; split; [by intros c p0 r []%elem_of_nil|].
  all: split; [intros p0; split; [done|by intros (c & []%elem_of_nil)]|].
  all: split; [cbn; lia|]; split; [congruence|].
  all: intros t1 e0 t2 Ht Hf; destruct t1 as [|? [|? t1]]; cbn in Ht; simplify_eq; try done; by destruct t1.
Qed.

(** The database is such a storage. *)
#[local] Existing Instance reference_stdlib.
#[local] Existing Instance reference_postgres.

Lemma scheduler_commits_what_it_read_witness :
  let world := mkWorld (W := unit) sample_db tt 0%nat in
  exists st c, trace (TaskStorage0 := pg_storage sample_schedule) (Cloud0 := world_cloud (H1 := no_cloud))
      (schedule "backend" sample_scheduler Samples.slots None) world
    = [told (OpStartScheduling "backend" 5 None) (Success 1); told OpGetCurrentState (Success st);
       told (OpCommitPlanChange c 1) (Success tt)]
    /\ plan_sound st c.
Proof.
  intros world.
  destruct (scheduler_commits_what_it_read (TaskStorage0 := pg_storage sample_schedule)
    (Cloud0 := world_cloud (H1 := no_cloud)) (fun w : World unit => db_wf (w_db w))
    (PlanningStorage0 := pg_planning sample_schedule (fun n d _ => rtc_refl _ _))
    "backend" sample_scheduler Samples.slots None world) as (_ & Hc & _).
  - apply sample_scheduler_usable.
  - reflexivity.
  - apply Samples.slots_wf.
  - apply sample_db_wf.
  - eassert ((_, 1, Success tt) ∈ commits _) as Hin; [|destruct (Hc _ _ _ Hin) as (ln & st & [= <-] & Ht & _ & Hp)].
    + vm_compute. left.
    + exists st. eexists. split; [exact Ht|exact Hp].
Defined.
