(* ===== verification/InfraProps.v ===== *)
(** * Properties of the infrastructure, with witnesses

    Base64, text and configuration, the AWS client, the distributed lock, the
    connection pool and the threads. *)

From S2P Require Import Prelude Std Slot State OrderedJobs JobAllocator SlotSelector Assigner.
From S2P Require Import AllocatorContract SelectorFacts AssignerFacts PlanFacts Db TxLogic Storage.
From S2P Require Import StorageFacts Lifecycle Checker StorageRefines StorageSpec StorageProgress.
From S2P Require Import Scheduler SchedulerFacts VmFacts Interfaces Process Allocator FailureDetector.
From S2P Require Import AllocatorFacts Protocol PlanProps Base64 Text Config Aws AwsFacts AwsSample CloudContract Fleet.
From S2P Require Import DistLock LockFacts LockSystem PgPool Threads SystemProps.

(** ** Base64 *)

(** C38: For at least two bytes, [base64Encode], with its signed characters, shifts
    and masks, its wrapping loop bound and its output buffer, gives the encoding of
    RFC 4648; decoding gives the bytes back, and the text has four characters for
    every three bytes begun. *)
Theorem base64Encode_is_base64 data :
  bytes data -> 2 <= Z.of_nat (length data) < 2 ^ 63 ->
  base64Encode data = Ret (base64 data) /\ base64_decode (base64 data) = Some data
  /\ Z.of_nat (length (base64 data)) = 4 * ((Z.of_nat (length data) + 2) / 3).
Proof.
  intros Hb Hl. split; [by apply base64Encode_ok|]. split; [by apply base64_decode_base64|].
  apply base64_length.
Qed.

Lemma base64Encode_is_base64_witness :
  base64Encode [82; 255; 99; 113] = Ret (base64 [82; 255; 99; 113])
  /\ base64 [82; 255; 99; 113] = String.list_ascii_of_string "Uv9jcQ==".
Proof.
  split; [|vm_compute; reflexivity]. apply (base64Encode_is_base64 [82; 255; 99; 113]).
  - repeat constructor; lia.
  - cbn; lia.
Defined.

(** Shorter input makes [in_len - 2] wrap around, and the loop leaves its input
    or its buffer. *)
Theorem base64_needs_two_bytes data :
  bytes data -> Z.of_nat (length data) < 2 -> base64Encode data = Undefined.
Proof.
  intros Hb Hl. destruct data as [|a [|]]; cbn [length] in Hl; [vm_compute; reflexivity| |lia].
  apply Forall_cons in Hb as [Ha _]. unfold base64Encode.
  change (4 * ((Z.of_nat (length [a]) + 2) / 3)) with 4. cbn [length encode_loop].
  change (0 <? size_t_wrap (Z.of_nat 1 - 2)) with true. cbn iota.
  unfold encode_group. change (char_at [a] 0) with (Ret (char_value a)). cbn [mbind outcome_bind].
  change (char_at [a] (0 + 1)) with (Ret (A := Z) 0). change (char_at [a] (0 + 2)) with (@Undefined Z).
  destruct (put_code 4 (first_code (char_value a)) []) as [out| |] eqn:E; cbn [mbind outcome_bind]; [|done|].
  - destruct (put_code 4 (second_code (char_value a) 0) out) as [out'| |] eqn:E'; [done|done|].
    unfold put_code, put in E'. repeat case_match; simplify_eq; by destruct (sEncodingTable !! _).
  - unfold put_code, put in E. repeat case_match; simplify_eq; by destruct (sEncodingTable !! _).
Qed.

Lemma base64_needs_two_bytes_witness : base64Encode [65] = Undefined.
Proof. apply (base64_needs_two_bytes [65]); [repeat constructor; lia|cbn; lia]. Defined.

(** ** Text and configuration *)

(** The lists of numbers that statements are made of can be read back: [joinSeq]
    is undone by a reader of comma-separated numbers, for any integers, and
    [std::atoi] undoes the output of an [int]. *)
Theorem joined_numbers_read_back (l : list Z) :
  read_seq (joinSeq l) = Some l
  /\ Forall (fun z => - 2 ^ 31 <= z < 2 ^ 31 -> atoi (pretty z) = Ret z) l.
Proof.
  split; [apply read_joinSeq|]. apply Forall_true. apply atoi_pretty.
Qed.

(** A scheduler configuration that could be read names an assigner it carries the
    settings for, with a usable strategy, unless NextFit was asked for; and the
    numbers an operator wrote as decimal [int]s are the ones that are used. *)
Theorem scheduler_config_is_usable getenv c n :
  createSchedulerConfig getenv = Returns c -> configured getenv "VMS_SCHEDULING_INTERVAL_S" 40 n ->
  (config_usable (vmAssignerType c) (complexVmAssignerConfig c)
   \/ getenv "VMS_ALLOCATION_STRATEGY" = Some "nextfit"%string)
  /\ schedulingInterval c = n.
Proof.
  intros Hc Hn. split; [by apply createSchedulerConfig_usable|].
  unfold createSchedulerConfig in Hc. rewrite (seconds_from_env_ok _ _ _ n) in Hc by (done || lia).
  exec_inv Hc. subst c. cbn. congruence.
Qed.

Lemma scheduler_config_is_usable_witness :
  createSchedulerConfig (map_at [("VMS_SCHEDULING_INTERVAL_S", "25")]%string)
    = Returns (mkSchedulerConfig 25 Complex (Some (mkComplexConfig Fifo BestFit)))
  /\ schedulingInterval (mkSchedulerConfig 25 Complex (Some (mkComplexConfig Fifo BestFit))) = 25.
Proof.
  split; [vm_compute; reflexivity|].
  apply (scheduler_config_is_usable (map_at [("VMS_SCHEDULING_INTERVAL_S", "25")]%string)
    (mkSchedulerConfig 25 Complex (Some (mkComplexConfig Fifo BestFit))) 25).
  - vm_compute; reflexivity.
  - left. split; [vm_compute; reflexivity|lia].
Defined.

(** Text that is no number is zero, and a minus sign makes a number huge. *)
Example numbers_are_not_checked :
  createAllocatorConfig (map_at [("VMS_MAX_VM_ALLOCATION_COUNT", "ten");
      ("VMS_MAX_VM_TERMINATION_COUNT", "-1")]%string)
  = Returns (mkAllocatorConfig 0 (2 ^ 64 - 1) (mkCommonConfig 3 3)).
Proof. vm_compute. reflexivity. Qed.

(** ** The cloud *)

(** C34: A backend that could read its AWS configuration followed the listing of its
    instance class to the last page, and offers the scheduler exactly the sizes on
    these pages, in the order the scheduler checks; the scheduler accepts them unless
    EC2 listed nothing; and a VM planned with one of them gets an instance type that
    EC2 listed with exactly that size. *)
Theorem aws_offers_exact_sizes `{StdLib} {T W : Type} `{!EC2 T W} getenv fuel (w : W) (config : AwsInstancesConfig T) w' :
  createAwsInstancesConfig getenv fuel w = Returns (config, w') ->
  let instanceClass := getFromEnvOrDefault getenv "VMS_AWS_INSTANCE_CLASS" "c6g." in
  exists items n,
    listed DescribeInstanceTypes (mkDescribe [("instance-type", [instanceClass +:+ "*"])]%string "") w items w' n
    /\ getPossibleSlots config
       ≡ₚ ((fun item => mkSlot (size_t_wrap item.1.2) (size_t_wrap item.2)) <$> items)
    /\ Scheduler_accepts (getPossibleSlots config) = negb (bool_decide (items = []))
    /\ forall slot, slot ∈ getPossibleSlots config ->
         exists item, item ∈ items /\ instanceTypeForSlot config slot = Ret item.1.1
           /\ slot = mkSlot (size_t_wrap item.1.2) (size_t_wrap item.2).
Proof.
  intros Hc instanceClass.
  destruct (createAwsInstancesConfig_types _ _ _ _ _ Hc) as [Hs (items & n & Hl & Hperm)].
  exists items, n. split; [done|]. split; [|split].
  - unfold getPossibleSlots. rewrite Hperm, <- list_fmap_compose. done.
  - destruct items as [|x items].
    + apply Permutation_nil_r in Hperm. unfold getPossibleSlots. by rewrite Hperm.
    + rewrite bool_decide_eq_false_2 by done. apply getPossibleSlots_accepted; [done|]. intros Hnil.
      rewrite Hnil in Hperm. by apply Permutation_nil_l in Hperm.
  - intros slot (info & -> & Hin)%list_elem_of_fmap.
    destruct (instance_type_exact _ info Hs Hin) as (info' & Ht & Hin' & Heq).
    rewrite Hperm in Hin'. apply list_elem_of_fmap in Hin' as (item & -> & Hitem).
    exists item. split; [done|]. split; [exact Ht|]. by rewrite <- Heq.
Qed.

#[local] Existing Instance reference_stdlib.

Lemma aws_offers_exact_sizes_witness :
  createAwsInstancesConfig sample_env 2 empty_ec2 = Returns (sample_aws, empty_ec2)
  /\ exists items n, listed DescribeInstanceTypes (mkDescribe [("instance-type", ["c6g.*"])]%string "") empty_ec2 items empty_ec2 n
       /\ [mkSlot 1 2048; mkSlot 2 4096; mkSlot 4 8192]
          ≡ₚ ((fun item => mkSlot (size_t_wrap item.1.2) (size_t_wrap item.2)) <$> items).
Proof.
  assert (createAwsInstancesConfig sample_env 2 empty_ec2 = Returns (sample_aws, empty_ec2)) as Hc
    by (vm_compute; reflexivity).
  split; [exact Hc|].
  destruct (aws_offers_exact_sizes sample_env 2 empty_ec2 sample_aws empty_ec2 Hc) as (items & n & Hl & Hperm & _).
  exists items, n. split; [exact Hl|exact Hperm].
Defined.

(** C33: An allocation on AWS, by a client that knows an instance type and whose scripts
    fit a string, ends with a result, for any VM and any slot, and touches no instance with the client token of another VM.  One that succeeds names an
    instance that is up, launched for this VM, of the type that serves the slot.  After
    one that fails, an instance that is up and was not before was launched for this VM,
    and either the very request to launch it was answered with an error, so that its id
    never became known, or it could not be started and EC2 refused, in this run, to
    terminate it. *)
Theorem failed_allocation_leaves_nothing_running {T W : Type} `{!EC2 T W, !EC2Laws T W}
    (config : AwsInstancesConfig T) vmId slot (w : W) :
  scripts_fit config -> vmTypes config <> [] -> vm_id_ok vmId ->
  exists t r w', instanceTypeForSlot config slot = Ret t /\ aws_allocate config vmId slot w = Ret (r, w')
    /\ (forall id i, ei_token i <> vm_token config vmId ->
          instances w' !! id = Some i <-> instances w !! id = Some i)
    /\ match r with
       | Success info => av_type info = GetNameForInstanceType t
         /\ exists i, instances w' !! av_id info = Some i /\ ei_state i = Up /\ launched config vmId t i
       | Failure _ => forall id i, instances w' !! id = Some i -> ei_state i = Up ->
         instances w !! id = Some i
         \/ (launched config vmId t i /\ exists rq,
              createRunRequest (vm_token config vmId) config t vmId (useSpot config) = Ret rq
              /\ (RunInstances rq w = (None, w')
                  \/ exists w1 w2, RunInstances rq w = (Some [id], w1) /\ StartInstances [id] w1 = (None, w2)
                       /\ TerminateInstances [id] w2 = (None, w')))
       end.
Proof.
  intros Hfit Hne Hid. destruct (aws_allocate_spec config Hfit Hne vmId slot w Hid) as (t & r & w' & Ht & Hends & E).
  rewrite E. do 3 eexists. split; [done|]. split; [done|].
  split; [intros id i; by eapply allocation_ends_frame|]. destruct r as [info|e].
  - inversion Hends as [id i Hor Hst Hl Hw| |]; subst. split; [done|]. exists (with_state Up i). cbn.
    rewrite Hw, lookup_insert_eq. split; [done|]. split; [done|]. by destruct Hl.
  - intros id i. by eapply allocation_ends_no_orphan.
Qed.

Lemma pretty_length n : forall x s, (x < 10 ^ N.of_nat n)%N -> (String.length (pretty_N_go x s) <= n + String.length s)%nat.
Proof.
  induction n as [|n IH]; intros x s Hx.
  - assert (x = 0%N) as -> by (cbn in Hx; lia). by rewrite pretty_N_go_0.
  - destruct (decide (x = 0)%N) as [->|Hne]; [rewrite pretty_N_go_0; lia|].
    rewrite pretty_N_go_step by lia. etrans; [apply IH|cbn; lia].
    apply N.Div0.div_lt_upper_bound. replace (N.of_nat (S n)) with (N.succ (N.of_nat n)) in Hx by lia.
    by rewrite N.pow_succ_r' in Hx.
Qed.

Lemma pretty_vm_id_length vmId : vm_id_ok vmId -> (String.length (pretty vmId) <= 20)%nat.
Proof.
  intros [H0 H1]. destruct vmId as [|p|p]; [cbn; lia| |lia].
  change (pretty (Zpos p)) with (pretty_N_go (Npos p) ""). etrans; [apply (pretty_length 20)|cbn; lia].
  change (10 ^ N.of_nat 20)%N with 100000000000000000000%N. lia.
Qed.

Lemma sample_scripts_fit : scripts_fit sample_aws.
Proof.
  intros vmId Hid. pose proof (pretty_vm_id_length vmId Hid) as Hlen. unfold userDataScript, sample_aws.
  cbn [agentDockerImageVersion vmsAddress creds accessKeyId secretKey]. rewrite !string_app_length.
  revert Hlen. generalize (String.length (pretty vmId)) as n. intros n Hn. 
  repeat match goal with |- context [String.length ?s] => let k := eval vm_compute in (String.length s) in change (String.length s) with k end.
  lia.
Qed.

(** EC2 has no capacity: VM 7 is launched, cannot be started and is terminated. *)
Lemma failed_allocation_leaves_nothing_running_witness :
  exists w', aws_allocate sample_aws 7 (mkSlot 1 1000) full_ec2 = Ret (Failure AllocationException, w')
    /\ (ei_state <$> instances w' !! "i-vms-prod-7"%string = Some Gone)
    /\ (forall id i, ei_token i <> "vms-prod-7"%string -> instances w' !! id = Some i <-> instances full_ec2 !! id = Some i).
Proof.
  destruct (failed_allocation_leaves_nothing_running sample_aws 7 (mkSlot 1 1000) full_ec2) as (t & r & w' & _ & E & Hframe & _).
  - apply sample_scripts_fit.
  - discriminate.
  - unfold vm_id_ok; lia.
  - exists w'. vm_compute in E. injection E as <- <-. split; [vm_compute; reflexivity|].
    split; [vm_compute; reflexivity|exact Hframe].
Defined.

(** C23: The allocator and AWS together.  After an undisturbed run of [allocate], every
    VM that went from pending to allocated names a running instance, launched for
    this VM and tagged as configured, of the type that serves its capacity; if the
    capacity is one that was on offer, the instance has exactly that size. *)
Theorem allocated_vms_have_their_instance `{StdLib} `{Postgres} {T W : Type} `{!EC2 T W, !EC2Laws T W}
    (aws : AwsInstancesConfig T) fuel (sch : Schedule) config (w : World W) :
  let client := aws_client aws fuel in
  scripts_fit aws -> StronglySorted (not_greater type_info_lt) (vmTypes aws) -> vmTypes aws <> [] ->
  undisturbed sch -> plain_names (H := client) -> db_wf (w_db w) ->
  (forall v r, db_vms (w_db w) !! v = Some r -> vm_id_ok v) -> maxVmAllocationCount config < 2 ^ 63 ->
  vmRestartAttemptCount (alloc_common config) < 2 ^ 31 -> jobRestartAttemptCount (alloc_common config) < 2 ^ 31 ->
  exists w', process (H1 := client) sch (Allocator.allocate config) w = (Some tt, w')
    /\ forall v r r', db_vms (w_db w) !! v = Some r -> v_status r = PendingAllocation ->
         db_vms (w_db w') !! v = Some r' -> v_status r' = Allocated ->
         exists id i, v_cloud_vm_id r' = Some id /\ instances (w_cloud w') !! id = Some i /\ ei_state i = Up
           /\ launched aws v (ei_type i) i /\ v_cloud_vm_type r' = Some (GetNameForInstanceType (ei_type i))
           /\ instanceTypeForSlot aws (vm_total r) = Ret (ei_type i)
           /\ (vm_total r ∈ getPossibleSlots aws ->
               exists info, info ∈ vmTypes aws /\ it_type info = ei_type i /\ it_capacity info = vm_total r).
Proof.
  intros client Hfit Hsorted Hne Hsch Hplain Hwf Hids Hmax Hn Hm.
  destruct (allocate_promised (CloudPromise0 := aws_promise aws fuel Hfit Hne) sch Hsch config w)
    as (w' & E & Hrows); [done..|].
  exists w'. split; [done|]. intros v r r' Hr Hs Hr' Hs'.
  destruct (Hrows v r r' Hr Hs Hr' Hs') as (info & Hid & Hty & i & t & Hi & Hup & Hl & Hname & Ht).
  pose proof (launched_type _ _ _ _ Hl) as Htype. subst t.
  exists (av_id info), i. split; [done|]. split; [done|]. split; [done|]. split; [done|].
  split; [congruence|]. split; [done|]. intros (x & Hx & Hin)%list_elem_of_fmap.
  destruct (instance_type_exact _ x Hsorted Hin) as (x' & Ht' & Hin' & Heq).
  unfold instanceTypeForSlot in Ht. rewrite Hx, Ht' in Ht. injection Ht as Ht. exists x'. by rewrite Hx.
Qed.

Lemma no_quote_app s t : no_quote (s +:+ t) = no_quote s && no_quote t.
Proof. induction s as [|c s IH]; [done|]. rewrite string_app_cons. cbn. by rewrite IH, andb_assoc. Qed.

Lemma no_quote_pretty (z : Z) : no_quote (pretty z) = true.
Proof.
  assert (forall x s, no_quote s = true -> no_quote (pretty_N_go x s) = true) as Hgo.
  { intros x. induction (N.lt_wf_0 x) as [x _ IH]; intros s Hs.
    destruct (decide (x = 0)%N) as [->|Hne]; [by rewrite pretty_N_go_0|].
    rewrite pretty_N_go_step by lia. apply IH; [apply N.div_lt; lia|]. cbn. rewrite Hs.
    unfold pretty_N_char. by repeat case_match. }
  destruct z as [|p|p]; [done|by apply Hgo|].
  change (pretty (Zneg p)) with ("-" +:+ pretty_N_go (Npos p) ""). rewrite no_quote_app, Hgo by done. done.
Qed.

Lemma sample_aws_plain_names fuel : plain_names (H := aws_client sample_aws fuel).
Proof.
  intros v s w info w'. cbn. unfold aws_allocate.
  destruct (instance_type_some (vmTypes sample_aws) s ltac:(discriminate)) as (t & Ht & Hin).
  unfold instanceTypeForSlot. rewrite Ht. cbn [mbind outcome_bind].
  unfold allocate_type, createInstance. destruct (createRunRequest _ _ _ _ _) as [rq| |] eqn:Hrq; [|done..].
  assert (rq_ClientToken rq = vm_token sample_aws v) as Htoken.
  { unfold createRunRequest in Hrq. destruct (getUserData _ _ _ _); [|done..]. cbn in Hrq. by injection Hrq as <-. }
  cbn [mbind outcome_bind]. destruct (RunInstances rq w) as [[[|id ids]|] w1] eqn:Hrun; [done| |done].
  assert (id = sim_id (vm_token sample_aws v)) as ->.
  { cbn in Hrun. rewrite Htoken in Hrun. repeat case_match; simplify_eq; done. }
  cbn [mbind outcome_bind]. unfold startInstance. cbn [aws_id]. destruct (StartInstances [sim_id (vm_token sample_aws v)] w1) as [[u|] w2].
  - cbn. intros [= <- <-]. cbn. apply andb_true_iff. split.
    + unfold sim_id, vm_token. by rewrite !no_quote_app, no_quote_pretty.
    + revert Hin. unfold sample_aws, sample_types. cbn [vmTypes]. rewrite !elem_of_cons, elem_of_nil. intros [->|[->|[->|[]]]]; done.
  - unfold aws_terminate. cbn [aws_id].
    by destruct (TerminateInstances [sim_id (vm_token sample_aws v)] w2).
Qed.

#[local] Existing Instance reference_postgres.
#[local] Existing Instance reference_stdlib.

Lemma allocated_vms_have_their_instance_witness :
  exists w', process (H1 := aws_client sample_aws 1) sample_schedule (Allocator.allocate (mkAllocatorConfig 5 5 sample_common))
      (mkWorld sample_db empty_ec2 0%nat) = (Some tt, w')
    /\ exists i, instances (w_cloud w') !! "i-vms-prod-2"%string = Some i /\ ei_state i = Up
         /\ ei_type i = "c6g.medium"%string.
Proof.
  destruct (allocated_vms_have_their_instance sample_aws 1 sample_schedule (mkAllocatorConfig 5 5 sample_common)
    (mkWorld sample_db empty_ec2 0%nat)) as (w' & E & _).
  - apply sample_scripts_fit.
  - repeat constructor.
  - discriminate.
  - apply sample_undisturbed.
  - apply sample_aws_plain_names.
  - apply sample_db_wf.
  - intros v r Hv. apply elem_of_list_to_map_2 in Hv. rewrite !elem_of_cons, elem_of_nil in Hv.
    destruct Hv as [[= -> _]|[[= -> _]|[]]]; unfold vm_id_ok; lia.
  - reflexivity.
  - reflexivity.
  - reflexivity.
  - exists w'. split; [exact E|]. vm_compute in E. injection E as <-. eexists. vm_compute. auto.
Defined.

(** C24: The clean-up of untracked VMs, the database and AWS together.  An
    undisturbed run of [terminateUntrackedVms] leaves the database alone and starts
    nothing; every running instance that an active row names keeps running.  If EC2
    does not answer the listing, no running instance is stopped.  If it does, on [n] pages,
    every running instance that is on none of them keeps running; and if the cloud ids
    of the active VMs are known, for every instance on one of them that no active row
    names this run asked EC2 to terminate it, and if EC2 agreed the instance is not up. *)
Theorem untracked_vms_are_terminated `{StdLib} `{Postgres} {T W : Type} `{!EC2 T W, !EC2Laws T W, !EC2Lists T W}
    (aws : AwsInstancesConfig T) fuel (sch : Schedule) (w : World W) :
  let client := aws_client aws fuel in
  undisturbed sch ->
  exists w', process (H1 := client) sch Allocator.terminateUntrackedVms w = (Some tt, w') /\ w_db w' = w_db w
    /\ (forall x, aws_running x (w_cloud w') -> aws_running x (w_cloud w))
    /\ (forall x, aws_running x (w_cloud w) -> tracked x (w_db w) -> aws_running x (w_cloud w'))
    /\ (forall e c, aws_getAllAllocatedVms aws fuel (w_cloud w) = Ret (Failure e, c) ->
         forall x, aws_running x (w_cloud w') <-> aws_running x (w_cloud w))
    /\ (forall reservations c n,
         listed DescribeInstances (createRequest (vmTags aws)) (w_cloud w) reservations c n -> (n <= fuel)%nat ->
         let on_a_page t id := exists l, l ∈ reservations /\ (t, id) ∈ l in
         (forall id i, instances (w_cloud w) !! id = Some i -> ei_state i = Up -> ~ on_a_page (ei_type i) id ->
            aws_running (mkAllocatedVm id (GetNameForInstanceType (ei_type i))) (w_cloud w'))
         /\ (cloud_ids_known (w_db w) -> forall t id, on_a_page t id ->
             ~ tracked (mkAllocatedVm id (GetNameForInstanceType t)) (w_db w) ->
             exists r, replied (CloudTerminate id) r ∈ process_trace (H1 := client) sch Allocator.terminateUntrackedVms w
               /\ (r = Success tt -> forall i, instances (w_cloud w') !! id = Some i -> ei_state i <> Up))).
Proof.
  intros client Hsch.
  destruct (terminateUntrackedVms_spec (CloudFleet0 := aws_fleet aws fuel) sch Hsch w)
    as (w' & Hrun & Hdb & Hback & Hkeep & Hlisted).
  exists w'. split; [done|]. split; [done|]. split; [done|]. split; [done|]. split.
  - intros e c Hfail. cbn in Hlisted. rewrite Hfail in Hlisted. exact Hlisted.
  - intros res c n Hl Hn on_a_page. cbn in Hlisted. unfold aws_getAllAllocatedVms, describeInstances in Hlisted.
    rewrite (describe_instances_loop_listed _ _ _ _ _ _ _ Hl Hn) in Hlisted. destruct Hlisted as [Hother Hend]. split.
    + intros id i Hi Hup Hpage. apply Hother; [by exists i|].
      rewrite insert_reservations_elem. intros [Hnil|(l & t & id' & Hin & Ht & Heq)]; [by apply not_elem_of_nil in Hnil|].
      injection Heq as -> Hname. apply Hpage. exists l. split; [done|].
      by rewrite (listed_types _ _ _ _ _ Hl l t id' i).
    + intros Hids t id (l & Hin & Ht) Htr. destruct (Hend Hids _ (proj2 (insert_reservations_elem _ _ _)
        (or_intror (ex_intro _ l (ex_intro _ t (ex_intro _ id (conj Hin (conj Ht eq_refl)))))))) as (r & Htrace & Hgone); [done|].
      exists r. split; [exact Htrace|]. intros Hr i Hi Hup.
      apply (Hgone Hr (mkAllocatedVm id (GetNameForInstanceType (ei_type i))) eq_refl). by exists i.
Qed.

(** One VM is tracked; an instance of the same owner was left behind. *)
Definition tracking_db : Db := mkDb
  {[ 1 := mkVmRow AgentStarted 1 2048 1 2048 (Some "i-vms-prod-1") (Some "c6g.medium") 0 0 (Some 0) 0 ]}%string
  ∅ ∅ ∅ ∅ 2 1 1 1.

Definition leaking_ec2 : Sim := mkSim
  (list_to_map [("vms-prod-1", ("c6g.medium", getVmTags, Up)); ("vms-prod-9", ("c6g.large", getVmTags, Up))]%string) false.

Lemma untracked_vms_are_terminated_witness :
  exists w', process (H1 := aws_client sample_aws 1) sample_schedule Allocator.terminateUntrackedVms
      (mkWorld tracking_db leaking_ec2 0%nat) = (Some tt, w')
    /\ aws_running (mkAllocatedVm "i-vms-prod-1" "c6g.medium") (w_cloud w')
    /\ ei_state <$> instances (w_cloud w') !! "i-vms-prod-9"%string = Some Gone.
Proof.
  destruct (untracked_vms_are_terminated sample_aws 1 sample_schedule (mkWorld tracking_db leaking_ec2 0%nat))
    as (w' & E & _ & _ & Hkeep & _).
  - apply sample_undisturbed.
  - exists w'. split; [exact E|]. split.
    + apply Hkeep.
      * exists (mkEc2Instance "c6g.medium" getVmTags "vms-prod-1" Up)%string.
        split; [vm_compute; reflexivity|]. split; reflexivity.
      * exists 1. eexists. split; [vm_compute; reflexivity|]. repeat (split; [reflexivity|]). reflexivity.
    + vm_compute in E. injection E as <-. vm_compute. reflexivity.
Defined.

(** The tracked VMs are read before the running ones.  A VM that is planned and
    allocated in between is running and not among those read, so it is terminated,
    and the database goes on to call it allocated. *)
Theorem new_vm_is_taken_for_untracked :
  let planned := mkVmRow PendingAllocation 1 2048 0 0 None None 0 0 None 0 in
  let db1 := mkDb (<[2 := planned]> (db_vms tracking_db)) ∅ ∅ ∅ ∅ 3 1 1 1 in
  exists known w1 all w2,
    getAllocatedVms (calm 10) tracking_db = Answer (Success known) tracking_db
    /\ process (H1 := aws_client sample_aws 1) sample_schedule (Allocator.allocate (mkAllocatorConfig 5 5 sample_common))
         (mkWorld db1 leaking_ec2 0%nat) = (Some tt, w1)
    /\ (aws_client sample_aws 1).(cloud_getAllAllocatedVms) (w_cloud w1) = (Success all, w_cloud w1)
    /\ process (H1 := aws_client sample_aws 1) sample_schedule (Allocator.terminate_all (Allocator.untracked known all)) w1 = (Some tt, w2)
    /\ v_status <$> db_vms (w_db w2) !! 2 = Some Allocated
    /\ ei_state <$> instances (w_cloud w2) !! "i-vms-prod-2"%string = Some Gone.
Proof.
  eexists _, _, _, _. split; [vm_compute; reflexivity|]. split; [vm_compute; reflexivity|].
  split; [vm_compute; reflexivity|]. split; [vm_compute; reflexivity|]. split; vm_compute; reflexivity.
Qed.

(** [describeInstances] follows the tokens to the last page and no further: if
    EC2 answers with [n] pages, [n] turns of the loop suffice, and the set that is
    returned has exactly the instances on those pages; conversely every set that
    is returned is that of a complete listing. *)
Theorem listing_collects_every_page {T W : Type} `{!EC2 T W} fuel tags (w w' : W) :
  (forall reservations n, listed DescribeInstances (createRequest tags) w reservations w' n -> (n <= fuel)%nat ->
     exists vms, describeInstances fuel tags w = Ret (Success vms, w')
       /\ forall info, info ∈ vms <-> exists instances t id, instances ∈ reservations /\ (t, id) ∈ instances
            /\ info = convertAwsVmInfoToVmInfo (mkAwsVmInfo t id))
  /\ (forall vms, describeInstances fuel tags w = Ret (Success vms, w') ->
        exists reservations n, listed DescribeInstances (createRequest tags) w reservations w' n
          /\ vms = insert_reservations reservations []).
Proof.
  split.
  - intros reservations n Hl Hn. eexists. split; [by eapply describe_instances_loop_listed|].
    intros info. rewrite insert_reservations_elem. set_solver.
  - intros vms Hd. by eapply describe_instances_loop_inv.
Qed.

(** The client token of a VM is never used for anything else: once its instance is
    terminated, for instance because it could not be started, every further
    attempt to allocate the VM fails, as long as EC2 remembers the instance. *)
Theorem terminated_instance_blocks_its_vm {T W : Type} `{!EC2 T W, !EC2Laws T W}
    (config : AwsInstancesConfig T) vmId slot (w : W) id i :
  scripts_fit config -> vmTypes config <> [] -> vm_id_ok vmId ->
  instances w !! id = Some i -> ei_token i = vm_token config vmId -> ei_state i = Gone ->
  exists w', aws_allocate config vmId slot w = Ret (Failure AllocationException, w').
Proof.
  intros Hfit Hne Hid Hi Ht Hg.
  destruct (instance_type_some (vmTypes config) slot Hne) as (info & Htype & _).
  destruct (allocate_type_gone config Hfit vmId (it_type info) w id i) as (w' & E); [done..|].
  exists w'. unfold aws_allocate, instanceTypeForSlot. rewrite Htype. cbn [mbind outcome_bind]. by rewrite E.
Qed.

(** VM 7 could not be started once; EC2 has capacity again. *)
Definition after_refusal : Sim :=
  mkSim (<["vms-prod-7"%string := ("c6g.medium"%string, getVmTags, Gone)]> ∅) false.

Lemma terminated_instance_blocks_its_vm_witness :
  exists w', aws_allocate sample_aws 7 (mkSlot 1 1000) after_refusal = Ret (Failure AllocationException, w').
Proof.
  apply (terminated_instance_blocks_its_vm sample_aws 7 (mkSlot 1 1000) after_refusal "i-vms-prod-7"
    (mkEc2Instance "c6g.medium" getVmTags "vms-prod-7" Gone)).
  - apply sample_scripts_fit.
  - discriminate.
  - unfold vm_id_ok; lia.
  - vm_compute; reflexivity.
  - vm_compute; reflexivity.
  - reflexivity.
Defined.

(** A size that is not on offer, which the simple assigner may plan, is compared
    cores first: it can get an instance with too little memory. *)
Example simple_size_gets_small_instance :
  instanceTypeForSlot sample_aws (mkSlot 1 3000) = Ret "c6g.large"%string
  /\ instanceTypeForSlot sample_aws (mkSlot 1 6000) = Ret "c6g.large"%string
  /\ fits (mkSlot 1 6000) (mkSlot 2 4096) = false.
Proof. vm_compute. auto. Qed.

(** ** The lock *)

(** What a backend does with the children it reads, for numbers below ten to the
    ninth: it takes the lock when its node has the least number, waits for the node
    just before its own otherwise, and makes a new node when its own is gone; if
    no node of the lock exists at all, it dereferences the end of an empty range. *)
Theorem lock_decision `{StdLib} prefix st k ks children :
  Z.of_nat (String.length prefix) < 2 ^ 62 ->
  in_range k -> createdNodeName_ st = node_path prefix k -> lock_view prefix ks children ->
  decides prefix st k ks (check_children ("/" +:+ prefix) st children).
Proof. intros Hp. by apply check_children_decides. Qed.

Lemma lock_decision_witness :
  decides "vms-prod-" (mkLockState false "/vms-prod-0000000007" None) 7 [9; 7; 3]
    (check_children "/vms-prod-" (mkLockState false "/vms-prod-0000000007" None)
       ["vms-prod-0000000009"; "zookeeper"; "vms-prod-0000000007"; "vms-prod-0000000003"]%string)
  /\ check_children "/vms-prod-" (mkLockState false "/vms-prod-0000000007" None)
       ["vms-prod-0000000009"; "zookeeper"; "vms-prod-0000000007"; "vms-prod-0000000003"]%string
     = Returns (WaitFor (RetryLock "/vms-prod-0000000003")).
Proof.
  split; [|vm_compute; reflexivity].
  apply (lock_decision "vms-prod-" (mkLockState false "/vms-prod-0000000007" None) 7 [9; 7; 3]
    ["vms-prod-0000000009"; "zookeeper"; "vms-prod-0000000007"; "vms-prod-0000000003"]%string).
  - cbn; lia.
  - unfold in_range; lia.
  - vm_compute; reflexivity.
  - split; [vm_compute; reflexivity|]. repeat constructor; unfold in_range; lia.
Defined.

(** C22: Any number of backends, whose threads interleave with each other and with the
    server in any way while sessions expire: below ten to the ninth nodes, no
    number that was ever acquired exceeds the number of a node that exists.  So two
    backends that hold numbers of existing nodes are the same, and the holder whose
    node exists has the greatest number ever acquired, which is what the storage
    compares. *)
Theorem lock_numbers_fence `{StdLib} {T : Type} `{!ZkNodes T} prefix `{!ZkServer T prefix} (t : T) (s : System T) :
  Z.of_nat (String.length prefix) < 2 ^ 62 ->
  numbered prefix (zk_counter t) (zk_children t) -> rtc (zk_step prefix) (system_start t) s ->
  zk_counter (sy_server s) <= 10 ^ 9 ->
  (forall k j, k ∈ sy_acquired s -> present prefix j s -> 0 <= j < zk_counter (sy_server s) -> k <= j)
  /\ (forall c cl k, sy_clients s !! c = Some cl -> lockNumber_ (cl_state cl) = Some k -> k ∈ sy_acquired s)
  /\ (forall c c' cl cl' k k', sy_clients s !! c = Some cl -> sy_clients s !! c' = Some cl' ->
        lockNumber_ (cl_state cl) = Some k -> lockNumber_ (cl_state cl') = Some k' ->
        present prefix k s -> present prefix k' s -> k = k' /\ c = c').
Proof.
  intros Hp Hn Hr Hb. pose proof (reachable_system_inv prefix Hp t s Hn Hr Hb) as Hinv.
  assert (forall c cl k, sy_clients s !! c = Some cl -> lockNumber_ (cl_state cl) = Some k ->
    k ∈ sy_acquired s /\ sy_owner s !! k = Some c) as Hnum.
  { intros c cl k Hc. by apply (inv_clients _ _ Hinv c cl Hc). }
  split; [apply (inv_acquired _ _ Hinv)|]. split; [intros c cl k Hc Hk; by eapply Hnum|].
  intros c c' cl cl' k k' Hc Hc' Hk Hk' Hpk Hpk'.
  destruct (Hnum _ _ _ Hc Hk) as [Ha Ho]. destruct (Hnum _ _ _ Hc' Hk') as [Ha' Ho'].
  pose proof (inv_acquired_range _ _ Hinv _ Ha). pose proof (inv_acquired_range _ _ Hinv _ Ha').
  assert (k <= k') by (by eapply (inv_acquired _ _ Hinv)). assert (k' <= k) by (by eapply (inv_acquired _ _ Hinv)).
  assert (k = k') as <- by lia. split; [done|]. congruence.
Qed.

(** A server that keeps the names and a counter. *)
Definition strip_slash (path : string) : string :=
  match path with String _ p => p | EmptyString => "" end.

#[local] Obligation Tactic := idtac.

#[local] Program Instance sample_nodes : ZkNodes (list string * nat) := {|
  zk_children t := t.1;
  zk_counter t := Z.of_nat t.2;
  zk_new path t := (path +:+ sequence_suffix (Z.of_nat t.2),
                    ((strip_slash path +:+ sequence_suffix (Z.of_nat t.2)) :: t.1, S t.2));
|}.
Next Obligation. intros t. cbn. lia. Qed.

#[local] Instance sample_server : ZkServer (list string * nat) "vms-prod-".
Proof.
  split.
  - intros t. apply string_app_assoc.
  - intros t. change (Z.of_nat (S t.2) = Z.of_nat t.2 + 1). lia.
  - intros t n. cbn. apply elem_of_cons.
Qed.

(** A first backend that has taken the lock. *)
Definition locked_system : System (list string * nat) :=
  mkSystem (["vms-prod-0000000000"%string], 1%nat)
    {[1 := mkClient (mkLockState false "/vms-prod-0000000000" (Some 0)) ["/vms-prod-0000000000"%string]
             [["vms-prod-0000000000"%string]]]}
    ({[0]} ∪ ∅) (<[0 := 1]> ∅).

Lemma locked_system_reachable :
  rtc (zk_step "vms-prod-") (system_start (([], O) : list string * nat)) locked_system.
Proof.
  eapply rtc_l; [apply (step_join "vms-prod-" _ 1); done|].
  eapply rtc_l; [eapply (step_create "vms-prod-" _ 1), lookup_insert_eq|].
  eapply rtc_l; [eapply (step_store "vms-prod-" _ 1 _ "/vms-prod-0000000000"); [apply lookup_insert_eq|vm_compute; left]|].
  eapply rtc_l; [eapply (step_read "vms-prod-" _ 1), lookup_insert_eq|].
  eapply rtc_l; [eapply (step_acquire "vms-prod-" _ 1 _ ["vms-prod-0000000000"%string]
    (mkLockState false "/vms-prod-0000000000" (Some 0)) _ 0); [apply lookup_insert_eq|left|vm_compute; reflexivity|done]|].
  apply reflexive_eq. unfold locked_system. f_equal.
Qed.

Lemma lock_numbers_fence_witness :
  lockNumber_ ∘ cl_state <$> sy_clients locked_system !! 1 = Some (Some 0)
  /\ forall k, k ∈ sy_acquired locked_system -> k <= 0.
Proof.
  split; [reflexivity|]. intros k Hk.
  apply (lock_numbers_fence "vms-prod-" (([], O) : list string * nat) locked_system).
  - cbn; lia.
  - intros n Hn. inversion Hn.
  - apply locked_system_reachable.
  - cbn; lia.
  - exact Hk.
  - vm_compute. left.
  - cbn; lia.
Defined.

(** C35: Whatever finite sequence of lost requests and lost replies its calls meet,
    [lock] returns on a server nobody else changes, and then the backend's node
    exists and either it holds the lock with the least number or it watches the
    node just before its own. *)
Theorem locking_ends `{StdLib} {T : Type} `{!ZkNodes T} prefix `{!ZkServer T prefix} address data faults st (t : T) :
  Z.of_nat (String.length prefix) < 2 ^ 62 ->
  isStopped_ st = false -> zk_counter t + Z.of_nat (length faults) + 1 <= 10 ^ 9 ->
  numbered prefix (zk_counter t) (zk_children t) ->
  exists fuel st' watches t' faults',
    lock (ZkClient0 := server_client) (mkZkConfig address ("/" +:+ prefix) data) fuel st (t, faults)
      = Ret (st', watches, (t', faults'))
    /\ lock_settled prefix st' watches t'.
Proof.
  intros Hp Hst Hb Hn. unfold lock.
  destruct (lock_returns prefix Hp address data faults st t Hst Hb Hn)
    as (fuel & st' & ws & t' & faults' & E & _ & Hs & _).
  by exists fuel, st', ws, t', faults'.
Qed.

Lemma locking_ends_witness :
  exists fuel st' watches t' faults',
    lock (ZkClient0 := server_client) (mkZkConfig "zk:2181" "/vms-prod-" "") fuel initial_lock
      (([], O), [LostReply; LostRequest; Fine; LostReply]) = Ret (st', watches, (t', faults'))
    /\ lock_settled "vms-prod-" st' watches t'.
Proof.
  apply (locking_ends "vms-prod-" "zk:2181" "" [LostReply; LostRequest; Fine; LostReply] initial_lock
    (([], O) : list string * nat)).
  - cbn; lia.
  - reflexivity.
  - cbn; lia.
  - intros n Hn. inversion Hn.
Defined.

(** From ten to the ninth nodes on, nine digits are compared of ten: the new node
    counts as the first although an older one exists, and both backends hold the lock. *)
Example number_wraps :
  check_children "/vms-prod-" (mkLockState false "/vms-prod-1000000000" None)
      ["vms-prod-0999999999"; "vms-prod-1000000000"]%string
    = Returns (Acquired (mkLockState false "/vms-prod-1000000000" (Some 0)) (RetryCheckLockAcquired "/vms-prod-1000000000"))
  /\ check_children "/vms-prod-" (mkLockState false "/vms-prod-0999999999" None) ["vms-prod-0999999999"]%string
    = Returns (Acquired (mkLockState false "/vms-prod-0999999999" (Some 999999999)) (RetryCheckLockAcquired "/vms-prod-0999999999")).
Proof. vm_compute. auto. Qed.

(** [stop] asks for a node below the lock's path, not for the one that was created. *)
Theorem stop_erases_another_node {W : Type} `{!ZkClient W} prefix address data st (w : W) k :
  createdNodeName_ st = node_path prefix k ->
  lock_stop (mkZkConfig address ("/" +:+ prefix) data) st w
    = (let '(r, w') := zk_erase ("/" +:+ prefix +:+ "/" +:+ node_path prefix k) (zk_close w) in
       (match r with Some _ => Returns tt | None => Throws "closed" end,
        mkLockState true (node_path prefix k) (lockNumber_ st), w'))
  /\ "/" +:+ prefix +:+ "/" +:+ node_path prefix k <> node_path prefix k.
Proof.
  intros Hn. split.
  - unfold lock_stop. cbn [lockPath createdNodeName_]. rewrite Hn, string_app_assoc. by destruct (zk_erase _ _).
  - intros Heq. apply (f_equal String.length) in Heq. unfold node_path, node in Heq.
    rewrite !string_app_length in Heq. change (String.length "/") with 1%nat in Heq. lia.
Qed.

Lemma stop_erases_another_node_witness :
  "/vms-prod-//vms-prod-0000000003"%string <> node_path "vms-prod-" 3.
Proof.
  apply (stop_erases_another_node (W := (list string * nat) * list Fault) (ZkClient0 := server_client) "vms-prod-" "zk:2181" ""
    (mkLockState false "/vms-prod-0000000003" None) (([], O), []) 3). reflexivity.
Defined.

(** ** The connection pool *)

(** C36: Whatever threads do, in any order and with any spurious wake-ups, the
    connections in the queue and in their hands are those the pool was made with;
    no two threads hold the same one; and while a thread waits, another one
    holds a connection, was woken, or is about to wake one. *)
Theorem pool_shares_connections poolSize threads pool p :
  PgPool_new poolSize = Ret pool -> rtc pool_step (pool_start pool threads) p ->
  connectionPool_ p ++ all_held (pool_threads p) ≡ₚ pool
  /\ (forall t t' s s' conn, pool_threads p !! t = Some s -> pool_threads p !! t' = Some s' ->
        conn ∈ held s -> conn ∈ held s' -> t = t')
  /\ (0 < poolSize -> forall t, pool_threads p !! t = Some Waiting ->
        exists t' s, pool_threads p !! t' = Some s
          /\ (held s <> [] \/ s = Woken \/ exists live, s = Notifying live)).
Proof.
  unfold PgPool_new. intros Hnew Hr. case_bool; [|done]. injection Hnew as <-.
  destruct (pool_reachable_inv _ _ _ Hr) as [Hinv Hwake]. split; [done|]. split.
  - intros t t' s s' conn. eapply pool_inv_exclusive; [apply NoDup_seqZ|done].
  - intros Hpos t Ht. eapply (pool_progress (seqZ 0 poolSize)); [|done..].
    intros Hnil. apply (f_equal length) in Hnil. rewrite length_seqZ in Hnil. cbn in Hnil. lia.
Qed.

(** Thread 1 has given its connection back, but its transaction still lives, when
    thread 2 gets the connection and begins a transaction on it. *)
Definition two_transactions : Pool :=
  mkPool [] (<[2 := InTransaction 0]> (<[2 := Connected 0]>
    (<[1 := Notifying (Some 0)]> (<[1 := InTransaction 0]> (<[1 := Connected 0]>
      (pool_threads (pool_start [0] [1; 2]))))))).

Lemma two_transactions_reachable : rtc pool_step (pool_start [0] [1; 2]) two_transactions.
Proof.
  eapply rtc_l; [eapply (pool_take _ 1 Outside 0 []); [done|by left|done]|].
  eapply rtc_l; [eapply (pool_transaction _ 1 0), lookup_insert_eq|].
  eapply rtc_l; [eapply (pool_release _ 1 0), lookup_insert_eq|].
  eapply rtc_l; [eapply (pool_take _ 2 Outside 0 []); [done|by left|done]|].
  eapply rtc_l; [eapply (pool_transaction _ 2 0), lookup_insert_eq|]. apply reflexive_eq. done.
Qed.

(** The members of [TransactionHandle] are destroyed in the wrong order: a connection
    is used by two transactions at a time, even with a pool of one. *)
Theorem connection_shared_while_closing :
  rtc pool_step (pool_start [0] [1; 2]) two_transactions
  /\ pool_threads two_transactions !! 1 = Some (Notifying (Some 0))
  /\ pool_threads two_transactions !! 2 = Some (InTransaction 0).
Proof.
  split; [apply two_transactions_reachable|done].
Qed.

Lemma pool_shares_connections_witness :
  connectionPool_ two_transactions ++ all_held (pool_threads two_transactions) ≡ₚ [0].
Proof.
  apply (pool_shares_connections 1 [1; 2] [0] two_transactions).
  - vm_compute; reflexivity.
  - apply two_transactions_reachable.
Defined.

(** ** Threads *)

(** A background thread, in any interleaving with the clock, wake-ups and the
    destructor, never starts its payload less than its interval after the previous
    start, and at most once after it was told to stop. *)
Theorem background_thread_keeps_pace sleepDuration now r :
  rtc (runner_step sleepDuration) (runner_new now) r ->
  spaced sleepDuration (r_starts r) /\ (isStopped r = true -> (length (r_starts r) <= S (r_seen r))%nat).
Proof.
  intros Hr. destruct (runner_reachable_inv _ _ _ Hr) as [Hs _ Ha]. split; [done|].
  intros Hst. destruct (Ha Hst) as [->|[-> _]]; lia.
Qed.

Lemma background_thread_keeps_pace_witness : spaced 60 (r_starts (run_runner 3 60 (runner_new 100))).
Proof.
  apply (background_thread_keeps_pace 60 100 (run_runner 3 60 (runner_new 100))).
  do 3 (eapply rtc_l; [apply runner_own; reflexivity|]). apply rtc_refl.
Defined.

(** A background thread that was told to stop ends after at most five steps of
    its own, wherever it is, and starts its payload in them at most once. *)
Theorem background_thread_ends sleepDuration r :
  isStopped r = true ->
  r_pc (run_runner 5 sleepDuration r) = Ended
  /\ (length (r_starts (run_runner 5 sleepDuration r)) <= S (length (r_starts r)))%nat.
Proof.
  intros Hst. split; [apply run_runner_ends; [done|]; destruct (r_pc r); cbn; lia|].
  destruct r as [pc start now stopped starts seen]. cbn in Hst. subst stopped.
  destruct pc; cbn; rewrite ?length_app; cbn; lia.
Qed.

Lemma background_thread_ends_witness :
  r_pc (run_runner 5 60 (mkRunner InWait 100 130 true [100] 1)) = Ended.
Proof. apply (background_thread_ends 60 (mkRunner InWait 100 130 true [100] 1)). reflexivity. Defined.

(** C39: A backend that starts can plan: unless NextFit was asked for, its assigner has
    a sound plan for every well-formed state, with the sizes its cloud offers, if an
    [integer] column takes them.  In mode
    core it runs the scheduling thread and no other; in mode service the threads that
    allocate, terminate and monitor and no other; in mode full all four, each with its
    configured interval.  It has a distributed lock exactly when it schedules and one
    was asked for. *)
Theorem started_backend_can_plan `{StdLib} getenv listens config possibleSlots tr :
  TaskRegistry_new getenv listens config possibleSlots = Returns tr ->
  let keeping := [(AllocatorAllocate, allocationInterval config); (AllocatorTerminate, allocationInterval config);
                  (DetectorMonitor, detectFailuresInterval config)] in
  let planning := [(SchedulerSchedule, scheduleInterval config)] in
  (getenv "VMS_ALLOCATION_STRATEGY" <> Some "nextfit"%string -> Forall slot_wf possibleSlots ->
     forall state, state_wf state -> exists c,
       createVmAssigner_assign (vmAssignerType (tr_scheduler tr)) state
         (complexVmAssignerConfig (tr_scheduler tr)) possibleSlots = Ret c
       /\ plan_sound state c)
  /\ tr_threads tr ≡ₚ match mode config with
                      | FullScheduler => keeping ++ planning
                      | SchedulerService => keeping
                      | CoreScheduler => planning
                      end
  /\ (is_Some (tr_distLock tr) <-> useZkDistLock config = true /\ mode config <> SchedulerService).
Proof.
  intros Hr keeping planning. unfold TaskRegistry_new in Hr. exec_inv Hr. subst tr. cbn [tr_scheduler tr_distLock tr_threads].
  unfold Scheduler_new in Hv0. apply exec_bind_returns in Hv0 as (sc & Hsc & Hv0).
  case_bool_decide as Hne; [done|]. destruct (is_sorted possibleSlots); [|done].
  apply exec_ret_returns in Hv0. subst v0. split; [|split].
  - intros Hnf Hsw state Hst. destruct (createSchedulerConfig_usable _ _ Hsc) as [Hu|?]; [|done].
    by apply assign_sound.
  - unfold registry_threads. by destruct (mode config).
  - assert (is_Some v <-> wants_dist_lock config = true) as ->.
    { unfold createDistLock in Hv. destruct (wants_dist_lock config); exec_inv Hv; subst v;
        [by split; [|eauto]|split; [intros [? ?]|]; discriminate]. }
    unfold wants_dist_lock. destruct (mode config), (useZkDistLock config); cbn; naive_solver.
Qed.

(** A backend with the default settings on AWS. *)
Definition sample_registry : RegistryConfig := mkRegistryConfig 60 60 300 FullScheduler false.

Lemma started_backend_can_plan_witness :
  exists tr, createConfig sample_env = Returns sample_registry
    /\ TaskRegistry_new sample_env (fun _ => true) sample_registry (getPossibleSlots sample_aws) = Returns tr
    /\ exists c, createVmAssigner_assign (vmAssignerType (tr_scheduler tr)) Samples.state3
         (complexVmAssignerConfig (tr_scheduler tr)) (getPossibleSlots sample_aws) = Ret c
       /\ plan_sound Samples.state3 c.
Proof.
  eexists. split; [vm_compute; reflexivity|]. split; [vm_compute; reflexivity|].
  eapply (started_backend_can_plan sample_env (fun _ => true) sample_registry (getPossibleSlots sample_aws)).
  - vm_compute. reflexivity.
  - discriminate.
  - repeat constructor; cbn; lia.
  - apply Samples.state3_wf.
Defined.

(** The threads of a backend are joined before the objects they use are destroyed,
    and those before the storage. *)
Theorem threads_end_before_what_they_use m u :
  u ∈ uses m -> exists i j, destruction !! i = Some m /\ destruction !! j = Some u /\ (i < j)%nat.
Proof.
  assert (forallb (fun m => forallb (fun u =>
    match list_find (eq m) destruction, list_find (eq u) destruction with
    | Some (i, _), Some (j, _) => (i <? j)%nat
    | _, _ => false
    end) (uses m)) registry_members = true) as Hall by (vm_compute; reflexivity).
  intros Hu. rewrite forallb_forall in Hall.
  specialize (Hall m ltac:(destruct m; cbn; tauto)). rewrite forallb_forall in Hall.
  specialize (Hall u ltac:(by apply list_elem_of_In)).
  destruct (list_find (eq m) destruction) as [[i m']|] eqn:Hi; [|done].
  destruct (list_find (eq u) destruction) as [[j u']|] eqn:Hj; [|done].
  apply list_find_Some in Hi as (Hi & -> & _), Hj as (Hj & -> & _).
  exists i, j. split; [done|]. split; [done|]. by apply Nat.ltb_lt.
Qed.

(** The handler of SIGINT does not notify the condition variable: once [main]
    waits, signals alone never lead to an orderly shutdown. *)
Theorem signals_do_not_shut_down b s :
  rtc (main_step false) (mkMain MainWait b) s -> main_pc s <> MainShutdown.
Proof.
  intros Hr. assert (main_pc s = MainWait \/ main_pc s = MainExit) as [-> | ->]; [|done..].
  revert s Hr. apply rtc_ind_r; [by left|]. intros s s' _ Hs. by apply main_waits_inv.
Qed.

Lemma signals_do_not_shut_down_witness :
  rtc (main_step false) (mkMain MainWait false) (mkMain MainExit true) /\ MainExit <> MainShutdown.
Proof.
  assert (rtc (main_step false) (mkMain MainWait false) (mkMain MainExit true)) as Hr.
  { eapply rtc_l; [by apply main_signal; right|]. eapply rtc_once. by apply (main_signal false (mkMain MainWait true)); right. }
  split; [exact Hr|]. exact (signals_do_not_shut_down false (mkMain MainExit true) Hr).
Defined.

(** The script an instance boots with: the options of [docker run] are not separated
    from the values before them, and the secret key starts with a brace. *)
Example user_data_runs_words_together :
  exists a b c, userDataScript "latest" "10.0.0.1:50001" (mkAgentEcrCredentials "key" "secret") 7
    = a +:+ "aws configure set aws_secret_access_key {secret" +:+ b
      +:+ "-e VMS_AGENT_SERVER_ADDRESS=10.0.0.1:50001-e VMS_AGENT_VM_ID=7-e VMS_AGENT_AWS_ACCESS_KEY_ID=key-e" +:+ c.
Proof.
  set (newline := String (Ascii.ascii_of_nat 10) "").
  exists ("#!/bin/bash" +:+ newline +:+ "set -e -x" +:+ newline +:+ "aws configure set aws_access_key_id key" +:+ newline),
    (newline +:+ "aws configure set default.region us-east-2" +:+ newline +:+ "aws configure set default.output json" +:+ newline
     +:+ "sudo aws ecr get-login-password --region us-east-2 | sudo docker login --username AWS --password-stdin 545868914688.dkr.ecr.us-east-2.amazonaws.com"
     +:+ newline +:+ "sudo docker run "),
    (" VMS_AGENT_AWS_SECRET_ACCESS_KEY=secret-e VMS_AGENT_AWS_REGION=us-east-2-e VMS_AGENT_AWS_BUCKET=vms-job-results"
     +:+ " --network host 545868914688.dkr.ecr.us-east-2.amazonaws.com/vm-agent:latest" +:+ newline).
  vm_compute. reflexivity.
Qed.
