(* ===== verification/ClusterProps.v ===== *)
(** * Properties of the cluster

    No VM is overcommitted, whatever backends, agents and the other processes do. *)

From S2P Require Import Prelude Std Slot State OrderedJobs JobAllocator SlotSelector SelectorFacts Assigner.
From S2P Require Import Db TxLogic Storage Lifecycle Checker StorageRefines Scheduler SchedulerFacts Accounting Cluster Restarts.

(** C1: No VM is overcommitted.  Any number of backends start, read jobs and then VMs,
    plan and commit, agents report, and the other processes call the storage, in any order
    and with any faults; agents report the end of a job only while it holds its
    capacity, jobs fit the slots that are picked for them, and the clock does not run
    backwards under a scheduler.  Then on every VM the idle capacity and what its
    jobs hold stay within its size, in cores and in memory; in particular the jobs
    its agent is told to run, and has not ended, fit it together. *)
Theorem no_vm_is_overcommitted `{StdLib} `{Postgres} db s :
  db_wf db -> accounted ∅ db -> rtc cluster_step (mkCluster db ∅ ∅) s ->
  forall v r d, db_vms (c_db s) !! v = Some r ->
    0 <= vm_spare d r /\ vm_spare d r + load d (c_gone s) v (c_db s) <= vm_size d r
    /\ assigned_amount d (c_gone s) v (c_db s) <= vm_size d r.
Proof.
  intros Hwf Hacc Hrun v r d Hr.
  assert (cluster_ok all_vms (mkCluster db ∅ ∅)) as Hstart by by split.
  pose proof (cluster_steps_ok _ _ Hrun Hstart) as [Hwf' Hacc' _ _].
  assert (0 <= vm_spare d r) as Hpos.
  { destruct (vr_idle _ (wf_vms _ Hwf' v r Hr)) as [[? _] [? _]]. by destruct d. }
  pose proof (assigned_amount_load d (c_gone s) v (c_db s) (wf_jobs_nonneg _ Hwf')).
  specialize (Hacc' v r d Hr eq_refl). split; [done|]. split; [done|lia].
Qed.

(** ** A run *)

#[local] Existing Instance reference_stdlib.
#[local] Existing Instance reference_postgres.

Lemma sample_accounted : accounted ∅ sample_db.
Proof.
  intros v r d Hr _. cbn in Hr.
  repeat (apply lookup_insert_Some in Hr as [[<- <-]|[_ Hr]]; [destruct d; vm_compute; discriminate|]).
  by rewrite lookup_empty in Hr.
Qed.

Definition sample_backend : Backend :=
  mkBackend Complex (Some (mkComplexConfig Descending BestFit)) [mkSlot 1 1024; mkSlot 4 4096].

(** The start of a plan, the jobs and the VMs read for it, the plan, and what its commit
    leaves.  Between the two reads a task is added, which the plan does not know of. *)
Definition sample_started : Cluster :=
  after_start (startScheduling "backend" 10 None (calm 20000000) sample_db) (mkCluster sample_db ∅ ∅).
Definition sample_jobs : Cluster :=
  after_jobs 1 (read_jobs (calm 20000001) (c_db sample_started)) sample_started.
Definition sample_task_added : StorageOp :=
  OpAddTask (mkTask (mkSlot 1 512) 60 1 "{}" "image" "client" ["{}"%string]).
Definition sample_added : Cluster :=
  mkCluster (op_db sample_task_added (calm 20000001) (calm 0)
    (c_db sample_jobs)) (c_gone sample_jobs) (c_plans sample_jobs).
Definition sample_read : Cluster :=
  after_vms 1 [mkJob 3 (mkSlot 4 4096); mkJob 2 (mkSlot 1 1024)]
    (read_vms (calm 20000001) (c_db sample_added)) sample_added.
Definition sample_state : State :=
  match c_plans sample_read !! 1 with
  | Some (PlanRead st) => st
  | _ => mkState [] []
  end.
Definition sample_plan : Outcome StateChange :=
  createVmAssigner_assign Complex sample_state (b_config sample_backend) (b_slots sample_backend).
Definition sample_committed (c : StateChange) : Cluster :=
  mkCluster (call_db (commitPlanChange c 1 (calm 20000002) (c_db sample_read))) ∅ (delete 1 (c_plans sample_read)).

Lemma sample_backend_usable : backend_usable sample_backend.
Proof.
  split; [|split; [done|]].
  - by eexists.
  - repeat (apply Forall_cons; split; [by split|]). apply Forall_nil_2.
Qed.

Lemma sample_fits : all_fit (b_slots sample_backend) (queuedJobs sample_state).
Proof.
  intros j x Hj. assert (queuedJobs sample_state = [mkJob 3 (mkSlot 4 4096); mkJob 2 (mkSlot 1 1024)]) as E
    by (vm_compute; reflexivity). rewrite E in Hj.
  repeat (apply elem_of_cons in Hj as [-> |Hj]; [vm_compute; intros [= <-]; reflexivity|]).
  by apply not_elem_of_nil in Hj.
Qed.

Lemma sample_run c : sample_plan = Ret c -> rtc cluster_step (mkCluster sample_db ∅ ∅) (sample_committed c).
Proof.
  intros Hc. eapply rtc_l; [apply cs_backend, (cs_start "backend" 10 None (calm 20000000))|].
  eapply rtc_l; [apply cs_backend, (cs_read_jobs 1 (calm 20000001) sample_started); vm_compute; reflexivity|].
  eapply rtc_l; [by apply (cs_call sample_task_added (calm 20000001) (calm 0) sample_jobs)|].
  eapply rtc_l; [apply cs_backend, (cs_read_vms 1 [mkJob 3 (mkSlot 4 4096); mkJob 2 (mkSlot 1 1024)] (calm 20000001) sample_added); vm_compute; reflexivity|].
  apply rtc_once, cs_backend, (cs_commit 1 sample_state sample_backend c (calm 20000002) sample_read).
  - vm_compute. reflexivity.
  - apply sample_backend_usable.
  - apply sample_fits.
  - exact Hc.
  - intros r Hr. vm_compute in Hr. injection Hr as <-. vm_compute. discriminate.
Qed.

(** Job 2 joins job 1 on VM 1, job 3 gets a VM of its own. *)
Lemma no_vm_is_overcommitted_witness :
  exists c, sample_plan = Ret c
    /\ (exists j, db_jobs (c_db (sample_committed c)) !! 2 = Some j /\ j_status j = Scheduled)
    /\ forall v r d, db_vms (c_db (sample_committed c)) !! v = Some r ->
       0 <= vm_spare d r /\ vm_spare d r + load d ∅ v (c_db (sample_committed c)) <= vm_size d r
       /\ assigned_amount d ∅ v (c_db (sample_committed c)) <= vm_size d r.
Proof.
  destruct sample_plan as [c| |] eqn:Hc; [|vm_compute in Hc; discriminate Hc|vm_compute in Hc; discriminate Hc].
  exists c. split; [reflexivity|]. split.
  - vm_compute in Hc. injection Hc as <-. eexists. split; vm_compute; reflexivity.
  - apply (no_vm_is_overcommitted sample_db (sample_committed c)).
    + apply sample_db_wf.
    + apply sample_accounted.
    + exact (sample_run c Hc).
Defined.

(** ** Restarts *)



