(* ===== verification/AgentProps.v ===== *)
(** * Properties of the agents

    What the agents report, and that, as they are started, they never do. *)

From S2P Require Import Prelude Std Slot State Db TxLogic Storage Lifecycle Checker StorageRefines RowEdits RowInvariants StatusLogs JobLives.
From S2P Require Import Accounting Cluster Parked Api Agent AgentSystem AgentCluster.

(** What an agent does to the database is no call, or one of those the bound on the
    lives of jobs ([LogProps.job_lives_are_bounded]) is about. *)
Lemma agent_acts_are_ending `{StdLib} `{Postgres} n m e a db next p db' logs :
  agent_exec e a db = Some (next, p, db') ->
  exists logs', rtc (ending_step n m) (mkLogged db logs) (mkLogged db' logs').
Proof.
  intros Hex. destruct (agent_exec_db e a db next p db' Hex) as [-> |(op & env & Hop & ->)]; [by exists logs|].
  eexists. apply rtc_once, (ending_call n m op env env (mkLogged db logs)); destruct op; try done.
  destruct Hop as (rep & -> & _ & _ & ->). apply agent_exec_tells, tells_end_status in Hex.
  cbn [ends_only]. destruct Hex as [-> | ->]; set_solver.
Qed.

(** C3: Agents report the end of each job once, and run only what they were assigned.
    Agents that start with empty maps run beside the backends in any interleaving, with
    lost messages, panics and restarts, and with any answers of Docker and S3.  Then
    no agent reports the same job twice; every report tells a result or a failure;
    and the job it is about, and every job a container was ever created for, was
    assigned to the VM of the agent before. *)
Theorem agents_report_each_end_once `{StdLib} `{Postgres} init db s :
  map_keys (assignedJobs init) = [] -> map_keys (readyToRunJobs init) = [] ->
  let start := mkSystem db ∅ [] in
  rtc (system_step init) start s ->
  (forall v, NoDup (reported_by v (sy_reports s)))
  /\ (forall p, p ∈ sy_reports s -> tells_end p /\ was_assigned init start s (pe_vm_id p) (pe_job_id p))
  /\ (forall v a j, sy_agents s !! v = Some a -> job_name j ∈ ag_names a -> was_assigned init start s v j).
Proof.
  intros E1 E2 start Hrun.
  assert (system_ok start) as Hstart by (split; cbn; [done|done|by apply Forall_nil_2]).
  pose proof (system_steps_ok _ _ _ Hrun Hstart) as Hok.
  pose proof (informed_steps init start s E1 E2 Hrun Hstart eq_refl) as Hinf.
  assert (forall v a j, sy_agents s !! v = Some a -> job_name j ∈ ag_names a -> was_assigned init start s v j) as Hnames.
  { intros v a j Ha Hj. apply (Hinf v a j Ha). unfold knows. tauto. }
  split; [|split; [|done]].
  - intros v. destruct (sy_agents s !! v) as [a|] eqn:Ha.
    + pose proof (ao_once _ _ _ (so_agents _ Hok v a Ha)) as Ho. by apply NoDup_app in Ho as [? _].
    + rewrite (so_none _ Hok v Ha). apply NoDup_nil_2.
  - intros p Hp. pose proof (so_ends _ Hok) as He. rewrite Forall_forall in He. split; [by apply He|].
    assert (pe_job_id p ∈ reported_by (pe_vm_id p) (sy_reports s)) as Hin.
    { unfold reported_by. apply list_elem_of_fmap. exists p. split; [done|]. by apply list_elem_of_filter. }
    destruct (sy_agents s !! pe_vm_id p) as [a|] eqn:Ha.
    + apply (Hnames _ a); [done|]. apply (ao_named _ _ _ (so_agents _ Hok _ a Ha)). set_solver.
    + rewrite (so_none _ Hok _ Ha) in Hin. by apply not_elem_of_nil in Hin.
Qed.

(** ** A run *)

#[local] Existing Instance reference_stdlib.
#[local] Existing Instance reference_postgres.

(** Job 1 is scheduled on VM 1, where an agent has just started. *)
Definition agent_db : Db :=
  with_jobs sample_db (list_to_map [(1, sample_job Scheduled 2 2048 (Some 1)); (2, sample_job Queued 1 1024 None)]).

Definition agent_start (init : AgentState) : AgentSystem := mkSystem agent_db (<[1 := start_agent init 1 ∅]> ∅) [].

(** It polls, asks for the job, launches it, and reports its result. *)
Definition poll_events (told : list JobId) : list AgentEvent :=
  OfPoller <$> [EvPoll Delivered (calm 1); EvAddCancelled; EvAddAssigned; EvList told]
    ++ ((fun _ => EvInfo Delivered (calm 2)) <$> told) ++ [EvPolled].
Definition launch_events (ready : list JobId) : list AgentEvent :=
  OfRunner <$> [EvTick; EvPick ready; EvRun (mkDocker true true true); EvPick []].
Definition end_events : list AgentEvent :=
  OfWaiter 0 <$> [EvEnd (WaitStatus 0 true true (Some "s3://result"%string)) Delivered (calm 3); EvComplete].

Definition agent_run : option AgentSystem :=
  acts made_state 1 (poll_events [1] ++ launch_events [1] ++ end_events) (agent_start made_state).

Definition agent_run_end : AgentSystem := default (agent_start made_state) agent_run.

Lemma agent_start_reached init : rtc (system_step init) (mkSystem agent_db ∅ []) (agent_start init).
Proof. by apply rtc_once, (sy_boot init 1 (mkSystem agent_db ∅ [])). Qed.

Lemma agents_report_each_end_once_witness :
  (exists p, sy_reports agent_run_end = [p] /\ pe_job_id p = 1)
  /\ (j_status <$> db_jobs (sy_db agent_run_end) !! 1) = Some Completed
  /\ forall p, p ∈ sy_reports agent_run_end ->
       tells_end p /\ was_assigned made_state (mkSystem agent_db ∅ []) agent_run_end (pe_vm_id p) (pe_job_id p).
Proof.
  split; [vm_compute; eexists; split; reflexivity|]. split; [vm_compute; reflexivity|].
  apply (agents_report_each_end_once made_state agent_db agent_run_end).
  - vm_compute. reflexivity.
  - vm_compute. reflexivity.
  - transitivity (agent_start made_state).
    + apply agent_start_reached.
    + apply (acts_run made_state 1 (poll_events [1] ++ launch_events [1] ++ end_events)).
      vm_compute. reflexivity.
Defined.

(** ** Agents and capacities *)

(** C2: With these agents no active VM is overcommitted.  Backends plan and commit, the
    other processes call the storage, and agents poll, launch, report and are
    restarted, in any interleaving, with any faults and lost messages; containers have
    their names to themselves, results of allocations are saved before the VM is given
    up, jobs fit the slots picked for them and clocks do not run backwards.  Then on every active
    VM the idle capacity and what its jobs hold, those that are being cancelled
    included, stay within its size. *)
Theorem agents_overcommit_no_active_vm `{StdLib} `{Postgres} init db s :
  db_wf db -> accounted ∅ db ->
  (forall i r, db_jobs db !! i = Some r -> is_Some (j_vm_id r) -> j_status r ∈ getAssignedJobStatuses) ->
  rtc (fleet_step init) (mkFleet (mkCluster db ∅ ∅) ∅ []) s ->
  forall v r d, db_vms (f_db s) !! v = Some r -> vm_active r = true ->
    0 <= vm_spare d r /\ vm_spare d r + load d ∅ v (f_db s) <= vm_size d r
    /\ assigned_amount d ∅ v (f_db s) <= vm_size d r.
Proof.
  intros Hwf Hacc Hwork Hrun v r d Hr Ha.
  assert (fleet_ok (mkFleet (mkCluster db ∅ ∅) ∅ [])) as Hstart.
  { split; cbn; [|done| | |].
    - split; cbn; [done| |done|done]. intros w x k Hx _. by apply Hacc.
    - intros i x w Hx Hw Hoff. specialize (Hwork i x Hx ltac:(by rewrite Hw)). exfalso. revert Hwork Hoff.
      unfold off_vm, getAssignedJobStatuses. destruct (j_status x); try done; set_solver.
    - split; [|done]. intros i x Hx Hst w Hw. specialize (Hwork i x Hx ltac:(by rewrite Hw)). exfalso. revert Hwork.
      unfold getAssignedJobStatuses. destruct Hst as [-> | ->]; set_solver.
    - split; cbn; [done|done|by apply Forall_nil_2]. }
  pose proof (fleet_steps_ok _ _ _ Hrun Hstart) as [[Hwf' Hacc' _ _] Hg _ _ _]. rewrite Hg in Hacc'.
  assert (0 <= vm_spare d r) as Hpos.
  { destruct (vr_idle _ (wf_vms _ Hwf' v r Hr)) as [[? _] [? _]]. by destruct d. }
  pose proof (assigned_amount_load d ∅ v (f_db s) (wf_jobs_nonneg _ Hwf')).
  specialize (Hacc' v r d Hr Ha). split; [done|]. split; [done|]. unfold f_db in *. lia.
Qed.

(** The run above, seen as one of the whole system: its end gives back what the job held. *)
Definition fleet_start : Fleet := mkFleet (mkCluster agent_db ∅ ∅) ∅ [].
Definition fleet_end : Fleet :=
  mkFleet (set_db (sy_db agent_run_end) (mkCluster agent_db ∅ ∅)) (sy_agents agent_run_end) (sy_reports agent_run_end).

Lemma agents_overcommit_no_active_vm_witness :
  (vm_idle <$> db_vms agent_db !! 1) = Some (mkSlot 2 2048)
  /\ (vm_idle <$> db_vms (f_db fleet_end) !! 1) = Some (mkSlot 4 4096)
  /\ forall v r d, db_vms (f_db fleet_end) !! v = Some r -> vm_active r = true ->
       0 <= vm_spare d r /\ vm_spare d r + load d ∅ v (f_db fleet_end) <= vm_size d r
       /\ assigned_amount d ∅ v (f_db fleet_end) <= vm_size d r.
Proof.
  split; [vm_compute; reflexivity|]. split; [vm_compute; reflexivity|].
  apply (agents_overcommit_no_active_vm made_state agent_db fleet_end).
  - apply db_wfb_sound. vm_compute. reflexivity.
  - intros v r d Hr _. cbn in Hr.
    repeat (apply lookup_insert_Some in Hr as [[<- <-]|[_ Hr]]; [destruct d; vm_compute; discriminate|]).
    by rewrite lookup_empty in Hr.
  - intros i r Hr Hv. cbn in Hr.
    apply lookup_insert_Some in Hr as [[<- <-]|[_ Hr]]; [left|].
    apply lookup_insert_Some in Hr as [[<- <-]|[_ Hr]]; [by destruct Hv|]. by rewrite lookup_empty in Hr.
  - apply (rtc_l _ _ (mkFleet (mkCluster agent_db ∅ ∅) (sy_agents (agent_start made_state)) [])).
    + exact (fs_boot made_state 1 fleet_start eq_refl).
    + apply (acts_fleet made_state 1 (poll_events [1] ++ launch_events [1] ++ end_events)). vm_compute. reflexivity.
Defined.

(** ** The agents as they are started *)

(** A job no agent has reported anything about. *)
Definition unreported (_ : JobId) (r : JobRow) : Prop := j_status r ∉ [Running; Completed; Error].

#[local] Instance unreported_rows n m : RowInvariant n m unreported (fun _ => True).
Proof.
  split; unfold unreported; try done; intros; cbn; try (apply (bool_decide_eq_false_1 (_ ∈ _)); reflexivity).
  case_decide; apply (bool_decide_eq_false_1 (_ ∈ _)); reflexivity.
Qed.

Lemma backend_unreported `{StdLib} `{Postgres} op env env2 db :
  backend_op op -> rows_ok unreported (fun _ => True) db -> rows_ok unreported (fun _ => True) (op_db op env env2 db).
Proof.
  intros Hop Hdb. destruct (op_within_some op) as (n & m & Hw). eapply (op_rows (n := n) (m := m)); [done| |done].
  by destruct op.
Qed.

(** C40: As they are started, agents run nothing.  [CreateRegistry] leaves all maps nil:
    an agent that is told of a job panics.  Hence, whatever backends and agents do and
    however often agents are restarted, no container is ever created, no report is ever
    sent, and no job ever gets to run or to complete. *)
Theorem started_agents_run_nothing `{StdLib} `{Postgres} db s :
  (forall i r, db_jobs db !! i = Some r -> j_status r ∉ [Running; Completed; Error]) ->
  rtc (system_step (ag_state (CreateRegistry 0 ∅))) (mkSystem db ∅ []) s ->
  sy_reports s = []
  /\ (forall v a, sy_agents s !! v = Some a -> ag_names a = ∅
       /\ forall jobs, jobs <> [] -> AddAssignedJobs jobs (ag_state a) = None)
  /\ (forall i r, db_jobs (sy_db s) !! i = Some r -> j_status r ∉ [Running; Completed; Error]).
Proof.
  intros Hdb Hrun.
  enough (blank_system s /\ rows_ok unreported (fun _ => True) (sy_db s)) as [[Ha Hr] [Hj _]].
  { split; [done|]. split; [|exact Hj]. intros v a Hv. destruct (Ha v a Hv) as [Hs _ _ _ Hn]. split; [done|].
    intros jobs Hne. rewrite Hs, zero_assigned. by destruct jobs. }
  revert s Hrun. apply (rtc_ind_r (fun s => blank_system s /\ rows_ok unreported (fun _ => True) (sy_db s))).
  - split; split; cbn; done.
  - intros y z _ Hyz [Hb Hrows]. destruct (blank_step _ _ Hyz Hb) as [Hz [-> |(op & env & env2 & Hop & ->)]]; [done|].
    split; [done|]. by apply backend_unreported.
Qed.

(** The agent of VM 1 polls, and its backend is told again: it was restarted. *)
Definition crash_events : list AgentEvent :=
  OfPoller <$> [EvPoll Delivered (calm 1); EvAddCancelled; EvAddAssigned; EvPoll Delivered (calm 2)].

Definition crash_end : AgentSystem :=
  default (agent_start zero_state) (acts zero_state 1 crash_events (agent_start zero_state)).

Lemma started_agents_run_nothing_witness :
  (exists a, sy_agents crash_end !! 1 = Some a /\ ag_poller a = PollGot (mkAssignments [1] [])
     /\ agent_exec (OfPoller EvAddAssigned) (in_poller (PollCancelledAdded [1]) (ag_state a) a) (sy_db crash_end)
        = Some (Panics, None, sy_db crash_end))
  /\ sy_reports crash_end = []
  /\ (forall v a, sy_agents crash_end !! v = Some a -> ag_names a = ∅
       /\ forall jobs, jobs <> [] -> AddAssignedJobs jobs (ag_state a) = None)
  /\ (forall i r, db_jobs (sy_db crash_end) !! i = Some r -> j_status r ∉ [Running; Completed; Error]).
Proof.
  split; [eexists; split; [vm_compute; reflexivity|]; split; vm_compute; reflexivity|].
  apply (started_agents_run_nothing agent_db).
  - intros i r Hr. cbn in Hr.
    repeat (apply lookup_insert_Some in Hr as [[<- <-]|[_ Hr]]; [apply (bool_decide_eq_false_1 (_ ∈ _)); reflexivity|]).
    by rewrite lookup_empty in Hr.
  - transitivity (agent_start zero_state).
    + apply agent_start_reached.
    + apply (acts_run zero_state 1 crash_events). vm_compute. reflexivity.
Defined.

(** ** Shortcomings *)

(** A container whose creation succeeded and whose start failed is never started: its
    name is taken, and [RunJobs] goes on retrying it without an end of its loop. *)
Theorem taken_name_is_retried_for_ever `{Postgres} j (es : list (AgentEvent * Db)) a a' :
  retrying j a -> ag_runner a <> RunIdle ->
  foldr (fun ed o => a ← o; match agent_exec ed.1 a ed.2 with Some (Goes b, _, _) => Some b | _ => None end) (Some a) es
    = Some a' ->
  retrying j a' /\ ag_runner a' <> RunIdle.
Proof.
  intros Hr Hi. revert a'. induction es as [|[e db] es IH]; cbn; [by intros a' [= <-]|].
  intros a'. destruct (foldr _ _ _) as [b|] eqn:Hb; [cbn|done].
  destruct (agent_exec e b db) as [[[[c|] p] db']|] eqn:He; [|done|done]. intros [= <-].
  destruct (IH b eq_refl) as [Hrb Hib]. destruct (retrying_step j e b db c p db' He Hrb) as [? Hidle]. auto.
Qed.

(** A launched job is still assigned on the server, so the next poll makes it ready
    again; when its container ends its info is gone, and launching it panics. *)
Example launched_job_is_launched_again :
  exists s, acts made_state 1 (poll_events [1] ++ launch_events [1] ++ poll_events [1]) (agent_start made_state) = Some s
    /\ exists a, sy_agents s !! 1 = Some a /\ map_get 1 (runningJobs (ag_state a)) = Some tt
         /\ map_get 1 (readyToRunJobs (ag_state a)) = Some tt
         /\ exists s2, acts made_state 1 (end_events ++ (OfRunner <$> [EvTick; EvPick [1]])) s = Some s2
              /\ exists b, sy_agents s2 !! 1 = Some b /\ ag_runner b = RunLaunch 1 None
                   /\ runJobContainer (mkDocker true true true) None = None.
Proof.
  eexists. split; [vm_compute; reflexivity|]. eexists. split; [vm_compute; reflexivity|].
  split; [vm_compute; reflexivity|]. split; [vm_compute; reflexivity|].
  eexists. split; [vm_compute; reflexivity|]. eexists. split; [vm_compute; reflexivity|].
  split; vm_compute; reflexivity.
Qed.

(** The exit code of a container is not looked at. *)
Lemma failing_container_completes code j v url :
  handleContainerCompletion (WaitStatus code true true (Some url)) j v
  = (Some (mkProtoExecutionJobState v j JOB_COMPLETED (Some url)), true).
Proof. done. Qed.

(** A result that cannot be uploaded is not reported, and the job stays running. *)
Lemma failed_upload_is_not_reported code j v opened session :
  handleContainerCompletion (WaitStatus code opened session None) j v = (None, false).
Proof. by destruct opened, session. Qed.

(** A core is ten thousand million nano-CPUs, ten times as many as there are. *)
Lemma container_gets_ten_times_its_cores name info :
  0 <= Limits_Cpu info < 900000000 ->
  cc_nano_cpus (CreateContainer name info) = 10 * (Limits_Cpu info * 1000000000).
Proof.
  intros Hc. cbn. assert (forall z, 0 <= z < 2 ^ 63 -> int64 z = z) as Hsmall.
  { intros z Hz. unfold int64. rewrite Z.mod_small by lia. by destruct (Z.ltb_spec z (2 ^ 63)); [|lia]. }
  rewrite (Hsmall (Limits_Cpu info)) by lia. rewrite Hsmall by lia. lia.
Qed.
