(* ===== verification/UnitTests.v ===== *)
(** * The unit tests of the repository, run on the model

    src/libs/scheduler/tests, src/libs/db/tests, src/libs/aws/allocator/tests,
    src/libs/allocator/tests and src/libs/failure_detector/tests: the inputs of each test,
    and what it expects, evaluated on the definitions.  The
    orders a library is free to choose are those of [reference_stdlib] and
    [reference_postgres]. *)

From Stdlib Require Import Ascii.
From S2P Require Import Prelude Std Slot State OrderedJobs JobAllocator SlotSelector Assigner Db Storage Aws.
From S2P Require Import Lifecycle StorageRefines Interfaces Process Scheduler Allocator FailureDetector Protocol Scripted Base64 Text Config.

#[local] Existing Instance reference_stdlib.
#[local] Existing Instance reference_postgres.

(** ** Assigners *)

Definition getPossibleSlots_test : list SlotCapacity :=
  [mkSlot 1 512; mkSlot 1 1024; mkSlot 1 2048; mkSlot 2 1024; mkSlot 4 2048; mkSlot 8 4096; mkSlot 16 8192].

Definition getC6gPossibleSlots : list SlotCapacity :=
  [mkSlot 1 2048; mkSlot 2 4096; mkSlot 4 8192; mkSlot 8 16384; mkSlot 16 32768; mkSlot 32 65536;
   mkSlot 48 98304; mkSlot 64 131072].

(** [BFDVmAssigner.assign]. *)
Example test_bfd_assign :
  ComplexVmAssigner_assign (mkComplexConfig Descending BestFit)
    (mkState [mkJob 0 (mkSlot 2 4096); mkJob 1 (mkSlot 1 1024)] [mkVm 5 (mkSlot 4 2048) (mkSlot 4 2048)])
     getPossibleSlots_test
  = Ret (mkStateChange (list_to_map [(0, DesiredVm 0); (1, ExistingVm 5)]) (list_to_map
   [(0, mkDesired (mkSlot 8 4096) (mkSlot 6 0))]) (list_to_map [(5, mkSlot 3 1024)]) []).
Proof. vm_compute. reflexivity. Qed.

(** [BFDVmAssigner.emptyJobs]. *)
Example test_bfd_emptyJobs :
  ComplexVmAssigner_assign (mkComplexConfig Descending BestFit)
    (mkState [] [mkVm 5 (mkSlot 4 2048) (mkSlot 4 2048); mkVm 1 (mkSlot 2 2048) (mkSlot 1 1024);
     mkVm 3 (mkSlot 2 1024) (mkSlot 2 1024)]) getPossibleSlots_test
  = Ret (mkStateChange ∅ ∅ ∅ [3; 5]).
Proof. vm_compute. reflexivity. Qed.

(** [BFDVmAssigner.emptyVms]. *)
Example test_bfd_emptyVms :
  ComplexVmAssigner_assign (mkComplexConfig Descending BestFit)
    (mkState [mkJob 9 (mkSlot 3 4096)] []) getPossibleSlots_test
  = Ret (mkStateChange (list_to_map [(9, DesiredVm 0)]) (list_to_map
   [(0, mkDesired (mkSlot 8 4096) (mkSlot 5 0))]) ∅ []).
Proof. vm_compute. reflexivity. Qed.

(** [BFDVmAssigner.assignTest2]. *)
Example test_bfd_assignTest2 :
  ComplexVmAssigner_assign (mkComplexConfig Descending BestFit)
    (mkState [mkJob 0 (mkSlot 2 4096); mkJob 2 (mkSlot 1 1024); mkJob 3 (mkSlot 6 1024);
     mkJob 4 (mkSlot 2 1024)] [mkVm 5 (mkSlot 4 2048) (mkSlot 3 1024);
     mkVm 6 (mkSlot 1 2048) (mkSlot 1 1024)]) getPossibleSlots_test
  = Ret (mkStateChange (list_to_map [(4, ExistingVm 5); (2, ExistingVm 6); (0, DesiredVm 0);
   (3, DesiredVm 0)]) (list_to_map [(0, mkDesired (mkSlot 16 8192) (mkSlot 8 3072))]) (list_to_map
   [(5, mkSlot 1 0); (6, mkSlot 0 0)]) []).
Proof. vm_compute. reflexivity. Qed.

(** [BFDVmAssigner.assignTest3]. *)
Example test_bfd_assignTest3 :
  ComplexVmAssigner_assign (mkComplexConfig Descending BestFit)
    (mkState [mkJob 0 (mkSlot 2 4096); mkJob 2 (mkSlot 1 1024); mkJob 3 (mkSlot 6 1024);
     mkJob 4 (mkSlot 2 1024)] [mkVm 5 (mkSlot 4 2048) (mkSlot 3 1024); mkVm 6 (mkSlot 1 2048) (mkSlot 1 1024);
     mkVm 7 (mkSlot 8 4096) (mkSlot 7 3584)]) getPossibleSlots_test
  = Ret (mkStateChange (list_to_map [(4, ExistingVm 5); (2, ExistingVm 6); (0, DesiredVm 0);
   (3, ExistingVm 7)]) (list_to_map [(0, mkDesired (mkSlot 8 4096) (mkSlot 6 0))]) (list_to_map
   [(7, mkSlot 1 2560); (5, mkSlot 1 0); (6, mkSlot 0 0)]) []).
Proof. vm_compute. reflexivity. Qed.

(** [BFDVmAssigner.assignTest4]. *)
Example test_bfd_assignTest4 :
  ComplexVmAssigner_assign (mkComplexConfig Descending BestFit)
    (mkState [mkJob 0 (mkSlot 1 50); mkJob 1 (mkSlot 1 1000); mkJob 2 (mkSlot 2 2000);
     mkJob 3 (mkSlot 9 1024)] []) getPossibleSlots_test
  = Ret (mkStateChange (list_to_map [(0, DesiredVm 0); (1, DesiredVm 0); (2, DesiredVm 0); (3, DesiredVm 0)])
   (list_to_map [(0, mkDesired (mkSlot 16 8192) (mkSlot 3 4118))]) ∅ []).
Proof. vm_compute. reflexivity. Qed.

(** [BFDVmAssigner.assignTest5]. *)
Example test_bfd_assignTest5 :
  ComplexVmAssigner_assign (mkComplexConfig Descending BestFit)
    (mkState [mkJob 0 (mkSlot 1 50); mkJob 1 (mkSlot 1 100); mkJob 2 (mkSlot 2 1000);
     mkJob 3 (mkSlot 17 1024)] []) getPossibleSlots_test
  = Ret (mkStateChange (list_to_map [(0, DesiredVm 1); (1, DesiredVm 1); (2, DesiredVm 1); (3, DesiredVm 0)])
   (list_to_map [(0, mkDesired (mkSlot 16 8192) (mkSlot 0 7168));
   (1, mkDesired (mkSlot 4 2048) (mkSlot 0 898))]) ∅ []).
Proof. vm_compute. reflexivity. Qed.

(** [BFDVmAssigner.assignC6gTest1]. *)
Example test_bfd_assignC6gTest1 :
  ComplexVmAssigner_assign (mkComplexConfig Descending BestFit)
    (mkState [mkJob 0 (mkSlot 9 400); mkJob 1 (mkSlot 9 400); mkJob 2 (mkSlot 9 400); mkJob 3 (mkSlot 9 400)]
     []) getC6gPossibleSlots
  = Ret (mkStateChange (list_to_map [(0, DesiredVm 0); (1, DesiredVm 0); (2, DesiredVm 0); (3, DesiredVm 1)])
   (list_to_map [(0, mkDesired (mkSlot 32 65536) (mkSlot 5 64336));
   (1, mkDesired (mkSlot 16 32768) (mkSlot 7 32368))]) ∅ []).
Proof. vm_compute. reflexivity. Qed.

(** [AscendingWorstFitVmAssigner.assign]. *)
Example test_wfa_assign :
  ComplexVmAssigner_assign (mkComplexConfig Ascending WorstFit)
    (mkState [mkJob 0 (mkSlot 2 4096); mkJob 2 (mkSlot 1 1024); mkJob 3 (mkSlot 6 1024);
     mkJob 4 (mkSlot 2 1024)] [mkVm 5 (mkSlot 4 2048) (mkSlot 3 1024); mkVm 6 (mkSlot 1 2048) (mkSlot 1 1024);
     mkVm 7 (mkSlot 8 4096) (mkSlot 7 3584)]) getPossibleSlots_test
  = Ret (mkStateChange (list_to_map [(4, ExistingVm 7); (2, ExistingVm 7); (0, DesiredVm 0);
   (3, DesiredVm 0)]) (list_to_map [(0, mkDesired (mkSlot 16 8192) (mkSlot 8 3072))]) (list_to_map
   [(7, mkSlot 4 1536)]) []).
Proof. vm_compute. reflexivity. Qed.

(** [SimpleVmAssigner.assign]. *)
Example test_simple_assign :
  SimpleVmAssigner_assign
    (mkState [mkJob 0 (mkSlot 2 4096); mkJob 1 (mkSlot 1 1024)] [mkVm 5 (mkSlot 4 2048) (mkSlot 4 2048)])
  = mkStateChange (list_to_map [(0, DesiredVm 0); (1, DesiredVm 1)]) (list_to_map
   [(0, mkDesired (mkSlot 2 4096) (mkSlot 0 0)); (1, mkDesired (mkSlot 1 1024) (mkSlot 0 0))]) ∅ [5].
Proof. vm_compute. reflexivity. Qed.

(** [SimpleVmAssigner.emptyJobs]. *)
Example test_simple_emptyJobs :
  SimpleVmAssigner_assign
    (mkState [] [mkVm 5 (mkSlot 4 2048) (mkSlot 4 2048); mkVm 1 (mkSlot 2 2048) (mkSlot 1 1024);
     mkVm 3 (mkSlot 2 1024) (mkSlot 2 1024)])
  = mkStateChange ∅ ∅ ∅ [5; 3].
Proof. vm_compute. reflexivity. Qed.

(** [SimpleVmAssigner.emptyVms]. *)
Example test_simple_emptyVms :
  SimpleVmAssigner_assign
    (mkState [mkJob 9 (mkSlot 3 4096)] [])
  = mkStateChange (list_to_map [(9, DesiredVm 0)]) (list_to_map [(0, mkDesired (mkSlot 3 4096) (mkSlot 0 0))])
   ∅ [].
Proof. vm_compute. reflexivity. Qed.

(** ** Instance types *)

(** [InstanceTypeSelection.simple], with the types numbered. *)
Definition vmTypeInfos : list (InstanceTypeInfo nat) :=
  [mkInstanceTypeInfo 0%nat (mkSlot 1 1024); mkInstanceTypeInfo 1%nat (mkSlot 2 2048); mkInstanceTypeInfo 2%nat (mkSlot 4 2048)].

Example test_instance_type_selection :
  getInstanceTypeForSlot vmTypeInfos (mkSlot 1 1500) = Ret 1%nat
  /\ getInstanceTypeForSlot vmTypeInfos (mkSlot 1 1024) = Ret 0%nat
  /\ getInstanceTypeForSlot vmTypeInfos (mkSlot 5 1500) = Ret 2%nat.
Proof. vm_compute. auto. Qed.

(** ** The storage *)

(** A new database, and calls one second apart. *)
Definition fresh : Db := mkDb ∅ ∅ ∅ ∅ ∅ 1 1 1 1.
Definition at_second (n : Z) : Env := calm (seconds (1000 + n)).

Definition quoted (s : string) : string := String (Ascii.ascii_of_nat 34) (s +:+ String (Ascii.ascii_of_nat 34) EmptyString).

(** src/libs/db/impl/test_utils.cpp. *)
Definition getOneJobTaskParameters : TaskParameters :=
  mkTask (mkSlot 1 1024) 60 1 "{}" "no bugs version :)" "client id" ["{" +:+ quoted "options" +:+ ": []}"].

Definition getThreeJobTaskParameters : TaskParameters :=
  mkTask (mkSlot 1 1024) 60 3 "{}" "deprecated version" "client id"
    ["[" +:+ quoted "options" +:+ ", " +:+ quoted "text" +:+ "]"; "{" +:+ quoted "a" +:+ ": 42}";
     "{" +:+ quoted "abc" +:+ ": [1, 2, 42]}"].

Definition insertVm (status : VmStatus) (now : Z) (db : Db) : Db :=
  mkDb (<[seq_vms db := mkVmRow status 2 2048 1 1024 (Some "cloud vm id"%string) (Some "cloud vm type"%string)
            now now None 0]> (db_vms db))
    (db_tasks db) (db_jobs db) (db_plans db) (db_locks db) (seq_vms db + 1) (seq_tasks db) (seq_jobs db) (seq_plans db).

(** What the tests write to the tables themselves. *)
Definition set_jobs (status : JobStatus) (vm : option VmId) (db : Db) : Db :=
  update_jobs (fun _ _ => true)
    (fun _ r => (match vm with Some v => set_j_vm_id v | None => id end) (set_j_status status r)) db.

Definition answer {A} (c : Call A) : option (Result A) :=
  match c with Answer r _ => Some r | Crash _ => None end.

(** What a test looks at in the end. *)
Definition look {A} (f : Db -> A) (db : Db) : Call A := Answer (Success (f db)) db.

(** [StartScheduling.exclusiveLock]: the lock on the table of plans is refused. *)
Example test_exclusiveLock :
  answer (startScheduling "backendId" 2 None
    (mkEnv (seconds 1000) ∅ (fun n => if decide (n = 1%nat) then Some LockError else None) false) fresh)
  = Some (Failure LockUnavailable).
Proof. vm_compute. reflexivity. Qed.

(** [StartScheduling.consecutiveStartScheduling]. *)
Example test_consecutiveStartScheduling :
  let first := startScheduling "backendId" 2 None (at_second 0) fresh in
  let second := startScheduling "backendId" 2 None (at_second 1) (call_db first) in
  let third := startScheduling "backendId" 0 None (at_second 2) (call_db second) in
  IsSuccess <$> answer first = Some true /\ IsFailure <$> answer second = Some true
  /\ IsSuccess <$> answer third = Some true.
Proof. vm_compute. auto. Qed.

(** [GetCurrentState.empty]. *)
Example test_getCurrentState_empty : answer (getCurrentState (at_second 0) fresh) = Some (Success (mkState [] [])).
Proof. vm_compute. reflexivity. Qed.

(** [CommitPlanChange.fulScenario]. *)
Example test_commit_fulScenario :
  answer (then_call (addTask getOneJobTaskParameters (at_second 0) fresh) (fun created db =>
    then_call (startScheduling "backendId" 2 None (at_second 1) db) (fun planId db =>
    then_call (commitPlanChange (mkStateChange {[1 := DesiredVm 1]}
      {[1 := mkDesired (mkSlot 3 4096) (mkSlot 1 1024)]} ∅ []) planId (at_second 2) db) (fun _ db =>
    then_call (getCurrentState (at_second 3) db) (fun state =>
    look (fun db => (state, (fun i => (fun r => (j_status r, j_cpu r, j_ram r)) <$> db_jobs db !! i)
      <$> cj_jobIds created)))))))
  = Some (Success (mkState [] [mkVm 1 (mkSlot 3 4096) (mkSlot 1 1024)], [Some (Scheduled, 1, 1024)])).
Proof. vm_compute. reflexivity. Qed.

(** [Allocation.allocate] and [Allocation.empty]. *)
Example test_allocation :
  let db := insertVm PendingAllocation (seconds 1000) fresh in
  answer (then_call (getVmsToAllocate 5 (at_second 1) db) (fun vms =>
    fun db1 => then_call (saveVmAllocationResult 1 (mkAllocatedVm "cloud vm id" "cloud vm type") (at_second 2) db1)
    (fun _ => look (fun db2 => (vms, v_status <$> db_vms db1 !! 1, v_status <$> db_vms db2 !! 1)))))
  = Some (Success ([mkAllocationPending 1 (mkSlot 2 2048)], Some Allocating, Some Allocated))
  /\ answer (getVmsToAllocate 5 (at_second 0) fresh) = Some (Success []).
Proof. vm_compute. auto. Qed.

(** [Termination.terminate] and [Termination.empty]. *)
Example test_termination :
  let db := insertVm PendingTermination (seconds 1000) fresh in
  answer (then_call (getVmsToTerminate 5 (at_second 1) db) (fun vms =>
    fun db1 => then_call (saveVmTerminationResult 1 (at_second 2) db1)
    (fun _ => look (fun db2 => (vms, v_status <$> db_vms db1 !! 1, v_status <$> db_vms db2 !! 1)))))
  = Some (Success ([mkTerminationPending 1 "cloud vm id"], Some Terminating, Some Terminated))
  /\ answer (getVmsToTerminate 5 (at_second 0) fresh) = Some (Success []).
Proof. vm_compute. auto. Qed.

(** [Cancellation.cancelQueued] and [Cancellation.cancelScheduled]. *)
Example test_cancellation :
  let cancelled (prepare : Db -> Db) :=
    answer (then_call (addTask getThreeJobTaskParameters (at_second 0) fresh) (fun created db =>
      then_call (cancelTask (cj_taskId created) (at_second 1) (prepare db)) (fun _ db =>
      then_call (getJobStates (cj_taskId created) (at_second 2) db) (fun states =>
      look (fun _ => (cj_jobIds created, js_status <$> states)))))) in
  cancelled id = Some (Success ([1; 2; 3], [Cancelled; Cancelled; Cancelled]))
  /\ cancelled (set_jobs Scheduled None) = Some (Success ([1; 2; 3], [Cancelling; Cancelling; Cancelling])).
Proof. vm_compute. auto. Qed.

(** [AgentLogic.fullScenario]. *)
Definition job_columns (db : Db) : option (JobStatus * bool * bool * bool) :=
  (fun r => (j_status r, bool_decide (is_Some (j_started r)), bool_decide (is_Some (j_finished r)),
             bool_decide (is_Some (j_result_url r)))) <$> db_jobs db !! 1.

Example test_agent_fullScenario :
  let db := insertVm Allocated (seconds 1000) fresh in
  answer (then_call (addTask getThreeJobTaskParameters (at_second 1) db) (fun _ db =>
    then_call (getAssignedJobs 1 (at_second 2) (set_jobs Scheduled (Some 1) db)) (fun jobs db =>
    then_call (getJobToLaunch 1 1 (at_second 3) db) (fun launch db =>
    then_call (updateJobState 1 1 (mkJobState Running None) (at_second 4) db) (fun _ db1 =>
    then_call (updateJobState 1 1 (mkJobState Completed (Some "result url"%string)) (at_second 5) db1) (fun _ =>
    look (fun db2 => (length jobs, bool_decide (1 ∈ aj_id <$> jobs), jl_capacityLimits launch, jl_jobOptions launch,
      (job_columns db1, vm_idle <$> db_vms db1 !! 1), (job_columns db2, vm_idle <$> db_vms db2 !! 1)))))))))
  = Some (Success (3%nat, true, mkSlot 1 1024, "[" +:+ quoted "options" +:+ ", " +:+ quoted "text" +:+ "]",
      (Some (Running, true, false, false), Some (mkSlot 1 1024)),
      (Some (Completed, true, true, true), Some (mkSlot 2 2048)))).
Proof. vm_compute. reflexivity. Qed.

(** [AgentLogic.jobNotFound] and [AgentLogic.vmNotFound]. *)
Example test_agent_not_found :
  let calls v db :=
    let asked := getAssignedJobs v (at_second 1) db in
    (answer asked, answer (updateJobState v 13 (mkJobState Completed (Some "result url"%string)) (at_second 2) (call_db asked))) in
  calls 1 (insertVm AgentStarted (seconds 1000) fresh) = (Some (Success []), Some (Failure JobNotFoundException))
  /\ calls 42 fresh = (Some (Success []), Some (Failure JobNotFoundException)).
Proof. vm_compute. auto. Qed.

(** [FailureDetector.restartStaleAllocatingVms]. *)
Definition vm_columns (db : Db) : option (VmStatus * Z) := (fun r => (v_status r, v_restart_count r)) <$> db_vms db !! 1.
Definition job_restarts (db : Db) : list (option (JobStatus * Z)) :=
  (fun i => (fun r => (j_status r, j_restart_count r)) <$> db_jobs db !! i) <$> [1; 2; 3].

Example test_restartStaleAllocatingVms :
  let db := insertVm Allocating (seconds 1000) fresh in
  vm_columns db = Some (Allocating, 0)
  /\ answer (then_call (restartStaleAllocatingVms 0 1 (at_second 1) db) (fun _ => look vm_columns))
     = Some (Success (Some (PendingAllocation, 1))).
Proof. vm_compute. auto. Qed.

(** [FailureDetector.terminateStaleAllocatingVms] and [terminateVmsWithInactiveAgents]. *)
Example test_giving_up_vms :
  let with_jobs_on vmStatus jobStatus (activity : Db -> Db) (op : Env -> Db -> Call unit) :=
    answer (then_call (addTask getThreeJobTaskParameters (at_second 1) (insertVm vmStatus (seconds 1000) fresh))
      (fun _ db => then_call (op (at_second 3) (activity (set_jobs jobStatus (Some 1) db)))
      (fun _ => look (fun db => (vm_columns db, job_restarts db))))) in
  with_jobs_on Allocating Scheduled id (terminateStaleAllocatingVms 0 0 1)
    = Some (Success (Some (Terminated, 0), replicate 3 (Some (Queued, 1))))
  /\ with_jobs_on AgentStarted Running
       (update_vms (seconds 1002) (fun _ _ => true) (fun _ => set_v_agent_activity (seconds 1002)))
       (terminateVmsWithInactiveAgents 0 1)
    = Some (Success (Some (PendingTermination, 0), replicate 3 (Some (Queued, 1)))).
Proof. vm_compute. auto. Qed.

(** ** Allocator, failure detector and scheduler with mocks *)

(** The configurations of the tests: nothing is set in the environment. *)
Definition nothing_set (_ : string) : option string := None.
Definition test_allocator_config : AllocatorConfig := mkAllocatorConfig 1 1 (mkCommonConfig 3 3).
Definition test_detector_config : FailureDetectorConfig := mkFailureDetectorConfig 30 300 120 120 (mkCommonConfig 3 3).
Definition test_scheduler_config : SchedulerConfig := mkSchedulerConfig 40 Complex (Some (mkComplexConfig Fifo BestFit)).

Example test_configs :
  createAllocatorConfig nothing_set = Returns test_allocator_config
  /\ createFailureDetectorConfig nothing_set = Returns test_detector_config
  /\ createSchedulerConfig nothing_set = Returns test_scheduler_config.
Proof. vm_compute. auto. Qed.

(** The calls a program makes when the mocks of a test answer so; calls that are not expected
    would be answered with a failure and show in the list. *)
Definition scripted_calls {A} (storage : forall op, Result (op_value op)) (cloud : forall c, cloud_answer c)
    (m : Prog A) : list Event :=
  trace (TaskStorage0 := scripted_storage storage)
    (Cloud0 := scripted_cloud cloud) m [].

Definition unexpected_cloud (c : CloudCall) : cloud_answer c :=
  match c with
  | CloudAllocate _ _ | CloudTerminate _ | CloudGetAllAllocatedVms => Failure RuntimeException
  | CloudGetPossibleSlots => []
  end.

Definition test_vm : AllocationPendingVmInfo := mkAllocationPending 5 (mkSlot 1 1).
Definition test_instance : AllocatedVmInfo := mkAllocatedVm "cloud vm id" "cloud vm type".
Definition test_ending : TerminationPendingVmInfo := mkTerminationPending 5 "cloud vm id".

(** [Allocate.allocate]. *)
Example test_allocate :
  scripted_calls (fun op => match op with
                          | OpGetVmsToAllocate _ => Success [test_vm]
                          | OpSaveVmAllocationResult _ _ => Success tt
                          | _ => Failure RuntimeException
                          end)
    (fun c => match c with CloudAllocate _ _ => Success test_instance | c' => unexpected_cloud c' end)
    (Allocator.allocate test_allocator_config)
  = [told (OpGetVmsToAllocate 1) (Success [test_vm]); replied (CloudAllocate 5 (mkSlot 1 1)) (Success test_instance);
     told (OpSaveVmAllocationResult 5 test_instance) (Success tt)].
Proof. vm_compute. reflexivity. Qed.

(** [Allocate.allocationFailedOnStart]. *)
Example test_allocationFailedOnStart :
  scripted_calls (fun op => Failure RuntimeException) unexpected_cloud (Allocator.allocate test_allocator_config)
  = [told (OpGetVmsToAllocate 1) (Failure RuntimeException)].
Proof. vm_compute. reflexivity. Qed.

(** [Allocate.allocationFailed]. *)
Example test_allocationFailed :
  scripted_calls (fun op => match op with
                          | OpGetVmsToAllocate _ => Success [test_vm]
                          | OpRollbackUnallocatedVmsState _ _ _ => Success tt
                          | _ => Failure RuntimeException
                          end) unexpected_cloud (Allocator.allocate test_allocator_config)
  = [told (OpGetVmsToAllocate 1) (Success [test_vm]);
     replied (CloudAllocate 5 (mkSlot 1 1)) (Failure RuntimeException);
     told (OpRollbackUnallocatedVmsState [5] 3 3) (Success tt)].
Proof. vm_compute. reflexivity. Qed.

(** [Terminate.terminate]. *)
Example test_terminate :
  scripted_calls (fun op => match op with
                          | OpGetVmsToTerminate _ => Success [test_ending]
                          | OpSaveVmTerminationResult _ => Success tt
                          | _ => Failure RuntimeException
                          end)
    (fun c => match c with CloudTerminate _ => Success tt | c' => unexpected_cloud c' end)
    (Allocator.terminate test_allocator_config)
  = [told (OpGetVmsToTerminate 1) (Success [test_ending]); replied (CloudTerminate "cloud vm id") (Success tt);
     told (OpSaveVmTerminationResult 5) (Success tt)].
Proof. vm_compute. reflexivity. Qed.

(** [Terminate.terminationFailedOnStart]. *)
Example test_terminationFailedOnStart :
  scripted_calls (fun op => Failure RuntimeException) unexpected_cloud (Allocator.terminate test_allocator_config)
  = [told (OpGetVmsToTerminate 1) (Failure RuntimeException)].
Proof. vm_compute. reflexivity. Qed.

(** [Terminate.terminationFailed]. *)
Example test_terminationFailed :
  scripted_calls (fun op => match op with
                          | OpGetVmsToTerminate _ => Success [test_ending]
                          | OpReturnUnterminatedVms _ => Success tt
                          | _ => Failure RuntimeException
                          end) unexpected_cloud (Allocator.terminate test_allocator_config)
  = [told (OpGetVmsToTerminate 1) (Success [test_ending]);
     replied (CloudTerminate "cloud vm id") (Failure RuntimeException);
     told (OpReturnUnterminatedVms [5]) (Success tt)].
Proof. vm_compute. reflexivity. Qed.

(** [FailureDetector.simple]. *)
Example test_failureDetector :
  ev_request <$> scripted_calls (fun op => match op with
                          | OpRestartStaleAllocatingVms _ _ | OpTerminateStaleAllocatingVms _ _ _ => Success tt
                          | OpTerminateVmsWithInactiveAgents _ _ | OpTerminateVmsWithoutAgents _ _ => Success tt
                          | OpGetAllocatedVms => Success []
                          | OpCancelTimedOutJobs => Success tt
                          | _ => Failure RuntimeException
                          end)
    (fun c => match c with CloudGetAllAllocatedVms => Success [] | c' => unexpected_cloud c' end)
    (FailureDetector.monitor test_detector_config)
  = [OnStorage (OpRestartStaleAllocatingVms 30 3); OnStorage (OpTerminateStaleAllocatingVms 30 3 3);
     OnStorage (OpTerminateVmsWithInactiveAgents 120 3); OnStorage (OpTerminateVmsWithoutAgents 300 3);
     OnStorage OpGetAllocatedVms; OnCloud CloudGetAllAllocatedVms; OnStorage OpCancelTimedOutJobs].
Proof. vm_compute. reflexivity. Qed.

(** [Scheduler.schedule] and [Scheduler.schedulingCancelled]. *)
Example test_scheduler :
  let iteration (start : Result PlanId) := scripted_calls (fun op => match op with
                          | OpStartScheduling _ _ _ => start
                          | OpGetCurrentState => Success (mkState [] [])
                          | OpCommitPlanChange _ _ => Success tt
                          | _ => Failure RuntimeException
                          end) unexpected_cloud
      (schedule "backendId" test_scheduler_config getPossibleSlots_test None) in
  iteration (Success 456)
    = [told (OpStartScheduling "backendId" 40 None) (Success 456); told OpGetCurrentState (Success (mkState [] []));
       told (OpCommitPlanChange (mkStateChange ∅ ∅ ∅ []) 456) (Success tt)]
  /\ iteration (Failure RuntimeException)
    = [told (OpStartScheduling "backendId" 40 None) (Failure RuntimeException)]
  /\ Scheduler_accepts getPossibleSlots_test = true.
Proof. vm_compute. auto. Qed.
